(** * libtopology: a shallow embedding of the discovery engine

    The development follows the C sources:
    - [Cpumask]   : lib/cpumask.c, the parser for kernel bitmask strings,
                    together with the glibc [CPU_*_S] accessors it is
                    written against;
    - [Cpumasks]  : the mask formatter of the [cpumasks] tool;
    - [Topology]  : the processor-entity tree, the device list, the hash
                    tables and the sysfs walk that builds a context;
    - [Fixtures]  : small sysfs trees, in the manner of the test suite;
    - [Exported]  : the probe of the set size and the exported interface
                    of topology.c;
    - [Helper]    : lib/helper.c, reading a file in pieces;
    - [Tool]      : the loops of the [cpumasks] tool and of the test
                    programs over [topology_traverse].

    Conventions.  C [int] values are integers of [Z]; where the C code
    increments an [int] the wrap-around to 32 bits is written out
    ([wrap_int]).  A C string is the list of its characters before the
    terminating NUL.  A [cpu_set_t] buffer of [size] bytes is the integer
    whose binary digits are the bits of the set.  A pointer to an entity
    is its index in the store of the context; NULL is [None].  Memory
    allocation is assumed to succeed.

    The first part holds the definitions, the second the lemmas and the
    main results: on the parser, on the formatter, on the sysfs reads
    and on built contexts. *)

From Stdlib Require Import ZArith Lia Ascii String List Bool DecimalString.
From stdpp Require Import base tactics option list gmap strings.

Set Warnings "-clear-no-such-hyp".

Local Open Scope Z_scope.

(** ** Machine integers *)

Definition INT_MAX : Z := 2147483647.

(** Conversion of an integer to a (two's complement) 32-bit [int]. *)
Definition wrap_int (z : Z) : Z := (z + 2^31) mod 2^32 - 2^31.

(** Conversion of an integer to a 64-bit [size_t]. *)
Definition to_size_t (z : Z) : Z := z mod 2^64.

(** ** lib/cpumask.c *)

Module Cpumask.

(** *** The glibc accessors for dynamically sized CPU sets

    [CPU_ZERO_S] clears the [size] bytes of the set; [CPU_SET_S] and
    [CPU_ISSET_S] convert the CPU number to [size_t] and do nothing
    (respectively answer 0) when the bit lies outside the [size] bytes. *)

Definition CPU_ZERO_S (size : Z) (cpusetp : Z) : Z := 0.

Definition CPU_SET_S (cpu : Z) (size : Z) (cpusetp : Z) : Z :=
  let c := to_size_t cpu in
  if c / 8 <? size then Z.lor cpusetp (Z.shiftl 1 c) else cpusetp.

Definition CPU_ISSET_S (cpu : Z) (size : Z) (cpusetp : Z) : bool :=
  let c := to_size_t cpu in
  if c / 8 <? size then Z.testbit cpusetp c else false.

(** *** Characters *)

Definition code (c : ascii) : Z := Z.of_N (N_of_ascii c).

(** [isxdigit] of the C library: 0-9, A-F, a-f. *)
Definition isxdigit (c : ascii) : bool :=
  let n := code c in
  ((48 <=? n) && (n <=? 57)) || ((65 <=? n) && (n <=? 70))
  || ((97 <=? n) && (n <=? 102)).

(** The table [ascii_vals]: the designated entries, zero elsewhere. *)
Definition ascii_vals (i : Z) : Z :=
  if (48 <=? i) && (i <=? 57) then i - 48
  else if (65 <=? i) && (i <=? 70) then i - 65 + 10
  else if (97 <=? i) && (i <=? 102) then i - 97 + 10
  else 0.

Definition char_to_val (c : ascii) : Z := ascii_vals (code c).

Definition comma : ascii := ","%char.

(** The character read at [buf + pos].  Position [strlen buf] holds the
    terminating NUL. *)
Definition char_at (buf : list ascii) (pos : nat) : ascii :=
  nth pos buf zero.

(** *** topology_cpumask_parse *)

(** The inner loop: [for (i = 0; i < 4; i++, val >>= 1)].  The result is
    the pair of the advanced [cpu] counter and the updated set. *)
Fixpoint set_digit_bits (n : nat) (val cpu size cpumask : Z) : Z * Z :=
  match n with
  | O => (cpu, cpumask)
  | S n' =>
      let cpumask' :=
        if Z.land val 1 =? 1 then CPU_SET_S cpu size cpumask else cpumask in
      set_digit_bits n' (Z.shiftr val 1) (wrap_int (cpu + 1)) size cpumask'
  end.

(** The first loop, [while (!isxdigit( *pos) && pos >= buf) pos--].  The
    argument [k] stands for [pos - buf + 1]; the result is the same
    quantity when the loop exits, so that 0 means [pos < buf].  When [pos]
    has reached [buf - 1] the loop exits whatever byte is read there: a hex
    digit makes the first conjunct false, any other byte the second. *)
Fixpoint find_last_xdigit (buf : list ascii) (k : nat) : nat :=
  match k with
  | O => O
  | S pos => if isxdigit (char_at buf pos) then k else find_last_xdigit buf pos
  end.

(** The second loop, [for ( ; pos >= buf; pos--)], again with
    [k = pos - buf + 1].  [None] is the jump to [err]. *)
Fixpoint scan_digits (buf : list ascii) (k : nat) (cpu size cpumask : Z)
  : option Z :=
  match k with
  | O => Some cpumask
  | S pos =>
      let c := char_at buf pos in
      if Ascii.eqb c comma then scan_digits buf pos cpu size cpumask
      else if negb (isxdigit c) then None
      else
        let '(cpu', cpumask') :=
          set_digit_bits 4 (char_to_val c) cpu size cpumask in
        scan_digits buf pos cpu' size cpumask'
  end.

(** The function returns its [int] result together with the final
    contents of the destination set. *)
Definition topology_cpumask_parse (cpumask : Z) (size : Z) (buf : string)
  : Z * Z :=
  let b := list_ascii_of_string buf in
  let cpumask := CPU_ZERO_S size cpumask in
  match find_last_xdigit b (S (List.length b)) with
  | O => (1, CPU_ZERO_S size cpumask)
  | k =>
      match scan_digits b k 0 size cpumask with
      | Some m => (0, m)
      | None => (1, CPU_ZERO_S size cpumask)
      end
  end.

End Cpumask.

(** ** The [cpumasks] tool: printing a CPU set in the kernel's format *)

Module Cpumasks.
Import Cpumask.

(** [cpuset_to_uint]: the loop [for (i = 0; i < nbits; i++)], run [n]
    more times from [i]; [ret] is an [unsigned int], [1 << i] and
    [i + index * nbits] are [int] expressions. *)
Fixpoint cpuset_to_uint_loop (n : nat) (i ret : Z) (cpumask size index : Z)
  : Z :=
  match n with
  | O => ret
  | S n' =>
      let ret' :=
        if CPU_ISSET_S (wrap_int (i + wrap_int (index * 32))) size cpumask
        then (ret + wrap_int (Z.shiftl 1 i)) mod 2^32
        else ret in
      cpuset_to_uint_loop n' (i + 1) ret' cpumask size index
  end.

Definition cpuset_to_uint (cpumask size index : Z) : Z :=
  cpuset_to_uint_loop 32 0 0 cpumask size index.

Definition chars_per_byte : Z := 2.
Definition bytes_per_word : Z := 4.

(** [sprintf] with the conversions [%x] and [%08x] of an [unsigned int]:
    the hexadecimal digits, lower case, most significant first, at least
    one, padded on the left with ['0'] up to [width] characters. *)
Definition hex_digit (d : Z) : ascii :=
  nth (Z.to_nat d) (list_ascii_of_string "0123456789abcdef") "0"%char.

Fixpoint hex_digits_rev (n : nat) (v : Z) : list ascii :=
  match n with
  | O => []
  | S n' =>
      if v =? 0 then [] else hex_digit (v mod 16) :: hex_digits_rev n' (v / 16)
  end.

Definition sprintf_x (width : nat) (v : Z) : list ascii :=
  let ds := match rev (hex_digits_rev 8 v) with
            | [] => ["0"%char]
            | ds => ds
            end in
  repeat "0"%char (width - List.length ds) ++ ds.

(** The loop [while (nwords--)] of [format_cpuset]; inside the body
    [nwords] already has its decremented value.  [buf] is the text written
    so far. *)
Fixpoint format_words (nwords : nat) (cpumask cpuset_size commas : Z)
    (nonzero_seen : bool) (buf : list ascii) : bool * list ascii :=
  match nwords with
  | O => (nonzero_seen, buf)
  | S nwords' =>
      let word :=
        cpuset_to_uint cpumask cpuset_size (wrap_int (Z.of_nat nwords')) in
      if (word =? 0) && negb nonzero_seen then
        format_words nwords' cpumask cpuset_size commas nonzero_seen buf
      else
        let '(seen, buf1) :=
          if negb (word =? 0) && negb nonzero_seen
          then (true, buf ++ sprintf_x 0 word)
          else (nonzero_seen, buf ++ sprintf_x 8 word) in
        let buf2 :=
          if negb (Z.of_nat nwords' =? 0) && negb (commas =? 0)
          then buf1 ++ [","%char] else buf1 in
        format_words nwords' cpumask cpuset_size commas seen buf2
  end.

Definition format_cpuset (cpumask cpuset_size commas : Z) : string :=
  let nwords :=
    if bytes_per_word <? cpuset_size then cpuset_size / bytes_per_word
    else 1 in
  let '(nonzero_seen, buf) :=
    format_words (Z.to_nat nwords) cpumask cpuset_size commas false [] in
  string_of_list_ascii (if nonzero_seen then buf else buf ++ ["0"%char]).

End Cpumasks.

(** ** The discovery engine (topology.c) *)

Module Topology.
Import Cpumask.

(** *** Outcomes

    A C function either returns, or stops the program on a failed
    [assert] or on an access through an invalid pointer ([Abort]).
    Functions that follow pointer chains take a bound on the number of
    steps and answer [OutOfFuel] when it is exhausted. *)
Inductive res (A : Type) : Type :=
  | Ret (a : A)
  | Abort
  | OutOfFuel.
Arguments Ret {A} a.
Arguments Abort {A}.
Arguments OutOfFuel {A}.

#[global] Instance res_ret : MRet res := fun A a => Ret a.
#[global] Instance res_bind : MBind res := fun A B f m =>
  match m with
  | Ret a => f a
  | Abort => Abort
  | OutOfFuel => OutOfFuel
  end.

Definition assert (b : bool) : res unit := if b then Ret () else Abort.

(** *** The C library and the file system

    The sysfs tree is a partial map from absolute paths to files and
    directories; a directory lists its entries in [readdir] order. *)
Inductive d_type := DT_DIR | DT_UNKNOWN | DT_REG.
Record dirent := { d_name : string; d_type_of : d_type }.
Inductive fsnode :=
  | File (content : string)
  | Dir (entries : list dirent).
Definition sysfs := string -> option fsnode.

Definition is_dir_or_unknown (t : d_type) : bool :=
  match t with DT_DIR | DT_UNKNOWN => true | DT_REG => false end.

Definition opendir (fs : sysfs) (path : string) : option (list dirent) :=
  match fs path with
  | Some (Dir es) => Some es
  | _ => None
  end.

(** The C string that a buffer holds: its characters before the first
    NUL. *)
Fixpoint c_str (buf : string) : string :=
  match buf with
  | EmptyString => EmptyString
  | String c rest =>
      if Ascii.eqb c "000"%char then EmptyString
      else String c (c_str rest)
  end.

(** [slurp_text_file]: the contents of the file followed by a NUL, NULL
    when the file cannot be opened or read.  The callers use the buffer
    as a C string. *)
Definition slurp_text_file (fs : sysfs) (path : string) : option string :=
  match fs path with
  | Some (File c) => Some (c_str c)
  | _ => None
  end.

(** [printf("%d")] *)
Definition sprintf_d (z : Z) : string := NilZero.string_of_int (Z.to_int z).

Definition isspace (c : ascii) : bool :=
  let n := code c in (n =? 32) || ((9 <=? n) && (n <=? 13)).
Definition isdigit (c : ascii) : bool :=
  let n := code c in (48 <=? n) && (n <=? 57).

Fixpoint skip_spaces (s : list ascii) : list ascii :=
  match s with
  | c :: s' => if isspace c then skip_spaces s' else s
  | [] => []
  end.

(** Reads decimal digits; the result is the value and whether at least
    one digit was read. *)
Fixpoint scan_digits_dec (s : list ascii) (acc : Z) (seen : bool)
  : Z * bool :=
  match s with
  | c :: s' =>
      if isdigit c then scan_digits_dec s' (10 * acc + (code c - 48)) true
      else (acc, seen)
  | [] => (acc, seen)
  end.

Definition LONG_MAX : Z := 2^63 - 1.
Definition clamp_long (z : Z) : Z := Z.max (- 2^63) (Z.min LONG_MAX z).

(** The conversion [%d] of [sscanf]: optional white space, optional sign,
    at least one digit; the value goes through [long] into the [int]. *)
Definition scan_d (s : list ascii) : option Z :=
  let s := skip_spaces s in
  let '(neg, s) :=
    match s with
    | "-"%char :: s' => (true, s')
    | "+"%char :: s' => (false, s')
    | _ => (false, s)
    end in
  let '(v, seen) := scan_digits_dec s 0 false in
  if seen then Some (wrap_int (clamp_long (if neg then - v else v)))
  else None.

Fixpoint strip_prefix (p s : list ascii) : option (list ascii) :=
  match p, s with
  | [], _ => Some s
  | a :: p', b :: s' => if Ascii.eqb a b then strip_prefix p' s' else None
  | _ :: _, [] => None
  end.

(** [sscanf(name, "<prefix>%d", &n) == 1] *)
Definition sscanf_d (name prefix : string) : option Z :=
  match strip_prefix (list_ascii_of_string prefix)
                     (list_ascii_of_string name) with
  | Some rest => scan_d rest
  | None => None
  end.

(** *** Hashtable API, a wrapper around the glibc hashtable functions

    The glibc table is a finite map from keys (compared with [strcmp]) to
    data; [ENTER] of a key that is present leaves the table as it is.
    The table has room for at least [maxsize] entries, and the wrapper
    never enters more than that. *)
Record htable (A : Type) := {
  count : Z;
  maxsize : Z;
  tbl : gmap string A;
}.
Arguments count {A} _.
Arguments maxsize {A} _.
Arguments tbl {A} _.

Definition htable_zero {A} : htable A :=
  {| count := 0; maxsize := 0; tbl := ∅ |}.

Definition htable_init {A} (maxsize : Z) : Z * htable A :=
  (0, {| count := 0; maxsize := maxsize; tbl := ∅ |}).

Definition htable_full {A} (htab : htable A) : bool :=
  maxsize htab =? count htab.

Definition htable_insert {A} (htab : htable A) (key : string) (data : A)
  : res (Z * htable A) :=
  _ ← assert (count htab <? maxsize htab);
  let tbl' :=
    match tbl htab !! key with
    | Some _ => tbl htab
    | None => <[key := data]> (tbl htab)
    end in
  Ret (0, {| count := to_size_t (count htab + 1);
             maxsize := maxsize htab; tbl := tbl' |}).

Definition htable_lookup {A} (htab : htable A) (key : option string)
  : option A :=
  match key with
  | None => None
  | Some k => tbl htab !! k
  end.

Definition htable_release {A} (htab : htable A) : htable A :=
  if maxsize htab =? 0 then htab else htable_zero.

(** *** Core topology data structures *)

Definition TOPOLOGY_THREAD : Z := 1.
Definition TOPOLOGY_CORE : Z := 2.
Definition TOPOLOGY_PACKAGE : Z := 3.
Definition TOPOLOGY_NODE : Z := 4.
Definition TOPOLOGY_SYSTEM : Z := 5.

Record attr := { attr_name : string; attr_value : string }.

(** A device; the link [next] of the global device list is the tail of
    the list [devices] of the context, the list [attrs] is the chain of
    [struct attr]. *)
Record topo_device := {
  dev_type : string;
  dev_hash_key : option string;
  dev_cpumask : Z;
  dev_attrs : list attr;
}.

(** Pointers to processor entities are indices in the store [procents]
    of the context, in allocation order; [None] is NULL. *)
Abbreviation ptr := nat.

Record topo_procent := {
  ent_level : Z;
  ent_id : Z;
  ent_hash_key : option string;
  ent_parent : option ptr;
  ent_children : option ptr;
  ent_sibling : option ptr;
  ent_next : option ptr;
  ent_cpumask : Z;
  ent_memory : Z;
}.

Record topo_context := {
  sysfs_root : string;
  cpu_set_t_size : Z;
  procents : list topo_procent;
  ctx_list : option ptr;
  ctx_system : option ptr;
  core_htable : htable ptr;
  package_htable : htable ptr;
  devices : list topo_device;
  device_htable : htable topo_device;
}.

Definition set_ent_children (e : topo_procent) (c : option ptr)
  : topo_procent :=
  {| ent_level := ent_level e; ent_id := ent_id e;
     ent_hash_key := ent_hash_key e; ent_parent := ent_parent e;
     ent_children := c; ent_sibling := ent_sibling e;
     ent_next := ent_next e; ent_cpumask := ent_cpumask e;
     ent_memory := ent_memory e |}.

Definition set_ent_cpumask (e : topo_procent) (m : Z) : topo_procent :=
  {| ent_level := ent_level e; ent_id := ent_id e;
     ent_hash_key := ent_hash_key e; ent_parent := ent_parent e;
     ent_children := ent_children e; ent_sibling := ent_sibling e;
     ent_next := ent_next e; ent_cpumask := m;
     ent_memory := ent_memory e |}.

Definition set_ent_hash_key (e : topo_procent) (k : option string)
  : topo_procent :=
  {| ent_level := ent_level e; ent_id := ent_id e;
     ent_hash_key := k; ent_parent := ent_parent e;
     ent_children := ent_children e; ent_sibling := ent_sibling e;
     ent_next := ent_next e; ent_cpumask := ent_cpumask e;
     ent_memory := ent_memory e |}.

Definition set_procents (ctx : topo_context) (h : list topo_procent)
  : topo_context :=
  {| sysfs_root := sysfs_root ctx; cpu_set_t_size := cpu_set_t_size ctx;
     procents := h; ctx_list := ctx_list ctx; ctx_system := ctx_system ctx;
     core_htable := core_htable ctx; package_htable := package_htable ctx;
     devices := devices ctx; device_htable := device_htable ctx |}.

Definition set_ctx_list (ctx : topo_context) (l : option ptr)
  : topo_context :=
  {| sysfs_root := sysfs_root ctx; cpu_set_t_size := cpu_set_t_size ctx;
     procents := procents ctx; ctx_list := l; ctx_system := ctx_system ctx;
     core_htable := core_htable ctx; package_htable := package_htable ctx;
     devices := devices ctx; device_htable := device_htable ctx |}.

Definition set_ctx_system (ctx : topo_context) (s : option ptr)
  : topo_context :=
  {| sysfs_root := sysfs_root ctx; cpu_set_t_size := cpu_set_t_size ctx;
     procents := procents ctx; ctx_list := ctx_list ctx; ctx_system := s;
     core_htable := core_htable ctx; package_htable := package_htable ctx;
     devices := devices ctx; device_htable := device_htable ctx |}.

Definition set_core_htable (ctx : topo_context) (t : htable ptr)
  : topo_context :=
  {| sysfs_root := sysfs_root ctx; cpu_set_t_size := cpu_set_t_size ctx;
     procents := procents ctx; ctx_list := ctx_list ctx;
     ctx_system := ctx_system ctx;
     core_htable := t; package_htable := package_htable ctx;
     devices := devices ctx; device_htable := device_htable ctx |}.

Definition set_package_htable (ctx : topo_context) (t : htable ptr)
  : topo_context :=
  {| sysfs_root := sysfs_root ctx; cpu_set_t_size := cpu_set_t_size ctx;
     procents := procents ctx; ctx_list := ctx_list ctx;
     ctx_system := ctx_system ctx;
     core_htable := core_htable ctx; package_htable := t;
     devices := devices ctx; device_htable := device_htable ctx |}.

Definition set_devices (ctx : topo_context) (d : list topo_device)
  : topo_context :=
  {| sysfs_root := sysfs_root ctx; cpu_set_t_size := cpu_set_t_size ctx;
     procents := procents ctx; ctx_list := ctx_list ctx;
     ctx_system := ctx_system ctx;
     core_htable := core_htable ctx; package_htable := package_htable ctx;
     devices := d; device_htable := device_htable ctx |}.

Definition set_device_htable (ctx : topo_context) (t : htable topo_device)
  : topo_context :=
  {| sysfs_root := sysfs_root ctx; cpu_set_t_size := cpu_set_t_size ctx;
     procents := procents ctx; ctx_list := ctx_list ctx;
     ctx_system := ctx_system ctx;
     core_htable := core_htable ctx; package_htable := package_htable ctx;
     devices := devices ctx; device_htable := t |}.

(** Dereferencing an entity pointer. *)
Definition deref (h : list topo_procent) (p : ptr) : res topo_procent :=
  match h !! p with
  | Some e => Ret e
  | None => Abort
  end.

(** *** Traversal of the processor entity tree *)

Definition level_valid (l : Z) : bool :=
  (TOPOLOGY_THREAD <=? l) && (l <=? TOPOLOGY_SYSTEM).

(** is [ent] a descendant of [from]? *)
Fixpoint is_descendant (fuel : nat) (h : list topo_procent)
    (from ent : ptr) : res bool :=
  match fuel with
  | O => OutOfFuel
  | S fuel' =>
      e ← deref h ent;
      match ent_parent e with
      | None => Ret false
      | Some q =>
          if decide (q = from) then Ret true
          else is_descendant fuel' h from q
      end
  end.

(** The loop [while (ent)] of [next_at_level]. *)
Fixpoint next_at_level_loop (fuel : nat) (h : list topo_procent)
    (parent : ptr) (ent : option ptr) (to : Z) : res (option ptr) :=
  match fuel with
  | O => OutOfFuel
  | S fuel' =>
      match ent with
      | None => Ret None
      | Some p =>
          e ← deref h p;
          if ent_level e =? to then
            d ← is_descendant fuel' h parent p;
            if d : bool then Ret (Some p)
            else next_at_level_loop fuel' h parent (ent_next e) to
          else next_at_level_loop fuel' h parent (ent_next e) to
      end
  end.

Definition next_at_level (fuel : nat) (ctx : topo_context)
    (parent : ptr) (iter : option ptr) (to : Z) : res (option ptr) :=
  ent ← match iter with
        | None => Ret (ctx_list ctx)
        | Some i => e ← deref (procents ctx) i; Ret (ent_next e)
        end;
  next_at_level_loop fuel (procents ctx) parent ent to.

Fixpoint traverse (fuel : nat) (ctx : topo_context)
    (from iter : option ptr) (to : Z) : res (option ptr) :=
  match fuel with
  | O => OutOfFuel
  | S fuel' =>
      if negb (level_valid to) then Ret None
      else
        match from with
        | None => Ret None
        | Some f =>
            e ← deref (procents ctx) f;
            if to =? ent_level e then Ret None
            else if to =? ent_level e + 1 then Ret (ent_parent e)
            else if to =? ent_level e - 1 then
              match iter with
              | Some i => ie ← deref (procents ctx) i; Ret (ent_sibling ie)
              | None => Ret (ent_children e)
              end
            else if ent_level e <? to then
              traverse fuel' ctx (ent_parent e) None to
            else if to <? ent_level e then
              next_at_level fuel' ctx f iter to
            else Abort
        end
  end.

(** *** Traversal and interrogation of the device list *)

Fixpoint find_device_from (devs : list topo_device) (type : string)
  : option topo_device :=
  match devs with
  | [] => None
  | dev :: rest =>
      if String.eqb (dev_type dev) type then Some dev
      else find_device_from rest type
  end.

Fixpoint topo_device_get_attr (attrs : list attr) (name : string)
  : option attr :=
  match attrs with
  | [] => None
  | a :: rest =>
      if String.eqb (attr_name a) name then Some a
      else topo_device_get_attr rest name
  end.

Definition topo_device_get_attr_value (dev : topo_device) (name : string)
  : option string :=
  match topo_device_get_attr (dev_attrs dev) name with
  | Some a => Some (attr_value a)
  | None => None
  end.

(** *** Device management *)

Definition alloc_topo_device (ctx : topo_context) (type : string)
  : topo_device :=
  {| dev_type := type; dev_hash_key := None; dev_cpumask := 0;
     dev_attrs := [] |}.

Definition topo_device_register (ctx : topo_context) (dev : topo_device)
  : topo_context :=
  set_devices ctx (dev :: devices ctx).

Definition topo_device_attach_attr (dev : topo_device) (a : attr)
  : topo_device :=
  {| dev_type := dev_type dev; dev_hash_key := dev_hash_key dev;
     dev_cpumask := dev_cpumask dev; dev_attrs := a :: dev_attrs dev |}.

Definition set_dev_cpumask (dev : topo_device) (m : Z) : topo_device :=
  {| dev_type := dev_type dev; dev_hash_key := dev_hash_key dev;
     dev_cpumask := m; dev_attrs := dev_attrs dev |}.

Definition set_dev_hash_key (dev : topo_device) (k : option string)
  : topo_device :=
  {| dev_type := dev_type dev; dev_hash_key := k;
     dev_cpumask := dev_cpumask dev; dev_attrs := dev_attrs dev |}.

(** *** Processor entity management *)

(** The new entity is stored at the end of [procents]; the result is
    the context and the pointer to the entity. *)
Definition new_procent (level id : Z) (parent sibling next : option ptr)
  : topo_procent :=
  {| ent_level := level; ent_id := id; ent_hash_key := None;
     ent_parent := parent; ent_children := None; ent_sibling := sibling;
     ent_next := next; ent_cpumask := 0; ent_memory := 0 |}.

Definition alloc_init_topo_procent (ctx : topo_context)
    (parent : option ptr) (id : Z) : res (topo_context * ptr) :=
  let new := List.length (procents ctx) in
  match parent with
  | None =>
      let ent := new_procent TOPOLOGY_SYSTEM id None None (ctx_list ctx) in
      Ret (set_ctx_list (set_procents ctx (procents ctx ++ [ent])) (Some new),
           new)
  | Some p =>
      pe ← deref (procents ctx) p;
      _ ← assert (level_valid (ent_level pe));
      _ ← assert (negb (ent_level pe =? TOPOLOGY_THREAD));
      let ent :=
        new_procent (ent_level pe - 1) id parent (ent_children pe)
          (ctx_list ctx) in
      let h := <[p := set_ent_children pe (Some new)]> (procents ctx ++ [ent]) in
      Ret (set_ctx_list (set_procents ctx h) (Some new), new)
  end.

Fixpoint topo_procent_cpumask_set (fuel : nat) (size : Z)
    (h : list topo_procent) (ent : ptr) (bit : Z) : res (list topo_procent) :=
  match fuel with
  | O => OutOfFuel
  | S fuel' =>
      e ← deref h ent;
      let h' := <[ent := set_ent_cpumask e (CPU_SET_S bit size (ent_cpumask e))]> h in
      match ent_parent e with
      | Some q => topo_procent_cpumask_set fuel' size h' q bit
      | None => Ret h'
      end
  end.

(** *** Initialization of a context from sysfs *)

Section Build.
Variable fs : sysfs.

(** [hash_device]: the device is not in the global list yet.  The loop
    re-hashes every registered device into the table of doubled size. *)
Fixpoint rehash_devices (htab : htable topo_device)
    (iter : list topo_device) : res (Z * htable topo_device) :=
  match iter with
  | [] => Ret (0, htab)
  | dev :: rest =>
      match dev_hash_key dev with
      | None => Abort
      | Some key =>
          '(rc, htab') ← htable_insert htab key dev;
          if negb (rc =? 0) then Ret (1, htab')
          else rehash_devices htab' rest
      end
  end.

Definition hash_device (ctx : topo_context) (dev : topo_device)
  : res (Z * topo_context) :=
  match dev_hash_key dev with
  | None => Abort
  | Some key =>
      if negb (htable_full (device_htable ctx)) then
        '(rc, htab) ← htable_insert (device_htable ctx) key dev;
        Ret (rc, set_device_htable ctx htab)
      else
        let newsize := to_size_t (maxsize (device_htable ctx) * 2) in
        let '(rc, htab) := htable_init newsize in
        if negb (rc =? 0) then Ret (1, set_device_htable ctx htab)
        else
          '(rc, htab) ← rehash_devices htab (devices ctx);
          if negb (rc =? 0) then Ret (1, set_device_htable ctx htab)
          else
            '(rc, htab) ← htable_insert htab key dev;
            Ret (rc, set_device_htable ctx htab)
  end.

Definition sysfs_cpu_is_online (sysfs : string) (cpu : Z) : Z :=
  let path :=
    sysfs +:+ "/devices/system/cpu/cpu" +:+ sprintf_d cpu +:+ "/online" in
  match slurp_text_file fs path with
  | None => 1
  | Some buf =>
      match scan_d (list_ascii_of_string buf) with
      | Some online => online
      | None => 1
      end
  end.

Fixpoint count_index_dirs (entries : list dirent) (count : Z) : Z :=
  match entries with
  | [] => count
  | dirent :: rest =>
      if negb (is_dir_or_unknown (d_type_of dirent)) then
        count_index_dirs rest count
      else
        match sscanf_d (d_name dirent) "index" with
        | None => count_index_dirs rest count
        | Some _ => count_index_dirs rest (wrap_int (count + 1))
        end
  end.

Definition cache_dir (sysfs : string) (cpu : Z) : string :=
  sysfs +:+ "/devices/system/cpu/cpu" +:+ sprintf_d cpu +:+ "/cache".

Definition sysfs_count_caches (sysfs : string) (cpu : Z) : Z :=
  match opendir fs (cache_dir sysfs cpu) with
  | None => 0
  | Some entries => count_index_dirs entries 0
  end.

(** [getline]: the first line of the file with its newline, followed by
    a NUL; -1 at the end of the file. *)
Fixpoint first_line (content : string) : string :=
  match content with
  | EmptyString => EmptyString
  | String c rest =>
      if Ascii.eqb c "010"%char then String c EmptyString
      else String c (first_line rest)
  end.

Definition getline (content : string) : option string :=
  if String.eqb content "" then None else Some (first_line content).

(** [buf_remove_newline]: the text before the first newline. *)
Fixpoint buf_remove_newline (buf : string) : string :=
  match buf with
  | EmptyString => EmptyString
  | String c rest =>
      if Ascii.eqb c "010"%char then EmptyString
      else String c (buf_remove_newline rest)
  end.

(** [sysfs_get_attr_value]: the line that [getline] reads in the file
    [attr_path] of the directory, as a C string, cut at its newline by
    [buf_remove_newline]; NULL when the file cannot be opened or is
    empty. *)
Definition sysfs_get_attr_value (dir : string) (attr_path : string)
  : option string :=
  match fs (dir +:+ "/" +:+ attr_path) with
  | Some (File content) =>
      match getline content with
      | None => None
      | Some line => Some (buf_remove_newline (c_str line))
      end
  | _ => None
  end.

Definition sysfs_get_attr (dir : string) (name : string) : option attr :=
  match sysfs_get_attr_value dir name with
  | Some value => Some {| attr_name := name; attr_value := value |}
  | None => None
  end.

Definition index_dir (sysfs : string) (cpu index : Z) : string :=
  cache_dir sysfs cpu +:+ "/index" +:+ sprintf_d index.

(** [__get_cache_info] returns its result and the device as it has been
    filled in so far. *)
Definition __get_cache_info (ctx : topo_context) (cache : topo_device)
    (cpu index : Z) : Z * topo_device :=
  let cpumask_size := cpu_set_t_size ctx in
  let path := index_dir (sysfs_root ctx) cpu index in
  match opendir fs path with
  | None => (1, cache)
  | Some _ =>
  match sysfs_get_attr path "size" with
  | None => (1, cache)
  | Some a =>
  let cache := topo_device_attach_attr cache a in
  match sysfs_get_attr path "type" with
  | None => (1, cache)
  | Some a =>
  let cache := topo_device_attach_attr cache a in
  match sysfs_get_attr path "level" with
  | None => (1, cache)
  | Some a =>
  let cache := topo_device_attach_attr cache a in
  match sysfs_get_attr path "shared_cpu_map" with
  | None => (1, cache)
  | Some a =>
  let cache := topo_device_attach_attr cache a in
  let '(rc, mask) :=
    topology_cpumask_parse (dev_cpumask cache) cpumask_size (attr_value a) in
  let cache := set_dev_cpumask cache mask in
  if negb (rc =? 0) then (1, cache)
  else if negb (CPU_ISSET_S cpu cpumask_size (dev_cpumask cache))
  then (1, cache)
  else (0, cache)
  end end end end end.

Definition cache_signature (level type cpumask : string) : string :=
  "cache-L" +:+ level +:+ "-" +:+ type +:+ "-" +:+ cpumask.

Definition cache_build_hash (cache : topo_device) : Z * topo_device :=
  match topo_device_get_attr_value cache "level",
        topo_device_get_attr_value cache "type",
        topo_device_get_attr_value cache "shared_cpu_map" with
  | Some level, Some type, Some cpumask =>
      (0, set_dev_hash_key cache (Some (cache_signature level type cpumask)))
  | _, _, _ => (1, cache)
  end.

(** The loop [for (index = 0; index < nr_caches; index++)], with [n]
    iterations left.  A device that is not registered is released. *)
Fixpoint get_cache_info_loop (n : nat) (index : Z) (ctx : topo_context)
    (thread_id : Z) : res (Z * topo_context) :=
  match n with
  | O => Ret (0, ctx)
  | S n' =>
      let cache := alloc_topo_device ctx "cache" in
      let '(rc, cache) := __get_cache_info ctx cache thread_id index in
      if negb (rc =? 0) then Ret (1, ctx)
      else
        let '(rc, cache) := cache_build_hash cache in
        if negb (rc =? 0) then Ret (1, ctx)
        else
          match htable_lookup (device_htable ctx) (dev_hash_key cache) with
          | Some _ =>
              get_cache_info_loop n' (wrap_int (index + 1)) ctx thread_id
          | None =>
              '(rc, ctx) ← hash_device ctx cache;
              if negb (rc =? 0) then Ret (1, ctx)
              else
                get_cache_info_loop n' (wrap_int (index + 1))
                  (topo_device_register ctx cache) thread_id
          end
  end.

Definition get_cache_info (ctx : topo_context) (thread : ptr)
  : res (Z * topo_context) :=
  te ← deref (procents ctx) thread;
  let nr_caches := sysfs_count_caches (sysfs_root ctx) (ent_id te) in
  if nr_caches =? 0 then Ret (0, ctx)
  else get_cache_info_loop (Z.to_nat nr_caches) 0 ctx (ent_id te).

Definition sysfs_cpu_thread_siblings (sysfs : string) (cpu_id : Z)
  : string :=
  let path :=
    sysfs +:+ "/devices/system/cpu/cpu" +:+ sprintf_d cpu_id
          +:+ "/topology/thread_siblings" in
  match slurp_text_file fs path with
  | Some buf => buf
  | None => sprintf_d cpu_id
  end.

Definition sysfs_cpu_core_siblings (sysfs : string) (cpu_id : Z) : string :=
  let path :=
    sysfs +:+ "/devices/system/cpu/cpu" +:+ sprintf_d cpu_id
          +:+ "/topology/core_siblings" in
  match slurp_text_file fs path with
  | Some buf => buf
  | None => sysfs_cpu_thread_siblings sysfs cpu_id
  end.

Definition set_hash_key (ctx : topo_context) (p : ptr) (k : string)
  : res topo_context :=
  e ← deref (procents ctx) p;
  Ret (set_procents ctx
         (<[p := set_ent_hash_key e (Some k)]> (procents ctx))).

Definition do_one_cpu (ctx : topo_context) (node : ptr) (cpu_id : Z)
  : res (Z * topo_context) :=
  (* package *)
  let siblings := sysfs_cpu_core_siblings (sysfs_root ctx) cpu_id in
  '(rc, ctx, pkg) ←
    match htable_lookup (package_htable ctx) (Some siblings) with
    | Some pkg => Ret (0, ctx, pkg)
    | None =>
        '(ctx, pkg) ← alloc_init_topo_procent ctx (Some node) cpu_id;
        ctx ← set_hash_key ctx pkg siblings;
        '(rc, htab) ← htable_insert (package_htable ctx) siblings pkg;
        Ret (rc, set_package_htable ctx htab, pkg)
    end;
  if negb (rc =? 0) then Ret (1, ctx)
  else
  (* core *)
  let siblings := sysfs_cpu_thread_siblings (sysfs_root ctx) cpu_id in
  '(rc, ctx, core) ←
    match htable_lookup (core_htable ctx) (Some siblings) with
    | Some core => Ret (0, ctx, core)
    | None =>
        '(ctx, core) ← alloc_init_topo_procent ctx (Some pkg) cpu_id;
        ctx ← set_hash_key ctx core siblings;
        '(rc, htab) ← htable_insert (core_htable ctx) siblings core;
        Ret (rc, set_core_htable ctx htab, core)
    end;
  if negb (rc =? 0) then Ret (1, ctx)
  else
  '(ctx, thread) ← alloc_init_topo_procent ctx (Some core) cpu_id;
  h ← topo_procent_cpumask_set (List.length (procents ctx))
        (cpu_set_t_size ctx) (procents ctx) thread cpu_id;
  let ctx := set_procents ctx h in
  (* Collecting cache info is best-effort *)
  '(_, ctx) ← get_cache_info ctx thread;
  Ret (0, ctx).

(** The loop [while ((dirent = readdir64(dir)))] of [do_node_cpus]. *)
Fixpoint do_node_cpus_loop (entries : list dirent) (ctx : topo_context)
    (node : ptr) : res (Z * topo_context) :=
  match entries with
  | [] => Ret (0, ctx)
  | dirent :: rest =>
      match sscanf_d (d_name dirent) "cpu" with
      | None => do_node_cpus_loop rest ctx node
      | Some cpu_id =>
          if sysfs_cpu_is_online (sysfs_root ctx) cpu_id =? 0 then
            do_node_cpus_loop rest ctx node
          else
            '(rc, ctx) ← do_one_cpu ctx node cpu_id;
            if negb (rc =? 0) then Ret (1, ctx)
            else do_node_cpus_loop rest ctx node
      end
  end.

Definition do_node_cpus (ctx : topo_context) (node : ptr)
  : res (Z * topo_context) :=
  ne ← deref (procents ctx) node;
  let path :=
    sysfs_root ctx +:+ "/devices/system/node/node" +:+ sprintf_d (ent_id ne) in
  let dir :=
    match opendir fs path with
    | Some entries => Some entries
    | None =>
        if negb (ent_id ne =? 0) then None
        else opendir fs (sysfs_root ctx +:+ "/devices/system/cpu")
    end in
  match dir with
  | None => Ret (1, ctx)
  | Some entries => do_node_cpus_loop entries ctx node
  end.

Definition do_one_node (ctx : topo_context) (sys : ptr) (nid : Z)
  : res (Z * topo_context) :=
  '(ctx, node) ← alloc_init_topo_procent ctx (Some sys) nid;
  '(rc, ctx) ← do_node_cpus ctx node;
  if negb (rc =? 0) then Ret (1, ctx) else Ret (0, ctx).

Fixpoint build_context_loop (entries : list dirent) (ctx : topo_context)
    (system : ptr) : res (Z * topo_context) :=
  match entries with
  | [] => Ret (0, ctx)
  | dirent :: rest =>
      if negb (is_dir_or_unknown (d_type_of dirent)) then
        build_context_loop rest ctx system
      else
        match sscanf_d (d_name dirent) "node" with
        | None => build_context_loop rest ctx system
        | Some node_id =>
            '(rc, ctx) ← do_one_node ctx system node_id;
            if negb (rc =? 0) then Ret (1, ctx)
            else build_context_loop rest ctx system
        end
  end.

Definition build_context (ctx : topo_context) : res (Z * topo_context) :=
  '(ctx, system) ← alloc_init_topo_procent ctx None 0;
  let ctx := set_ctx_system ctx (Some system) in
  match opendir fs (sysfs_root ctx +:+ "/devices/system/node") with
  | None => do_one_node ctx system 0
  | Some entries => build_context_loop entries ctx system
  end.

(** [new_context].  The root of sysfs ([LIBTOPOLOGY_SYSFS_ROOT], or
    "/sys") and the result of [probe_cpumask_size] are given.  NULL is
    returned when the build fails, after the context has been released. *)
Definition new_context (root : string) (probed_size : Z)
  : res (option topo_context) :=
  if probed_size =? 0 then Ret None
  else
    let ctx :=
      {| sysfs_root := root; cpu_set_t_size := probed_size;
         procents := []; ctx_list := None; ctx_system := None;
         core_htable := snd (htable_init (to_size_t (probed_size * 8)));
         package_htable := snd (htable_init (to_size_t (probed_size * 8)));
         devices := [];
         device_htable := snd (htable_init 2) |} in
    '(rc, ctx) ← build_context ctx;
    if negb (rc =? 0) then Ret None else Ret (Some ctx).

End Build.

End Topology.

Import Cpumask Cpumasks Topology.

(** ** Fake sysfs trees, in the manner of the test suite *)

Module Fixtures.
Local Open Scope string_scope.

Fixpoint sysfs_of_list (l : list (string * fsnode)) (path : string)
  : option fsnode :=
  match l with
  | [] => None
  | (p, n) :: l' => if String.eqb p path then Some n else sysfs_of_list l' path
  end.

Definition dir (name : string) : dirent :=
  {| d_name := name; d_type_of := DT_DIR |}.
Definition reg (name : string) : dirent :=
  {| d_name := name; d_type_of := DT_REG |}.

(** One CPU without [core_siblings] but with [thread_siblings]. *)
Definition no_core_siblings : sysfs := sysfs_of_list [
  ("/sys/devices/system/cpu", Dir [dir "cpu1"]);
  ("/sys/devices/system/cpu/cpu1/topology/thread_siblings", File "3")
].

(** One CPU with two cache directories; [index0] has no [size]. *)
Definition cache_missing_size : sysfs := sysfs_of_list [
  ("/sys/devices/system/cpu", Dir [dir "cpu0"]);
  ("/sys/devices/system/cpu/cpu0/cache", Dir [dir "index0"; dir "index1"]);
  ("/sys/devices/system/cpu/cpu0/cache/index0",
     Dir [reg "type"; reg "level"; reg "shared_cpu_map"]);
  ("/sys/devices/system/cpu/cpu0/cache/index0/type", File "Data");
  ("/sys/devices/system/cpu/cpu0/cache/index0/level", File "1");
  ("/sys/devices/system/cpu/cpu0/cache/index0/shared_cpu_map", File "1");
  ("/sys/devices/system/cpu/cpu0/cache/index1",
     Dir [reg "size"; reg "type"; reg "level"; reg "shared_cpu_map"]);
  ("/sys/devices/system/cpu/cpu0/cache/index1/size", File "2048K");
  ("/sys/devices/system/cpu/cpu0/cache/index1/type", File "Unified");
  ("/sys/devices/system/cpu/cpu0/cache/index1/level", File "2");
  ("/sys/devices/system/cpu/cpu0/cache/index1/shared_cpu_map", File "1")
].

(** Two CPUs with the same [thread_siblings] in different packages. *)
Definition shared_core_signature : sysfs := sysfs_of_list [
  ("/sys/devices/system/cpu", Dir [dir "cpu0"; dir "cpu1"]);
  ("/sys/devices/system/cpu/cpu0/topology/thread_siblings", File "1");
  ("/sys/devices/system/cpu/cpu0/topology/core_siblings", File "01");
  ("/sys/devices/system/cpu/cpu1/topology/thread_siblings", File "1");
  ("/sys/devices/system/cpu/cpu1/topology/core_siblings", File "02")
].

(** Two cores sharing an L2 cache (the test "two cores, shared L2"). *)
Definition shared_l2 : sysfs := sysfs_of_list [
  ("/sys/devices/system/cpu", Dir [dir "cpu0"; dir "cpu1"]);
  ("/sys/devices/system/cpu/cpu0/topology/thread_siblings", File "1");
  ("/sys/devices/system/cpu/cpu0/topology/core_siblings", File "3");
  ("/sys/devices/system/cpu/cpu1/topology/thread_siblings", File "2");
  ("/sys/devices/system/cpu/cpu1/topology/core_siblings", File "3");
  ("/sys/devices/system/cpu/cpu0/cache", Dir [dir "index0"; dir "index1"]);
  ("/sys/devices/system/cpu/cpu0/cache/index0", Dir []);
  ("/sys/devices/system/cpu/cpu0/cache/index0/size", File "32K");
  ("/sys/devices/system/cpu/cpu0/cache/index0/type", File "Data");
  ("/sys/devices/system/cpu/cpu0/cache/index0/level", File "1");
  ("/sys/devices/system/cpu/cpu0/cache/index0/shared_cpu_map", File "1");
  ("/sys/devices/system/cpu/cpu0/cache/index1", Dir []);
  ("/sys/devices/system/cpu/cpu0/cache/index1/size", File "2048K");
  ("/sys/devices/system/cpu/cpu0/cache/index1/type", File "Unified");
  ("/sys/devices/system/cpu/cpu0/cache/index1/level", File "2");
  ("/sys/devices/system/cpu/cpu0/cache/index1/shared_cpu_map", File "3");
  ("/sys/devices/system/cpu/cpu1/cache", Dir [dir "index0"; dir "index1"]);
  ("/sys/devices/system/cpu/cpu1/cache/index0", Dir []);
  ("/sys/devices/system/cpu/cpu1/cache/index0/size", File "32K");
  ("/sys/devices/system/cpu/cpu1/cache/index0/type", File "Data");
  ("/sys/devices/system/cpu/cpu1/cache/index0/level", File "1");
  ("/sys/devices/system/cpu/cpu1/cache/index0/shared_cpu_map", File "2");
  ("/sys/devices/system/cpu/cpu1/cache/index1", Dir []);
  ("/sys/devices/system/cpu/cpu1/cache/index1/size", File "2048K");
  ("/sys/devices/system/cpu/cpu1/cache/index1/type", File "Unified");
  ("/sys/devices/system/cpu/cpu1/cache/index1/level", File "2");
  ("/sys/devices/system/cpu/cpu1/cache/index1/shared_cpu_map", File "3")
].

(** A context that holds one thread entity for CPU 0 and nothing else. *)
Definition lone_thread : topo_context :=
  {| sysfs_root := "/sys"; cpu_set_t_size := 8;
     procents := [new_procent TOPOLOGY_THREAD 0 None None None];
     ctx_list := Some 0%nat; ctx_system := None;
     core_htable := snd (htable_init 64);
     package_htable := snd (htable_init 64);
     devices := [];
     device_htable := snd (htable_init 2) |}.

(** The context of a build with sets of 8 bytes when the first CPU of
    node 0 is about to be processed: the system entity and the node. *)
Definition one_node : topo_context :=
  {| sysfs_root := "/sys"; cpu_set_t_size := 8;
     procents :=
       [set_ent_children (new_procent TOPOLOGY_SYSTEM 0 None None None)
          (Some 1%nat);
        new_procent TOPOLOGY_NODE 0 (Some 0%nat) None (Some 0%nat)];
     ctx_list := Some 1%nat; ctx_system := Some 0%nat;
     core_htable := snd (htable_init 64);
     package_htable := snd (htable_init 64);
     devices := [];
     device_htable := snd (htable_init 2) |}.

End Fixtures.

(** * Vocabulary of the statements *)

(** ** Vocabulary for the mask parser and formatter *)

(** A character that is neither a hex digit nor a comma. *)
Definition stray (c : ascii) : bool :=
  negb (isxdigit c) && negb (Ascii.eqb c comma).

(** The text from its first hex digit on. *)
Fixpoint drop_nonhex (r : list ascii) : list ascii :=
  match r with
  | [] => []
  | c :: r' => if isxdigit c then r else drop_nonhex r'
  end.

(** The text up to its last hex digit; the region from the first to the
    last hex digit; whether the text has a hex digit. *)
Definition upto_last_xdigit (b : list ascii) : list ascii :=
  rev (drop_nonhex (rev b)).
Definition digit_region (b : list ascii) : list ascii :=
  upto_last_xdigit (drop_nonhex b).
Definition has_xdigit (b : list ascii) : bool := existsb isxdigit b.

(** The values of the hex digits of a text, last digit first. *)
Definition xdigits_rev (b : list ascii) : list Z :=
  map char_to_val (List.filter isxdigit (rev b)).

(** The number whose base-16 digits, least significant first, are
    [ds]. *)
Fixpoint hexval_rev (ds : list Z) : Z :=
  match ds with
  | [] => 0
  | d :: r => d + 16 * hexval_rev r
  end.

(** The second loop of the parser over the reversed text: the list
    holds the characters from [*pos] down to [*buf]. *)
Fixpoint scan_list (r : list ascii) (cpu size cpumask : Z) : option Z :=
  match r with
  | [] => Some cpumask
  | c :: r' =>
      if Ascii.eqb c comma then scan_list r' cpu size cpumask
      else if negb (isxdigit c) then None
      else
        let '(cpu', cpumask') :=
          set_digit_bits 4 (char_to_val c) cpu size cpumask in
        scan_list r' cpu' size cpumask'
  end.

(** The values of the hex digits of a list of characters, in order. *)
Definition digits_of (r : list ascii) : list Z :=
  map char_to_val (List.filter isxdigit r).

(** A kernel bitmask string: hex digits and commas, with a hex digit. *)
Definition well_formed (b : list ascii) : bool :=
  forallb (fun c => isxdigit c || Ascii.eqb c comma) b && existsb isxdigit b.

(** [tolower] of the C locale, and equality of strings up to the case
    of letters. *)
Definition tolower (c : ascii) : ascii :=
  let n := code c in
  if (65 <=? n) && (n <=? 90) then ascii_of_N (Z.to_N (n + 32)) else c.

Definition same_modulo_case (s s' : string) : Prop :=
  map tolower (list_ascii_of_string s) = map tolower (list_ascii_of_string s').

(** The parser, restated on the reversed text. *)
Definition parse_rev (size : Z) (r : list ascii) : Z * Z :=
  match drop_nonhex r with
  | [] => (1, 0)
  | r' => match scan_list r' 0 size 0 with
          | Some m => (0, m)
          | None => (1, 0)
          end
  end.

(** The characters of a C string. *)
Abbreviation chars := list_ascii_of_string.

(** The string without its commas. *)
Definition remove_commas (s : string) : string :=
  string_of_list_ascii
    (List.filter (fun c => negb (Ascii.eqb c comma)) (chars s)).

(** Numeric value and number of hex digits of a text. *)
Definition text_value (l : list ascii) : Z := hexval_rev (digits_of (rev l)).
Definition text_digits (l : list ascii) : nat := List.length (digits_of l).

(** ** Vocabulary for the entity store *)

(** The mask of the entity at [p]. *)
Definition mask_of (h : list topo_procent) (p : ptr) : Z :=
  match h !! p with
  | Some e => ent_cpumask e
  | None => 0
  end.

(** Union of the masks of a list of entities. *)
Definition union_masks (h : list topo_procent) (l : list ptr) : Z :=
  foldr (fun p acc => Z.lor (mask_of h p) acc) 0 l.

(** The list of entities linked from [first] through [sibling]. *)
Inductive chain (h : list topo_procent) : option ptr -> list ptr -> Prop :=
  | chain_nil : chain h None []
  | chain_cons p e l :
      h !! p = Some e -> chain h (ent_sibling e) l -> chain h (Some p) (p :: l).

(** [ancestor h p a]: [a] is [p] or is reached from [p] through
    [parent] links. *)
Inductive ancestor (h : list topo_procent) : ptr -> ptr -> Prop :=
  | anc_refl p : ancestor h p p
  | anc_step p e q a :
      h !! p = Some e -> ent_parent e = Some q -> ancestor h q a ->
      ancestor h p a.

(** The parent of an entity was allocated before it and is one level
    above; only the system entity has no parent. *)
Definition inv_parent (h : list topo_procent) : Prop :=
  forall p e, h !! p = Some e ->
    match ent_parent e with
    | Some q => (q < p)%nat /\ exists eq, h !! q = Some eq
                  /\ ent_level e = ent_level eq - 1
                  /\ TOPOLOGY_CORE <= ent_level eq <= TOPOLOGY_SYSTEM
    | None => ent_level e = TOPOLOGY_SYSTEM
    end.

(** The [children]/[sibling] chain of an entity lists exactly the
    entities whose [parent] it is. *)
Definition inv_chain (h : list topo_procent) : Prop :=
  forall q eq, h !! q = Some eq ->
    exists l, chain h (ent_children eq) l
      /\ forall p, p ∈ l <-> exists e, h !! p = Some e /\ ent_parent e = Some q.

(** The mask of an entity above the threads is the union of the masks
    of its children. *)
Definition inv_union (h : list topo_procent) : Prop :=
  forall q eq l, h !! q = Some eq -> ent_level eq <> TOPOLOGY_THREAD ->
    chain h (ent_children eq) l -> ent_cpumask eq = union_masks h l.

(** Every bit of a mask is the CPU id of a thread below the entity. *)
Definition inv_origin (h : list topo_procent) : Prop :=
  forall p e b, h !! p = Some e -> Z.testbit (ent_cpumask e) b = true ->
    exists t et, h !! t = Some et /\ ent_level et = TOPOLOGY_THREAD
      /\ to_size_t (ent_id et) = b /\ ancestor h t p.

(** The invariant of the entity store. *)
Record heap_inv (h : list topo_procent) : Prop := {
  hi_parent : inv_parent h;
  hi_chain : inv_chain h;
  hi_union : inv_union h;
  hi_origin : inv_origin h;
}.

(** Two stores with the same links have the same chains. *)
Definition same_links (h h' : list topo_procent) : Prop :=
  forall p e, h !! p = Some e ->
    exists e', h' !! p = Some e' /\ ent_sibling e' = ent_sibling e
      /\ ent_parent e' = ent_parent e.

(** [CPU_SET_S] adds a fixed pattern to the set. *)
Definition bit_pattern (bit size : Z) : Z := CPU_SET_S bit size 0.

(** [agree e e']: the same entity up to its hash key and list of
    children. *)
Definition agree (e e' : topo_procent) : Prop :=
  ent_level e' = ent_level e /\ ent_id e' = ent_id e
  /\ ent_parent e' = ent_parent e /\ ent_sibling e' = ent_sibling e
  /\ ent_cpumask e' = ent_cpumask e.

(** [extends h h']: [h'] has every entity of [h], up to [agree]. *)
Definition extends (h h' : list topo_procent) : Prop :=
  forall p e, h !! p = Some e -> exists e', h' !! p = Some e' /\ agree e e'.

(** [struct_agree e e']: the same entity up to its mask and hash key. *)
Definition struct_agree (e e' : topo_procent) : Prop :=
  ent_level e' = ent_level e /\ ent_id e' = ent_id e
  /\ ent_parent e' = ent_parent e /\ ent_sibling e' = ent_sibling e
  /\ ent_children e' = ent_children e.

(** [struct_eq h h']: same size, same links everywhere. *)
Definition struct_eq (h h' : list topo_procent) : Prop :=
  List.length h' = List.length h
  /\ forall x e, h !! x = Some e ->
       exists e', h' !! x = Some e' /\ struct_agree e e'.

(** [only_masks h h']: the two stores differ in CPU masks only. *)
Definition only_masks (h h' : list topo_procent) : Prop :=
  List.length h' = List.length h
  /\ forall x e, h !! x = Some e ->
       exists m, h' !! x = Some (set_ent_cpumask e m).

(** The loop invariant of [topo_procent_cpumask_set]: the union
    property holds once the pattern [B] is added to the mask of [p]. *)
Definition unionQ (h : list topo_procent) (p : ptr) (B : Z) : Prop :=
  forall x ex l, h !! x = Some ex -> ent_level ex <> TOPOLOGY_THREAD ->
    chain h (ent_children ex) l ->
    (if decide (x = p) then Z.lor (ent_cpumask ex) B else ent_cpumask ex)
    = union_masks h l.

(** ** Vocabulary for cache devices *)

(** The attribute triple that identifies a cache. *)
Definition cache_triple (d : topo_device)
  : option string * option string * option string :=
  (topo_device_get_attr_value d "level",
   topo_device_get_attr_value d "type",
   topo_device_get_attr_value d "shared_cpu_map").

(** A cache device carries the signature built from its triple. *)
Definition signed (d : topo_device) : Prop :=
  exists level type cpumask,
    cache_triple d = (Some level, Some type, Some cpumask)
    /\ dev_hash_key d = Some (cache_signature level type cpumask).

(** The invariant of the device list and its hash table. *)
Record devs_ok (devs : list topo_device) (t : gmap string topo_device)
  : Prop := {
  do_signed : Forall signed devs;
  do_nodup : NoDup (map dev_hash_key devs);
  do_hashed : forall d k, d ∈ devs -> dev_hash_key d = Some k -> is_Some (t !! k);
}.

(** What the context keeps while caches are collected. *)
Definition same_procs (ctx ctx' : topo_context) : Prop :=
  procents ctx' = procents ctx /\ ctx_list ctx' = ctx_list ctx
  /\ ctx_system ctx' = ctx_system ctx
  /\ core_htable ctx' = core_htable ctx
  /\ package_htable ctx' = package_htable ctx
  /\ sysfs_root ctx' = sysfs_root ctx
  /\ cpu_set_t_size ctx' = cpu_set_t_size ctx.

(** ** Vocabulary for the build *)

(** The package and core tables hold packages and cores. *)
Definition tables_ok (h : list topo_procent) (pkgs cores : gmap string ptr)
  : Prop :=
  (forall k p, pkgs !! k = Some p ->
     exists e, h !! p = Some e /\ ent_level e = TOPOLOGY_PACKAGE)
  /\ (forall k c, cores !! k = Some c ->
        exists e, h !! c = Some e /\ ent_level e = TOPOLOGY_CORE).

(** The parent of a thread is the core registered under the
    [thread_siblings] signature of its CPU. *)
Definition threads_ok (fs : sysfs) (root : string) (h : list topo_procent)
    (cores : gmap string ptr) : Prop :=
  forall t e, h !! t = Some e -> ent_level e = TOPOLOGY_THREAD ->
    exists c, ent_parent e = Some c
      /\ cores !! sysfs_cpu_thread_siblings fs root (ent_id e) = Some c.

(** The invariant of a context under construction. *)
Record build_inv (fs : sysfs) (ctx : topo_context) : Prop := {
  bi_heap : heap_inv (procents ctx);
  bi_tables : tables_ok (procents ctx) (tbl (package_htable ctx))
                (tbl (core_htable ctx));
  bi_threads : threads_ok fs (sysfs_root ctx) (procents ctx)
                 (tbl (core_htable ctx));
  bi_devs : devs_ok (devices ctx) (tbl (device_htable ctx));
}.

(** [keeps h h']: every entity of [h] is in [h'] with the same level,
    id and parent. *)
Definition keeps (h h' : list topo_procent) : Prop :=
  forall x e, h !! x = Some e ->
    exists e', h' !! x = Some e' /\ ent_level e' = ent_level e
      /\ ent_id e' = ent_id e /\ ent_parent e' = ent_parent e.

(** [alloc_rel h h' new lvl id parent]: [h'] is [h] with one more entity
    [new], of level [lvl], child of [parent], with an empty mask. *)
Definition alloc_rel (h h' : list topo_procent) (new : ptr) (lvl id : Z)
    (parent : ptr) : Prop :=
  new = List.length h /\ List.length h' = S (List.length h)
  /\ extends h h'
  /\ exists en, h' !! new = Some en /\ ent_level en = lvl /\ ent_id en = id
       /\ ent_parent en = Some parent /\ ent_cpumask en = 0.

(** [good_outcome r Q]: the code stops on a failed assertion, or returns
    a result that satisfies [Q]; it does not exhaust its bound. *)
Definition good_outcome {A} (r : res A) (Q : A -> Prop) : Prop :=
  r = Abort \/ exists a, r = Ret a /\ Q a.

(** What one step of the build keeps of the context. *)
Record ctx_step (ctx ctx' : topo_context) : Prop := {
  cs_keeps : keeps (procents ctx) (procents ctx');
  cs_root : sysfs_root ctx' = sysfs_root ctx;
  cs_size : cpu_set_t_size ctx' = cpu_set_t_size ctx;
  cs_system : ctx_system ctx' = ctx_system ctx;
}.

(** The entity at [p] exists and has level [lvl]. *)
Definition has_level (ctx : topo_context) (p : ptr) (lvl : Z) : Prop :=
  exists e, procents ctx !! p = Some e /\ ent_level e = lvl.

(** The postcondition of the loops of the build. *)
Definition step_post (fs : sysfs) (ctx : topo_context)
    (r : Z * topo_context) : Prop :=
  build_inv fs r.2 /\ ctx_step ctx r.2.

(** The postcondition of [build_context]. *)
Definition built (fs : sysfs) (ctx0 : topo_context)
    (r : Z * topo_context) : Prop :=
  build_inv fs r.2
  /\ sysfs_root r.2 = sysfs_root ctx0
  /\ cpu_set_t_size r.2 = cpu_set_t_size ctx0
  /\ ctx_system r.2 = Some 0%nat
  /\ has_level r.2 0%nat TOPOLOGY_SYSTEM.

(** ** Vocabulary for the sysfs reads *)

(** The paths of the two sibling files of a CPU. *)
Definition core_siblings_path (sysfs : string) (cpu_id : Z) : string :=
  sysfs +:+ "/devices/system/cpu/cpu" +:+ sprintf_d cpu_id
        +:+ "/topology/core_siblings".
Definition thread_siblings_path (sysfs : string) (cpu_id : Z) : string :=
  sysfs +:+ "/devices/system/cpu/cpu" +:+ sprintf_d cpu_id
        +:+ "/topology/thread_siblings".

(** One of the four attributes read by [__get_cache_info] is missing
    in [dir]. *)
Definition attribute_missing (fs : sysfs) (dir : string) : Prop :=
  sysfs_get_attr fs dir "size" = None
  \/ sysfs_get_attr fs dir "type" = None
  \/ sysfs_get_attr fs dir "level" = None
  \/ sysfs_get_attr fs dir "shared_cpu_map" = None.

(** The outcome [r], turned into a failure. *)
Definition fail_after (r : res (Z * topo_context))
  : res (Z * topo_context) :=
  '(_, ctx) ← r; Ret (1, ctx).

(** * The rest of the sources *)

(** ** topology.c: probing, copies and the exported interface *)

Module Exported.

(** [CPU_ALLOC_SIZE] of glibc: the bytes of a set of [count] CPUs, in
    words of 64 bits; the arithmetic is that of [size_t]. *)
Definition CPU_ALLOC_SIZE (count : Z) : Z :=
  to_size_t (to_size_t (to_size_t count + 63) / 64 * 8).

Definition CPU_SETSIZE : Z := 1024.
Definition sizeof_cpu_set_t : Z := 128.

(** The loop [while ((dirent = readdir64(dir)))] of
    [sysfs_probe_cpumask_size]. *)
Fixpoint max_cpu_id_loop (entries : list dirent) (max_cpu_id : Z) : Z :=
  match entries with
  | [] => max_cpu_id
  | dirent :: rest =>
      if negb (is_dir_or_unknown (d_type_of dirent)) then
        max_cpu_id_loop rest max_cpu_id
      else
        match sscanf_d (d_name dirent) "cpu" with
        | None => max_cpu_id_loop rest max_cpu_id
        | Some cpu_id =>
            max_cpu_id_loop rest
              (if max_cpu_id <? cpu_id then cpu_id else max_cpu_id)
        end
  end.

Definition sysfs_probe_cpumask_size (fs : sysfs) (sysfs : string) : res Z :=
  _ ← assert (sizeof_cpu_set_t <? CPU_ALLOC_SIZE (CPU_SETSIZE + 1));
  match opendir fs (sysfs +:+ "/devices/system/cpu") with
  | None => Ret 0
  | Some entries =>
      Ret (CPU_ALLOC_SIZE (wrap_int (max_cpu_id_loop entries 0 + 1)))
  end.

(** [sched_probe_cpumask_size].  [sched_getaffinity size] is the result
    of the call [sched_getaffinity(getpid(), size, cpus)] for a buffer of
    [size] bytes: 0 when the kernel accepts the size, -1 otherwise.  The
    loop [while (rc)] doubles the size until the call succeeds; it takes
    a bound on the number of its iterations. *)
Fixpoint sched_probe_loop (fuel : nat) (sched_getaffinity : Z -> Z)
    (size rc : Z) : res Z :=
  match fuel with
  | O => OutOfFuel
  | S fuel' =>
      if rc =? 0 then Ret size
      else
        let size := to_size_t (size * 2) in
        sched_probe_loop fuel' sched_getaffinity size (sched_getaffinity size)
  end.

Definition sched_probe_cpumask_size (fuel : nat)
    (sched_getaffinity : Z -> Z) : res Z :=
  (* Start with the minimum size supported by glibc *)
  let size := CPU_ALLOC_SIZE 1 in
  sched_probe_loop fuel sched_getaffinity size (sched_getaffinity size).

(** [probe_cpumask_size].  Whether [LIBTOPOLOGY_CPUMASK_OVERRIDE] is set
    is given. *)
Definition probe_cpumask_size (fs : sysfs) (sysfs : string) (fuel : nat)
    (sched_getaffinity : Z -> Z) (override : bool) : res Z :=
  if CPU_ALLOC_SIZE (CPU_SETSIZE + 1) =? sizeof_cpu_set_t
  then Ret sizeof_cpu_set_t
  else
    sched_size ← sched_probe_cpumask_size fuel sched_getaffinity;
    if sched_size =? 0 then Ret 0
    else
      sysfs_size ← sysfs_probe_cpumask_size fs sysfs;
      if sched_size <? sysfs_size then
        if negb override then Ret 0 else Ret sysfs_size
      else Ret sched_size.

(** [memcpy] of the [size] bytes of a set. *)
Definition memcpy_set (size : Z) (src : Z) : Z := Z.land src (Z.ones (8 * size)).

Definition topo_device_copy_cpumask (ctx : topo_context) (dev : topo_device)
  : Z :=
  memcpy_set (cpu_set_t_size ctx) (dev_cpumask dev).

Definition topo_procent_copy_cpumask (ctx : topo_context) (ent : topo_procent)
  : Z :=
  memcpy_set (cpu_set_t_size ctx) (ent_cpumask ent).

(** A pointer to a registered device is its position in the list
    [devices] of the context, which does not change once the context is
    built; NULL is [None]. *)
Definition deref_device (ctx : topo_context) (dev : nat) : res topo_device :=
  match devices ctx !! dev with
  | Some d => Ret d
  | None => Abort
  end.

(** The loop [for ( ; dev; dev = dev->next)] of [find_device_by_type];
    [devs] is the list from [dev] on and [i] the position of [dev]. *)
Fixpoint find_device_loop (devs : list topo_device) (i : nat) (type : string)
  : option nat :=
  match devs with
  | [] => None
  | dev :: rest =>
      if String.eqb (dev_type dev) type then Some i
      else find_device_loop rest (S i) type
  end.

Definition find_device_by_type (ctx : topo_context) (prev : option nat)
    (type : string) : res (option nat) :=
  match prev with
  | None => Ret (find_device_loop (devices ctx) 0 type)
  | Some p =>
      _ ← deref_device ctx p;
      Ret (find_device_loop (drop (S p) (devices ctx)) (S p) type)
  end.

(** [topology_init_context]: the result, and the handles stored through
    [ctx_t] and [system_t] when it is 0. *)
Definition topology_init_context (fs : sysfs) (root : string)
    (probed_size : Z) : res (Z * option (topo_context * option ptr)) :=
  ctx ← new_context fs root probed_size;
  match ctx with
  | None => Ret (1, None)
  | Some ctx => Ret (0, Some (ctx, ctx_system ctx))
  end.

Definition topology_sizeof_cpumask (ctx : topo_context) : Z :=
  cpu_set_t_size ctx.

Definition topology_find_device_by_type (ctx : topo_context)
    (prev : option nat) (type : string) : res (option nat) :=
  find_device_by_type ctx prev type.

Definition topology_device_get_attribute (ctx : topo_context) (dev : nat)
    (name : string) : res (option string) :=
  d ← deref_device ctx dev;
  Ret (topo_device_get_attr_value d name).

Definition topology_device_cpumask (ctx : topo_context) (dev : nat) : res Z :=
  d ← deref_device ctx dev;
  Ret (topo_device_copy_cpumask ctx d).

Definition topology_procent_cpumask (ctx : topo_context) (ent : ptr) : res Z :=
  e ← deref (procents ctx) ent;
  Ret (topo_procent_copy_cpumask ctx e).

Definition topology_traverse (fuel : nat) (ctx : topo_context)
    (from iter : option ptr) (to : Z) : res (option ptr) :=
  traverse fuel ctx from iter to.

(** The loop of the macro [topology_for_each_device_of_type], with a
    bound [n] on the number of iterations: the devices it visits. *)
Fixpoint for_each_device_of_type (n : nat) (ctx : topo_context)
    (dev : option nat) (type : string) : res (list nat) :=
  match n with
  | O => OutOfFuel
  | S n' =>
      next ← topology_find_device_by_type ctx dev type;
      match next with
      | None => Ret []
      | Some d =>
          rest ← for_each_device_of_type n' ctx (Some d) type;
          Ret (d :: rest)
      end
  end.

End Exported.

Import Exported.

(** ** helper.c: reading a file *)

Module Helper.

(** What a call of [read] does: it is interrupted ([EINTR]), it fails,
    or the kernel has [n] bytes at hand, of which the call delivers as
    many as were asked for and as the file still has.  The call returns
    0 at the end of the file only. *)
Inductive read_result :=
  | Eintr
  | Eio
  | Data (n : positive).

(** The loop [for (;;)] of [slurp_file].  [sched] gives the behaviour of
    the successive calls of [read]; [content] is the file, [pos] the
    file offset; [buf] holds the [total] bytes read so far.  The result
    is [None] for the jump to [err], and the buffer with its length
    otherwise.  [total] and [slurped] are of type [ssize_t]: they are
    written without wrap-around, for files below [2^63] bytes. *)
Fixpoint slurp_loop (sched : list read_result) (pagesize : Z)
    (content : list ascii) (pos : nat) (buf : list ascii)
    (ask bufsize total : Z) : res (option (list ascii * Z)) :=
  match sched with
  | [] => OutOfFuel
  | r :: sched' =>
      _ ← assert (0 <? ask);
      match r with
      | Eintr =>
          slurp_loop sched' pagesize content pos buf ask bufsize total
      | Eio => Ret None
      | Data n =>
          let left := Z.of_nat (List.length content - pos) in
          let slurped := Z.min (Z.pos n) (Z.min ask left) in
          if slurped =? 0 then
            (* EOF *)
            _ ← assert (total <=? bufsize);
            Ret (Some (buf, total))
          else
            let buf :=
              take (Z.to_nat total) buf
              ++ take (Z.to_nat slurped) (drop pos content) in
            let pos := (pos + Z.to_nat slurped)%nat in
            let total := total + slurped in
            _ ← assert (total <=? bufsize);
            if slurped <? ask then
              slurp_loop sched' pagesize content pos buf (ask - slurped)
                bufsize total
            else if total <? bufsize then
              slurp_loop sched' pagesize content pos buf ask bufsize total
            else
              _ ← assert (total =? bufsize);
              slurp_loop sched' pagesize content pos buf pagesize
                (to_size_t (bufsize + pagesize)) total
      end
  end.

(** [slurp_file] on a file that can be opened; [pagesize] is the result
    of [pagesize()]. *)
Definition slurp_file (sched : list read_result) (pagesize : Z)
    (content : list ascii) : res (option (list ascii * Z)) :=
  slurp_loop sched pagesize content 0 [] pagesize pagesize 0.

End Helper.

Import Helper.

(** ** The [cpumasks] tool and the test programs *)

Module Tool.

(** size of a string needed to represent a cpu_set_t of the given size *)
Definition cpuset_size_to_bufsize (cpuset_size : Z) : Z :=
  let ncommas :=
    if bytes_per_word <? cpuset_size
    then to_size_t (cpuset_size / bytes_per_word - 1)
    else 0 in
  to_size_t (to_size_t (cpuset_size * chars_per_byte) + ncommas + 1).

(** The loop [while ((ent = topology_traverse(sys, ent, level)))] of
    [do_procents], with a bound [n] on the number of iterations: the
    lines printed.  The set copied out of the entity is formatted with
    [cpumask_size], which [main] takes from [topology_sizeof_cpumask]. *)
Fixpoint do_procents_loop (n fuel : nat) (ctx : topo_context)
    (sys : option ptr) (ent : option ptr) (cpumask_size : Z) (level : Z)
    (commas : Z) : res (list string) :=
  match n with
  | O => OutOfFuel
  | S n' =>
      next ← topology_traverse fuel ctx sys ent level;
      match next with
      | None => Ret []
      | Some e =>
          cpumask ← topology_procent_cpumask ctx e;
          let line := format_cpuset cpumask cpumask_size commas in
          rest ← do_procents_loop n' fuel ctx sys (Some e) cpumask_size
                   level commas;
          Ret (line :: rest)
      end
  end.

Definition do_procents (n fuel : nat) (ctx : topo_context)
    (sys : option ptr) (cpumask_size : Z) (level : Z) (commas : Z)
  : res (list string) :=
  do_procents_loop n fuel ctx sys None cpumask_size level commas.

(** [count_ents_at_level] of the test programs: the loop
    [while ((ent = topology_traverse(top, ent, level))) count++]. *)
Fixpoint count_ents_loop (n fuel : nat) (ctx : topo_context)
    (top : option ptr) (ent : option ptr) (level : Z) (count : Z) : res Z :=
  match n with
  | O => OutOfFuel
  | S n' =>
      next ← topology_traverse fuel ctx top ent level;
      match next with
      | None => Ret count
      | Some e =>
          count_ents_loop n' fuel ctx top (Some e) level
            (to_size_t (count + 1))
      end
  end.

Definition count_ents_at_level (n fuel : nat) (ctx : topo_context)
    (top : option ptr) (level : Z) : res Z :=
  count_ents_loop n fuel ctx top None level 0.

End Tool.

Import Tool.

(** ** Vocabulary of the further results *)

(** [within size m]: every bit of [m] lies in the [size] bytes of the
    set. *)
Definition within (size m : Z) : Prop :=
  forall b, Z.testbit m b = true -> 0 <= b < 8 * size.

(** The number of calls of [read] in a schedule that are neither
    interrupted nor failed. *)
Fixpoint data_reads (sched : list read_result) : nat :=
  match sched with
  | [] => O
  | Data _ :: sched' => S (data_reads sched')
  | _ :: sched' => data_reads sched'
  end.

(** The state of the loop of [slurp_file]: the buffer holds the first
    [pos] bytes of the file and has room for [ask] more. *)
Record slurp_inv (pagesize : Z) (content : list ascii) (pos : nat)
    (buf : list ascii) (ask bufsize total : Z) : Prop := {
  si_buf : buf = take pos content;
  si_pos : (pos <= List.length content)%nat;
  si_total : total = Z.of_nat pos;
  si_ask : 0 < ask;
  si_room : total + ask = bufsize;
  si_size : bufsize <= total + pagesize;
}.

(** The entity allocated just before the one at [i]. *)
Definition prev_index (i : nat) : option ptr :=
  match i with
  | O => None
  | S j => Some j
  end.

(** The global list goes through the entities from the last one
    allocated to the first. *)
Definition next_ok (h : list topo_procent) (lst : option ptr) : Prop :=
  lst = prev_index (List.length h)
  /\ forall i e, h !! i = Some e -> ent_next e = prev_index i.

(** Every mask lies in the bytes of a set. *)
Definition masks_within (size : Z) (h : list topo_procent) : Prop :=
  forall p e, h !! p = Some e -> within size (ent_cpumask e).

(** The mask of a thread holds the bit of its own CPU, and that CPU is
    online. *)
Definition threads_own (fs : sysfs) (root : string) (size : Z)
    (h : list topo_procent) : Prop :=
  forall t e, h !! t = Some e -> ent_level e = TOPOLOGY_THREAD ->
    ent_cpumask e = bit_pattern (ent_id e) size
    /\ sysfs_cpu_is_online fs root (ent_id e) <> 0.

(** The system entity, with id 0, is the first entity and the only one
    without a parent. *)
Definition root_only (h : list topo_procent) : Prop :=
  (forall p e, h !! p = Some e -> ent_parent e = None -> p = 0%nat)
  /\ (forall e, h !! 0%nat = Some e -> ent_id e = 0).

(** The attributes that [__get_cache_info] reads. *)
Definition cache_attrs : list string :=
  ["size"; "type"; "level"; "shared_cpu_map"]%string.

(** A registered cache: its four attributes, read in a directory
    [indexN] of the CPU of a thread of the context, and its set, parsed
    from [shared_cpu_map], with that CPU in it. *)
Definition cache_ok (fs : sysfs) (root : string) (size : Z)
    (h : list topo_procent) (d : topo_device) : Prop :=
  dev_type d = "cache"%string
  /\ is_Some (topo_device_get_attr_value d "size")
  /\ is_Some (topo_device_get_attr_value d "type")
  /\ is_Some (topo_device_get_attr_value d "level")
  /\ (exists map, topo_device_get_attr_value d "shared_cpu_map" = Some map
        /\ topology_cpumask_parse 0 size map = (0, dev_cpumask d))
  /\ (exists t e index, h !! t = Some e /\ ent_level e = TOPOLOGY_THREAD
        /\ CPU_ISSET_S (ent_id e) size (dev_cpumask d) = true
        /\ forall name, name ∈ cache_attrs ->
             topo_device_get_attr_value d name
             = sysfs_get_attr_value fs (index_dir root (ent_id e) index)
                 name).

Record store_inv2 (fs : sysfs) (root : string) (size : Z)
    (h : list topo_procent) (lst : option ptr) (devs : list topo_device)
  : Prop := {
  s2_next : next_ok h lst;
  s2_masks : masks_within size h;
  s2_threads : threads_own fs root size h;
  s2_root : root_only h;
  s2_devs : Forall (cache_ok fs root size h) devs;
}.

Definition build_inv2 (fs : sysfs) (ctx : topo_context) : Prop :=
  store_inv2 fs (sysfs_root ctx) (cpu_set_t_size ctx) (procents ctx)
    (ctx_list ctx) (devices ctx).

(** [data_agree e e']: the same entity up to its children and its hash
    key. *)
Definition data_agree (e e' : topo_procent) : Prop :=
  ent_level e' = ent_level e /\ ent_id e' = ent_id e
  /\ ent_parent e' = ent_parent e /\ ent_next e' = ent_next e
  /\ ent_cpumask e' = ent_cpumask e.

Definition same_data (h h' : list topo_procent) : Prop :=
  List.length h' = List.length h
  /\ forall x e, h !! x = Some e ->
       exists e', h' !! x = Some e' /\ data_agree e e'.

(** [visits fuel ctx top level ent l]: the loop
    [while ((ent = topology_traverse(top, ent, level)))], entered with
    [ent], goes through the entities [l] and stops. *)
Inductive visits (fuel : nat) (ctx : topo_context) (top : option ptr)
    (level : Z) : option ptr -> list ptr -> Prop :=
  | visits_nil ent :
      topology_traverse fuel ctx top ent level = Ret None ->
      visits fuel ctx top level ent []
  | visits_cons ent e l :
      topology_traverse fuel ctx top ent level = Ret (Some e) ->
      visits fuel ctx top level (Some e) l ->
      visits fuel ctx top level ent (e :: l).

(** Whether the entity at [x] is at level [to] and below [f]: the test
    of the loop of [next_at_level]. *)
Definition below_b (h : list topo_procent) (f : ptr) (to : Z) (x : nat)
  : bool :=
  match h !! x with
  | Some e =>
      (ent_level e =? to)
      && match is_descendant (S x) h f x with
         | Ret b => b
         | _ => false
         end
  | None => false
  end.

(** The last position below [k] that satisfies [P], and all of them,
    from the last to the first. *)
Fixpoint last_below (P : nat -> bool) (k : nat) : option nat :=
  match k with
  | O => None
  | S j => if P j then Some j else last_below P j
  end.

Fixpoint all_below (P : nat -> bool) (k : nat) : list nat :=
  match k with
  | O => []
  | S j => if P j then j :: all_below P j else all_below P j
  end.

(** The position from which the next call scans the global list. *)
Definition scan_from (h : list topo_procent) (iter : option ptr) : nat :=
  match iter with
  | None => List.length h
  | Some i => i
  end.

Definition has_type (devs : list topo_device) (type : string) (i : nat)
  : bool :=
  match devs !! i with
  | Some d => String.eqb (dev_type d) type
  | None => false
  end.




(** ** Vocabulary for one call of [do_one_cpu] *)

(** [stays h h']: every entity of [h] is in [h'] with the same level,
    id, parent and hash key. *)
Definition stays (h h' : list topo_procent) : Prop :=
  forall x e, h !! x = Some e ->
    exists e', h' !! x = Some e' /\ ent_level e' = ent_level e
      /\ ent_id e' = ent_id e /\ ent_parent e' = ent_parent e
      /\ ent_hash_key e' = ent_hash_key e.

(** [created h h' x id parent key]: the entity [x] is not in [h]; in
    [h'] it is a child of [parent], one level below it, with the given
    id and hash key. *)
Definition created (h h' : list topo_procent) (x : ptr) (id : Z)
    (parent : ptr) (key : option string) : Prop :=
  h !! x = None
  /\ exists e pe, h' !! x = Some e /\ h' !! parent = Some pe
       /\ ent_level e = ent_level pe - 1 /\ ent_id e = id
       /\ ent_parent e = Some parent /\ ent_hash_key e = key.

(** 1 when the key is not in the table, 0 when it is. *)
Definition absent {A} (t : htable A) (key : string) : nat :=
  match htable_lookup t (Some key) with
  | Some _ => 0
  | None => 1
  end.

(** What the context keeps over a stage of [do_one_cpu]. *)
Record same_rest (ctx ctx' : topo_context) : Prop := {
  sr_root : sysfs_root ctx' = sysfs_root ctx;
  sr_size : cpu_set_t_size ctx' = cpu_set_t_size ctx;
  sr_devices : devices ctx' = devices ctx;
  sr_device_htable : device_htable ctx' = device_htable ctx;
}.

(** * The parser of kernel bitmask strings *)

(** ** The parser as a traversal of the reversed text *)

Lemma char_at_lt b pos : (pos < List.length b)%nat ->
  firstn (S pos) b = firstn pos b ++ [char_at b pos].
Proof.
  revert pos. induction b as [|c b IH]; intros pos H; simpl in *; [lia|].
  destruct pos as [|pos]; simpl; [done|].
  f_equal. apply IH. lia.
Qed.

Lemma scan_digits_list b k cpu size m : (k <= List.length b)%nat ->
  scan_digits b k cpu size m = scan_list (rev (firstn k b)) cpu size m.
Proof.
  revert cpu m. induction k as [|k IH]; intros cpu m H.
  - by destruct b.
  - rewrite (char_at_lt b k) by lia. rewrite rev_app_distr.
    cbn [rev app scan_list scan_digits].
    destruct (Ascii.eqb _ _); [apply IH; lia|].
    destruct (negb _); [done|].
    destruct (set_digit_bits _ _ _ _ _). apply IH; lia.
Qed.

Lemma find_last_xdigit_list b k : (k <= List.length b)%nat ->
  firstn (find_last_xdigit b k) b = rev (drop_nonhex (rev (firstn k b)))
  /\ (find_last_xdigit b k <= k)%nat.
Proof.
  induction k as [|k IH]; intros H.
  - by destruct b.
  - rewrite (char_at_lt b k) by lia. rewrite rev_app_distr. simpl.
    destruct (isxdigit _).
    + simpl. rewrite rev_involutive. rewrite <- char_at_lt by lia. done.
    + destruct IH as [IH1 IH2]; [lia|]. split; [done|lia].
Qed.

Lemma char_at_end b : char_at b (List.length b) = zero.
Proof. unfold char_at. apply nth_overflow. lia. Qed.

Lemma find_last_xdigit_start b :
  find_last_xdigit b (S (List.length b)) = find_last_xdigit b (List.length b).
Proof. simpl. by rewrite char_at_end. Qed.

Lemma firstn_nil_iff {A} (n : nat) (l : list A) : (n <= List.length l)%nat ->
  firstn n l = [] -> n = O.
Proof. destruct n, l; simpl; try done. lia. Qed.

(** The parser seen as a traversal of the reversed string. *)
Lemma parse_list_form cpumask size buf :
  topology_cpumask_parse cpumask size buf =
  match drop_nonhex (rev (list_ascii_of_string buf)) with
  | [] => (1, 0)
  | r => match scan_list r 0 size 0 with
         | Some m => (0, m)
         | None => (1, 0)
         end
  end.
Proof.
  unfold topology_cpumask_parse, CPU_ZERO_S.
  set (b := list_ascii_of_string buf).
  rewrite find_last_xdigit_start.
  destruct (find_last_xdigit_list b (List.length b)) as [H1 H2]; [lia|].
  rewrite firstn_all in H1.
  destruct (find_last_xdigit b (List.length b)) as [|k] eqn:Hk.
  - simpl in H1. destruct (drop_nonhex (rev b)); [done|].
    apply (f_equal (@List.length _)) in H1. rewrite length_rev in H1. done.
  - rewrite scan_digits_list by lia. rewrite H1, rev_involutive.
    destruct (drop_nonhex (rev b)) eqn:Hd; [|done].
    exfalso. simpl in H1. apply firstn_nil_iff in H1; [done|lia].
Qed.

(** ** The bits set by a run of hex digits *)

Lemma wrap_int_small z : - 2^31 <= z <= INT_MAX -> wrap_int z = z.
Proof.
  unfold wrap_int, INT_MAX. intros H.
  rewrite Z.mod_small; lia.
Qed.

Ltac ilia := unfold INT_MAX in *; lia.

Ltac zbool :=
  repeat match goal with
    | |- context [?a <? ?b] => destruct (Z.ltb_spec a b)
    | |- context [?a <=? ?b] => destruct (Z.leb_spec a b)
    | |- context [?a =? ?b] => destruct (Z.eqb_spec a b)
    end.

Lemma to_size_t_small z : 0 <= z < 2^64 -> to_size_t z = z.
Proof. intros H. unfold to_size_t. apply Z.mod_small. lia. Qed.

Lemma CPU_SET_S_bits c size m i : 0 <= c < 2^64 ->
  Z.testbit (CPU_SET_S c size m) i
  = Z.testbit m i || ((i =? c) && (c <? 8 * size)).
Proof.
  intros Hc. unfold CPU_SET_S. rewrite to_size_t_small by done.
  assert (Hdiv : (c / 8 <? size) = (c <? 8 * size)).
  { apply eq_iff_eq_true. rewrite !Z.ltb_lt.
    pose proof (Z.div_mod c 8). pose proof (Z.mod_pos_bound c 8). lia. }
  rewrite Hdiv. destruct (c <? 8 * size).
  - rewrite Z.lor_spec, Z.shiftl_1_l, Z.pow2_bits_eqb by lia.
    by rewrite andb_true_r, (Z.eqb_sym i c).
  - by rewrite andb_false_r, orb_false_r.
Qed.

Lemma CPU_ISSET_S_bit c size m : 0 <= c < 2^64 ->
  CPU_ISSET_S c size m = (c <? 8 * size) && Z.testbit m c.
Proof.
  intros Hc. unfold CPU_ISSET_S. rewrite to_size_t_small by done.
  assert (Hdiv : (c / 8 <? size) = (c <? 8 * size)).
  { apply eq_iff_eq_true. rewrite !Z.ltb_lt.
    pose proof (Z.div_mod c 8). pose proof (Z.mod_pos_bound c 8). lia. }
  rewrite Hdiv. by destruct (c <? 8 * size).
Qed.

Lemma set_digit_bits_S n v cpu size m :
  set_digit_bits (S n) v cpu size m
  = set_digit_bits n (Z.shiftr v 1) (wrap_int (cpu + 1)) size
      (if Z.land v 1 =? 1 then CPU_SET_S cpu size m else m).
Proof. reflexivity. Qed.

Lemma set_digit_bits_spec n v cpu size m :
  0 <= cpu -> cpu + Z.of_nat n <= INT_MAX ->
  exists m', set_digit_bits n v cpu size m = (cpu + Z.of_nat n, m') /\
    forall i, Z.testbit m' i
      = Z.testbit m i
        || ((cpu <=? i) && (i <? cpu + Z.of_nat n) && (i <? 8 * size)
            && Z.testbit v (i - cpu)).
Proof.
  revert v cpu m. induction n as [|n IH]; intros v cpu m H0 H1.
  - exists m. split; [unfold set_digit_bits; f_equal; lia|].
    intros i. replace (i <? cpu + Z.of_nat 0) with (i <? cpu) by (f_equal; lia).
    destruct (Z.leb_spec cpu i), (Z.ltb_spec i cpu); try lia;
      by rewrite ?andb_false_r, ?orb_false_r.
  - rewrite set_digit_bits_S. rewrite Nat2Z.inj_succ in *.
    rewrite wrap_int_small by ilia.
    remember (if Z.land v 1 =? 1 then CPU_SET_S cpu size m else m) as m1
      eqn:Em1.
    destruct (IH (Z.shiftr v 1) (cpu + 1) m1) as (m' & Hm' & Hbits).
    { lia. } { ilia. }
    exists m'. split. { rewrite Hm'. f_equal. clear Hbits. lia. }
    intros i. rewrite Hbits. clear Hbits IH.
    assert (Hm1 : Z.testbit m1 i
       = Z.testbit m i || ((i =? cpu) && (cpu <? 8 * size) && Z.testbit v 0)).
    { rewrite Em1. replace (Z.land v 1) with (Z.land v (Z.ones 1)) by done.
      rewrite Z.land_ones by lia. rewrite <- Z.bit0_mod.
      destruct (Z.testbit v 0); simpl.
      - rewrite CPU_SET_S_bits by ilia. by rewrite andb_true_r.
      - by rewrite andb_false_r, orb_false_r. }
    rewrite Hm1. clear Hm1 Em1.
    destruct (Z.le_gt_cases (cpu + 1) i) as [Hi|Hi].
    + rewrite Z.shiftr_spec by lia.
      replace (i - (cpu + 1) + 1) with (i - cpu) by lia.
      zbool; simpl; rewrite ?orb_false_r; try done; lia.
    + zbool; simpl; rewrite ?orb_false_r, ?andb_false_r; try done; try lia.
      replace (i - cpu) with 0 by lia. done.
Qed.

Lemma char_to_val_range c : 0 <= char_to_val c < 16.
Proof.
  unfold char_to_val, ascii_vals.
  repeat (case_match; try lia).
Qed.

Lemma hexval_rev_nonneg ds : Forall (fun d => 0 <= d < 16) ds -> 0 <= hexval_rev ds.
Proof. induction 1; simpl; lia. Qed.

Lemma hexval_rev_cons_bits d ds i : 0 <= d < 16 -> 0 <= i ->
  Z.testbit (hexval_rev (d :: ds)) i
  = if i <? 4 then Z.testbit d i else Z.testbit (hexval_rev ds) (i - 4).
Proof.
  intros Hd Hi. cbn [hexval_rev].
  destruct (Z.ltb_spec i 4).
  - rewrite <- (Z.mod_pow2_bits_low _ 4) by lia.
    replace ((d + 16 * hexval_rev ds) mod 2 ^ 4) with d; [done|].
    change (2^4) with 16. rewrite (Z.mul_comm 16), Z.mod_add by lia.
    by rewrite Z.mod_small.
  - replace i with ((i - 4) + 4) at 1 by lia.
    rewrite <- Z.div_pow2_bits by lia. f_equal.
    change (2^4) with 16.
    rewrite Z.add_comm, (Z.mul_comm 16), Z.div_add_l by lia.
    rewrite (Z.div_small d) by lia. lia.
Qed.

Lemma digits_of_range r : Forall (fun d => 0 <= d < 16) (digits_of r).
Proof.
  unfold digits_of.
  induction (List.filter isxdigit r); simpl; constructor;
    auto using char_to_val_range.
Qed.

Lemma scan_list_stray r cpu size m :
  existsb stray r = true -> scan_list r cpu size m = None.
Proof.
  revert cpu m. induction r as [|c r IH]; intros cpu m H; [done|].
  cbn [existsb scan_list] in *. unfold stray in H at 1.
  destruct (Ascii.eqb c comma); [rewrite andb_false_r in H; by apply IH|].
  destruct (isxdigit c); [|done]. cbn [negb andb] in *.
  destruct (set_digit_bits _ _ _ _ _). by apply IH.
Qed.

Lemma scan_list_ok_some r cpu size m :
  existsb stray r = false -> is_Some (scan_list r cpu size m).
Proof.
  revert cpu m. induction r as [|c r IH]; intros cpu m H; [by eexists|].
  cbn [existsb scan_list] in *. unfold stray in H at 1.
  apply orb_false_iff in H as [H1 H2].
  destruct (Ascii.eqb c comma); [by apply IH|].
  destruct (isxdigit c); [|done]. cbn [negb].
  destruct (set_digit_bits _ _ _ _ _). by apply IH.
Qed.

Lemma scan_list_bits r cpu size m :
  existsb stray r = false ->
  0 <= cpu -> cpu + 4 * Z.of_nat (List.length (digits_of r)) <= INT_MAX ->
  exists m', scan_list r cpu size m = Some m' /\
    forall i, Z.testbit m' i
      = Z.testbit m i
        || ((cpu <=? i) && (i <? 8 * size)
            && Z.testbit (hexval_rev (digits_of r)) (i - cpu)).
Proof.
  revert cpu m. induction r as [|c r IH]; intros cpu m H H0 H1.
  - exists m. split; [done|]. intros i. simpl.
    by rewrite Z.bits_0, andb_false_r, orb_false_r.
  - cbn [existsb scan_list] in *. unfold stray in H at 1.
    apply orb_false_iff in H as [Hc Hr].
    unfold digits_of in *. cbn [List.filter] in *.
    destruct (Ascii.eqb c comma) eqn:Hcomma.
    + apply Ascii.eqb_eq in Hcomma as ->.
      change (isxdigit comma) with false in *. cbv iota in *.
      apply IH; [done|lia|ilia].
    + rewrite andb_true_r in Hc. apply negb_false_iff in Hc. rewrite Hc in *.
      cbn [negb map List.length] in *.
      destruct (set_digit_bits_spec 4 (char_to_val c) cpu size m)
        as (m1 & -> & Hm1); [lia|ilia|].
      destruct (IH (cpu + Z.of_nat 4) m1) as (m' & -> & Hm'); [done|lia|ilia|].
      exists m'. split; [done|]. intros i. rewrite Hm', Hm1. clear Hm' Hm1 IH.
      fold (digits_of r).
      change (Z.of_nat 4) with 4.
      destruct (Z.le_gt_cases cpu i) as [Hle|Hlt].
      * rewrite hexval_rev_cons_bits by (lia || apply char_to_val_range).
        replace (i - (cpu + 4)) with (i - cpu - 4) by lia.
        zbool; simpl; rewrite ?orb_false_r, ?andb_false_r; try done; lia.
      * zbool; simpl; rewrite ?orb_false_r, ?andb_false_r; try done; lia.
Qed.

(** ** Success, failure and the case of letters *)

Lemma parse_parse_rev cpumask size buf :
  topology_cpumask_parse cpumask size buf
  = parse_rev size (rev (list_ascii_of_string buf)).
Proof. apply parse_list_form. Qed.

Lemma drop_nonhex_nil r : drop_nonhex r = [] <-> existsb isxdigit r = false.
Proof.
  induction r as [|c r IH]; simpl; [done|].
  destruct (isxdigit c); simpl; [split; done|done].
Qed.

Lemma existsb_rev {A} (f : A -> bool) l : existsb f (rev l) = existsb f l.
Proof.
  induction l as [|a l IH]; simpl; [done|].
  rewrite existsb_app, IH. simpl. rewrite orb_false_r. apply orb_comm.
Qed.

Lemma digits_of_drop_nonhex r : digits_of (drop_nonhex r) = digits_of r.
Proof.
  unfold digits_of. induction r as [|c r IH]; simpl; [done|].
  destruct (isxdigit c) eqn:E; simpl; [by rewrite E|done].
Qed.

Lemma length_drop_nonhex r : (List.length (drop_nonhex r) <= List.length r)%nat.
Proof. induction r as [|c r IH]; simpl; [done|]. destruct (isxdigit c); simpl; lia. Qed.

(** Failure of the parser, on the reversed string. *)
Lemma parse_rev_fails size r :
  fst (parse_rev size r) <> 0
  <-> existsb isxdigit r = false \/ existsb stray (drop_nonhex r) = true.
Proof.
  unfold parse_rev. destruct (drop_nonhex r) as [|c r'] eqn:Hd.
  - apply drop_nonhex_nil in Hd. simpl. split; [auto|done].
  - assert (Hx : existsb isxdigit r = true).
    { destruct (existsb isxdigit r) eqn:E; [done|].
      apply drop_nonhex_nil in E. congruence. }
    destruct (existsb stray (c :: r')) eqn:Hs.
    + rewrite scan_list_stray by done. simpl. split; [auto|done].
    + destruct (scan_list_ok_some (c :: r') 0 size 0 Hs) as [m ->]. simpl.
      split; [done|]. intros [?|?]; congruence.
Qed.

Lemma parse_rev_fail_zero size r :
  fst (parse_rev size r) <> 0 -> snd (parse_rev size r) = 0.
Proof.
  unfold parse_rev. destruct (drop_nonhex r); [done|].
  destruct (scan_list _ _ _ _); simpl; done.
Qed.

Lemma parse_rev_bits size r :
  existsb isxdigit r = true -> existsb stray (drop_nonhex r) = false ->
  4 * Z.of_nat (List.length (digits_of r)) <= INT_MAX ->
  exists m, parse_rev size r = (0, m) /\
    forall i, 0 <= i ->
      Z.testbit m i = (i <? 8 * size) && Z.testbit (hexval_rev (digits_of r)) i.
Proof.
  intros Hx Hs Hlen. unfold parse_rev.
  destruct (drop_nonhex r) as [|c r'] eqn:Hd.
  { apply drop_nonhex_nil in Hd. congruence. }
  rewrite <- (digits_of_drop_nonhex r), Hd in Hlen.
  destruct (scan_list_bits (c :: r') 0 size 0 Hs) as (m & -> & Hm); [lia|lia|].
  exists m. split; [done|]. intros i Hi. rewrite Hm, Z.bits_0, Z.sub_0_r.
  rewrite <- Hd, digits_of_drop_nonhex.
  rewrite (proj2 (Z.leb_le 0 i) Hi). reflexivity.
Qed.

Lemma hexval_rev_nth ds j k :
  Forall (fun d => 0 <= d < 16) ds -> 0 <= j -> 0 <= k < 4 ->
  Z.testbit (hexval_rev ds) (4 * j + k) = Z.testbit (nth (Z.to_nat j) ds 0) k.
Proof.
  intros Hds. revert j. induction Hds as [|d ds Hd Hds IH]; intros j Hj Hk.
  - simpl. destruct (Z.to_nat j); by rewrite !Z.bits_0.
  - rewrite hexval_rev_cons_bits by lia.
    destruct (Z.eq_dec j 0) as [->|Hne].
    + replace (4 * 0 + k) with k by lia.
      destruct (Z.ltb_spec k 4); [done|lia].
    + destruct (Z.ltb_spec (4 * j + k) 4); [lia|].
      replace (4 * j + k - 4) with (4 * (j - 1) + k) by lia.
      rewrite IH by lia.
      replace (Z.to_nat j) with (S (Z.to_nat (j - 1))) by lia. done.
Qed.

(** Letter case *)
Lemma tolower_class c :
  isxdigit (tolower c) = isxdigit c
  /\ char_to_val (tolower c) = char_to_val c
  /\ Ascii.eqb (tolower c) comma = Ascii.eqb c comma.
Proof. destruct c as [[] [] [] [] [] [] [] []]; vm_compute; done. Qed.

Lemma tolower_eq_class c c' : tolower c = tolower c' ->
  isxdigit c = isxdigit c' /\ char_to_val c = char_to_val c'
  /\ Ascii.eqb c comma = Ascii.eqb c' comma.
Proof.
  intros H. destruct (tolower_class c) as (<- & <- & <-).
  destruct (tolower_class c') as (<- & <- & <-). by rewrite H.
Qed.

Lemma scan_list_case r r' cpu size m :
  map tolower r = map tolower r' ->
  scan_list r cpu size m = scan_list r' cpu size m.
Proof.
  revert r' cpu m. induction r as [|c r IH]; intros [|c' r'] cpu m H;
    try done.
  simpl in H. injection H as Hc Hr.
  apply tolower_eq_class in Hc as (Hx & Hv & Hcm).
  cbn [scan_list]. rewrite Hx, Hv, Hcm.
  destruct (Ascii.eqb c' comma); [by apply IH|].
  destruct (negb _); [done|].
  destruct (set_digit_bits _ _ _ _ _). by apply IH.
Qed.

Lemma drop_nonhex_case r r' :
  map tolower r = map tolower r' ->
  map tolower (drop_nonhex r) = map tolower (drop_nonhex r').
Proof.
  revert r'. induction r as [|c r IH]; intros [|c' r'] H; try done.
  pose proof H as H'. simpl in H'. injection H' as Hc Hr.
  apply tolower_eq_class in Hc as (Hx & _). simpl. rewrite Hx.
  destruct (isxdigit c'); [done|by apply IH].
Qed.

Lemma parse_rev_case size r r' :
  map tolower r = map tolower r' -> parse_rev size r = parse_rev size r'.
Proof.
  intros H. apply drop_nonhex_case in H. unfold parse_rev.
  destruct (drop_nonhex r) as [|c l], (drop_nonhex r') as [|c' l'];
    try done.
  by rewrite (scan_list_case _ _ _ _ _ H).
Qed.

(** ** The parser on strings *)

Lemma chars_length s : List.length (chars s) = String.length s.
Proof. induction s as [|a s IH]; simpl; [done|by rewrite IH]. Qed.

Lemma chars_app s t : chars (s +:+ t) = chars s ++ chars t.
Proof. induction s as [|a s IH]; simpl; [done|by rewrite IH]. Qed.

Lemma stray_drop_nonhex r :
  existsb stray r = false -> existsb stray (drop_nonhex r) = false.
Proof.
  induction r as [|c r IH]; simpl; [done|].
  intros [H1 H2]%orb_false_iff. destruct (isxdigit c); simpl; [|auto].
  by rewrite H1, H2.
Qed.

Lemma well_formed_spec b :
  well_formed b = true -> existsb isxdigit b = true /\ existsb stray b = false.
Proof.
  unfold well_formed. intros [H1 H2]%andb_true_iff. split; [done|].
  clear H2. induction b as [|c b IH]; simpl in *; [done|].
  apply andb_true_iff in H1 as [Hc Hb]. rewrite IH by done.
  unfold stray. destruct (isxdigit c), (Ascii.eqb c comma); done.
Qed.

Lemma drop_nonhex_app_nohex t r :
  existsb isxdigit t = false -> drop_nonhex (t ++ r) = drop_nonhex r.
Proof.
  induction t as [|c t IH]; simpl; [done|].
  intros [-> H2]%orb_false_iff. auto.
Qed.

Lemma scan_list_commas r cpu size m :
  scan_list (List.filter (fun c => negb (Ascii.eqb c comma)) r) cpu size m
  = scan_list r cpu size m.
Proof.
  revert cpu m. induction r as [|c r IH]; intros cpu m; [done|].
  cbn [List.filter scan_list].
  destruct (Ascii.eqb c comma) eqn:E; cbn [negb]; [apply IH|].
  cbn [scan_list]. rewrite E. destruct (negb _); [done|].
  destruct (set_digit_bits _ _ _ _ _). apply IH.
Qed.

Lemma parse_rev_commas size r :
  parse_rev size (List.filter (fun c => negb (Ascii.eqb c comma)) r)
  = parse_rev size r.
Proof.
  unfold parse_rev. induction r as [|c r IH]; [done|].
  cbn [List.filter].
  destruct (Ascii.eqb c comma) eqn:E; cbn [negb].
  - apply Ascii.eqb_eq in E as ->. apply IH.
  - cbn [drop_nonhex]. destruct (isxdigit c) eqn:Ex; [|apply IH].
    pose proof (scan_list_commas (c :: r) 0 size 0) as Hs.
    cbn [List.filter] in Hs. rewrite E in Hs. cbn [negb] in Hs.
    by rewrite Hs.
Qed.

Lemma filter_rev' {A} (f : A -> bool) l :
  List.filter f (rev l) = rev (List.filter f l).
Proof.
  induction l as [|a l IH]; simpl; [done|].
  rewrite List.filter_app, IH. simpl. destruct (f a); simpl; [done|].
  by rewrite app_nil_r.
Qed.

Lemma parse_fails_iff cpumask size buf :
  fst (topology_cpumask_parse cpumask size buf) <> 0
  <-> has_xdigit (chars buf) = false
      \/ existsb stray (upto_last_xdigit (chars buf)) = true.
Proof.
  rewrite parse_parse_rev, parse_rev_fails.
  unfold upto_last_xdigit, has_xdigit. by rewrite !existsb_rev.
Qed.

(** C1, for a destination of [size] bytes.  On a well-formed kernel
    bitmask string (hex digits and commas, with at least one hex digit;
    fewer than 2^29 hex digits, so that the [int] bit counter does not
    overflow) [topology_cpumask_parse] returns 0, and bit [4*j+k], for
    [k] in 0..3, of the resulting set is bit [k] of the value of the
    [j]-th hex digit from the end (counting hex digits only) as long as
    [4*j+k] is below [8*size]; no bit at or above [8*size] is set.  The
    result does not depend on the case of the letters. *)
Theorem cpumask_parse_well_formed cpumask size buf :
  well_formed (chars buf) = true ->
  Z.of_nat (List.length (xdigits_rev (chars buf))) < 2^29 ->
  fst (topology_cpumask_parse cpumask size buf) = 0
  /\ (forall j k, 0 <= j -> 0 <= k < 4 ->
        Z.testbit (snd (topology_cpumask_parse cpumask size buf)) (4 * j + k)
        = (4 * j + k <? 8 * size)
          && Z.testbit (nth (Z.to_nat j) (xdigits_rev (chars buf)) 0) k)
  /\ (forall buf', same_modulo_case buf' buf ->
        topology_cpumask_parse cpumask size buf'
        = topology_cpumask_parse cpumask size buf).
Proof.
  intros Hwf Hlen. apply well_formed_spec in Hwf as [Hx Hs].
  rewrite parse_parse_rev.
  destruct (parse_rev_bits size (rev (chars buf))) as (m & Hp & Hm).
  - by rewrite existsb_rev.
  - apply stray_drop_nonhex. by rewrite existsb_rev.
  - unfold xdigits_rev in Hlen. unfold digits_of, INT_MAX. lia.
  - rewrite Hp. split; [done|]. split.
    + intros j k Hj Hk. simpl. rewrite Hm by lia. f_equal.
      apply hexval_rev_nth; [apply digits_of_range|done..].
    + intros buf' Hc. rewrite parse_parse_rev, <- Hp.
      apply parse_rev_case. unfold same_modulo_case in Hc.
      by rewrite !map_rev, Hc.
Qed.

Lemma cpumask_parse_well_formed_witness :
  well_formed (chars "0000000a,80000001") = true
  /\ fst (topology_cpumask_parse 0 8 "0000000a,80000001") = 0.
Proof.
  split; [reflexivity|].
  apply (cpumask_parse_well_formed 0 8 "0000000a,80000001");
    [reflexivity| vm_compute; reflexivity].
Defined.

Lemma cpumask_parse_width_cex :
  well_formed (chars "10000000000000000") = true
  /\ fst (topology_cpumask_parse 0 8 "10000000000000000") = 0
  /\ Z.testbit (nth 16 (xdigits_rev (chars "10000000000000000")) 0) 0 = true
  /\ Z.testbit (snd (topology_cpumask_parse 0 8 "10000000000000000"))
       (4 * 16 + 0) = false
  /\ CPU_ISSET_S (4 * 16 + 0) 8
       (snd (topology_cpumask_parse 0 8 "10000000000000000")) = false.
Proof. vm_compute. done. Qed.

(** C2, with the region the code scans.  [topology_cpumask_parse]
    returns non-zero if and only if the string has no hex digit, or a
    character that is neither a hex digit nor a comma occurs anywhere
    before the last hex digit of the string (before the first hex digit
    too); whenever it returns non-zero the destination set is all
    zero. *)
Theorem cpumask_parse_failure cpumask size buf :
  (fst (topology_cpumask_parse cpumask size buf) <> 0
   <-> has_xdigit (chars buf) = false
       \/ existsb stray (upto_last_xdigit (chars buf)) = true)
  /\ (fst (topology_cpumask_parse cpumask size buf) <> 0 ->
      snd (topology_cpumask_parse cpumask size buf) = 0).
Proof.
  split; [apply parse_fails_iff|].
  rewrite parse_parse_rev. apply parse_rev_fail_zero.
Qed.

Lemma cpumask_parse_failure_witness :
  fst (topology_cpumask_parse 5 8 "1g0") <> 0
  /\ snd (topology_cpumask_parse 5 8 "1g0") = 0.
Proof.
  assert (H : fst (topology_cpumask_parse 5 8 "1g0") <> 0)
    by (vm_compute; lia).
  split; [exact H|].
  exact (proj2 (cpumask_parse_failure 5 8 "1g0") H).
Defined.

Lemma cpumask_parse_failure_cex :
  fst (topology_cpumask_parse 0 8 "x1") <> 0
  /\ has_xdigit (chars "x1") = true
  /\ existsb stray (digit_region (chars "x1")) = false.
Proof. vm_compute. done. Qed.

(** C10, with the region the code scans.  The parser does not enforce
    groups of eight digits: it succeeds on every string with a hex digit
    in which only hex digits and commas occur up to the last hex digit;
    any text without hex digits that follows the last hex digit is
    ignored; and commas, wherever they are, do not change the result. *)
Theorem cpumask_parse_lenient cpumask size buf :
  has_xdigit (chars buf) = true ->
  existsb stray (upto_last_xdigit (chars buf)) = false ->
  fst (topology_cpumask_parse cpumask size buf) = 0
  /\ (forall t, has_xdigit (chars t) = false ->
        topology_cpumask_parse cpumask size (buf +:+ t)
        = topology_cpumask_parse cpumask size buf)
  /\ topology_cpumask_parse cpumask size (remove_commas buf)
     = topology_cpumask_parse cpumask size buf.
Proof.
  intros Hx Hs. split; [|split].
  - destruct (Z.eq_dec (fst (topology_cpumask_parse cpumask size buf)) 0)
      as [|Hne]; [done|].
    apply parse_fails_iff in Hne as [?|?]; congruence.
  - intros t Ht. rewrite !parse_parse_rev, chars_app, rev_app_distr.
    unfold parse_rev. rewrite drop_nonhex_app_nohex; [done|].
    by rewrite existsb_rev.
  - rewrite !parse_parse_rev. unfold remove_commas.
    rewrite list_ascii_of_string_of_list_ascii, <- filter_rev'.
    apply parse_rev_commas.
Qed.

Lemma cpumask_parse_lenient_witness :
  has_xdigit (chars "f,,1") = true
  /\ existsb stray (upto_last_xdigit (chars "f,,1")) = false
  /\ topology_cpumask_parse 0 8 "f,,1" = (0, 241)
  /\ topology_cpumask_parse 0 8 ("f,,1" +:+ " zz")
     = topology_cpumask_parse 0 8 "f,,1".
Proof.
  split; [reflexivity|]. split; [reflexivity|]. split; [reflexivity|].
  apply (cpumask_parse_lenient 0 8 "f,,1"); reflexivity.
Defined.

Lemma cpumask_parse_lenient_cex :
  existsb stray (digit_region (chars " f")) = false
  /\ has_xdigit (chars " f") = true
  /\ fst (topology_cpumask_parse 0 8 " f") <> 0.
Proof. vm_compute. done. Qed.

(** * The formatter of the [cpumasks] tool *)

(** ** Texts made of hex digits *)

Lemma digits_of_app a b : digits_of (a ++ b) = digits_of a ++ digits_of b.
Proof. unfold digits_of. by rewrite List.filter_app, map_app. Qed.

Lemma digits_of_rev l : digits_of (rev l) = rev (digits_of l).
Proof. unfold digits_of. by rewrite filter_rev', map_rev. Qed.

Lemma hexval_rev_app a b :
  hexval_rev (a ++ b) = hexval_rev a + 16 ^ Z.of_nat (List.length a) * hexval_rev b.
Proof.
  induction a as [|d a IH]; [simpl; lia|].
  cbn [app hexval_rev List.length]. rewrite IH, Nat2Z.inj_succ, Z.pow_succ_r by lia.
  lia.
Qed.

Lemma text_value_app a b :
  text_value (a ++ b) = text_value a * 16 ^ Z.of_nat (text_digits b) + text_value b.
Proof.
  unfold text_value, text_digits.
  rewrite rev_app_distr, digits_of_app, hexval_rev_app.
  rewrite (digits_of_rev b), length_rev. lia.
Qed.

Lemma text_digits_app a b : text_digits (a ++ b) = (text_digits a + text_digits b)%nat.
Proof. unfold text_digits. by rewrite digits_of_app, length_app. Qed.

Lemma existsb_stray_app a b :
  existsb stray (a ++ b) = existsb stray a || existsb stray b.
Proof. apply existsb_app. Qed.

(** *** Hexadecimal digits *)

Lemma hex_digit_class d : 0 <= d < 16 ->
  isxdigit (hex_digit d) = true /\ char_to_val (hex_digit d) = d
  /\ stray (hex_digit d) = false.
Proof.
  intros H.
  assert (d = 0 \/ d = 1 \/ d = 2 \/ d = 3 \/ d = 4 \/ d = 5 \/ d = 6 \/ d = 7
          \/ d = 8 \/ d = 9 \/ d = 10 \/ d = 11 \/ d = 12 \/ d = 13 \/ d = 14
          \/ d = 15) as Hd by lia.
  repeat (destruct Hd as [->|Hd]; [by vm_compute|]). subst. by vm_compute.
Qed.

Lemma hex_digits_rev_spec n v : 0 <= v < 16 ^ Z.of_nat n ->
  hexval_rev (digits_of (hex_digits_rev n v)) = v
  /\ existsb stray (hex_digits_rev n v) = false
  /\ (text_digits (hex_digits_rev n v) = List.length (hex_digits_rev n v))
  /\ (List.length (hex_digits_rev n v) <= n)%nat
  /\ (0 < v -> hex_digits_rev n v <> []).
Proof.
  revert v. induction n as [|n IH]; intros v Hv.
  - simpl in *. assert (v = 0) as -> by lia. repeat split; done || lia.
  - cbn [hex_digits_rev]. destruct (Z.eqb_spec v 0) as [->|Hne].
    { repeat split; simpl; done || lia. }
    rewrite Nat2Z.inj_succ, Z.pow_succ_r in Hv by lia.
    pose proof (Z.div_mod v 16 ltac:(lia)) as Hdm.
    pose proof (Z.mod_pos_bound v 16 ltac:(lia)) as Hm.
    destruct (IH (v / 16)) as (H1 & H2 & H3 & H4 & _); [lia|].
    destruct (hex_digit_class (v mod 16) Hm) as (Hx & Hval & Hs).
    unfold digits_of, text_digits, digits_of in *.
    cbn [List.filter existsb]. rewrite Hx, Hs. cbn [map hexval_rev List.length orb].
    rewrite Hval, H1, H3. repeat split; try done; lia.
Qed.

Lemma digits_of_zeros k :
  digits_of (repeat "0"%char k) = repeat 0 k.
Proof. induction k as [|k IH]; [done|]. unfold digits_of in *. simpl. by rewrite IH. Qed.

Lemma hexval_rev_zeros k : hexval_rev (repeat 0 k) = 0.
Proof. induction k as [|k IH]; simpl; lia. Qed.

Lemma existsb_stray_zeros k : existsb stray (repeat "0"%char k) = false.
Proof. induction k as [|k IH]; [done|]. simpl. by rewrite IH. Qed.

Lemma sprintf_x_spec width v : 0 <= v < 2^32 ->
  text_value (sprintf_x width v) = v
  /\ existsb stray (sprintf_x width v) = false
  /\ text_digits (sprintf_x width v) = List.length (sprintf_x width v)
  /\ (1 <= List.length (sprintf_x width v) <= Nat.max width 8)%nat.
Proof.
  intros Hv. destruct (hex_digits_rev_spec 8 v Hv) as (H1 & H2 & H3 & H4 & H5).
  unfold sprintf_x.
  set (ds := match rev (hex_digits_rev 8 v) with [] => ["0"%char] | l => l end).
  assert (Hds : text_value ds = v /\ existsb stray ds = false
                /\ text_digits ds = List.length ds
                /\ (1 <= List.length ds <= 8)%nat).
  { unfold ds. destruct (Z.eq_dec v 0) as [->|Hne].
    { vm_compute. repeat split; (done || lia). }
    destruct (rev (hex_digits_rev 8 v)) as [|c l] eqn:E.
    - exfalso. apply H5; [lia|].
      apply (f_equal (@rev _)) in E. by rewrite rev_involutive in E.
    - rewrite <- E. unfold text_value. rewrite rev_involutive, H1.
      rewrite existsb_rev, H2. unfold text_digits in *.
      rewrite digits_of_rev, !length_rev, H3.
      apply (f_equal (@List.length _)) in E. rewrite length_rev in E.
      cbn [List.length] in E. repeat split; try done; lia. }
  clearbody ds. destruct Hds as (D1 & D2 & D3 & D4).
  rewrite text_value_app, existsb_stray_app, text_digits_app, length_app.
  rewrite existsb_stray_zeros, D2, D1, D3.
  unfold text_value, text_digits.
  rewrite digits_of_rev, !digits_of_zeros, rev_repeat, hexval_rev_zeros.
  rewrite !repeat_length. repeat split; try done; lia.
Qed.

(** ** The words of a CPU set *)

Lemma shift_add_uint ret i : 0 <= i < 32 -> 0 <= ret < 2 ^ i ->
  (ret + wrap_int (Z.shiftl 1 i)) mod 2^32 = ret + 2 ^ i.
Proof.
  intros Hi Hret. rewrite Z.shiftl_1_l.
  assert (2 ^ i <= 2 ^ 31) by (apply Z.pow_le_mono_r; lia).
  destruct (Z.eq_dec i 31) as [->|Hne].
  - change (wrap_int (2 ^ 31)) with (- 2 ^ 31).
    replace (ret + - 2 ^ 31) with (ret + 2 ^ 31 + (-1) * 2 ^ 32) by lia.
    rewrite Z.mod_add by lia. apply Z.mod_small. lia.
  - assert (2 ^ i <= 2 ^ 30) by (apply Z.pow_le_mono_r; lia).
    rewrite wrap_int_small by ilia. apply Z.mod_small. lia.
Qed.

Lemma mod_pow2_succ x i : 0 <= i ->
  x mod 2 ^ (i + 1) = x mod 2 ^ i + 2 ^ i * Z.b2z (Z.testbit x i).
Proof.
  intros Hi. rewrite Z.pow_add_r by lia. change (2 ^ 1) with 2.
  rewrite Z.rem_mul_r by lia. by rewrite Z.testbit_spec'.
Qed.

Lemma cpuset_to_uint_loop_spec n i ret cpumask size index :
  0 <= i -> i + Z.of_nat n <= 32 -> 0 <= index ->
  32 * index + 32 <= 8 * size -> 8 * size <= INT_MAX ->
  ret = (cpumask / 2 ^ (32 * index)) mod 2 ^ i ->
  cpuset_to_uint_loop n i ret cpumask size index
  = (cpumask / 2 ^ (32 * index)) mod 2 ^ (i + Z.of_nat n).
Proof.
  revert i ret. induction n as [|n IH]; intros i ret Hi Hn Hidx Hsz Hmax Hret.
  - simpl. by rewrite Z.add_0_r.
  - cbn [cpuset_to_uint_loop]. rewrite Nat2Z.inj_succ in *.
    rewrite (wrap_int_small (index * 32)) by ilia.
    rewrite (wrap_int_small (i + index * 32)) by ilia.
    rewrite CPU_ISSET_S_bit by ilia.
    replace (i + index * 32 <? 8 * size) with true by (symmetry; apply Z.ltb_lt; lia).
    cbn [andb].
    replace (i + Z.succ (Z.of_nat n)) with ((i + 1) + Z.of_nat n) by lia.
    apply IH; try lia.
    rewrite mod_pow2_succ by lia.
    rewrite Z.div_pow2_bits by lia.
    replace (i + 32 * index) with (i + index * 32) by lia.
    pose proof (Z.mod_pos_bound (cpumask / 2 ^ (32 * index)) (2 ^ i)
                  ltac:(apply Z.pow_pos_nonneg; lia)) as Hb.
    destruct (Z.testbit cpumask (i + index * 32)); cbn [Z.b2z].
    + rewrite shift_add_uint by lia. lia.
    + lia.
Qed.

Lemma cpuset_to_uint_spec cpumask size index :
  0 <= index -> 32 * index + 32 <= 8 * size -> 8 * size <= INT_MAX ->
  cpuset_to_uint cpumask size index = (cpumask / 2 ^ (32 * index)) mod 2 ^ 32.
Proof.
  intros. unfold cpuset_to_uint.
  rewrite (cpuset_to_uint_loop_spec 32 0 0); try done; try lia.
  by rewrite Z.mod_1_r.
Qed.

Lemma mod_pow2_word m n : 0 <= n ->
  m mod 2 ^ (32 * (n + 1))
  = m mod 2 ^ (32 * n) + 2 ^ (32 * n) * ((m / 2 ^ (32 * n)) mod 2 ^ 32).
Proof.
  intros Hn. replace (32 * (n + 1)) with (32 * n + 32) by lia.
  rewrite Z.pow_add_r by lia. apply Z.rem_mul_r; [|lia].
  apply Z.pow_nonzero; lia.
Qed.

Lemma text_comma buf :
  text_value (buf ++ [","%char]) = text_value buf
  /\ text_digits (buf ++ [","%char]) = text_digits buf
  /\ existsb stray (buf ++ [","%char]) = existsb stray buf.
Proof.
  rewrite text_value_app, text_digits_app, existsb_stray_app.
  change (text_digits [","%char]) with 0%nat.
  change (text_value [","%char]) with 0.
  change (existsb stray [","%char]) with false.
  rewrite orb_false_r. split; [simpl; lia|split; [lia|done]].
Qed.

(** The printing loop. *)
Lemma format_words_spec n cpumask size commas seen buf :
  32 * Z.of_nat n <= 8 * size -> 8 * size <= INT_MAX ->
  existsb stray buf = false ->
  (seen = false -> buf = []) ->
  (seen = true -> existsb isxdigit buf = true) ->
  exists seen' buf',
    format_words n cpumask size commas seen buf = (seen', buf')
    /\ (seen = true -> seen' = true)
    /\ existsb stray buf' = false
    /\ (seen' = false -> buf' = [] /\ cpumask mod 2 ^ (32 * Z.of_nat n) = 0)
    /\ (seen' = true -> existsb isxdigit buf' = true)
    /\ text_value buf'
       = text_value buf * 2 ^ (32 * Z.of_nat n)
         + cpumask mod 2 ^ (32 * Z.of_nat n)
    /\ (text_digits buf' <= text_digits buf + 8 * n)%nat.
Proof.
  revert seen buf. induction n as [|n IH]; intros seen buf Hn Hmax Hs Hnil Hdig.
  - exists seen, buf. cbn [format_words].
    change (2 ^ (32 * Z.of_nat 0)) with 1. rewrite Z.mod_1_r.
    split; [done|]. split; [done|]. split; [done|].
    split; [intros ->; split; [by apply Hnil|done]|].
    split; [done|]. split; lia.
  - cbn [format_words]. rewrite Nat2Z.inj_succ in *.
    rewrite (wrap_int_small (Z.of_nat n)) by ilia.
    rewrite cpuset_to_uint_spec by lia.
    replace (Z.succ (Z.of_nat n)) with (Z.of_nat n + 1) by lia.
    rewrite mod_pow2_word by lia.
    set (word := (cpumask / 2 ^ (32 * Z.of_nat n)) mod 2 ^ 32).
    assert (Hw : 0 <= word < 2 ^ 32) by (apply Z.mod_pos_bound; lia).
    assert (Hp : 2 ^ (32 * (Z.of_nat n + 1)) = 2 ^ 32 * 2 ^ (32 * Z.of_nat n)).
    { rewrite <- Z.pow_add_r by lia. f_equal. lia. }
    rewrite Hp.
    destruct (Z.eqb_spec word 0) as [Hw0|Hw0]; destruct seen; cbn [negb andb].
    + (* a zero word after the first non-zero one *)
      destruct (sprintf_x_spec 8 word Hw) as (V & S & D & L).
      set (buf1 := buf ++ sprintf_x 8 word).
      set (buf2 := if negb (Z.of_nat n =? 0) && negb (commas =? 0)
                   then buf1 ++ [","%char] else buf1).
      assert (H1 : text_value buf1 = text_value buf * 2 ^ 32 + word
                   /\ existsb stray buf1 = false
                   /\ existsb isxdigit buf1 = true
                   /\ (text_digits buf1 <= text_digits buf + 8)%nat).
      { unfold buf1. rewrite text_value_app, existsb_stray_app, existsb_app,
          text_digits_app, V, S, Hs, D, (Hdig eq_refl).
        assert (List.length (sprintf_x 8 word) = 8%nat) as ->.
        { unfold sprintf_x in *. rewrite length_app, repeat_length in *. lia. }
        repeat split; try done; lia. }
      destruct H1 as (V1 & S1 & X1 & D1).
      assert (H2 : text_value buf2 = text_value buf1
                   /\ existsb stray buf2 = false
                   /\ existsb isxdigit buf2 = true
                   /\ text_digits buf2 = text_digits buf1).
      { unfold buf2. destruct (negb _ && negb _); [|done].
        destruct (text_comma buf1) as (-> & -> & ->).
        rewrite existsb_app, X1. done. }
      destruct H2 as (V2 & S2 & X2 & D2).
      destruct (IH true buf2)
        as (seen' & buf' & -> & P0 & P1 & P2 & P3 & P4 & P5);
        [lia|lia|done|done|done|].
      exists seen', buf'. split; [done|]. split; [done|]. split; [done|].
      split. { intros Hf. rewrite (P0 eq_refl) in Hf. done. }
      split; [done|]. split; [rewrite P4, V2, V1; lia|lia].
    + (* leading zero word: nothing is printed *)
      destruct (IH false buf)
        as (seen' & buf' & -> & P0 & P1 & P2 & P3 & P4 & P5);
        [lia|lia|done|done|done|].
      exists seen', buf'. split; [done|]. split; [done|]. split; [done|].
      rewrite (Hnil eq_refl) in *. change (text_value []) with 0 in *.
      split. { intros Hf. destruct (P2 Hf) as [-> E]. split; [done|lia]. }
      split; [done|]. split; [rewrite P4; lia|lia].
    + (* a non-zero word after the first *)
      destruct (sprintf_x_spec 8 word Hw) as (V & S & D & L).
      set (buf1 := buf ++ sprintf_x 8 word).
      set (buf2 := if negb (Z.of_nat n =? 0) && negb (commas =? 0)
                   then buf1 ++ [","%char] else buf1).
      assert (H1 : text_value buf1 = text_value buf * 2 ^ 32 + word
                   /\ existsb stray buf1 = false
                   /\ existsb isxdigit buf1 = true
                   /\ (text_digits buf1 <= text_digits buf + 8)%nat).
      { unfold buf1. rewrite text_value_app, existsb_stray_app, existsb_app,
          text_digits_app, V, S, Hs, D, (Hdig eq_refl).
        assert (List.length (sprintf_x 8 word) = 8%nat) as ->.
        { unfold sprintf_x in *. rewrite length_app, repeat_length in *. lia. }
        repeat split; try done; lia. }
      destruct H1 as (V1 & S1 & X1 & D1).
      assert (H2 : text_value buf2 = text_value buf1
                   /\ existsb stray buf2 = false
                   /\ existsb isxdigit buf2 = true
                   /\ text_digits buf2 = text_digits buf1).
      { unfold buf2. destruct (negb _ && negb _); [|done].
        destruct (text_comma buf1) as (-> & -> & ->).
        rewrite existsb_app, X1. done. }
      destruct H2 as (V2 & S2 & X2 & D2).
      destruct (IH true buf2)
        as (seen' & buf' & -> & P0 & P1 & P2 & P3 & P4 & P5);
        [lia|lia|done|done|done|].
      exists seen', buf'. split; [done|]. split; [done|]. split; [done|].
      split. { intros Hf. rewrite (P0 eq_refl) in Hf. done. }
      split; [done|]. split; [rewrite P4, V2, V1; lia|lia].
    + (* the first non-zero word *)
      destruct (sprintf_x_spec 0 word Hw) as (V & S & D & L).
      rewrite (Hnil eq_refl) in *. cbn [app].
      set (buf1 := sprintf_x 0 word).
      set (buf2 := if negb (Z.of_nat n =? 0) && negb (commas =? 0)
                   then buf1 ++ [","%char] else buf1).
      assert (X1 : existsb isxdigit buf1 = true).
      { unfold buf1. unfold text_digits, digits_of in D.
        rewrite length_map in D.
        destruct (sprintf_x 0 word) as [|c l] eqn:E; [simpl in L; lia|].
        cbn [List.filter existsb List.length] in *.
        destruct (isxdigit c); [done|]. exfalso.
        pose proof (List.filter_length_le isxdigit l). lia. }
      assert (H2 : text_value buf2 = text_value buf1
                   /\ existsb stray buf2 = false
                   /\ existsb isxdigit buf2 = true
                   /\ text_digits buf2 = text_digits buf1).
      { unfold buf2. destruct (negb _ && negb _); [|done].
        destruct (text_comma buf1) as (-> & -> & ->).
        rewrite existsb_app, X1. done. }
      destruct H2 as (V2 & S2 & X2 & D2).
      destruct (IH true buf2)
        as (seen' & buf' & -> & P0 & P1 & P2 & P3 & P4 & P5);
        [lia|lia|done|done|done|].
      exists seen', buf'. split; [done|]. split; [done|]. split; [done|].
      split. { intros Hf. rewrite (P0 eq_refl) in Hf. done. }
      split; [done|]. change (text_value []) with 0.
      split; [rewrite P4, V2; unfold buf1; rewrite V; lia|].
      rewrite D2 in P5. unfold buf1 in P5. rewrite D in P5.
      change (text_digits []) with 0%nat. lia.
Qed.

(** ** Parsing what the formatter prints *)

(** C8.  For a width [W] that is a positive multiple of 4 bytes (below
    2^28 bytes, the range in which the [int] bit indices of the two
    functions do not overflow) and every bit pattern [m] over [0, 8W),
    [topology_cpumask_parse] succeeds on the string printed by
    [format_cpuset], with or without commas between the 32-bit groups,
    and gives back exactly [m]. *)
Theorem format_parse_roundtrip (W m commas cpumask0 : Z) :
  0 < W -> W mod 4 = 0 -> W < 2^28 -> 0 <= m < 2 ^ (8 * W) ->
  topology_cpumask_parse cpumask0 W (format_cpuset m W commas) = (0, m).
Proof.
  intros HW H4 Hmax Hm.
  pose proof (Z.div_mod W 4 ltac:(lia)) as Hdiv. rewrite H4 in Hdiv.
  unfold format_cpuset, bytes_per_word.
  set (nwords := if 4 <? W then W / 4 else 1).
  assert (Hn : nwords = W / 4).
  { unfold nwords. destruct (Z.ltb_spec 4 W); [done|].
    assert (W = 4) as -> by lia. done. }
  assert (Hbits : 32 * Z.of_nat (Z.to_nat nwords) = 8 * W) by lia.
  destruct (format_words_spec (Z.to_nat nwords) m W commas false [])
    as (seen & buf & -> & _ & S & F & X & V & D);
    [lia|ilia|done|done|done|].
  rewrite Hbits in *. rewrite (Z.mod_small m) in * by lia.
  change (text_value []) with 0 in V. change (text_digits []) with 0%nat in D.
  set (text := if seen then buf else buf ++ ["0"%char]).
  assert (Ht : text_value text = m /\ existsb stray text = false
               /\ existsb isxdigit text = true
               /\ (Z.of_nat (text_digits text) <= 2 * W)).
  { unfold text. destruct seen.
    - rewrite V, S, (X eq_refl). repeat split; try done; lia.
    - destruct (F eq_refl) as [-> ->]. cbn [app].
      split; [done|]. split; [done|]. split; [done|].
      change (text_digits ["0"%char]) with 1%nat. lia. }
  clearbody text. destruct Ht as (T1 & T2 & T3 & T4).
  rewrite parse_parse_rev, list_ascii_of_string_of_list_ascii.
  destruct (parse_rev_bits W (rev text)) as (mr & -> & Hmr).
  - by rewrite existsb_rev.
  - apply stray_drop_nonhex. by rewrite existsb_rev.
  - unfold text_digits in T4. rewrite digits_of_rev, length_rev. ilia.
  - f_equal. apply Z.bits_inj'. intros i Hi. rewrite (Hmr i Hi).
    fold (text_value text). rewrite T1.
    destruct (Z.ltb_spec i (8 * W)); [done|]. cbn [andb].
    rewrite <- (Z.mod_small m (2 ^ (8 * W))) by lia.
    by rewrite Z.mod_pow2_bits_high by lia.
Qed.

Lemma format_parse_roundtrip_witness :
  0 < 8 /\ 8 mod 4 = 0 /\ 8 < 2^28 /\ 0 <= 45097156609 < 2 ^ (8 * 8)
  /\ format_cpuset 45097156609 8 1 = "a,80000001"%string
  /\ topology_cpumask_parse 0 8 (format_cpuset 45097156609 8 1)
     = (0, 45097156609).
Proof.
  split; [lia|]. split; [reflexivity|]. split; [lia|]. split; [lia|].
  split; [reflexivity|].
  apply (format_parse_roundtrip 8 45097156609 1 0); [lia|reflexivity|lia|lia].
Defined.

(** ** Beyond 2^28 bytes *)

Lemma cpuset_to_uint_loop_clear cpumask size index (n : nat) : forall i ret,
  (forall j, i <= j < i + Z.of_nat n ->
     CPU_ISSET_S (wrap_int (j + wrap_int (index * 32))) size cpumask = false) ->
  cpuset_to_uint_loop n i ret cpumask size index = ret.
Proof.
  induction n as [|n IH]; intros i ret H; [done|].
  cbn [cpuset_to_uint_loop]. rewrite H by lia.
  apply IH. intros j Hj. apply H. lia.
Qed.

(** In a set of [2^28 + 4] bytes the last word has index [2^26]: the
    [int] product [index * nbits] overflows and [cpuset_to_uint] reads
    the word as zero.  A pattern without a bit below [2^31] is printed
    as "0". *)
Lemma cpuset_to_uint_high cpumask W index :
  W = 2^28 + 4 -> 0 <= index <= 2^26 ->
  (forall b, 0 <= b < 2^31 -> Z.testbit cpumask b = false) ->
  cpuset_to_uint cpumask W index = 0.
Proof.
  intros HW Hi Hlow. unfold cpuset_to_uint.
  apply cpuset_to_uint_loop_clear. intros j Hj.
  change (Z.of_nat 32) with 32 in Hj.
  destruct (Z.eq_dec index (2^26)) as [->|Hne].
  - change (wrap_int (2^26 * 32)) with (- 2^31).
    rewrite wrap_int_small by (unfold INT_MAX; lia).
    unfold CPU_ISSET_S, to_size_t.
    assert ((j + - 2^31) mod 2^64 = j - 2^31 + 2^64) as ->.
    { clear Hlow. symmetry. apply (Z.mod_unique _ _ (-1)); lia. }
    replace ((j - 2^31 + 2^64) / 8 <? W) with false; [done|].
    symmetry. apply Z.ltb_ge. clear Hlow.
    apply Z.div_le_lower_bound; lia.
  - rewrite (wrap_int_small (index * 32)) by (unfold INT_MAX; lia).
    rewrite wrap_int_small by (unfold INT_MAX; lia).
    rewrite CPU_ISSET_S_bit by lia.
    rewrite Hlow by lia. apply andb_false_r.
Qed.

Lemma format_words_clear n cpumask size commas :
  (forall i : nat, (i < n)%nat ->
     cpuset_to_uint cpumask size (wrap_int (Z.of_nat i)) = 0) ->
  format_words n cpumask size commas false [] = (false, []).
Proof.
  induction n as [|n IH]; intros H; [done|].
  cbn [format_words]. rewrite H by lia. cbn [Z.eqb negb andb].
  apply IH. intros i Hi. apply H. lia.
Qed.

Lemma format_cpuset_high cpumask W commas :
  W = 2^28 + 4 ->
  (forall b, 0 <= b < 2^31 -> Z.testbit cpumask b = false) ->
  format_cpuset cpumask W commas = "0"%string.
Proof.
  intros HW Hlow. unfold format_cpuset, bytes_per_word.
  assert (Hn : (if 4 <? W then W / 4 else 1) = 2^26 + 1).
  { rewrite HW. reflexivity. }
  rewrite Hn.
  rewrite format_words_clear; [done|].
  intros i Hi. assert (Z.of_nat i <= 2^26) as Hle by lia.
  rewrite wrap_int_small by (unfold INT_MAX; lia).
  apply cpuset_to_uint_high; [done|lia|done].
Qed.

Lemma roundtrip_high m :
  (forall b, 0 <= b < 2^31 -> Z.testbit m b = false) -> 0 < m ->
  format_cpuset m (2^28 + 4) 1 = "0"%string
  /\ topology_cpumask_parse 0 (2^28 + 4) (format_cpuset m (2^28 + 4) 1)
     <> (0, m).
Proof.
  intros Hlow Hm.
  assert (Hfmt : format_cpuset m (2^28 + 4) 1 = "0"%string)
    by (by apply format_cpuset_high).
  split; [exact Hfmt|]. rewrite Hfmt.
  assert (Hparse : topology_cpumask_parse 0 (2^28 + 4) "0" = (0, 0))
    by (vm_compute; reflexivity).
  rewrite Hparse. intros [= H]. lia.
Qed.

Lemma format_parse_roundtrip_cex :
  0 < 2^28 + 4 /\ (2^28 + 4) mod 4 = 0
  /\ 0 <= 2 ^ (2^31) < 2 ^ (8 * (2^28 + 4))
  /\ format_cpuset (2 ^ (2^31)) (2^28 + 4) 1 = "0"%string
  /\ topology_cpumask_parse 0 (2^28 + 4)
       (format_cpuset (2 ^ (2^31)) (2^28 + 4) 1)
     <> (0, 2 ^ (2^31)).
Proof.
  split; [lia|]. split; [reflexivity|].
  split.
  { split; [apply Z.pow_nonneg; lia|apply Z.pow_lt_mono_r; lia]. }
  apply roundtrip_high.
  - intros b Hb. apply Z.pow2_bits_false. lia.
  - apply Z.pow_pos_nonneg; lia.
Qed.

(** * Invariants of the entity store *)

(** ** Basic facts *)

Lemma chain_fun h o l1 l2 : chain h o l1 -> chain h o l2 -> l1 = l2.
Proof.
  intros H1. revert l2. induction H1 as [|p e l He Hc IH]; intros l2 H2.
  - by inversion H2.
  - inversion H2 as [|p' e' l' He' Hc']; subst.
    rewrite He in He'. injection He' as <-. f_equal. by apply IH.
Qed.

Lemma chain_same_links h h' o l :
  same_links h h' -> chain h o l -> chain h' o l.
Proof.
  intros Hs. induction 1 as [|p e l He Hc IH]; [constructor|].
  destruct (Hs p e He) as (e' & He' & Hsib & _).
  econstructor; [done|]. by rewrite Hsib.
Qed.

Lemma ancestor_same_links h h' p a :
  same_links h h' -> ancestor h p a -> ancestor h' p a.
Proof.
  intros Hs. induction 1 as [|p e q a He Hp Ha IH]; [constructor|].
  destruct (Hs p e He) as (e' & He' & _ & Hpar).
  econstructor; [done| |done]. by rewrite Hpar.
Qed.

Lemma ancestor_trans h p q a : ancestor h p q -> ancestor h q a -> ancestor h p a.
Proof. induction 1; [done|]. intros. econstructor; eauto. Qed.

Lemma union_masks_cons h p l :
  union_masks h (p :: l) = Z.lor (mask_of h p) (union_masks h l).
Proof. reflexivity. Qed.

Lemma union_masks_ext h h' l :
  (forall p, p ∈ l -> mask_of h' p = mask_of h p) ->
  union_masks h' l = union_masks h l.
Proof.
  induction l as [|p l IH]; intros H; [done|]. simpl.
  rewrite H by set_solver. rewrite IH; [done|]. intros q Hq. apply H.
  set_solver.
Qed.

Lemma lor_absorb a b c : Z.lor (Z.lor a b) (Z.lor c b) = Z.lor (Z.lor a c) b.
Proof.
  apply Z.bits_inj'. intros n _. rewrite !Z.lor_spec.
  destruct (Z.testbit a n), (Z.testbit b n), (Z.testbit c n); done.
Qed.

Lemma union_masks_or h h' l p B :
  p ∈ l ->
  mask_of h' p = Z.lor (mask_of h p) B ->
  (forall q, q ∈ l -> q <> p -> mask_of h' q = mask_of h q) ->
  union_masks h' l = Z.lor (union_masks h l) B.
Proof.
  induction l as [|x l IH]; intros Hmem Hp Hother; [set_solver|].
  simpl. destruct (decide (x = p)) as [->|Hne].
  - rewrite Hp. destruct (decide (p ∈ l)) as [Hl|Hl].
    + rewrite IH; [|done|done|intros; apply Hother; set_solver].
      apply lor_absorb.
    + rewrite (union_masks_ext h h' l).
      * by rewrite <- !Z.lor_assoc, (Z.lor_comm B).
      * intros q Hq. apply Hother; set_solver.
  - rewrite (Hother x) by set_solver.
    rewrite IH; [|set_solver|done|intros; apply Hother; set_solver].
    by rewrite Z.lor_assoc.
Qed.

Lemma CPU_SET_S_lor bit size m :
  CPU_SET_S bit size m = Z.lor m (bit_pattern bit size).
Proof.
  unfold bit_pattern, CPU_SET_S. destruct (_ <? _); [done|].
  by rewrite Z.lor_0_r.
Qed.

Lemma bit_pattern_bits bit size b :
  Z.testbit (bit_pattern bit size) b = true -> to_size_t bit = b.
Proof.
  unfold bit_pattern, CPU_SET_S. destruct (_ <? _); [|by rewrite Z.bits_0].
  rewrite Z.lor_0_l, Z.shiftl_1_l.
  assert (0 <= to_size_t bit) by (apply Z.mod_pos_bound; lia).
  rewrite Z.pow2_bits_eqb by done. by intros ?%Z.eqb_eq.
Qed.

(** ** Stores that agree *)

Lemma agree_refl e : agree e e.
Proof. by repeat split. Qed.

Lemma extends_same_links h h' : extends h h' -> same_links h h'.
Proof.
  intros H p e He. destruct (H p e He) as (e' & He' & A).
  exists e'. unfold agree in A. naive_solver.
Qed.

Lemma extends_mask_of h h' p : extends h h' -> (p < List.length h)%nat ->
  mask_of h' p = mask_of h p.
Proof.
  intros H Hp. apply lookup_lt_is_Some_2 in Hp as [e He].
  destruct (H p e He) as (e' & He' & A). unfold mask_of. rewrite He, He'.
  unfold agree in A. naive_solver.
Qed.

Lemma chain_bound h o l p : chain h o l -> p ∈ l -> (p < List.length h)%nat.
Proof.
  induction 1 as [|q e l He Hc IH]; [set_solver|].
  intros [->|Hp]%elem_of_cons; [by eapply lookup_lt_Some|auto].
Qed.

Lemma extends_union_masks h h' o l :
  extends h h' -> chain h o l -> union_masks h' l = union_masks h l.
Proof.
  intros H Hc. apply union_masks_ext. intros p Hp.
  apply extends_mask_of; [done|]. by eapply chain_bound.
Qed.

(** ** Allocation of an entity *)

Lemma alloc_spec ctx parent id ctx' new :
  alloc_init_topo_procent ctx parent id = Ret (ctx', new) ->
  new = List.length (procents ctx)
  /\ ctx' = set_ctx_list (set_procents ctx (procents ctx')) (Some new)
  /\ match parent with
     | None =>
         procents ctx'
         = procents ctx
           ++ [new_procent TOPOLOGY_SYSTEM id None None (ctx_list ctx)]
     | Some p =>
         exists pe, procents ctx !! p = Some pe
           /\ TOPOLOGY_CORE <= ent_level pe <= TOPOLOGY_SYSTEM
           /\ procents ctx'
              = <[p := set_ent_children pe (Some new)]>
                  (procents ctx
                   ++ [new_procent (ent_level pe - 1) id (Some p)
                         (ent_children pe) (ctx_list ctx)])
     end.
Proof.
  unfold alloc_init_topo_procent. destruct parent as [p|].
  - unfold deref. destruct (procents ctx !! p) as [pe|] eqn:Hp; [|done].
    cbn [mbind res_bind]. unfold assert, level_valid.
    destruct (Z.leb_spec TOPOLOGY_THREAD (ent_level pe)); [|done].
    destruct (Z.leb_spec (ent_level pe) TOPOLOGY_SYSTEM); [|done].
    destruct (Z.eqb_spec (ent_level pe) TOPOLOGY_THREAD); [done|].
    cbn. intros [= <- <-]. split; [done|]. split; [done|].
    exists pe. split; [done|]. split; [|done].
    unfold TOPOLOGY_THREAD, TOPOLOGY_CORE, TOPOLOGY_SYSTEM in *. lia.
  - intros [= <- <-]. by repeat split.
Qed.

Section alloc_child.
Context (h : list topo_procent) (p : ptr) (pe : topo_procent).
Context (id : Z) (nxt : option ptr).
Context (Hp : h !! p = Some pe).
Context (Hlevel : TOPOLOGY_CORE <= ent_level pe <= TOPOLOGY_SYSTEM).

#[local] Abbreviation n := (List.length h).
#[local] Abbreviation ent :=
  (new_procent (ent_level pe - 1) id (Some p) (ent_children pe) nxt).
#[local] Abbreviation h' :=
  (<[p := set_ent_children pe (Some n)]> (h ++ [ent])).

Lemma alloc_child_p_lt : (p < n)%nat.
Proof. by eapply lookup_lt_Some. Qed.

Lemma alloc_child_lookup_p : h' !! p = Some (set_ent_children pe (Some n)).
Proof.
  pose proof alloc_child_p_lt.
  apply list_lookup_insert_eq. rewrite length_app. simpl. lia.
Qed.

Lemma alloc_child_lookup_new : h' !! n = Some ent.
Proof.
  pose proof alloc_child_p_lt.
  rewrite list_lookup_insert_ne by lia.
  rewrite lookup_app_r by done. by rewrite Nat.sub_diag.
Qed.

Lemma alloc_child_lookup_old x : x <> p -> (x < n)%nat -> h' !! x = h !! x.
Proof.
  intros Hx Hn. rewrite list_lookup_insert_ne by done.
  by rewrite lookup_app_l.
Qed.

Lemma alloc_child_lookup_inv x e : h' !! x = Some e ->
  (x = p /\ e = set_ent_children pe (Some n))
  \/ (x = n /\ e = ent)
  \/ (x <> p /\ (x < n)%nat /\ h !! x = Some e).
Proof.
  intros Hx. destruct (decide (x = p)) as [->|Hne].
  - rewrite alloc_child_lookup_p in Hx. left. naive_solver.
  - right. destruct (decide (x = n)) as [->|Hne'].
    + rewrite alloc_child_lookup_new in Hx. left. naive_solver.
    + right. assert (x < n)%nat.
      { apply lookup_lt_Some in Hx.
        rewrite length_insert, length_app in Hx. simpl in Hx. lia. }
      rewrite alloc_child_lookup_old in Hx by done. done.
Qed.

Lemma alloc_child_extends : extends h h'.
Proof.
  intros x e He. destruct (decide (x = p)) as [->|Hne].
  - exists (set_ent_children pe (Some n)). rewrite alloc_child_lookup_p.
    rewrite Hp in He. injection He as <-. split; [done|]. by repeat split.
  - exists e. rewrite alloc_child_lookup_old; [|done|by eapply lookup_lt_Some].
    split; [done|apply agree_refl].
Qed.

Lemma alloc_child_parent : inv_parent h -> inv_parent h'.
Proof.
  intros H x e Hx.
  apply alloc_child_lookup_inv in Hx as [[-> ->]|[[-> ->]|(Hne & Hlt & Hx)]].
  - specialize (H p pe Hp). cbn [set_ent_children ent_parent ent_level].
    destruct (ent_parent pe) as [q|]; [|done].
    destruct H as (Hq & eq & Heq & Hl). split; [done|].
    destruct (alloc_child_extends q eq Heq) as (eq' & Heq' & A).
    exists eq'. destruct A as (Al & _). rewrite Al. done.
  - cbn. split; [apply alloc_child_p_lt|].
    exists (set_ent_children pe (Some n)). rewrite alloc_child_lookup_p.
    done.
  - specialize (H x e Hx). destruct (ent_parent e) as [q|]; [|done].
    destruct H as (Hq & eq & Heq & Hl). split; [done|].
    destruct (alloc_child_extends q eq Heq) as (eq' & Heq' & A).
    exists eq'. destruct A as (Al & _). rewrite Al. done.
Qed.

Lemma alloc_child_parent_of x e :
  inv_parent h -> h' !! x = Some e ->
  forall q, ent_parent e = Some q ->
    (x = n /\ q = p) \/ (x <> n /\ exists e0, h !! x = Some e0 /\ ent_parent e0 = Some q).
Proof.
  intros H Hx q Hq.
  apply alloc_child_lookup_inv in Hx as [[-> ->]|[[-> ->]|(Hne & Hlt & Hx)]].
  - right. pose proof alloc_child_p_lt. split; [lia|]. by exists pe.
  - left. cbn in Hq. naive_solver.
  - right. split; [lia|]. by exists e.
Qed.

Lemma alloc_child_chain : inv_parent h -> inv_chain h -> inv_chain h'.
Proof.
  intros HP H q eq Hq.
  pose proof alloc_child_extends as Hext.
  pose proof (extends_same_links _ _ Hext) as Hsl.
  apply alloc_child_lookup_inv in Hq as [[-> ->]|[[-> ->]|(Hne & Hlt & Hq)]].
  - destruct (H p pe Hp) as (l & Hc & Hl).
    exists (n :: l). split.
    + cbn. econstructor; [apply alloc_child_lookup_new|].
      cbn. by eapply chain_same_links.
    + intros x. rewrite elem_of_cons, Hl. split.
      * intros [->|(e & He & Hpar)].
        -- exists ent. by rewrite alloc_child_lookup_new.
        -- destruct (Hext x e He) as (e' & He' & A). exists e'.
           destruct A as (_ & _ & Ap & _). by rewrite Ap.
      * intros (e & He & Hpar).
        destruct (alloc_child_parent_of x e HP He p Hpar) as [[-> _]|[_ ?]];
          auto.
  - exists []. split; [constructor|]. intros x. split; [set_solver|].
    intros (e & He & Hpar). exfalso.
    pose proof (alloc_child_parent HP _ _ He) as Hx. rewrite Hpar in Hx.
    destruct Hx as [Hlt _]. apply lookup_lt_Some in He.
    rewrite length_insert, length_app in He. simpl in He. lia.
  - destruct (H q eq Hq) as (l & Hc & Hl).
    exists l. split; [by eapply chain_same_links|].
    intros x. rewrite Hl. split.
    + intros (e & He & Hpar).
      destruct (Hext x e He) as (e' & He' & A). exists e'.
      destruct A as (_ & _ & Ap & _). by rewrite Ap.
    + intros (e & He & Hpar).
      destruct (alloc_child_parent_of x e HP He q Hpar) as [[_ ->]|[_ ?]];
        done.
Qed.

Lemma alloc_child_chain_inv q eq l :
  inv_chain h -> h !! q = Some eq ->
  chain h' (ent_children eq) l -> chain h (ent_children eq) l.
Proof.
  intros H Hq Hc. destruct (H q eq Hq) as (l0 & Hc0 & _).
  pose proof (chain_same_links _ _ _ _
                (extends_same_links _ _ alloc_child_extends) Hc0) as Hc1.
  by rewrite (chain_fun _ _ _ _ Hc Hc1).
Qed.

Lemma alloc_child_union : inv_chain h -> inv_union h -> inv_union h'.
Proof.
  intros HC H q eq l Hq Hlev Hc.
  pose proof alloc_child_extends as Hext.
  apply alloc_child_lookup_inv in Hq as [[-> ->]|[[-> ->]|(Hne & Hlt & Hq)]].
  - cbn in *. inversion Hc as [|? e l1 He Hc1]; subst.
    rewrite alloc_child_lookup_new in He. injection He as <-. cbn in Hc1.
    apply (alloc_child_chain_inv p pe) in Hc1; [|done..].
    rewrite union_masks_cons. unfold mask_of at 1.
    rewrite alloc_child_lookup_new.
    cbn [new_procent ent_cpumask set_ent_children].
    rewrite Z.lor_0_l, (extends_union_masks h h' _ l1 Hext Hc1).
    by apply (H p pe).
  - cbn in *. inversion Hc; subst. done.
  - apply (alloc_child_chain_inv q eq) in Hc; [|done..].
    rewrite (extends_union_masks h h' _ l Hext Hc). by apply (H q eq).
Qed.

Lemma alloc_child_origin : inv_origin h -> inv_origin h'.
Proof.
  intros H x e b Hx Hb.
  pose proof alloc_child_extends as Hext.
  assert (Hold : forall e0, h !! x = Some e0 -> ent_cpumask e0 = ent_cpumask e ->
            exists t et, h' !! t = Some et /\ ent_level et = TOPOLOGY_THREAD
              /\ to_size_t (ent_id et) = b /\ ancestor h' t x).
  { intros e0 He0 Hm. rewrite <- Hm in Hb.
    destruct (H x e0 b He0 Hb) as (t & et & Ht & Hl & Hi & Ha).
    destruct (Hext t et Ht) as (et' & Het' & A). exists t, et'.
    destruct A as (Al & Ai & _). rewrite Al, Ai. do 3 (split; [done|]).
    eapply ancestor_same_links; [by apply extends_same_links|done]. }
  apply alloc_child_lookup_inv in Hx as [[-> ->]|[[-> ->]|(Hne & Hlt & Hx)]].
  - by apply (Hold pe).
  - cbn in Hb. by rewrite Z.bits_0 in Hb.
  - by apply (Hold e).
Qed.

Lemma heap_inv_alloc_child : heap_inv h -> heap_inv h'.
Proof.
  intros [H1 H2 H3 H4]. split.
  - by apply alloc_child_parent.
  - by apply alloc_child_chain.
  - by apply alloc_child_union.
  - by apply alloc_child_origin.
Qed.

End alloc_child.

(** ** Stores with the same structure *)

Lemma struct_agree_refl e : struct_agree e e.
Proof. by repeat split. Qed.

Lemma struct_agree_sym e e' : struct_agree e e' -> struct_agree e' e.
Proof. intros (?&?&?&?&?). by repeat split. Qed.

Lemma struct_agree_trans e1 e2 e3 :
  struct_agree e1 e2 -> struct_agree e2 e3 -> struct_agree e1 e3.
Proof.
  intros (?&?&?&?&?) (?&?&?&?&?). repeat split; congruence.
Qed.

Lemma struct_eq_refl h : struct_eq h h.
Proof. split; [done|]. intros x e He. exists e. split; [done|apply struct_agree_refl]. Qed.

Lemma struct_eq_sym h h' : struct_eq h h' -> struct_eq h' h.
Proof.
  intros [Hlen H]. split; [done|]. intros x e' He'.
  destruct (h !! x) as [e|] eqn:He.
  - exists e. split; [done|]. destruct (H x e He) as (e'' & He'' & A).
    rewrite He' in He''. injection He'' as <-. by apply struct_agree_sym.
  - apply lookup_lt_Some in He'. apply lookup_ge_None in He. lia.
Qed.

Lemma struct_eq_trans h1 h2 h3 :
  struct_eq h1 h2 -> struct_eq h2 h3 -> struct_eq h1 h3.
Proof.
  intros [L1 H1] [L2 H2]. split; [congruence|]. intros x e He.
  destruct (H1 x e He) as (e2 & He2 & A2).
  destruct (H2 x e2 He2) as (e3 & He3 & A3).
  exists e3. split; [done|]. by eapply struct_agree_trans.
Qed.

Lemma struct_eq_same_links h h' : struct_eq h h' -> same_links h h'.
Proof.
  intros [_ H] x e He. destruct (H x e He) as (e' & He' & (_&_&Ap&As&_)).
  by exists e'.
Qed.

Lemma struct_eq_chain h h' o l : struct_eq h h' -> chain h o l <-> chain h' o l.
Proof.
  intros H. split; apply chain_same_links, struct_eq_same_links;
    [done|by apply struct_eq_sym].
Qed.

Lemma struct_eq_ancestor h h' p a :
  struct_eq h h' -> ancestor h p a <-> ancestor h' p a.
Proof.
  intros H. split; apply ancestor_same_links, struct_eq_same_links;
    [done|by apply struct_eq_sym].
Qed.

Lemma struct_eq_parent h h' : struct_eq h h' -> inv_parent h -> inv_parent h'.
Proof.
  intros H HP x e' He'.
  destruct (struct_eq_sym _ _ H) as [_ Hb]. destruct H as [_ Hf].
  destruct (Hb x e' He') as (e & He & (Al & _ & Ap & _)).
  specialize (HP x e He). rewrite Ap in HP.
  destruct (ent_parent e') as [q|]; [|congruence].
  destruct HP as (Hq & eq & Heq & Hl1 & Hl2). split; [done|].
  destruct (Hf q eq Heq) as (eq' & Heq' & (Al' & _)).
  exists eq'. split; [done|]. rewrite Al'. split; [congruence|done].
Qed.

Lemma struct_eq_inv_chain h h' : struct_eq h h' -> inv_chain h -> inv_chain h'.
Proof.
  intros H HC q eq' Hq'.
  pose proof (struct_eq_sym _ _ H) as H'.
  destruct H' as [_ Hb]. pose proof H as [_ Hf].
  destruct (Hb q eq' Hq') as (eq & Hq & (_ & _ & _ & _ & Ac)).
  destruct (HC q eq Hq) as (l & Hc & Hl). exists l. split.
  - rewrite <- Ac. by apply (struct_eq_chain h h').
  - intros x. rewrite Hl. split.
    + intros (e & He & Hpar). destruct (Hf x e He) as (e' & He' & (_&_&Ap&_)).
      exists e'. split; [done|congruence].
    + intros (e' & He' & Hpar). destruct (Hb x e' He') as (e & He & (_&_&Ap&_)).
      exists e. split; [done|congruence].
Qed.

(** A store that differs in hash keys only. *)
Lemma heap_inv_struct_mask h h' :
  struct_eq h h' ->
  (forall x, mask_of h' x = mask_of h x) ->
  heap_inv h -> heap_inv h'.
Proof.
  intros H Hm [H1 H2 H3 H4].
  pose proof (struct_eq_sym _ _ H) as H'.
  destruct H' as [_ Hb]. pose proof H as [_ Hf].
  split.
  - by eapply struct_eq_parent.
  - by eapply struct_eq_inv_chain.
  - intros q eq' l Hq' Hlev Hc.
    destruct (Hb q eq' Hq') as (eq & Hq & (Al & _ & _ & _ & Ac)).
    rewrite <- Ac in Hc. apply (struct_eq_chain h h') in Hc; [|done].
    rewrite (union_masks_ext h h' l) by (intros; apply Hm).
    rewrite <- (H3 q eq l); [|done|congruence|done].
    specialize (Hm q). unfold mask_of in Hm. by rewrite Hq, Hq' in Hm.
  - intros x e' b Hx' Hbit.
    destruct (Hb x e' Hx') as (e & Hx & _).
    assert (ent_cpumask e' = ent_cpumask e) as Hme.
    { specialize (Hm x). unfold mask_of in Hm. by rewrite Hx, Hx' in Hm. }
    rewrite Hme in Hbit.
    destruct (H4 x e b Hx Hbit) as (t & et & Ht & Hl & Hi & Ha).
    destruct (Hf t et Ht) as (et' & Ht' & (Al & Ai & _)).
    exists t, et'. rewrite Al, Ai. do 3 (split; [done|]).
    by apply (struct_eq_ancestor h h').
Qed.

(** ** Replacing one entity *)

Lemma struct_eq_insert h p e e' :
  h !! p = Some e -> struct_agree e e' -> struct_eq h (<[p := e']> h).
Proof.
  intros He A. split; [apply length_insert|]. intros x ex Hx.
  destruct (decide (x = p)) as [->|Hne].
  - exists e'. rewrite list_lookup_insert_eq by (by eapply lookup_lt_Some).
    rewrite He in Hx. injection Hx as <-. done.
  - exists ex. rewrite list_lookup_insert_ne by done.
    split; [done|apply struct_agree_refl].
Qed.

Lemma mask_of_insert_ne h p e' x : x <> p -> mask_of (<[p := e']> h) x = mask_of h x.
Proof. intros Hx. unfold mask_of. by rewrite list_lookup_insert_ne. Qed.

Lemma mask_of_insert_eq h p e e' :
  h !! p = Some e -> mask_of (<[p := e']> h) p = ent_cpumask e'.
Proof.
  intros He. unfold mask_of.
  by rewrite list_lookup_insert_eq by (by eapply lookup_lt_Some).
Qed.

Lemma heap_inv_set_hash_key h p e k :
  h !! p = Some e -> heap_inv h ->
  heap_inv (<[p := set_ent_hash_key e k]> h).
Proof.
  intros He. apply heap_inv_struct_mask.
  - by apply (struct_eq_insert h p e).
  - intros x. destruct (decide (x = p)) as [->|Hne].
    + rewrite (mask_of_insert_eq h p e) by done. unfold mask_of. by rewrite He.
    + by apply mask_of_insert_ne.
Qed.

(** ** Propagation of a bit up the parent chain *)

Lemma only_masks_refl h : only_masks h h.
Proof.
  split; [done|]. intros x e He. exists (ent_cpumask e). by destruct e.
Qed.

Lemma only_masks_trans h1 h2 h3 :
  only_masks h1 h2 -> only_masks h2 h3 -> only_masks h1 h3.
Proof.
  intros [L1 H1] [L2 H2]. split; [congruence|]. intros x e He.
  destruct (H1 x e He) as (m & Hm). destruct (H2 x _ Hm) as (m' & Hm').
  exists m'. by rewrite Hm'.
Qed.

Lemma only_masks_struct_eq h h' : only_masks h h' -> struct_eq h h'.
Proof.
  intros [L H]. split; [done|]. intros x e He. destruct (H x e He) as (m & Hm).
  exists (set_ent_cpumask e m). split; [done|]. by repeat split.
Qed.

Lemma only_masks_insert h p e m :
  h !! p = Some e -> only_masks h (<[p := set_ent_cpumask e m]> h).
Proof.
  intros He. split; [apply length_insert|]. intros x ex Hx.
  destruct (decide (x = p)) as [->|Hne].
  - exists m. rewrite list_lookup_insert_eq by (by eapply lookup_lt_Some).
    rewrite He in Hx. by injection Hx as <-.
  - exists (ent_cpumask ex). rewrite list_lookup_insert_ne by done.
    rewrite Hx. by destruct ex.
Qed.

Section step.
Context (h : list topo_procent) (p : ptr) (e : topo_procent) (B : Z).
Context (He : h !! p = Some e).
Context (HP : inv_parent h) (HC : inv_chain h).

#[local] Abbreviation e1 := (set_ent_cpumask e (Z.lor (ent_cpumask e) B)).
#[local] Abbreviation h1 := (<[p := e1]> h).

Lemma step_struct_eq : struct_eq h h1.
Proof. apply (struct_eq_insert h p e); [done|]. by repeat split. Qed.

Lemma step_lookup_p : h1 !! p = Some e1.
Proof. apply list_lookup_insert_eq. by eapply lookup_lt_Some. Qed.

Lemma step_lookup_ne x : x <> p -> h1 !! x = h !! x.
Proof. intros. by apply list_lookup_insert_ne. Qed.

Lemma step_mask_p : mask_of h1 p = Z.lor (mask_of h p) B.
Proof. unfold mask_of. by rewrite step_lookup_p, He. Qed.

Lemma step_mask_ne x : x <> p -> mask_of h1 x = mask_of h x.
Proof. intros. unfold mask_of. by rewrite step_lookup_ne. Qed.

(** The children of [x], seen in the old store. *)
Lemma step_kids x ex' l :
  h1 !! x = Some ex' -> chain h1 (ent_children ex') l ->
  exists ex, h !! x = Some ex /\ struct_agree ex ex'
    /\ chain h (ent_children ex) l
    /\ (forall c, c ∈ l <-> exists ec, h !! c = Some ec /\ ent_parent ec = Some x).
Proof.
  intros Hx Hc.
  pose proof (struct_eq_sym _ _ step_struct_eq) as [_ Hb].
  destruct (Hb x ex' Hx) as (ex & Hx0 & A).
  exists ex. split; [done|]. split; [by apply struct_agree_sym|].
  destruct A as (_ & _ & _ & _ & Ac). rewrite <- Ac in Hc.
  apply (struct_eq_chain h h1) in Hc; [|apply step_struct_eq].
  split; [done|].
  destruct (HC x ex Hx0) as (l0 & Hc0 & Hl0).
  by rewrite (chain_fun _ _ _ _ Hc Hc0).
Qed.

Lemma step_p_not_kid (l : list ptr) :
  (forall c, c ∈ l <-> exists ec, h !! c = Some ec /\ ent_parent ec = Some p) ->
  p ∉ l.
Proof.
  intros Hl Hin. apply Hl in Hin as (ec & Hec & Hpar).
  rewrite He in Hec. injection Hec as <-.
  specialize (HP p e He). rewrite Hpar in HP. lia.
Qed.

Lemma step_union_p ex' l :
  unionQ h p B -> h1 !! p = Some ex' ->
  ent_level ex' <> TOPOLOGY_THREAD -> chain h1 (ent_children ex') l ->
  ent_cpumask ex' = union_masks h1 l.
Proof.
  intros HQ Hx Hlev Hc.
  destruct (step_kids p ex' l Hx Hc) as (ex & Hx0 & A & Hc0 & Hl).
  rewrite He in Hx0. injection Hx0 as <-.
  rewrite step_lookup_p in Hx. injection Hx as <-.
  specialize (HQ p e l He Hlev Hc0). rewrite decide_True in HQ by done.
  cbn. transitivity (union_masks h l); [exact HQ|].
  symmetry. apply union_masks_ext.
  intros c Hcl. apply step_mask_ne. intros ->. by apply (step_p_not_kid l).
Qed.

Lemma step_union_other x ex' l :
  unionQ h p B -> x <> p -> h1 !! x = Some ex' ->
  (forall ec, h !! p = Some ec -> ent_parent ec <> Some x) ->
  ent_level ex' <> TOPOLOGY_THREAD -> chain h1 (ent_children ex') l ->
  ent_cpumask ex' = union_masks h1 l.
Proof.
  intros HQ Hne Hx Hnp Hlev Hc.
  destruct (step_kids x ex' l Hx Hc) as (ex & Hx0 & A & Hc0 & Hl).
  rewrite step_lookup_ne in Hx by done. rewrite Hx0 in Hx. injection Hx as <-.
  specialize (HQ x ex l Hx0 Hlev Hc0). rewrite decide_False in HQ by done.
  rewrite HQ. symmetry. apply union_masks_ext.
  intros c Hcl. apply step_mask_ne. intros ->.
  apply Hl in Hcl as (ec & Hec & Hpar). by apply (Hnp ec).
Qed.

Lemma step_union_parent q ex' l :
  unionQ h p B -> ent_parent e = Some q -> h1 !! q = Some ex' ->
  ent_level ex' <> TOPOLOGY_THREAD -> chain h1 (ent_children ex') l ->
  Z.lor (ent_cpumask ex') B = union_masks h1 l.
Proof.
  intros HQ Hpar Hx Hlev Hc.
  assert (q <> p) as Hne.
  { specialize (HP p e He). rewrite Hpar in HP. lia. }
  destruct (step_kids q ex' l Hx Hc) as (ex & Hx0 & A & Hc0 & Hl).
  rewrite step_lookup_ne in Hx by done. rewrite Hx0 in Hx. injection Hx as <-.
  specialize (HQ q ex l Hx0 Hlev Hc0). rewrite decide_False in HQ by done.
  rewrite HQ. symmetry. apply (union_masks_or h h1 l p B).
  - apply Hl. by exists e.
  - apply step_mask_p.
  - intros c _ Hcp. by apply step_mask_ne.
Qed.

Lemma step_origin t et bit size :
  B = bit_pattern bit size ->
  h !! t = Some et -> ent_level et = TOPOLOGY_THREAD -> ent_id et = bit ->
  ancestor h t p -> inv_origin h -> inv_origin h1.
Proof.
  intros HB Ht Hl Hi Ha HO x ex' b Hx Hbit.
  pose proof step_struct_eq as Hse. pose proof Hse as [_ Hf].
  assert (Hold : forall ex, h !! x = Some ex ->
            Z.testbit (ent_cpumask ex) b = true ->
            exists t0 et0, h1 !! t0 = Some et0
              /\ ent_level et0 = TOPOLOGY_THREAD
              /\ to_size_t (ent_id et0) = b /\ ancestor h1 t0 x).
  { intros ex Hx0 Hb0.
    destruct (HO x ex b Hx0 Hb0) as (t0 & et0 & Ht0 & Hl0 & Hi0 & Ha0).
    destruct (Hf t0 et0 Ht0) as (et0' & Ht0' & (Al & Ai & _)).
    exists t0, et0'. rewrite Al, Ai. do 3 (split; [done|]).
    by apply (struct_eq_ancestor h h1). }
  destruct (decide (x = p)) as [->|Hne].
  - rewrite step_lookup_p in Hx. injection Hx as <-. cbn in Hbit.
    rewrite Z.lor_spec in Hbit. apply orb_true_iff in Hbit as [Hb0|HbB].
    + by apply (Hold e).
    + rewrite HB in HbB. apply bit_pattern_bits in HbB.
      destruct (Hf t et Ht) as (et' & Ht' & (Al & Ai & _)).
      exists t, et'. rewrite Al, Ai, Hi. do 3 (split; [done|]).
      by apply (struct_eq_ancestor h h1).
  - rewrite step_lookup_ne in Hx by done. by apply (Hold ex').
Qed.

End step.

Lemma ancestor_snoc h t p e q :
  ancestor h t p -> h !! p = Some e -> ent_parent e = Some q -> ancestor h t q.
Proof.
  intros Ha He Hq. eapply ancestor_trans; [done|].
  econstructor; [done|done|constructor].
Qed.

Lemma cpumask_set_inv fuel size bit t :
  forall h p h' et,
  inv_parent h -> inv_chain h -> inv_origin h ->
  unionQ h p (bit_pattern bit size) ->
  h !! t = Some et -> ent_level et = TOPOLOGY_THREAD -> ent_id et = bit ->
  ancestor h t p ->
  topo_procent_cpumask_set fuel size h p bit = Ret h' ->
  heap_inv h' /\ only_masks h h'.
Proof.
  induction fuel as [|fuel IH]; intros h p h' et HP HC HO HQ Ht Hl Hi Ha Hrun;
    [done|].
  cbn [topo_procent_cpumask_set] in Hrun. unfold deref in Hrun.
  destruct (h !! p) as [e|] eqn:He; [|done]. cbn [mbind res_bind] in Hrun.
  rewrite CPU_SET_S_lor in Hrun.
  set (B := bit_pattern bit size) in *.
  set (e1 := set_ent_cpumask e (Z.lor (ent_cpumask e) B)) in *.
  set (h1 := <[p := e1]> h) in *.
  pose proof (step_struct_eq h p e B He) as Hse. fold e1 h1 in Hse.
  pose proof (struct_eq_parent _ _ Hse HP) as HP1.
  pose proof (struct_eq_inv_chain _ _ Hse HC) as HC1.
  pose proof (step_origin h p e B He t et bit size eq_refl Ht Hl Hi Ha HO)
    as HO1. fold e1 h1 in HO1.
  pose proof (only_masks_insert h p e (Z.lor (ent_cpumask e) B) He) as Hom.
  fold e1 h1 in Hom.
  destruct (ent_parent e) as [q|] eqn:Hpar.
  - destruct Hse as [_ Hf]. destruct (Hf t et Ht) as (et1 & Ht1 & (Al & Ai & _)).
    destruct (IH h1 q h' et1) as [Hinv Hom']; try done.
    + intros x ex' l Hx Hlev Hc.
      destruct (decide (x = q)) as [->|Hne].
      * by apply (step_union_parent h p e B He HP HC q ex' l).
      * destruct (decide (x = p)) as [->|Hne'].
        -- by apply (step_union_p h p e B He HP HC ex' l).
        -- apply (step_union_other h p e B He HC x ex' l); try done.
           intros ec Hec. rewrite He in Hec. injection Hec as <-.
           rewrite Hpar. congruence.
    + congruence.
    + congruence.
    + apply (struct_eq_ancestor h h1); [by apply only_masks_struct_eq|].
      by eapply ancestor_snoc.
    + split; [done|]. by eapply only_masks_trans.
  - injection Hrun as <-. split; [|done]. split; try done.
    intros x ex' l Hx Hlev Hc.
    destruct (decide (x = p)) as [->|Hne'].
    + by apply (step_union_p h p e B He HP HC ex' l).
    + apply (step_union_other h p e B He HC x ex' l); try done.
      intros ec Hec. rewrite He in Hec. injection Hec as <-.
      by rewrite Hpar.
Qed.

(** * Cache devices *)

Lemma htable_insert_spec {A} (htab : htable A) key data rc htab' :
  htable_insert htab key data = Ret (rc, htab') ->
  rc = 0 /\ maxsize htab' = maxsize htab
  /\ tbl htab' = match tbl htab !! key with
                 | Some _ => tbl htab
                 | None => <[key := data]> (tbl htab)
                 end.
Proof.
  unfold htable_insert, assert. destruct (_ <? _); [|done].
  cbn. intros [= <- <-]. done.
Qed.

Lemma htable_insert_keeps {A} (htab : htable A) key data rc htab' k :
  htable_insert htab key data = Ret (rc, htab') ->
  is_Some (tbl htab !! k) -> is_Some (tbl htab' !! k).
Proof.
  intros (_ & _ & ->)%htable_insert_spec Hk.
  destruct (tbl htab !! key) eqn:E; [done|].
  destruct (decide (key = k)) as [->|Hne].
  - by rewrite lookup_insert_eq.
  - by rewrite lookup_insert_ne.
Qed.

Lemma htable_insert_has {A} (htab : htable A) key data rc htab' :
  htable_insert htab key data = Ret (rc, htab') ->
  is_Some (tbl htab' !! key).
Proof.
  intros (_ & _ & ->)%htable_insert_spec.
  destruct (tbl htab !! key) eqn:E; [by rewrite E|].
  by rewrite lookup_insert_eq.
Qed.

Section devices.
Variable fs : sysfs.

Lemma rehash_devices_spec devs : forall htab rc htab',
  rehash_devices htab devs = Ret (rc, htab') ->
  rc = 0
  /\ (forall k, is_Some (tbl htab !! k) -> is_Some (tbl htab' !! k))
  /\ (forall d k, d ∈ devs -> dev_hash_key d = Some k -> is_Some (tbl htab' !! k)).
Proof.
  induction devs as [|d devs IH]; intros htab rc htab' H.
  - cbn in H. injection H as <- <-. split; [done|]. split; [done|set_solver].
  - cbn [rehash_devices] in H.
    destruct (dev_hash_key d) as [key|] eqn:Hkey; [|done].
    destruct (htable_insert htab key d) as [[rc1 htab1]| |] eqn:Hins; try done.
    cbn [mbind res_bind] in H.
    pose proof (htable_insert_spec _ _ _ _ _ Hins) as (-> & _).
    cbn in H. destruct (IH _ _ _ H) as (-> & Hk & Hd).
    split; [done|]. split.
    + intros k Hk0. apply Hk. by eapply htable_insert_keeps.
    + intros d0 k [->|Hin]%elem_of_cons Hk0.
      * rewrite Hkey in Hk0. injection Hk0 as <-. apply Hk.
        by eapply htable_insert_has.
      * by eapply Hd.
Qed.

Lemma hash_device_spec ctx dev rc ctx' :
  hash_device ctx dev = Ret (rc, ctx') ->
  rc = 0
  /\ ctx' = set_device_htable ctx (device_htable ctx')
  /\ exists key, dev_hash_key dev = Some key
     /\ is_Some (tbl (device_htable ctx') !! key)
     /\ (forall d k, d ∈ devices ctx -> dev_hash_key d = Some k ->
           is_Some (tbl (device_htable ctx) !! k) ->
           is_Some (tbl (device_htable ctx') !! k)).
Proof.
  unfold hash_device. destruct (dev_hash_key dev) as [key|]; [|done].
  destruct (negb (htable_full (device_htable ctx))).
  - destruct (htable_insert _ _ _) as [[rc1 htab1]| |] eqn:Hins; try done.
    cbn. intros [= <- <-].
    pose proof (htable_insert_spec _ _ _ _ _ Hins) as (-> & _).
    split; [done|]. split; [done|]. exists key. split; [done|]. cbn. split.
    + by eapply htable_insert_has.
    + intros d k _ _ Hk. by eapply htable_insert_keeps.
  - cbn [htable_init]. cbn [negb Z.eqb].
    destruct (rehash_devices _ _) as [[rc1 htab1]| |] eqn:Hre; try done.
    cbn [mbind res_bind].
    destruct (rehash_devices_spec _ _ _ _ Hre) as (-> & _ & Hd). cbn.
    destruct (htable_insert _ _ _) as [[rc2 htab2]| |] eqn:Hins; try done.
    cbn. intros [= <- <-].
    pose proof (htable_insert_spec _ _ _ _ _ Hins) as (-> & _).
    split; [done|]. split; [done|]. exists key. split; [done|]. cbn. split.
    + by eapply htable_insert_has.
    + intros d k Hin Hk _. eapply htable_insert_keeps; [done|]. by eapply Hd.
Qed.

Lemma get_attr_attach_eq dev a :
  topo_device_get_attr_value (topo_device_attach_attr dev a) (attr_name a)
  = Some (attr_value a).
Proof.
  unfold topo_device_get_attr_value. cbn. by rewrite String.eqb_refl.
Qed.

Lemma get_attr_attach_ne dev a name :
  attr_name a <> name ->
  topo_device_get_attr_value (topo_device_attach_attr dev a) name
  = topo_device_get_attr_value dev name.
Proof.
  intros Hne. unfold topo_device_get_attr_value. cbn.
  by rewrite (proj2 (String.eqb_neq _ _) Hne).
Qed.

Lemma cache_build_hash_spec cache rc cache' :
  cache_build_hash cache = (rc, cache') ->
  rc = 0 -> signed cache' /\ cache_triple cache' = cache_triple cache.
Proof.
  unfold cache_build_hash.
  destruct (topo_device_get_attr_value cache "level") as [l|] eqn:El;
    [|by intros [= <- <-]].
  destruct (topo_device_get_attr_value cache "type") as [t|] eqn:Et;
    [|by intros [= <- <-]].
  destruct (topo_device_get_attr_value cache "shared_cpu_map") as [m|] eqn:Em;
    [|by intros [= <- <-]].
  intros [= <- <-] _.
  assert (cache_triple (set_dev_hash_key cache (Some (cache_signature l t m)))
          = cache_triple cache) as Ht by done.
  split; [|done]. exists l, t, m. rewrite Ht. unfold cache_triple.
  by rewrite El, Et, Em.
Qed.

Lemma same_procs_refl ctx : same_procs ctx ctx.
Proof. by repeat split. Qed.

Lemma same_procs_trans c1 c2 c3 :
  same_procs c1 c2 -> same_procs c2 c3 -> same_procs c1 c3.
Proof.
  intros (?&?&?&?&?&?&?) (?&?&?&?&?&?&?). repeat split; congruence.
Qed.

Lemma get_cache_info_loop_inv n : forall index ctx tid rc ctx',
  get_cache_info_loop fs n index ctx tid = Ret (rc, ctx') ->
  devs_ok (devices ctx) (tbl (device_htable ctx)) ->
  devs_ok (devices ctx') (tbl (device_htable ctx')) /\ same_procs ctx ctx'.
Proof.
  induction n as [|n IH]; intros index ctx tid rc ctx' H Hok.
  - cbn in H. injection H as <- <-. split; [done|apply same_procs_refl].
  - cbn [get_cache_info_loop] in H.
    destruct (__get_cache_info fs ctx _ tid index) as [rc1 cache1] eqn:Hg.
    destruct (Z.eqb_spec rc1 0) as [->|Hrc1]; cbn [negb] in H;
      [|injection H as <- <-; split; [done|apply same_procs_refl]].
    destruct (cache_build_hash cache1) as [rc2 cache2] eqn:Hb.
    destruct (Z.eqb_spec rc2 0) as [->|Hrc2]; cbn [negb] in H;
      [|injection H as <- <-; split; [done|apply same_procs_refl]].
    destruct (cache_build_hash_spec _ _ _ Hb eq_refl) as [Hsig Htriple].
    destruct (htable_lookup (device_htable ctx) (dev_hash_key cache2))
      as [old|] eqn:Hlk.
    + by apply (IH _ _ _ _ _ H).
    + destruct (hash_device ctx cache2) as [[rc3 ctx3]| |] eqn:Hh; try done.
      cbn [mbind res_bind] in H.
      destruct (hash_device_spec _ _ _ _ Hh) as (-> & Hctx3 & key & Hkey & Hin & Hkeep).
      cbn [negb Z.eqb] in H.
      destruct (IH _ _ _ _ _ H) as [Hok' Hsame].
      * cbn. rewrite Hctx3. cbn. destruct Hok as [S N Hd]. split.
        -- by constructor.
        -- cbn. constructor; [|done].
           intros Hmem. apply list_elem_of_fmap in Hmem as (d & Hdk & Hdin).
           rewrite Hkey in Hdk. symmetry in Hdk.
           destruct (Hd d key Hdin Hdk) as [v Hv].
           rewrite Hkey in Hlk. cbn in Hlk. congruence.
        -- intros d k [->|Hdin]%elem_of_cons Hk.
           ++ rewrite Hkey in Hk. by injection Hk as <-.
           ++ apply (Hkeep d k Hdin Hk). by eapply Hd.
      * split; [done|]. eapply same_procs_trans; [|done].
        rewrite Hctx3. by repeat split.
Qed.

Lemma get_cache_info_inv ctx thread rc ctx' :
  get_cache_info fs ctx thread = Ret (rc, ctx') ->
  devs_ok (devices ctx) (tbl (device_htable ctx)) ->
  devs_ok (devices ctx') (tbl (device_htable ctx')) /\ same_procs ctx ctx'.
Proof.
  unfold get_cache_info, deref.
  destruct (procents ctx !! thread) as [te|]; [|done]. cbn [mbind res_bind].
  destruct (_ =? 0).
  - intros [= <- <-]. split; [done|apply same_procs_refl].
  - apply get_cache_info_loop_inv.
Qed.

End devices.

(** * Invariants of a context under construction *)

Lemma keeps_refl h : keeps h h.
Proof. intros x e He. by exists e. Qed.

Lemma keeps_trans h1 h2 h3 : keeps h1 h2 -> keeps h2 h3 -> keeps h1 h3.
Proof.
  intros H1 H2 x e He. destruct (H1 x e He) as (e2 & He2 & ? & ? & ?).
  destruct (H2 x e2 He2) as (e3 & He3 & ? & ? & ?).
  exists e3. repeat split; congruence.
Qed.

Lemma extends_keeps h h' : extends h h' -> keeps h h'.
Proof.
  intros H x e He. destruct (H x e He) as (e' & He' & (?&?&?&?&?)).
  by exists e'.
Qed.

Lemma struct_eq_keeps h h' : struct_eq h h' -> keeps h h'.
Proof.
  intros [_ H] x e He. destruct (H x e He) as (e' & He' & (?&?&?&?&?)).
  by exists e'.
Qed.

Lemma tables_ok_keeps h h' P C : keeps h h' -> tables_ok h P C -> tables_ok h' P C.
Proof.
  intros Hk [HP HC]. split.
  - intros k p Hp. destruct (HP k p Hp) as (e & He & Hl).
    destruct (Hk p e He) as (e' & He' & Hl' & _). exists e'. split; congruence.
  - intros k p Hp. destruct (HC k p Hp) as (e & He & Hl).
    destruct (Hk p e He) as (e' & He' & Hl' & _). exists e'. split; congruence.
Qed.

Lemma tables_ok_insert_pkg h P C k p e :
  h !! p = Some e -> ent_level e = TOPOLOGY_PACKAGE ->
  tables_ok h P C -> tables_ok h (<[k := p]> P) C.
Proof.
  intros He Hl [HP HC]. split; [|done]. intros k' p'.
  destruct (decide (k = k')) as [->|Hne].
  - rewrite lookup_insert_eq. intros [= <-]. by exists e.
  - rewrite lookup_insert_ne by done. apply HP.
Qed.

Lemma tables_ok_insert_core h P C k c e :
  h !! c = Some e -> ent_level e = TOPOLOGY_CORE ->
  tables_ok h P C -> tables_ok h P (<[k := c]> C).
Proof.
  intros He Hl [HP HC]. split; [done|]. intros k' p'.
  destruct (decide (k = k')) as [->|Hne].
  - rewrite lookup_insert_eq. intros [= <-]. by exists e.
  - rewrite lookup_insert_ne by done. apply HC.
Qed.

Lemma threads_ok_insert fs root h C k c :
  C !! k = None -> threads_ok fs root h C -> threads_ok fs root h (<[k := c]> C).
Proof.
  intros Hk H t e He Hl. destruct (H t e He Hl) as (c0 & Hp & Hc).
  exists c0. split; [done|]. rewrite lookup_insert_ne; [done|]. congruence.
Qed.

(** Transfer of [threads_ok] to a store whose entities are those of [h]
    with the same level, id and parent, or satisfy the property. *)
Lemma threads_ok_back fs root h h' C :
  threads_ok fs root h C ->
  (forall x e', h' !! x = Some e' -> ent_level e' = TOPOLOGY_THREAD ->
     (exists e, h !! x = Some e /\ ent_level e = ent_level e'
        /\ ent_id e = ent_id e' /\ ent_parent e = ent_parent e')
     \/ (exists c, ent_parent e' = Some c
           /\ C !! sysfs_cpu_thread_siblings fs root (ent_id e') = Some c)) ->
  threads_ok fs root h' C.
Proof.
  intros H Hb t e' He' Hl'. destruct (Hb t e' He' Hl') as [(e & He & Al & Ai & Ap)|?];
    [|done].
  destruct (H t e He) as (c & Hp & Hc); [congruence|].
  exists c. rewrite <- Ai, <- Ap. done.
Qed.

Lemma struct_eq_back h h' x e' :
  struct_eq h h' -> h' !! x = Some e' ->
  exists e, h !! x = Some e /\ ent_level e = ent_level e'
    /\ ent_id e = ent_id e' /\ ent_parent e = ent_parent e'.
Proof.
  intros H He'. destruct (struct_eq_sym _ _ H) as [_ Hb].
  destruct (Hb x e' He') as (e & He & (?&?&?&?&?)). by exists e.
Qed.

Lemma threads_ok_struct_eq fs root h h' C :
  struct_eq h h' -> threads_ok fs root h C -> threads_ok fs root h' C.
Proof.
  intros Hs H. apply (threads_ok_back fs root h h' C H).
  intros x e' He' _. left. by eapply struct_eq_back.
Qed.

(** ** Allocation, on contexts *)

Lemma alloc_rel_back h h' new lvl id parent x e' :
  alloc_rel h h' new lvl id parent -> h' !! x = Some e' ->
  (x = new /\ ent_level e' = lvl /\ ent_id e' = id
   /\ ent_parent e' = Some parent)
  \/ (exists e, h !! x = Some e /\ ent_level e = ent_level e'
        /\ ent_id e = ent_id e' /\ ent_parent e = ent_parent e').
Proof.
  intros (-> & Hlen & Hext & en & Hen & Hl & Hi & Hp & _) He'.
  destruct (decide (x = List.length h)) as [->|Hne].
  - left. rewrite Hen in He'. injection He' as <-. done.
  - right. assert (x < List.length h)%nat as Hlt.
    { apply lookup_lt_Some in He'. lia. }
    apply lookup_lt_is_Some_2 in Hlt as [e He].
    destruct (Hext x e He) as (e'' & He'' & (?&?&?&?&?)).
    rewrite He' in He''. injection He'' as <-. by exists e.
Qed.

Lemma alloc_child_inv ctx parent id ctx' new :
  alloc_init_topo_procent ctx (Some parent) id = Ret (ctx', new) ->
  heap_inv (procents ctx) ->
  exists pe, procents ctx !! parent = Some pe
    /\ TOPOLOGY_CORE <= ent_level pe <= TOPOLOGY_SYSTEM
    /\ heap_inv (procents ctx')
    /\ alloc_rel (procents ctx) (procents ctx') new (ent_level pe - 1) id parent
    /\ ctx' = set_ctx_list (set_procents ctx (procents ctx')) (Some new).
Proof.
  intros Ha Hinv. apply alloc_spec in Ha as (-> & Hctx & pe & Hpe & Hl & Hh).
  exists pe. split; [done|]. split; [done|]. rewrite Hh. split.
  - by apply heap_inv_alloc_child.
  - split; [|by rewrite <- Hh].
    split; [done|]. split.
    { rewrite length_insert, length_app. simpl. lia. }
    split; [by apply alloc_child_extends|].
    eexists. split; [by apply alloc_child_lookup_new|]. done.
Qed.

Lemma set_hash_key_inv ctx p k ctx' lvl id parent h0 :
  set_hash_key ctx p k = Ret ctx' ->
  heap_inv (procents ctx) ->
  alloc_rel h0 (procents ctx) p lvl id parent ->
  heap_inv (procents ctx')
  /\ alloc_rel h0 (procents ctx') p lvl id parent
  /\ ctx' = set_procents ctx (procents ctx').
Proof.
  unfold set_hash_key, deref.
  destruct (procents ctx !! p) as [e|] eqn:He; [|done]. cbn.
  intros [= <-] Hinv (Hn & Hlen & Hext & en & Hen & Hl & Hi & Hp & Hm).
  cbn. split; [by apply heap_inv_set_hash_key|]. split; [|done].
  split; [done|]. split; [by rewrite length_insert|]. split.
  - intros x ex Hx. destruct (Hext x ex Hx) as (ex' & Hx' & A).
    assert (x <> p) by (apply lookup_lt_Some in Hx; lia).
    exists ex'. by rewrite list_lookup_insert_ne.
  - rewrite Hen in He. injection He as <-.
    exists (set_ent_hash_key en (Some k)).
    rewrite list_lookup_insert_eq by (by eapply lookup_lt_Some). done.
Qed.

(** * The bounds on pointer chains are sufficient *)

Lemma cpumask_set_total fuel size bit : forall h p,
  inv_parent h -> is_Some (h !! p) -> (p < fuel)%nat ->
  exists h', topo_procent_cpumask_set fuel size h p bit = Ret h'.
Proof.
  induction fuel as [|fuel IH]; intros h p HP [e He] Hlt; [lia|].
  cbn [topo_procent_cpumask_set]. unfold deref. rewrite He.
  cbn [mbind res_bind].
  destruct (ent_parent e) as [q|] eqn:Hpar; [|by eexists].
  pose proof (HP p e He) as Hp. rewrite Hpar in Hp.
  destruct Hp as (Hq & eq & Heq & _).
  set (e1 := set_ent_cpumask e _).
  assert (struct_eq h (<[p := e1]> h)) as Hse.
  { apply (struct_eq_insert h p e); [done|]. by repeat split. }
  apply IH.
  - by eapply struct_eq_parent.
  - destruct Hse as [_ Hf]. destruct (Hf q eq Heq) as (eq' & Heq' & _).
    by exists eq'.
  - lia.
Qed.

Section no_fuel.
Variable fs : sysfs.

Lemma htable_insert_fuel {A} (htab : htable A) key data :
  htable_insert htab key data <> OutOfFuel.
Proof. unfold htable_insert, assert. by destruct (_ <? _). Qed.

Lemma rehash_devices_fuel devs : forall htab,
  rehash_devices htab devs <> OutOfFuel.
Proof.
  induction devs as [|d devs IH]; intros htab; [done|].
  cbn [rehash_devices]. destruct (dev_hash_key d) as [key|]; [|done].
  destruct (htable_insert htab key d) as [[rc htab']| |] eqn:Hins;
    [|done|by apply htable_insert_fuel in Hins].
  cbn [mbind res_bind]. destruct (negb _); [done|apply IH].
Qed.

Lemma hash_device_fuel ctx dev : hash_device ctx dev <> OutOfFuel.
Proof.
  unfold hash_device. destruct (dev_hash_key dev) as [key|]; [|done].
  destruct (negb (htable_full _)).
  - destruct (htable_insert _ _ _) as [[rc htab']| |] eqn:Hins;
      [done|done|by apply htable_insert_fuel in Hins].
  - cbn [htable_init negb Z.eqb].
    destruct (rehash_devices _ _) as [[rc htab']| |] eqn:Hre;
      [|done|by apply rehash_devices_fuel in Hre].
    cbn [mbind res_bind]. destruct (negb _); [done|].
    destruct (htable_insert _ _ _) as [[rc2 htab2]| |] eqn:Hins;
      [done|done|by apply htable_insert_fuel in Hins].
Qed.

Lemma get_cache_info_loop_fuel n : forall index ctx tid,
  get_cache_info_loop fs n index ctx tid <> OutOfFuel.
Proof.
  induction n as [|n IH]; intros index ctx tid; [done|].
  cbn [get_cache_info_loop].
  destruct (__get_cache_info fs ctx _ tid index) as [rc cache].
  destruct (negb _); [done|].
  destruct (cache_build_hash cache) as [rc2 cache2].
  destruct (negb _); [done|].
  destruct (htable_lookup _ _); [apply IH|].
  destruct (hash_device ctx cache2) as [[rc3 ctx3]| |] eqn:Hh;
    [|done|by apply hash_device_fuel in Hh].
  cbn [mbind res_bind]. destruct (negb _); [done|apply IH].
Qed.

Lemma get_cache_info_fuel ctx thread :
  get_cache_info fs ctx thread <> OutOfFuel.
Proof.
  unfold get_cache_info, deref. destruct (procents ctx !! thread); [|done].
  cbn [mbind res_bind]. destruct (_ =? 0); [done|].
  apply get_cache_info_loop_fuel.
Qed.

Lemma alloc_fuel ctx parent id :
  alloc_init_topo_procent ctx parent id <> OutOfFuel.
Proof.
  unfold alloc_init_topo_procent, deref, assert. destruct parent as [p|]; [|done].
  destruct (procents ctx !! p); [|done]. cbn [mbind res_bind].
  destruct (level_valid _); [|done]. cbn [mbind res_bind].
  by destruct (negb _).
Qed.

Lemma set_hash_key_fuel ctx p k : set_hash_key ctx p k <> OutOfFuel.
Proof. unfold set_hash_key, deref. by destruct (procents ctx !! p). Qed.

End no_fuel.

(** * The build keeps the invariants *)

Lemma good_ret {A} (a : A) (Q : A -> Prop) : Q a -> good_outcome (Ret a) Q.
Proof. intros. right. by exists a. Qed.

Lemma good_bind {A B} (m : res A) (f : A -> res B) Q R :
  good_outcome m Q -> (forall a, Q a -> good_outcome (f a) R) ->
  good_outcome (m ≫= f) R.
Proof.
  intros [->|(a & -> & Ha)] Hf; [by left|]. by apply Hf.
Qed.

Lemma good_weaken {A} (r : res A) (Q R : A -> Prop) :
  good_outcome r Q -> (forall a, Q a -> R a) -> good_outcome r R.
Proof. intros [->|(a & -> & Ha)] H; [by left|]. right. exists a. auto. Qed.

Lemma good_inv {A} (r : res A) Q a : good_outcome r Q -> r = Ret a -> Q a.
Proof. intros [->|(a' & -> & Ha)]; [done|]. by intros [= <-]. Qed.

Lemma good_fuel {A} (r : res A) Q : good_outcome r Q -> r <> OutOfFuel.
Proof. by intros [->|(a' & -> & Ha)]. Qed.

Section build.
Variable fs : sysfs.

Lemma ctx_step_refl ctx : ctx_step ctx ctx.
Proof. split; [apply keeps_refl|done..]. Qed.

Lemma ctx_step_trans c1 c2 c3 : ctx_step c1 c2 -> ctx_step c2 c3 -> ctx_step c1 c3.
Proof.
  intros [] []. split; [by eapply keeps_trans|congruence..].
Qed.

Lemma has_level_step ctx ctx' p lvl :
  ctx_step ctx ctx' -> has_level ctx p lvl -> has_level ctx' p lvl.
Proof.
  intros [Hk _ _ _] (e & He & Hl). destruct (Hk p e He) as (e' & He' & Hl' & _).
  exists e'. split; congruence.
Qed.

Lemma unionQ_thread h t et B :
  inv_union h -> h !! t = Some et -> ent_level et = TOPOLOGY_THREAD ->
  unionQ h t B.
Proof.
  intros HU Ht Hl x ex l Hx Hlev Hc. destruct (decide (x = t)) as [->|Hne].
  - rewrite Ht in Hx. injection Hx as <-. done.
  - by apply (HU x ex l).
Qed.

Lemma alloc_rel_keeps h h' new lvl id parent :
  alloc_rel h h' new lvl id parent -> keeps h h'.
Proof. intros (_ & _ & Hext & _). by apply extends_keeps. Qed.

Lemma threads_ok_alloc root h h' C new lvl id parent :
  alloc_rel h h' new lvl id parent ->
  (lvl = TOPOLOGY_THREAD ->
     C !! sysfs_cpu_thread_siblings fs root id = Some parent) ->
  threads_ok fs root h C -> threads_ok fs root h' C.
Proof.
  intros Hrel Hnew H. apply (threads_ok_back fs root h h' C H).
  intros x e' He' Hl'.
  destruct (alloc_rel_back _ _ _ _ _ _ _ _ Hrel He') as [(-> & Al & Ai & Ap)|?];
    [|by left].
  right. exists parent. split; [done|]. rewrite Ai. apply Hnew. congruence.
Qed.

(** Allocation of a child of an entity of known level. *)
Lemma alloc_outcome ctx parent plvl id :
  build_inv fs ctx -> has_level ctx parent plvl ->
  (plvl - 1 = TOPOLOGY_THREAD ->
     tbl (core_htable ctx)
       !! sysfs_cpu_thread_siblings fs (sysfs_root ctx) id = Some parent) ->
  good_outcome (alloc_init_topo_procent ctx (Some parent) id)
    (fun r => build_inv fs r.1 /\ ctx_step ctx r.1
              /\ alloc_rel (procents ctx) (procents r.1) r.2 (plvl - 1) id parent
              /\ r.1 = set_ctx_list (set_procents ctx (procents r.1)) (Some r.2)).
Proof.
  intros [Hheap Htab Hthr Hdev] (pe & Hpe & Hpl) Hcore.
  destruct (alloc_init_topo_procent ctx (Some parent) id)
    as [[ctx1 new]| |] eqn:Ha; [|by left|by apply alloc_fuel in Ha].
  right. exists (ctx1, new). split; [done|]. cbn.
  destruct (alloc_child_inv _ _ _ _ _ Ha Hheap)
    as (pe0 & Hpe0 & _ & Hheap1 & Hrel & Hc1).
  rewrite Hpe in Hpe0. injection Hpe0 as <-. rewrite Hpl in Hrel.
  split; [|split; [|done]].
  - split.
    + done.
    + rewrite Hc1. cbn. eapply tables_ok_keeps; [|done].
      by eapply alloc_rel_keeps.
    + rewrite Hc1. cbn.
      by apply (threads_ok_alloc _ (procents ctx) _ _ new (plvl - 1) id parent).
    + by rewrite Hc1.
  - split; [by eapply alloc_rel_keeps|by rewrite Hc1..].
Qed.

Lemma set_hash_key_outcome ctx0 ctx p k lvl id parent :
  build_inv fs ctx ->
  alloc_rel (procents ctx0) (procents ctx) p lvl id parent ->
  good_outcome (set_hash_key ctx p k)
    (fun ctx' => build_inv fs ctx' /\ ctx_step ctx ctx'
                 /\ alloc_rel (procents ctx0) (procents ctx') p lvl id parent
                 /\ ctx' = set_procents ctx (procents ctx')).
Proof.
  intros [Hheap Htab Hthr Hdev] Hrel.
  destruct (set_hash_key ctx p k) as [ctx'| |] eqn:Hk;
    [|by left|by apply set_hash_key_fuel in Hk].
  right. exists ctx'. split; [done|].
  destruct (set_hash_key_inv _ _ _ _ _ _ _ _ Hk Hheap Hrel) as (Hheap' & Hrel' & Hc).
  assert (struct_eq (procents ctx) (procents ctx')) as Hse.
  { revert Hk. unfold set_hash_key, deref.
    destruct (procents ctx !! p) as [e|] eqn:He; [|done]. cbn.
    intros [= <-]. cbn. apply (struct_eq_insert _ p e); [done|].
    by repeat split. }
  split; [|split; [|done]].
  - split.
    + done.
    + rewrite Hc. cbn. eapply tables_ok_keeps; [by apply struct_eq_keeps|done].
    + rewrite Hc. cbn. by eapply threads_ok_struct_eq.
    + by rewrite Hc.
  - split; [by apply struct_eq_keeps|by rewrite Hc..].
Qed.

Lemma htable_insert_outcome {A} (htab : htable A) key data :
  good_outcome (htable_insert htab key data)
    (fun r => r.1 = 0
              /\ tbl r.2 = match tbl htab !! key with
                           | Some _ => tbl htab
                           | None => <[key := data]> (tbl htab)
                           end).
Proof.
  destruct (htable_insert htab key data) as [[rc htab']| |] eqn:Hins;
    [|by left|by apply htable_insert_fuel in Hins].
  right. exists (rc, htab'). split; [done|]. cbn.
  apply htable_insert_spec in Hins as (-> & _ & Ht). by rewrite Ht.
Qed.

(** The package of a CPU: found in the table, or created. *)
Lemma package_outcome ctx node cpu_id sig :
  build_inv fs ctx -> has_level ctx node TOPOLOGY_NODE ->
  good_outcome
    (match htable_lookup (package_htable ctx) (Some sig) with
     | Some pkg => Ret (0, ctx, pkg)
     | None =>
         '(ctx, pkg) ← alloc_init_topo_procent ctx (Some node) cpu_id;
         ctx ← set_hash_key ctx pkg sig;
         '(rc, htab) ← htable_insert (package_htable ctx) sig pkg;
         Ret (rc, set_package_htable ctx htab, pkg)
     end)
    (fun r => r.1.1 = 0 /\ build_inv fs r.1.2 /\ ctx_step ctx r.1.2
              /\ has_level r.1.2 r.2 TOPOLOGY_PACKAGE
              /\ tbl (package_htable r.1.2) !! sig = Some r.2).
Proof.
  intros Hinv Hnode.
  destruct (htable_lookup (package_htable ctx) (Some sig)) as [pkg|] eqn:Hlk.
  - apply good_ret. cbn. split; [done|]. split; [done|].
    split; [apply ctx_step_refl|]. split; [|done].
    destruct Hinv as [_ [HP _] _ _]. by apply (HP sig).
  - eapply good_bind.
    { apply (alloc_outcome ctx node TOPOLOGY_NODE cpu_id Hinv Hnode). done. }
    intros [ctx1 pkg] (Hinv1 & Hstep1 & Hrel1 & Hc1). cbn in *.
    eapply good_bind; [by apply (set_hash_key_outcome ctx)|].
    intros ctx2 (Hinv2 & Hstep2 & Hrel2 & Hc2).
    eapply good_bind; [apply htable_insert_outcome|].
    intros [rc htab] (Hrc & Htbl). cbn in *. subst rc. apply good_ret. cbn.
    assert (tbl (package_htable ctx2) !! sig = None) as Hnone.
    { rewrite Hc2, Hc1. done. }
    rewrite Hnone in Htbl.
    destruct Hrel2 as (Hn & Hlen & Hext & en & Hen & Hel & Hei & Hep & Hem).
    destruct Hinv2 as [Hh2 Ht2 Hth2 Hd2].
    split; [done|]. split; [|split; [|split]].
    + split; cbn; [done| |done|done]. rewrite Htbl.
      by apply (tables_ok_insert_pkg _ _ _ _ _ en).
    + eapply ctx_step_trans; [done|]. eapply ctx_step_trans; [done|].
      split; [apply keeps_refl|done..].
    + by exists en.
    + rewrite Htbl. apply lookup_insert_eq.
Qed.

(** The core of a CPU: found in the table, or created in the package. *)
Lemma core_outcome ctx pkg cpu_id :
  let sig := sysfs_cpu_thread_siblings fs (sysfs_root ctx) cpu_id in
  build_inv fs ctx -> has_level ctx pkg TOPOLOGY_PACKAGE ->
  good_outcome
    (match htable_lookup (core_htable ctx) (Some sig) with
     | Some core => Ret (0, ctx, core)
     | None =>
         '(ctx, core) ← alloc_init_topo_procent ctx (Some pkg) cpu_id;
         ctx ← set_hash_key ctx core sig;
         '(rc, htab) ← htable_insert (core_htable ctx) sig core;
         Ret (rc, set_core_htable ctx htab, core)
     end)
    (fun r => r.1.1 = 0 /\ build_inv fs r.1.2 /\ ctx_step ctx r.1.2
              /\ has_level r.1.2 r.2 TOPOLOGY_CORE
              /\ tbl (core_htable r.1.2) !! sig = Some r.2
              /\ package_htable r.1.2 = package_htable ctx).
Proof.
  intros sig Hinv Hpkg.
  destruct (htable_lookup (core_htable ctx) (Some sig)) as [core|] eqn:Hlk.
  - apply good_ret. cbn. split; [done|]. split; [done|].
    split; [apply ctx_step_refl|]. split; [|done].
    destruct Hinv as [_ [_ HC] _ _]. by apply (HC sig).
  - eapply good_bind.
    { apply (alloc_outcome ctx pkg TOPOLOGY_PACKAGE cpu_id Hinv Hpkg). done. }
    intros [ctx1 core] (Hinv1 & Hstep1 & Hrel1 & Hc1). cbn in *.
    eapply good_bind; [by apply (set_hash_key_outcome ctx)|].
    intros ctx2 (Hinv2 & Hstep2 & Hrel2 & Hc2).
    eapply good_bind; [apply htable_insert_outcome|].
    intros [rc htab] (Hrc & Htbl). cbn in *. subst rc. apply good_ret. cbn.
    assert (tbl (core_htable ctx2) !! sig = None) as Hnone.
    { rewrite Hc2, Hc1. done. }
    rewrite Hnone in Htbl.
    destruct Hrel2 as (Hn & Hlen & Hext & en & Hen & Hel & Hei & Hep & Hem).
    destruct Hinv2 as [Hh2 Ht2 Hth2 Hd2].
    split; [done|]. split; [|split; [|split; [|split]]].
    + split; cbn; [done| | |done]; rewrite Htbl.
      * by apply (tables_ok_insert_core _ _ _ _ _ en).
      * by apply threads_ok_insert.
    + eapply ctx_step_trans; [done|]. eapply ctx_step_trans; [done|].
      split; [apply keeps_refl|done..].
    + by exists en.
    + rewrite Htbl. apply lookup_insert_eq.
    + by rewrite Hc2, Hc1.
Qed.

Lemma get_cache_info_outcome ctx thread :
  devs_ok (devices ctx) (tbl (device_htable ctx)) ->
  good_outcome (get_cache_info fs ctx thread)
    (fun r => devs_ok (devices r.2) (tbl (device_htable r.2))
              /\ same_procs ctx r.2).
Proof.
  intros Hd.
  destruct (get_cache_info fs ctx thread) as [[rc ctx']| |] eqn:Hg;
    [|by left|by apply get_cache_info_fuel in Hg].
  right. exists (rc, ctx'). split; [done|]. by eapply get_cache_info_inv.
Qed.

(** The thread of a CPU: created in the core, its bit propagated, its
    caches collected. *)
Lemma thread_outcome ctx core cpu_id :
  build_inv fs ctx -> has_level ctx core TOPOLOGY_CORE ->
  tbl (core_htable ctx)
    !! sysfs_cpu_thread_siblings fs (sysfs_root ctx) cpu_id = Some core ->
  good_outcome
    ('(ctx, thread) ← alloc_init_topo_procent ctx (Some core) cpu_id;
     h ← topo_procent_cpumask_set (List.length (procents ctx))
           (cpu_set_t_size ctx) (procents ctx) thread cpu_id;
     let ctx := set_procents ctx h in
     '(_, ctx) ← get_cache_info fs ctx thread;
     Ret (0, ctx))
    (fun r => r.1 = 0 /\ build_inv fs r.2 /\ ctx_step ctx r.2
              /\ package_htable r.2 = package_htable ctx).
Proof.
  intros Hinv Hcore Htbl.
  eapply good_bind.
  { apply (alloc_outcome ctx core TOPOLOGY_CORE cpu_id Hinv Hcore). done. }
  intros [ctx1 thread] (Hinv1 & Hstep1 & Hrel1 & Hc1). cbn in *.
  pose proof Hrel1 as (Hn & Hlen & Hext & en & Hen & Hel & Hei & Hep & Hem).
  destruct Hinv1 as [[HP1 HC1 HU1 HO1] Ht1 Hth1 Hd1].
  destruct (cpumask_set_total (List.length (procents ctx1))
              (cpu_set_t_size ctx1) cpu_id (procents ctx1) thread)
    as [h2 Hset]; [done|by exists en|by eapply lookup_lt_Some|].
  rewrite Hset. cbn [mbind res_bind].
  destruct (cpumask_set_inv _ _ _ thread _ _ _ en HP1 HC1 HO1
              (unionQ_thread _ _ _ _ HU1 Hen Hel) Hen Hel Hei
              (anc_refl _ _) Hset) as [Hheap2 Hom].
  pose proof (only_masks_struct_eq _ _ Hom) as Hse.
  eapply good_bind; [by apply get_cache_info_outcome|].
  intros [rc ctx3] (Hd3 & (E1 & E2 & E3 & E4 & E5 & E6 & E7)). cbn in *.
  apply good_ret. cbn. split; [done|]. split; [|split].
  - split.
    + by rewrite E1.
    + rewrite E1, E4, E5.
      eapply tables_ok_keeps; [by apply struct_eq_keeps|done].
    + rewrite E1, E4, E6. by eapply threads_ok_struct_eq.
    + done.
  - eapply ctx_step_trans; [done|].
    split; [rewrite E1; by apply struct_eq_keeps|congruence..].
  - by rewrite E5, Hc1.
Qed.

Lemma do_one_cpu_outcome ctx node cpu_id :
  build_inv fs ctx -> has_level ctx node TOPOLOGY_NODE ->
  good_outcome (do_one_cpu fs ctx node cpu_id)
    (fun r => r.1 = 0 /\ build_inv fs r.2 /\ ctx_step ctx r.2
              /\ is_Some (tbl (package_htable r.2)
                            !! sysfs_cpu_core_siblings fs (sysfs_root ctx) cpu_id)).
Proof.
  intros Hinv Hnode. unfold do_one_cpu.
  eapply good_bind; [by apply (package_outcome ctx node cpu_id)|].
  intros [[rc1 ctx1] pkg] (Hrc1 & Hinv1 & Hstep1 & Hpkg & Hptbl). cbn in *.
  subst rc1. cbn [negb Z.eqb].
  eapply good_bind; [by apply (core_outcome ctx1 pkg cpu_id)|].
  intros [[rc2 ctx2] core] (Hrc2 & Hinv2 & Hstep2 & Hcore & Hctbl & Hpt2).
  cbn in *. subst rc2. cbn [negb Z.eqb].
  eapply good_weaken.
  { apply (thread_outcome ctx2 core cpu_id Hinv2 Hcore).
    by rewrite (cs_root _ _ Hstep2). }
  intros [rc3 ctx3] (Hrc3 & Hinv3 & Hstep3 & Hpt3). cbn in *. subst rc3.
  split; [done|]. split; [done|]. split.
  - eapply ctx_step_trans; [done|]. by eapply ctx_step_trans.
  - rewrite Hpt3, Hpt2. by eexists.
Qed.

Lemma do_one_cpu_inv ctx node cpu_id rc ctx' :
  do_one_cpu fs ctx node cpu_id = Ret (rc, ctx') ->
  build_inv fs ctx -> has_level ctx node TOPOLOGY_NODE ->
  build_inv fs ctx' /\ ctx_step ctx ctx'.
Proof.
  intros Hrun Hinv Hnode.
  pose proof (good_inv _ _ _ (do_one_cpu_outcome ctx node cpu_id Hinv Hnode) Hrun)
    as (_ & ? & ? & _).
  done.
Qed.

End build.

(** ** The loops of the build *)

Section build.
Variable fs : sysfs.

Lemma step_post_refl ctx rc : build_inv fs ctx -> step_post fs ctx (rc, ctx).
Proof. intros. split; [done|apply ctx_step_refl]. Qed.

Lemma do_node_cpus_loop_outcome entries : forall ctx node,
  build_inv fs ctx -> has_level ctx node TOPOLOGY_NODE ->
  good_outcome (do_node_cpus_loop fs entries ctx node) (step_post fs ctx).
Proof.
  induction entries as [|d entries IH]; intros ctx node Hinv Hnode.
  - apply good_ret. by apply step_post_refl.
  - cbn [do_node_cpus_loop].
    destruct (sscanf_d (d_name d) "cpu") as [cpu_id|]; [|by apply IH].
    destruct (sysfs_cpu_is_online fs (sysfs_root ctx) cpu_id =? 0);
      [by apply IH|].
    eapply good_bind; [by apply (do_one_cpu_outcome fs ctx node cpu_id)|].
    intros [rc1 ctx1] (_ & Hinv1 & Hstep1 & _). cbn in *.
    destruct (negb (rc1 =? 0)); [by apply good_ret|].
    eapply good_weaken; [apply IH; [done|by eapply has_level_step]|].
    intros [rc2 ctx2] [Hinv2 Hstep2]. split; [done|]. by eapply ctx_step_trans.
Qed.

Lemma do_node_cpus_outcome ctx node :
  build_inv fs ctx -> has_level ctx node TOPOLOGY_NODE ->
  good_outcome (do_node_cpus fs ctx node) (step_post fs ctx).
Proof.
  unfold do_node_cpus, deref. intros Hinv Hnode.
  destruct Hnode as (ne & Hne & Hl). rewrite Hne. cbn [mbind res_bind].
  destruct (match opendir fs _ with Some entries => Some entries | None => _ end)
    as [entries|].
  - apply do_node_cpus_loop_outcome; [done|by exists ne].
  - apply good_ret. by apply step_post_refl.
Qed.

Lemma do_one_node_outcome ctx sys nid :
  build_inv fs ctx -> has_level ctx sys TOPOLOGY_SYSTEM ->
  good_outcome (do_one_node fs ctx sys nid) (step_post fs ctx).
Proof.
  unfold do_one_node. intros Hinv Hsys.
  eapply good_bind.
  { apply (alloc_outcome fs ctx sys TOPOLOGY_SYSTEM nid Hinv Hsys). done. }
  intros [ctx1 node] (Hinv1 & Hstep1 & Hrel1 & Hc1). cbn in *.
  destruct Hrel1 as (Hn & Hlen & Hext & en & Hen & Hel & Hei & Hep & Hem).
  eapply good_bind.
  { apply (do_node_cpus_outcome ctx1 node Hinv1). by exists en. }
  intros [rc2 ctx2] [Hinv2 Hstep2]. cbn in *.
  assert (step_post fs ctx (0, ctx2)) as Hpost.
  { split; [done|]. by eapply ctx_step_trans. }
  destruct (negb (rc2 =? 0)); by apply good_ret.
Qed.

Lemma build_context_loop_outcome entries : forall ctx system,
  build_inv fs ctx -> has_level ctx system TOPOLOGY_SYSTEM ->
  good_outcome (build_context_loop fs entries ctx system) (step_post fs ctx).
Proof.
  induction entries as [|d entries IH]; intros ctx system Hinv Hsys.
  - apply good_ret. by apply step_post_refl.
  - cbn [build_context_loop].
    destruct (negb (is_dir_or_unknown (d_type_of d))); [by apply IH|].
    destruct (sscanf_d (d_name d) "node") as [node_id|]; [|by apply IH].
    eapply good_bind; [by apply (do_one_node_outcome ctx system node_id)|].
    intros [rc1 ctx1] [Hinv1 Hstep1]. cbn in *.
    destruct (negb (rc1 =? 0)); [by apply good_ret|].
    eapply good_weaken; [apply IH; [done|by eapply has_level_step]|].
    intros [rc2 ctx2] [Hinv2 Hstep2]. split; [done|]. by eapply ctx_step_trans.
Qed.

Lemma heap_inv_root id nxt :
  heap_inv [new_procent TOPOLOGY_SYSTEM id None None nxt].
Proof.
  split.
  - intros [|p] e He; [|done]. injection He as <-. done.
  - intros [|q] eq Hq; [|done]. injection Hq as <-. exists []. cbn.
    split; [constructor|]. intros p. split; [set_solver|].
    intros (e & He & Hp). destruct p; [|done]. by injection He as <-.
  - intros [|q] eq l Hq _ Hc; [|done]. injection Hq as <-. cbn in Hc.
    by inversion Hc.
  - intros [|p] e b He Hb; [|done]. injection He as <-. cbn in Hb.
    by rewrite Z.bits_0 in Hb.
Qed.

Lemma build_context_outcome ctx :
  procents ctx = [] -> tbl (package_htable ctx) = ∅ ->
  tbl (core_htable ctx) = ∅ -> devices ctx = [] ->
  good_outcome (build_context fs ctx) (built fs ctx).
Proof.
  unfold build_context. intros Hh HP HC HD.
  cbn [alloc_init_topo_procent mbind res_bind]. rewrite Hh.
  cbn [List.length app].
  set (ctx0 := set_ctx_system _ _).
  assert (Hinv0 : build_inv fs ctx0).
  { split; cbn.
    - apply heap_inv_root.
    - rewrite HP, HC. split; intros k p Hk; by rewrite lookup_empty in Hk.
    - intros [|t] e He Hl; [|done]. by injection He as <-.
    - rewrite HD. split; [constructor|constructor|set_solver]. }
  assert (Hsys0 : has_level ctx0 0%nat TOPOLOGY_SYSTEM) by (by eexists).
  assert (Hgoal : forall r, step_post fs ctx0 r -> built fs ctx r).
  { intros [rc c] [Hi Hs]. split; [done|]. pose proof Hs as [? ? ? ?].
    do 3 (split; [done|]). by eapply has_level_step. }
  destruct (opendir fs _) as [entries|].
  - eapply good_weaken; [by apply build_context_loop_outcome|done].
  - eapply good_weaken; [by apply do_one_node_outcome|done].
Qed.

(** The outcome of [new_context]: the bounds given to the pointer walks
    are never exhausted, and a context that is returned satisfies the
    invariants. *)
Lemma new_context_outcome root size :
  good_outcome (new_context fs root size)
    (fun o => forall ctx, o = Some ctx ->
       build_inv fs ctx /\ sysfs_root ctx = root /\ cpu_set_t_size ctx = size
       /\ ctx_system ctx = Some 0%nat /\ has_level ctx 0%nat TOPOLOGY_SYSTEM).
Proof.
  unfold new_context. destruct (size =? 0); [by apply good_ret|].
  eapply good_bind; [by apply build_context_outcome|].
  intros [rc ctx1] Hb. cbn [negb]. destruct (negb (rc =? 0)).
  - by apply good_ret.
  - apply good_ret. by intros ctx [= <-].
Qed.

Lemma new_context_inv root size ctx :
  new_context fs root size = Ret (Some ctx) ->
  build_inv fs ctx /\ sysfs_root ctx = root /\ cpu_set_t_size ctx = size
  /\ ctx_system ctx = Some 0%nat /\ has_level ctx 0%nat TOPOLOGY_SYSTEM.
Proof.
  intros H. by apply (good_inv _ _ _ (new_context_outcome root size) H).
Qed.

Lemma new_context_fuel root size : new_context fs root size <> OutOfFuel.
Proof. eapply good_fuel, new_context_outcome. Qed.

End build.

(** * Package signature *)

(** ** One call of [do_one_cpu] *)

Lemma bind_ret {A B} (m : res A) (f : A -> res B) (b : B) :
  m ≫= f = Ret b -> exists a, m = Ret a /\ f a = Ret b.
Proof. destruct m as [a| |]; [|done..]. intros H. by exists a. Qed.

Lemma stays_refl h : stays h h.
Proof. intros x e He. by exists e. Qed.

Lemma stays_trans h1 h2 h3 : stays h1 h2 -> stays h2 h3 -> stays h1 h3.
Proof.
  intros H12 H23 x e He.
  destruct (H12 x e He) as (e2 & He2 & L2 & I2 & P2 & K2).
  destruct (H23 x e2 He2) as (e3 & He3 & L3 & I3 & P3 & K3).
  exists e3. split; [done|]. repeat split; congruence.
Qed.

Lemma stays_length h h' : stays h h' -> (List.length h <= List.length h')%nat.
Proof.
  intros H. destruct (decide (List.length h = 0%nat)) as [|Hne]; [lia|].
  destruct (lookup_lt_is_Some_2 h (List.length h - 1) ltac:(lia)) as [e He].
  destruct (H _ _ He) as (e' & He' & _). apply lookup_lt_Some in He'. lia.
Qed.

Lemma created_stays h h1 h2 x id parent key :
  created h h1 x id parent key -> stays h1 h2 -> created h h2 x id parent key.
Proof.
  intros [Hx (e & pe & He & Hpe & Hl & Hi & Hp & Hk)] Hs. split; [done|].
  destruct (Hs x e He) as (e' & He' & L & I & P & K).
  destruct (Hs parent pe Hpe) as (pe' & Hpe' & L' & _).
  exists e', pe'. split; [done|]. split; [done|]. repeat split; congruence.
Qed.

Lemma created_before h0 h h' x id parent key :
  created h h' x id parent key -> stays h0 h -> created h0 h' x id parent key.
Proof.
  intros [Hx H] Hs. split; [|done].
  destruct (h0 !! x) as [e|] eqn:He; [|done].
  destruct (Hs x e He) as (e' & He' & _). congruence.
Qed.

Lemma same_rest_refl ctx : same_rest ctx ctx.
Proof. by split. Qed.

Lemma same_rest_trans c1 c2 c3 :
  same_rest c1 c2 -> same_rest c2 c3 -> same_rest c1 c3.
Proof. intros [] []. split; congruence. Qed.

(** Allocation of a child. *)
Lemma alloc_run ctx parent id c1 x :
  alloc_init_topo_procent ctx (Some parent) id = Ret (c1, x) ->
  x = List.length (procents ctx)
  /\ List.length (procents c1) = S (List.length (procents ctx))
  /\ stays (procents ctx) (procents c1)
  /\ created (procents ctx) (procents c1) x id parent None
  /\ same_rest ctx c1
  /\ package_htable c1 = package_htable ctx
  /\ core_htable c1 = core_htable ctx.
Proof.
  intros Ha. apply alloc_spec in Ha as (-> & Hc1 & pe & Hpe & Hl & Hh).
  pose proof (lookup_lt_Some _ _ _ Hpe) as Hlt.
  split; [done|]. split.
  { rewrite Hh, length_insert, length_app. cbn. lia. }
  split.
  { intros y e He. rewrite Hh.
    destruct (decide (y = parent)) as [->|Hne].
    - rewrite Hpe in He. injection He as <-.
      exists (set_ent_children pe (Some (List.length (procents ctx)))).
      split; [|done].
      apply list_lookup_insert_eq. rewrite length_app. cbn. lia.
    - exists e. split; [|done].
      rewrite list_lookup_insert_ne by done. by apply lookup_app_l_Some. }
  split.
  { split; [by apply lookup_ge_None|].
    exists (new_procent (ent_level pe - 1) id (Some parent) (ent_children pe)
              (ctx_list ctx)),
      (set_ent_children pe (Some (List.length (procents ctx)))).
    rewrite Hh. split.
    - rewrite list_lookup_insert_ne by lia.
      rewrite lookup_app_r by lia. by rewrite Nat.sub_diag.
    - split; [|done].
      apply list_lookup_insert_eq. rewrite length_app. cbn. lia. }
  rewrite Hc1. by repeat split.
Qed.

Lemma set_hash_key_run ctx x k c2 id parent h0 :
  set_hash_key ctx x k = Ret c2 ->
  created h0 (procents ctx) x id parent None ->
  List.length (procents c2) = List.length (procents ctx)
  /\ (forall y e, y <> x -> procents ctx !! y = Some e ->
        procents c2 !! y = Some e)
  /\ created h0 (procents c2) x id parent (Some k)
  /\ same_rest ctx c2
  /\ package_htable c2 = package_htable ctx
  /\ core_htable c2 = core_htable ctx.
Proof.
  unfold set_hash_key, deref. intros H [Hx (e & pe & He & Hpe & Hl & Hi & Hp & Hk)].
  rewrite He in H. cbn in H. injection H as <-. cbn.
  pose proof (lookup_lt_Some _ _ _ He) as Hlt.
  split; [by rewrite length_insert|]. split.
  { intros y ey Hne Hy. by rewrite list_lookup_insert_ne. }
  split; [|by repeat split].
  split; [done|].
  destruct (decide (parent = x)) as [->|Hne].
  - rewrite He in Hpe. injection Hpe as <-.
    exists (set_ent_hash_key e (Some k)), (set_ent_hash_key e (Some k)).
    rewrite list_lookup_insert_eq by done. by repeat split.
  - exists (set_ent_hash_key e (Some k)), pe.
    rewrite list_lookup_insert_eq by done.
    rewrite list_lookup_insert_ne by done. by repeat split.
Qed.

Lemma cpumask_set_run fuel size bit : forall h p h',
  topo_procent_cpumask_set fuel size h p bit = Ret h' ->
  List.length h' = List.length h
  /\ forall x e, h !! x = Some e ->
       exists m, h' !! x = Some (set_ent_cpumask e m).
Proof.
  induction fuel as [|fuel IH]; intros h p h' H; [done|].
  cbn [topo_procent_cpumask_set] in H. unfold deref in H.
  destruct (h !! p) as [e|] eqn:He; [|done]. cbn [mbind res_bind] in H.
  set (h1 := <[p := set_ent_cpumask e (CPU_SET_S bit size (ent_cpumask e))]> h)
    in *.
  assert (H1 : List.length h1 = List.length h
               /\ forall x ex, h !! x = Some ex ->
                    exists m, h1 !! x = Some (set_ent_cpumask ex m)).
  { split; [apply length_insert|]. intros x ex Hx.
    pose proof (lookup_lt_Some _ _ _ Hx) as Hlt.
    destruct (decide (x = p)) as [->|Hne].
    - rewrite He in Hx. injection Hx as <-.
      exists (CPU_SET_S bit size (ent_cpumask e)).
      by apply list_lookup_insert_eq.
    - exists (ent_cpumask ex). unfold h1.
      rewrite list_lookup_insert_ne by done. by destruct ex. }
  destruct H1 as [Hlen Hall].
  destruct (ent_parent e) as [q|].
  - destruct (IH _ _ _ H) as [Hlen' Hall']. split; [congruence|].
    intros x ex Hx. destruct (Hall x ex Hx) as (m1 & Hm1).
    destruct (Hall' _ _ Hm1) as (m2 & Hm2). exists m2. by rewrite Hm2.
  - injection H as <-. done.
Qed.

Lemma only_mask_stays h h' :
  (forall x e, h !! x = Some e ->
     exists m, h' !! x = Some (set_ent_cpumask e m)) ->
  stays h h'.
Proof.
  intros H x e He. destruct (H x e He) as (m & Hm).
  exists (set_ent_cpumask e m). by split.
Qed.

Lemma alloc_key_run ctx parent id sig c1 x c2 :
  alloc_init_topo_procent ctx (Some parent) id = Ret (c1, x) ->
  set_hash_key c1 x sig = Ret c2 ->
  x = List.length (procents ctx)
  /\ List.length (procents c2) = S (List.length (procents ctx))
  /\ stays (procents ctx) (procents c2)
  /\ created (procents ctx) (procents c2) x id parent (Some sig)
  /\ same_rest ctx c2
  /\ package_htable c2 = package_htable ctx
  /\ core_htable c2 = core_htable ctx.
Proof.
  intros Ha Hk.
  apply alloc_run in Ha as (Hx & Hlen & Hs & Hc & Hr & Hp & Hco).
  destruct (set_hash_key_run _ _ _ _ _ _ _ Hk Hc)
    as (Hlen2 & Hother & Hc2 & Hr2 & Hp2 & Hco2).
  split; [done|]. split; [congruence|]. split.
  { intros y e He. destruct (Hs y e He) as (e' & He' & H').
    exists e'. split; [|done]. apply Hother; [|done].
    apply lookup_lt_Some in He. lia. }
  split; [done|]. split; [by eapply same_rest_trans|]. split; congruence.
Qed.

Section run.
Variable fs : sysfs.

Lemma get_cache_info_loop_same n : forall index ctx tid rc ctx',
  get_cache_info_loop fs n index ctx tid = Ret (rc, ctx') ->
  same_procs ctx ctx'.
Proof.
  induction n as [|n IH]; intros index ctx tid rc ctx' H.
  - cbn in H. injection H as <- <-. apply same_procs_refl.
  - cbn [get_cache_info_loop] in H.
    destruct (__get_cache_info fs ctx _ tid index) as [rc1 cache1].
    destruct (negb (rc1 =? 0));
      [injection H as <- <-; apply same_procs_refl|].
    destruct (cache_build_hash cache1) as [rc2 cache2].
    destruct (negb (rc2 =? 0));
      [injection H as <- <-; apply same_procs_refl|].
    destruct (htable_lookup (device_htable ctx) (dev_hash_key cache2)).
    + by eapply IH.
    + apply bind_ret in H as ([rc3 ctx3] & Hh & H).
      apply hash_device_spec in Hh as (-> & Hctx3 & _).
      cbn [negb Z.eqb] in H. apply IH in H.
      eapply same_procs_trans; [|exact H].
      rewrite Hctx3. by repeat split.
Qed.

Lemma get_cache_info_same ctx thread rc ctx' :
  get_cache_info fs ctx thread = Ret (rc, ctx') -> same_procs ctx ctx'.
Proof.
  unfold get_cache_info. intros H.
  apply bind_ret in H as (te & _ & H).
  destruct (_ =? 0).
  - injection H as <- <-. apply same_procs_refl.
  - by eapply get_cache_info_loop_same.
Qed.

(** The run of [do_one_cpu]: the package and the core are looked up
    under the two signatures of the CPU and created when absent, the
    thread is created, and the outcome of [get_cache_info] is dropped. *)
Lemma do_one_cpu_run ctx node cpu_id rc ctx' :
  do_one_cpu fs ctx node cpu_id = Ret (rc, ctx') ->
  let S_pkg := sysfs_cpu_core_siblings fs (sysfs_root ctx) cpu_id in
  let S_core := sysfs_cpu_thread_siblings fs (sysfs_root ctx) cpu_id in
  exists pkg core thread ctx_t rc_c,
    rc = 0
    /\ stays (procents ctx) (procents ctx')
    /\ match htable_lookup (package_htable ctx) (Some S_pkg) with
       | Some p => pkg = p /\ package_htable ctx' = package_htable ctx
       | None =>
           pkg = List.length (procents ctx)
           /\ tbl (package_htable ctx')
              = <[S_pkg := pkg]> (tbl (package_htable ctx))
           /\ created (procents ctx) (procents ctx') pkg cpu_id node
                (Some S_pkg)
       end
    /\ match htable_lookup (core_htable ctx) (Some S_core) with
       | Some c => core = c /\ core_htable ctx' = core_htable ctx
       | None =>
           core = (List.length (procents ctx)
                   + absent (package_htable ctx) S_pkg)%nat
           /\ tbl (core_htable ctx')
              = <[S_core := core]> (tbl (core_htable ctx))
           /\ created (procents ctx) (procents ctx') core cpu_id pkg
                (Some S_core)
       end
    /\ thread = (List.length (procents ctx)
                 + absent (package_htable ctx) S_pkg
                 + absent (core_htable ctx) S_core)%nat
    /\ List.length (procents ctx') = S thread
    /\ created (procents ctx) (procents ctx') thread cpu_id core None
    /\ htable_lookup (package_htable ctx') (Some S_pkg) = Some pkg
    /\ htable_lookup (core_htable ctx') (Some S_core) = Some core
    /\ get_cache_info fs ctx_t thread = Ret (rc_c, ctx')
    /\ procents ctx_t = procents ctx'
    /\ same_rest ctx ctx_t.
Proof.
  intros Hrun S_pkg S_core. unfold do_one_cpu in Hrun.
  fold S_pkg in Hrun.
  (* package *)
  apply bind_ret in Hrun as ([[rc1 ctx1] pkg] & E1 & Hrun).
  assert (P1 : rc1 = 0
    /\ stays (procents ctx) (procents ctx1)
    /\ same_rest ctx ctx1
    /\ core_htable ctx1 = core_htable ctx
    /\ List.length (procents ctx1)
       = (List.length (procents ctx) + absent (package_htable ctx) S_pkg)%nat
    /\ htable_lookup (package_htable ctx1) (Some S_pkg) = Some pkg
    /\ match htable_lookup (package_htable ctx) (Some S_pkg) with
       | Some p => pkg = p /\ package_htable ctx1 = package_htable ctx
       | None =>
           pkg = List.length (procents ctx)
           /\ tbl (package_htable ctx1)
              = <[S_pkg := pkg]> (tbl (package_htable ctx))
           /\ created (procents ctx) (procents ctx1) pkg cpu_id node
                (Some S_pkg)
       end).
  { unfold absent.
    destruct (htable_lookup (package_htable ctx) (Some S_pkg)) as [p|] eqn:Hlk.
    - injection E1 as <- <- <-. split; [done|].
      split; [apply stays_refl|]. split; [apply same_rest_refl|].
      split; [done|]. split; [lia|]. done.
    - apply bind_ret in E1 as ([c1 x] & Ea & E1).
      apply bind_ret in E1 as (c2 & Ek & E1).
      apply bind_ret in E1 as ([rcx htab] & Ei & E1).
      injection E1 as <- <- <-.
      destruct (alloc_key_run _ _ _ _ _ _ _ Ea Ek)
        as (-> & Hlen & Hs & Hc & Hr & Hp & Hco).
      apply htable_insert_spec in Ei as (-> & _ & Ht).
      rewrite Hp in Ht. cbn in Hlk. rewrite Hlk in Ht.
      split; [done|]. split; [done|]. split; [by destruct Hr|].
      split; [done|]. split; [cbn; lia|]. split.
      { cbn. rewrite Ht. apply lookup_insert_eq. }
      split; [done|]. split; [done|]. done. }
  destruct P1 as (-> & Hs1 & Hr1 & Hco1 & Hlen1 & Hlk1 & Hpkg).
  cbn [negb Z.eqb] in Hrun.
  (* core *)
  rewrite (sr_root _ _ Hr1) in Hrun. fold S_core in Hrun.
  apply bind_ret in Hrun as ([[rc2 ctx2] core] & E2 & Hrun).
  assert (P2 : rc2 = 0
    /\ stays (procents ctx1) (procents ctx2)
    /\ same_rest ctx1 ctx2
    /\ package_htable ctx2 = package_htable ctx1
    /\ List.length (procents ctx2)
       = (List.length (procents ctx1) + absent (core_htable ctx) S_core)%nat
    /\ htable_lookup (core_htable ctx2) (Some S_core) = Some core
    /\ match htable_lookup (core_htable ctx) (Some S_core) with
       | Some c => core = c /\ core_htable ctx2 = core_htable ctx
       | None =>
           core = List.length (procents ctx1)
           /\ tbl (core_htable ctx2)
              = <[S_core := core]> (tbl (core_htable ctx))
           /\ created (procents ctx1) (procents ctx2) core cpu_id pkg
                (Some S_core)
       end).
  { unfold absent. rewrite Hco1 in E2.
    destruct (htable_lookup (core_htable ctx) (Some S_core)) as [c|] eqn:Hlk.
    - injection E2 as <- <- <-. split; [done|].
      split; [apply stays_refl|]. split; [apply same_rest_refl|].
      split; [done|]. split; [lia|]. rewrite Hco1. done.
    - apply bind_ret in E2 as ([c1 x] & Ea & E2).
      apply bind_ret in E2 as (c2 & Ek & E2).
      apply bind_ret in E2 as ([rcx htab] & Ei & E2).
      injection E2 as <- <- <-.
      destruct (alloc_key_run _ _ _ _ _ _ _ Ea Ek)
        as (-> & Hlen & Hs & Hc & Hr & Hp & Hco).
      apply htable_insert_spec in Ei as (-> & _ & Ht).
      rewrite Hco, Hco1 in Ht. cbn in Hlk. rewrite Hlk in Ht.
      split; [done|]. split; [done|]. split; [by destruct Hr|].
      split; [done|]. split; [cbn; lia|]. split.
      { cbn. rewrite Ht. apply lookup_insert_eq. }
      split; [done|]. split; [done|]. done. }
  destruct P2 as (-> & Hs2 & Hr2 & Hp2 & Hlen2 & Hlk2 & Hcore).
  cbn [negb Z.eqb] in Hrun.
  (* thread *)
  apply bind_ret in Hrun as ([ctx3 thread] & Ea & Hrun).
  apply bind_ret in Hrun as (h4 & Hset & Hrun). cbn zeta in Hrun.
  apply bind_ret in Hrun as ([rc5 ctx5] & Hg & Hrun).
  injection Hrun as <- <-.
  apply alloc_run in Ea as (-> & Hlen3 & Hs3 & Hc3 & Hr3 & Hp3 & Hco3).
  apply cpumask_set_run in Hset as [Hlen4 Hall4].
  pose proof (only_mask_stays _ _ Hall4) as Hs4.
  pose proof (get_cache_info_same _ _ _ _ Hg)
    as (G1 & G2 & G3 & G4 & G5 & G6 & G7).
  cbn [procents set_procents core_htable package_htable] in G1, G4, G5.
  exists pkg, core, (List.length (procents ctx2)),
    (set_procents ctx3 h4), rc5.
  assert (Hs24 : stays (procents ctx2) h4) by (by eapply stays_trans).
  assert (Hs14 : stays (procents ctx1) h4) by (by eapply stays_trans).
  assert (Hs04 : stays (procents ctx) h4) by (by eapply stays_trans).
  rewrite G1, G4, G5, Hp3, Hco3, Hp2.
  split; [done|]. split; [done|]. split.
  { destruct (htable_lookup (package_htable ctx) (Some S_pkg)); [done|].
    destruct Hpkg as (-> & Ht & Hc). split; [done|]. split; [done|].
    by eapply created_stays. }
  split.
  { destruct (htable_lookup (core_htable ctx) (Some S_core)); [done|].
    destruct Hcore as (-> & Ht & Hc). split; [lia|]. split; [done|].
    eapply created_before; [|exact Hs1]. by eapply created_stays. }
  split; [lia|]. split; [lia|]. split.
  { eapply created_before; [|exact (stays_trans _ _ _ Hs1 Hs2)].
    by eapply created_stays. }
  split; [done|]. split; [done|]. split; [done|]. split; [done|].
  eapply same_rest_trans; [exact Hr1|]. eapply same_rest_trans; [exact Hr2|].
  destruct Hr3. by split.
Qed.

End run.

Lemma one_node_check :
  (let ctx :=
      {| sysfs_root := "/sys"; cpu_set_t_size := 8;
         procents := []; ctx_list := None; ctx_system := None;
         core_htable := snd (htable_init (to_size_t (8 * 8)));
         package_htable := snd (htable_init (to_size_t (8 * 8)));
         devices := [];
         device_htable := snd (htable_init 2) |} in
   '(ctx, system) ← alloc_init_topo_procent ctx None 0;
   let ctx := set_ctx_system ctx (Some system) in
   '(ctx, node) ← alloc_init_topo_procent ctx (Some system) 0;
   Ret (ctx, node)) = Ret (Fixtures.one_node, 1%nat).
Proof. reflexivity. Qed.

Lemma core_siblings_absent fs sysfs_root cpu_id :
  slurp_text_file fs (core_siblings_path sysfs_root cpu_id) = None ->
  sysfs_cpu_core_siblings fs sysfs_root cpu_id
  = match slurp_text_file fs (thread_siblings_path sysfs_root cpu_id) with
    | Some buf => buf
    | None => sprintf_d cpu_id
    end.
Proof.
  intros H. unfold sysfs_cpu_core_siblings.
  fold (core_siblings_path sysfs_root cpu_id). by rewrite H.
Qed.

(** C3, as the code has it.  When the file [core_siblings] of a CPU is
    absent, the signature under which [do_one_cpu] looks up the PACKAGE
    entity in the package table, and registers the one it creates when
    the lookup fails, is the contents of the CPU's [thread_siblings]
    file if that file exists (one core per package), and the CPU id
    printed in decimal only when both files are absent. *)
Theorem core_siblings_fallback (fs : sysfs) (ctx : topo_context)
    (node : ptr) (cpu_id : Z) (rc : Z) (ctx' : topo_context) :
  slurp_text_file fs (core_siblings_path (sysfs_root ctx) cpu_id) = None ->
  has_level ctx node TOPOLOGY_NODE ->
  do_one_cpu fs ctx node cpu_id = Ret (rc, ctx') ->
  exists S_pkg pkg,
    S_pkg = match slurp_text_file fs
                    (thread_siblings_path (sysfs_root ctx) cpu_id) with
            | Some buf => buf
            | None => sprintf_d cpu_id
            end
    /\ sysfs_cpu_core_siblings fs (sysfs_root ctx) cpu_id = S_pkg
    /\ match htable_lookup (package_htable ctx) (Some S_pkg) with
       | Some p =>
           (* found: the package is reused, nothing is registered *)
           pkg = p /\ package_htable ctx' = package_htable ctx
       | None =>
           (* not found: a PACKAGE is created under the node and
              registered under the signature *)
           pkg = List.length (procents ctx)
           /\ tbl (package_htable ctx')
              = <[S_pkg := pkg]> (tbl (package_htable ctx))
           /\ exists e, procents ctx' !! pkg = Some e
                /\ ent_level e = TOPOLOGY_PACKAGE /\ ent_id e = cpu_id
                /\ ent_parent e = Some node
                /\ ent_hash_key e = Some S_pkg
       end
    /\ htable_lookup (package_htable ctx') (Some S_pkg) = Some pkg.
Proof.
  intros Habs (ne & Hne & Hnl) Hrun.
  pose proof (core_siblings_absent fs _ _ Habs) as Hkey.
  destruct (do_one_cpu_run fs _ _ _ _ _ Hrun)
    as (pkg & core & thread & ctx_t & rc_c & _ & Hs & Hpkg & _ & _ & _ & _
        & Hlk & _).
  cbn zeta in Hpkg, Hlk. rewrite Hkey in Hpkg, Hlk.
  eexists _, pkg. split; [reflexivity|]. split; [exact Hkey|].
  split; [|exact Hlk].
  destruct (htable_lookup (package_htable ctx) _); [exact Hpkg|].
  destruct Hpkg as (Hp & Ht & _ & e & pe & He & Hpe & Hl & Hi & Hpar & Hk).
  split; [exact Hp|]. split; [exact Ht|].
  exists e. split; [exact He|].
  destruct (Hs node ne Hne) as (ne' & Hne' & Hl' & _).
  rewrite Hne' in Hpe. injection Hpe as <-.
  split; [|done]. rewrite Hl, Hl', Hnl. reflexivity.
Qed.

Lemma core_siblings_fallback_witness :
  exists ctx',
    do_one_cpu Fixtures.no_core_siblings Fixtures.one_node 1%nat 1
    = Ret (0, ctx')
    /\ htable_lookup (package_htable ctx') (Some "3"%string) = Some 2%nat.
Proof.
  assert (exists ctx',
            do_one_cpu Fixtures.no_core_siblings Fixtures.one_node 1%nat 1
            = Ret (0, ctx')) as [ctx' Hrun].
  { eexists. vm_compute. reflexivity. }
  exists ctx'. split; [exact Hrun|].
  destruct (core_siblings_fallback Fixtures.no_core_siblings
              Fixtures.one_node 1%nat 1 0 ctx')
    as (S_pkg & pkg & HS & _ & Hpkg & Hlk);
    [reflexivity|eexists; split; reflexivity|exact Hrun|].
  assert (S_pkg = "3"%string) as -> by (rewrite HS; reflexivity).
  destruct Hpkg as (-> & _). exact Hlk.
Defined.

Lemma core_siblings_synthesized_cex :
  slurp_text_file Fixtures.no_core_siblings (core_siblings_path "/sys" 1)
  = None
  /\ sprintf_d 1 = "1"%string
  /\ sysfs_cpu_core_siblings Fixtures.no_core_siblings "/sys" 1
     <> sprintf_d 1
  /\ exists ctx,
       new_context Fixtures.no_core_siblings "/sys" 8 = Ret (Some ctx)
       /\ map (fun e => (ent_level e, ent_id e, ent_hash_key e))
            (procents ctx)
          = [(TOPOLOGY_SYSTEM, 0, None); (TOPOLOGY_NODE, 0, None);
             (TOPOLOGY_PACKAGE, 1, Some "3"%string);
             (TOPOLOGY_CORE, 1, Some "3"%string);
             (TOPOLOGY_THREAD, 1, None)].
Proof.
  split; [reflexivity|]. split; [reflexivity|]. split; [by vm_compute|].
  eexists. split; [vm_compute; reflexivity|reflexivity].
Qed.

(** * Cache discovery stops at the first failure *)

Section caches.
Variable fs : sysfs.

Lemma get_cache_info_missing ctx cache cpu index :
  attribute_missing fs (index_dir (sysfs_root ctx) cpu index) ->
  fst (__get_cache_info fs ctx cache cpu index) = 1.
Proof.
  unfold __get_cache_info. intros H.
  destruct (opendir fs _); [|done].
  destruct (sysfs_get_attr fs _ "size") eqn:E1; [|done].
  destruct (sysfs_get_attr fs _ "type") eqn:E2; [|done].
  destruct (sysfs_get_attr fs _ "level") eqn:E3; [|done].
  destruct (sysfs_get_attr fs _ "shared_cpu_map") eqn:E4; [|done].
  exfalso. destruct H as [H|[H|[H|H]]]; congruence.
Qed.

Lemma wrap_int_range z : - 2^31 <= wrap_int z <= INT_MAX.
Proof.
  unfold wrap_int, INT_MAX.
  pose proof (Z.mod_pos_bound (z + 2^31) (2^32) ltac:(lia)). lia.
Qed.

Lemma count_index_dirs_range entries : forall count,
  - 2^31 <= count <= INT_MAX ->
  - 2^31 <= count_index_dirs entries count <= INT_MAX.
Proof.
  induction entries as [|d entries IH]; intros count H; [done|].
  cbn [count_index_dirs]. destruct (negb _); [by apply IH|].
  destruct (sscanf_d _ _); [|by apply IH]. apply IH, wrap_int_range.
Qed.

Lemma sysfs_count_caches_range sysfs cpu :
  sysfs_count_caches fs sysfs cpu <= INT_MAX.
Proof.
  unfold sysfs_count_caches. destruct (opendir fs _); [|done].
  apply count_index_dirs_range. done.
Qed.

Lemma get_cache_info_loop_stops k : forall n index ctx tid,
  (k < n)%nat -> 0 <= index -> index + Z.of_nat k < INT_MAX ->
  attribute_missing fs
    (index_dir (sysfs_root ctx) tid (index + Z.of_nat k)) ->
  get_cache_info_loop fs n index ctx tid
  = fail_after (get_cache_info_loop fs k index ctx tid).
Proof.
  induction k as [|k IH]; intros n index ctx tid Hk Hi Hmax Hmiss;
    (destruct n as [|n]; [lia|]); cbn [get_cache_info_loop].
  - rewrite Z.add_0_r in Hmiss.
    pose proof (get_cache_info_missing ctx (alloc_topo_device ctx "cache")
                  tid index Hmiss) as Hf.
    destruct (__get_cache_info fs ctx _ tid index) as [rc cache].
    cbn in Hf. by subst rc.
  - destruct (__get_cache_info fs ctx _ tid index) as [rc cache].
    destruct (negb (rc =? 0)); [done|].
    destruct (cache_build_hash cache) as [rc2 cache2].
    destruct (negb (rc2 =? 0)); [done|].
    assert (Hw : wrap_int (index + 1) = index + 1).
    { apply wrap_int_small. unfold INT_MAX in *. lia. }
    rewrite Hw.
    destruct (htable_lookup _ _).
    + apply IH; [lia|lia|lia|].
      by replace (index + 1 + Z.of_nat k) with (index + Z.of_nat (S k)) by lia.
    + destruct (hash_device ctx cache2) as [[rc3 ctx3]| |] eqn:Hh; try done.
      cbn [mbind res_bind].
      destruct (negb (rc3 =? 0)); [done|].
      apply hash_device_spec in Hh as (_ & Hctx3 & _).
      apply IH; [lia|lia|lia|].
      replace (index + 1 + Z.of_nat k) with (index + Z.of_nat (S k)) by lia.
      cbn. by rewrite Hctx3.
Qed.

End caches.

Lemma get_cache_info_fails_at fs ctx thread te k :
  procents ctx !! thread = Some te ->
  0 <= k < sysfs_count_caches fs (sysfs_root ctx) (ent_id te) ->
  attribute_missing fs (index_dir (sysfs_root ctx) (ent_id te) k) ->
  get_cache_info fs ctx thread
  = fail_after (get_cache_info_loop fs (Z.to_nat k) 0 ctx (ent_id te)).
Proof.
  intros Ht Hk Hmiss. unfold get_cache_info, deref. rewrite Ht.
  cbn [mbind res_bind].
  pose proof (sysfs_count_caches_range fs (sysfs_root ctx) (ent_id te)) as Hr.
  destruct (Z.eqb_spec (sysfs_count_caches fs (sysfs_root ctx) (ent_id te)) 0);
    [lia|].
  apply get_cache_info_loop_stops; [lia|lia|lia|].
  by replace (0 + Z.of_nat (Z.to_nat k)) with k by lia.
Qed.

(** C4, as the code has it.  When one of the attributes [size], [type],
    [level], [shared_cpu_map] is missing at index [k] of a CPU with [n]
    cache directories, [get_cache_info], called by [do_one_cpu] for the
    thread of that CPU, releases that cache and returns 1 at once: its
    outcome is that of the indices before [k], turned into a failure,
    whatever the directories [k+1..n-1] hold.  No later index is
    examined and no later cache is registered for the thread.
    [do_one_cpu] ignores the failure: it returns 0, with the context
    that [get_cache_info] left, in which the caches registered by the
    indices before [k] stay. *)
Theorem get_cache_info_stops (fs : sysfs) (ctx : topo_context) (node : ptr)
    (cpu_id : Z) (rc : Z) (ctx' : topo_context) (k : Z) :
  do_one_cpu fs ctx node cpu_id = Ret (rc, ctx') ->
  0 <= k < sysfs_count_caches fs (sysfs_root ctx) cpu_id ->
  attribute_missing fs (index_dir (sysfs_root ctx) cpu_id k) ->
  rc = 0
  /\ exists ctx_t thread te rc_k,
       (* the call of [get_cache_info] in [do_one_cpu] *)
       procents ctx_t !! thread = Some te /\ ent_id te = cpu_id
       /\ devices ctx_t = devices ctx
       /\ device_htable ctx_t = device_htable ctx
       /\ get_cache_info fs ctx_t thread
          = fail_after
              (get_cache_info_loop fs (Z.to_nat k) 0 ctx_t cpu_id)
       /\ get_cache_info_loop fs (Z.to_nat k) 0 ctx_t cpu_id
          = Ret (rc_k, ctx')
       /\ get_cache_info fs ctx_t thread = Ret (1, ctx').
Proof.
  intros Hrun Hk Hmiss.
  destruct (do_one_cpu_run fs _ _ _ _ _ Hrun)
    as (pkg & core & thread & ctx_t & rc_c & -> & _ & _ & _ & _ & _ & Hc
        & _ & _ & Hg & Hp & [Hroot _ Hdevs Hhtab]).
  split; [done|].
  destruct Hc as (_ & te & _ & Hte & _ & _ & Hid & _).
  rewrite <- Hp in Hte.
  assert (Heq : get_cache_info fs ctx_t thread
                = fail_after
                    (get_cache_info_loop fs (Z.to_nat k) 0 ctx_t cpu_id)).
  { rewrite <- Hid. apply get_cache_info_fails_at; [done|..];
      rewrite Hroot, Hid; done. }
  rewrite Heq in Hg. unfold fail_after in Hg.
  apply bind_ret in Hg as ([rc_k c] & Hloop & Hg).
  injection Hg as <- <-.
  exists ctx_t, thread, te, rc_k. do 4 (split; [done|]).
  split; [done|]. split; [done|].
  rewrite Heq. unfold fail_after. by rewrite Hloop.
Qed.

Lemma get_cache_info_stops_witness :
  sysfs_count_caches Fixtures.cache_missing_size "/sys" 0 = 2
  /\ attribute_missing Fixtures.cache_missing_size (index_dir "/sys" 0 0)
  /\ exists ctx' ctx_t thread,
       do_one_cpu Fixtures.cache_missing_size Fixtures.one_node 1%nat 0
       = Ret (0, ctx')
       /\ devices ctx' = []
       /\ get_cache_info Fixtures.cache_missing_size ctx_t thread
          = Ret (1, ctx').
Proof.
  split; [reflexivity|]. split; [by left|].
  assert (exists ctx',
            do_one_cpu Fixtures.cache_missing_size Fixtures.one_node 1%nat 0
            = Ret (0, ctx') /\ devices ctx' = []) as (ctx' & Hrun & Hd).
  { eexists. split; [vm_compute; reflexivity|reflexivity]. }
  destruct (get_cache_info_stops Fixtures.cache_missing_size
              Fixtures.one_node 1%nat 0 0 ctx' 0 Hrun)
    as (_ & ctx_t & thread & te & rc_k & _ & _ & _ & _ & _ & _ & Hg);
    [by vm_compute|by left|].
  exists ctx', ctx_t, thread. split; [exact Hrun|]. split; [exact Hd|exact Hg].
Defined.

Lemma cache_discovery_continues_cex :
  sysfs_count_caches Fixtures.cache_missing_size "/sys" 0 = 2
  /\ sysfs_get_attr Fixtures.cache_missing_size (index_dir "/sys" 0 0)
       "size" = None
  /\ fst (__get_cache_info Fixtures.cache_missing_size Fixtures.lone_thread
            (alloc_topo_device Fixtures.lone_thread "cache") 0 1) = 0
  /\ (exists ctx',
        get_cache_info Fixtures.cache_missing_size Fixtures.lone_thread
          0%nat = Ret (1, ctx')
        /\ devices ctx' = [])
  /\ (exists ctx',
        new_context Fixtures.cache_missing_size "/sys" 8 = Ret (Some ctx')
        /\ devices ctx' = []).
Proof.
  do 3 (split; [reflexivity|]). split.
  - eexists. split; [vm_compute; reflexivity|reflexivity].
  - eexists. split; [vm_compute; reflexivity|reflexivity].
Qed.

(** * Properties of built contexts *)

(** C5, as the code has it: core coalescing is not scoped to the
    package.  The core table is one table for the whole context, keyed
    by the [thread_siblings] signature alone.  In a built context the
    threads of any two CPUs with equal signatures are children of one
    and the same CORE entity, the one registered under that signature,
    whatever packages the [core_siblings] of the CPUs select.  In every
    call of [do_one_cpu] the core is looked up under the signature of
    the CPU in that table: when it is there, no entity is created for
    the core and the new thread becomes a child of the registered core,
    whatever the package of the CPU is; only when it is not there is an
    entity created, as a child of the package of this CPU, and
    registered under the signature. *)
Theorem core_coalescing_is_global (fs : sysfs) (root : string) (size : Z)
    (ctx : topo_context) (t1 t2 : ptr) (e1 e2 : topo_procent)
    (ctx0 : topo_context) (node : ptr) (cpu_id : Z) (rc : Z)
    (ctx0' : topo_context) :
  (new_context fs root size = Ret (Some ctx) ->
   procents ctx !! t1 = Some e1 -> ent_level e1 = TOPOLOGY_THREAD ->
   procents ctx !! t2 = Some e2 -> ent_level e2 = TOPOLOGY_THREAD ->
   sysfs_cpu_thread_siblings fs root (ent_id e1)
   = sysfs_cpu_thread_siblings fs root (ent_id e2) ->
   exists core ce,
     ent_parent e1 = Some core /\ ent_parent e2 = Some core
     /\ procents ctx !! core = Some ce /\ ent_level ce = TOPOLOGY_CORE
     /\ htable_lookup (core_htable ctx)
          (Some (sysfs_cpu_thread_siblings fs root (ent_id e1))) = Some core)
  /\ (do_one_cpu fs ctx0 node cpu_id = Ret (rc, ctx0') ->
      exists S_pkg S_core pkg core thread,
        S_pkg = sysfs_cpu_core_siblings fs (sysfs_root ctx0) cpu_id
        /\ S_core = sysfs_cpu_thread_siblings fs (sysfs_root ctx0) cpu_id
        /\ htable_lookup (package_htable ctx0') (Some S_pkg) = Some pkg
        /\ htable_lookup (core_htable ctx0') (Some S_core) = Some core
        /\ created (procents ctx0) (procents ctx0') thread cpu_id core None
        /\ match htable_lookup (core_htable ctx0) (Some S_core) with
           | Some c =>
               (* found: the registered core is used; the only new
                  entities are the thread and the package, if new *)
               core = c /\ core_htable ctx0' = core_htable ctx0
               /\ List.length (procents ctx0')
                  = (List.length (procents ctx0)
                     + absent (package_htable ctx0) S_pkg + 1)%nat
           | None =>
               (* not found: a core is created under the package of
                  this CPU and registered under the signature *)
               tbl (core_htable ctx0')
               = <[S_core := core]> (tbl (core_htable ctx0))
               /\ created (procents ctx0) (procents ctx0') core cpu_id pkg
                    (Some S_core)
           end).
Proof.
  split.
  - intros Hnew H1 L1 H2 L2 Hsig.
    apply new_context_inv in Hnew as ([_ [_ HC] Hthr _] & Hroot & _).
    rewrite Hroot in Hthr.
    destruct (Hthr t1 e1 H1 L1) as (c1 & P1 & C1).
    destruct (Hthr t2 e2 H2 L2) as (c2 & P2 & C2).
    rewrite <- Hsig in C2. rewrite C1 in C2. injection C2 as <-.
    destruct (HC _ _ C1) as (ce & Hce & Hl).
    by exists c1, ce.
  - intros Hrun.
    destruct (do_one_cpu_run fs _ _ _ _ _ Hrun)
      as (pkg & core & thread & ctx_t & rc_c & _ & _ & _ & Hcore & Hth & Hlen
          & Hc & Hlp & Hlc & _).
    cbn zeta in *.
    eexists _, _, pkg, core, thread.
    split; [reflexivity|]. split; [reflexivity|].
    split; [exact Hlp|]. split; [exact Hlc|]. split; [exact Hc|].
    unfold absent in *.
    destruct (htable_lookup (core_htable ctx0) _).
    + destruct Hcore as [-> Ht]. split; [done|]. split; [done|]. lia.
    + destruct Hcore as (_ & Ht & Hcr). by split.
Qed.

Lemma core_coalescing_is_global_witness :
  (exists ctx e1 e2 core,
     new_context Fixtures.shared_core_signature "/sys" 8 = Ret (Some ctx)
     /\ procents ctx !! 4%nat = Some e1 /\ procents ctx !! 6%nat = Some e2
     /\ sysfs_cpu_core_siblings Fixtures.shared_core_signature "/sys"
          (ent_id e1)
        <> sysfs_cpu_core_siblings Fixtures.shared_core_signature "/sys"
             (ent_id e2)
     /\ ent_parent e1 = Some core /\ ent_parent e2 = Some core)
  /\ (exists ctx1 ctx2,
        do_one_cpu Fixtures.shared_core_signature Fixtures.one_node 1%nat 0
        = Ret (0, ctx1)
        /\ do_one_cpu Fixtures.shared_core_signature ctx1 1%nat 1
           = Ret (0, ctx2)
        /\ htable_lookup (core_htable ctx1) (Some "1"%string) = Some 3%nat
        /\ htable_lookup (core_htable ctx2) (Some "1"%string) = Some 3%nat
        /\ core_htable ctx2 = core_htable ctx1
        /\ List.length (procents ctx2) = 7%nat).
Proof.
  set (fs := Fixtures.shared_core_signature).
  assert (exists ctx e1 e2, new_context fs "/sys" 8 = Ret (Some ctx)
            /\ procents ctx !! 4%nat = Some e1
            /\ procents ctx !! 6%nat = Some e2
            /\ ent_level e1 = TOPOLOGY_THREAD
            /\ ent_level e2 = TOPOLOGY_THREAD
            /\ ent_id e1 = 0 /\ ent_id e2 = 1)
    as (ctx & e1 & e2 & Hnew & H1 & H2 & L1 & L2 & I1 & I2).
  { do 3 eexists. split; [vm_compute; reflexivity|].
    split; [vm_compute; reflexivity|]. split; [vm_compute; reflexivity|].
    vm_compute. tauto. }
  assert (exists ctx1 ctx2,
            do_one_cpu fs Fixtures.one_node 1%nat 0 = Ret (0, ctx1)
            /\ do_one_cpu fs ctx1 1%nat 1 = Ret (0, ctx2)
            /\ sysfs_root ctx1 = "/sys"%string
            /\ htable_lookup (core_htable ctx1) (Some "1"%string)
               = Some 3%nat
            /\ List.length (procents ctx1) = 5%nat
            /\ absent (package_htable ctx1) "02" = 1%nat)
    as (ctx1 & ctx2 & R1 & R2 & Hroot & Hc1 & Hlen1 & Hab).
  { do 2 eexists. split; [vm_compute; reflexivity|].
    split; [vm_compute; reflexivity|]. split; [reflexivity|].
    split; [reflexivity|]. split; reflexivity. }
  destruct (core_coalescing_is_global fs "/sys" 8 ctx 4%nat 6%nat e1 e2
              ctx1 1%nat 1 0 ctx2) as [HA HB].
  split.
  - destruct (HA Hnew H1 L1 H2 L2) as (core & ce & P1 & P2 & _).
    { rewrite I1, I2. reflexivity. }
    exists ctx, e1, e2, core. split; [exact Hnew|]. split; [exact H1|].
    split; [exact H2|]. split; [|split; [exact P1|exact P2]].
    rewrite I1, I2. vm_compute. discriminate.
  - destruct (HB R2)
      as (S_pkg & S_core & pkg & core & thread & HSp & HSc & Hlp & Hlc & Hcr
          & Hm).
    rewrite Hroot in HSp, HSc.
    assert (S_pkg = "02"%string) as -> by (rewrite HSp; reflexivity).
    assert (S_core = "1"%string) as -> by (rewrite HSc; reflexivity).
    rewrite Hc1 in Hm. destruct Hm as (-> & Ht & Hlen).
    rewrite Hlen1, Hab in Hlen.
    exists ctx1, ctx2. split; [exact R1|]. split; [exact R2|].
    split; [exact Hc1|]. split; [exact Hlc|]. split; [exact Ht|exact Hlen].
Defined.

Lemma core_per_package_cex :
  sysfs_cpu_thread_siblings Fixtures.shared_core_signature "/sys" 0
  = sysfs_cpu_thread_siblings Fixtures.shared_core_signature "/sys" 1
  /\ sysfs_cpu_core_siblings Fixtures.shared_core_signature "/sys" 0
     <> sysfs_cpu_core_siblings Fixtures.shared_core_signature "/sys" 1
  /\ exists ctx,
       new_context Fixtures.shared_core_signature "/sys" 8 = Ret (Some ctx)
       /\ map (fun e => (ent_level e, ent_id e, ent_parent e)) (procents ctx)
          = [(TOPOLOGY_SYSTEM, 0, None);
             (TOPOLOGY_NODE, 0, Some 0%nat);
             (TOPOLOGY_PACKAGE, 0, Some 1%nat);
             (TOPOLOGY_CORE, 0, Some 2%nat);
             (TOPOLOGY_THREAD, 0, Some 3%nat);
             (TOPOLOGY_PACKAGE, 1, Some 1%nat);
             (TOPOLOGY_THREAD, 1, Some 3%nat)].
Proof.
  split; [reflexivity|]. split; [by vm_compute|].
  eexists. split; [vm_compute; reflexivity|reflexivity].
Qed.

(** C6: in a built context the mask of every entity above the threads
    is the union of the masks of its children; every bit of a mask is
    the CPU id of a thread below the entity; a new entity has an empty
    mask. *)
Theorem entity_masks_are_unions (fs : sysfs) (root : string) (size : Z)
    (ctx : topo_context) :
  new_context fs root size = Ret (Some ctx) ->
  (forall p e, procents ctx !! p = Some e ->
     ent_level e <> TOPOLOGY_THREAD ->
     exists l, chain (procents ctx) (ent_children e) l
       /\ (forall c, c ∈ l <->
             exists ec, procents ctx !! c = Some ec /\ ent_parent ec = Some p)
       /\ ent_cpumask e = union_masks (procents ctx) l)
  /\ (forall p e b, procents ctx !! p = Some e ->
        Z.testbit (ent_cpumask e) b = true ->
        exists t et, procents ctx !! t = Some et
          /\ ent_level et = TOPOLOGY_THREAD
          /\ to_size_t (ent_id et) = b /\ ancestor (procents ctx) t p)
  /\ (forall ctx0 parent id ctx1 new,
        alloc_init_topo_procent ctx0 parent id = Ret (ctx1, new) ->
        exists e, procents ctx1 !! new = Some e /\ ent_cpumask e = 0).
Proof.
  intros Hnew.
  apply new_context_inv in Hnew as ([[HP HC HU HO] _ _ _] & _).
  split; [|split].
  - intros p e He Hl. destruct (HC p e He) as (l & Hc & Hmem).
    exists l. split; [done|]. split; [done|]. by apply (HU p e l).
  - done.
  - intros ctx0 parent id ctx1 new Ha.
    apply alloc_spec in Ha as (-> & _ & Hh). destruct parent as [p|].
    + destruct Hh as (pe & Hpe & Hl & ->). eexists.
      split; [by apply alloc_child_lookup_new|reflexivity].
    + rewrite Hh. eexists.
      split; [by rewrite lookup_app_r, Nat.sub_diag|reflexivity].
Qed.

Lemma entity_masks_are_unions_witness :
  exists ctx e,
    new_context Fixtures.shared_l2 "/sys" 8 = Ret (Some ctx)
    /\ procents ctx !! 2%nat = Some e /\ ent_level e = TOPOLOGY_PACKAGE
    /\ exists l, chain (procents ctx) (ent_children e) l
         /\ ent_cpumask e = union_masks (procents ctx) l.
Proof.
  set (fs := Fixtures.shared_l2).
  assert (exists ctx e, new_context fs "/sys" 8 = Ret (Some ctx)
            /\ procents ctx !! 2%nat = Some e
            /\ ent_level e = TOPOLOGY_PACKAGE)
    as (ctx & e & Hnew & He & Hl).
  { do 2 eexists. split; [vm_compute; reflexivity|].
    split; [vm_compute; reflexivity|]. vm_compute. reflexivity. }
  destruct (entity_masks_are_unions fs "/sys" 8 ctx Hnew) as (HU & _).
  destruct (HU 2%nat e He) as (l & Hc & _ & Hm).
  { rewrite Hl. discriminate. }
  exists ctx, e. split; [exact Hnew|]. split; [exact He|]. split; [exact Hl|].
  exists l. split; [exact Hc|exact Hm].
Defined.

Lemma nodup_triples devs :
  Forall signed devs -> NoDup (map dev_hash_key devs) ->
  NoDup (map cache_triple devs).
Proof.
  induction 1 as [|d devs Hd Hs IH]; intros Hn; [constructor|].
  cbn in *. apply NoDup_cons in Hn as [Hnotin Hn].
  apply NoDup_cons. split; [|by apply IH].
  intros Hin. apply Hnotin.
  apply list_elem_of_fmap in Hin as (d' & Ht & Hd').
  apply list_elem_of_fmap. exists d'. split; [|done].
  rewrite Forall_forall in Hs. specialize (Hs d' Hd').
  destruct Hd as (l & t & m & Htr & Hk). destruct Hs as (l' & t' & m' & Htr' & Hk').
  rewrite Hk, Hk'. congruence.
Qed.

(** C7: the cache devices of a built context have pairwise distinct
    (level, type, shared_cpu_map) triples; each carries the signature
    built from its triple, the signatures are pairwise distinct, and a
    cache whose signature is in the device table is released, not
    registered. *)
Theorem cache_devices_distinct (fs : sysfs) (root : string) (size : Z)
    (ctx : topo_context) :
  new_context fs root size = Ret (Some ctx) ->
  NoDup (map cache_triple (devices ctx))
  /\ Forall signed (devices ctx)
  /\ NoDup (map dev_hash_key (devices ctx))
  /\ (forall n index ctx0 tid cache cache',
        __get_cache_info fs ctx0 (alloc_topo_device ctx0 "cache") tid index
        = (0, cache) ->
        cache_build_hash cache = (0, cache') ->
        is_Some (htable_lookup (device_htable ctx0) (dev_hash_key cache')) ->
        get_cache_info_loop fs (S n) index ctx0 tid
        = get_cache_info_loop fs n (wrap_int (index + 1)) ctx0 tid).
Proof.
  intros Hnew.
  apply new_context_inv in Hnew as ([_ _ _ [HS HN HH]] & _).
  split; [by apply nodup_triples|]. do 2 (split; [done|]).
  intros n index ctx0 tid cache cache' Hg Hb [old Hold].
  cbn [get_cache_info_loop]. rewrite Hg. cbn [negb Z.eqb]. rewrite Hb.
  cbn [negb Z.eqb]. by rewrite Hold.
Qed.

Lemma cache_devices_distinct_witness :
  exists ctx,
    new_context Fixtures.shared_l2 "/sys" 8 = Ret (Some ctx)
    /\ map dev_hash_key (devices ctx)
       = [Some "cache-L1-Data-2"%string; Some "cache-L2-Unified-3"%string;
          Some "cache-L1-Data-1"%string]
    /\ NoDup (map cache_triple (devices ctx)).
Proof.
  set (fs := Fixtures.shared_l2).
  assert (exists ctx, new_context fs "/sys" 8 = Ret (Some ctx)
            /\ map dev_hash_key (devices ctx)
               = [Some "cache-L1-Data-2"%string;
                  Some "cache-L2-Unified-3"%string;
                  Some "cache-L1-Data-1"%string])
    as (ctx & Hnew & Hk).
  { eexists. split; [vm_compute; reflexivity|]. vm_compute. reflexivity. }
  exists ctx. split; [exact Hnew|]. split; [exact Hk|].
  apply (cache_devices_distinct fs "/sys" 8 ctx Hnew).
Defined.

(** C9: [traverse] to the level above [from] yields the parent of
    [from], whatever [iter] is; it yields NULL for the level of [from]
    itself, for a level outside THREAD..SYSTEM, and for a NULL [from]. *)
Theorem traverse_parent_and_null (fs : sysfs) (root : string) (size : Z)
    (ctx : topo_context) (fuel : nat) (from : ptr) (e : topo_procent)
    (iter : option ptr) (to : Z) :
  new_context fs root size = Ret (Some ctx) ->
  procents ctx !! from = Some e ->
  (to = ent_level e + 1 ->
     traverse (S fuel) ctx (Some from) iter to = Ret (ent_parent e))
  /\ (to = ent_level e ->
        traverse (S fuel) ctx (Some from) iter to = Ret None)
  /\ (to < TOPOLOGY_THREAD \/ TOPOLOGY_SYSTEM < to ->
        traverse (S fuel) ctx (Some from) iter to = Ret None)
  /\ traverse (S fuel) ctx None iter to = Ret None.
Proof.
  intros Hnew He.
  apply new_context_inv in Hnew as ([[HP _ _ _] _ _ _] & _).
  specialize (HP from e He).
  assert (Hlev : TOPOLOGY_THREAD <= ent_level e <= TOPOLOGY_SYSTEM
                 /\ (ent_level e = TOPOLOGY_SYSTEM -> ent_parent e = None)).
  { unfold TOPOLOGY_THREAD, TOPOLOGY_CORE, TOPOLOGY_SYSTEM in *.
    destruct (ent_parent e) as [q|].
    - destruct HP as (_ & eq & _ & Hl & Hr). split; [lia|]. intros. lia.
    - split; [lia|done]. }
  destruct Hlev as [Hrange Hsys].
  cbn [traverse]. unfold deref. rewrite He. cbn [mbind res_bind].
  unfold level_valid, TOPOLOGY_THREAD, TOPOLOGY_SYSTEM in *.
  split; [|split; [|split]].
  - intros ->. destruct (Z.eq_dec (ent_level e) 5) as [E5|N5].
    + rewrite (Hsys E5), E5. reflexivity.
    + replace (1 <=? ent_level e + 1) with true by (symmetry; apply Z.leb_le; lia).
      replace (ent_level e + 1 <=? 5) with true by (symmetry; apply Z.leb_le; lia).
      cbn [andb negb].
      replace (ent_level e + 1 =? ent_level e) with false
        by (symmetry; apply Z.eqb_neq; lia).
      by rewrite Z.eqb_refl.
  - intros ->. rewrite Z.eqb_refl. by destruct (negb _).
  - intros Hout. destruct (Z.leb_spec 1 to), (Z.leb_spec to 5); try done; lia.
  - by destruct (negb _).
Qed.

Lemma traverse_parent_and_null_witness :
  exists ctx,
    new_context Fixtures.shared_l2 "/sys" 8 = Ret (Some ctx)
    /\ traverse 1 ctx (Some 6%nat) (Some 4%nat) TOPOLOGY_CORE
       = Ret (Some 5%nat).
Proof.
  set (fs := Fixtures.shared_l2).
  assert (exists ctx e, new_context fs "/sys" 8 = Ret (Some ctx)
            /\ procents ctx !! 6%nat = Some e
            /\ ent_level e = TOPOLOGY_THREAD
            /\ ent_parent e = Some 5%nat)
    as (ctx & e & Hnew & He & Hl & Hp).
  { do 2 eexists. split; [vm_compute; reflexivity|].
    split; [vm_compute; reflexivity|]. vm_compute. tauto. }
  exists ctx. split; [exact Hnew|]. rewrite <- Hp.
  apply (traverse_parent_and_null fs "/sys" 8 ctx 0 6%nat e (Some 4%nat)
           TOPOLOGY_CORE Hnew He).
  rewrite Hl. reflexivity.
Defined.

(** * Further results *)

(** * More on the parser *)

Lemma within_0 size : within size 0.
Proof. intros b. by rewrite Z.bits_0. Qed.

Lemma to_size_t_range z : 0 <= to_size_t z < 2^64.
Proof. unfold to_size_t. apply Z.mod_pos_bound. lia. Qed.

Lemma CPU_SET_S_within cpu size m : within size m -> within size (CPU_SET_S cpu size m).
Proof.
  intros Hm b. unfold CPU_SET_S.
  pose proof (to_size_t_range cpu) as Hc.
  destruct (Z.ltb_spec (to_size_t cpu / 8) size) as [Hlt|]; [|apply Hm].
  rewrite Z.lor_spec, Z.shiftl_1_l, Z.pow2_bits_eqb by lia.
  intros [Hb|Hb]%orb_true_iff; [by apply Hm|].
  apply Z.eqb_eq in Hb. subst b.
  pose proof (Z.div_mod (to_size_t cpu) 8 ltac:(lia)).
  pose proof (Z.mod_pos_bound (to_size_t cpu) 8 ltac:(lia)). lia.
Qed.

Lemma set_digit_bits_within n : forall val cpu size m,
  within size m -> within size (set_digit_bits n val cpu size m).2.
Proof.
  induction n as [|n IH]; intros val cpu size m Hm; [done|].
  cbn [set_digit_bits]. apply IH.
  destruct (Z.land val 1 =? 1); [by apply CPU_SET_S_within|done].
Qed.

Lemma scan_list_within r : forall cpu size m m',
  within size m -> scan_list r cpu size m = Some m' -> within size m'.
Proof.
  induction r as [|c r IH]; intros cpu size m m' Hm H.
  - cbn in H. by injection H as <-.
  - cbn [scan_list] in H. destruct (Ascii.eqb c comma); [by eapply IH|].
    destruct (negb (isxdigit c)); [done|].
    pose proof (set_digit_bits_within 4 (char_to_val c) cpu size m Hm) as Hw.
    destruct (set_digit_bits 4 (char_to_val c) cpu size m) as [cpu' m1].
    by eapply IH.
Qed.

Lemma parse_within cpumask size buf :
  within size (snd (topology_cpumask_parse cpumask size buf)).
Proof.
  intros b. rewrite parse_list_form.
  destruct (drop_nonhex _) as [|c r] eqn:Hd; [by rewrite Z.bits_0|].
  destruct (scan_list (c :: r) 0 size 0) as [m|] eqn:Hs;
    [|by rewrite Z.bits_0].
  cbn [snd]. by apply (scan_list_within _ _ _ _ _ (within_0 size) Hs).
Qed.

(** The parser never sets a bit outside the [size] bytes of the
    destination, whatever the string. *)
Theorem cpumask_parse_within_size (cpumask size : Z) (buf : string) (b : Z) :
  Z.testbit (snd (topology_cpumask_parse cpumask size buf)) b = true ->
  0 <= b < 8 * size.
Proof.
  rewrite parse_list_form.
  destruct (drop_nonhex _) as [|c r] eqn:Hd; [by rewrite Z.bits_0|].
  destruct (scan_list (c :: r) 0 size 0) as [m|] eqn:Hs;
    [|by rewrite Z.bits_0].
  cbn [snd]. by apply (scan_list_within _ _ _ _ _ (within_0 size) Hs).
Qed.

Lemma cpumask_parse_within_size_witness :
  Z.testbit (snd (topology_cpumask_parse 0 1 "1ff")) 7 = true
  /\ 0 <= 7 < 8 * 1.
Proof.
  split; [reflexivity|].
  apply (cpumask_parse_within_size 0 1 "1ff" 7). reflexivity.
Defined.

Lemma within_bound size m : 0 <= size -> within size m -> 0 <= m < 2 ^ (8 * size).
Proof.
  intros Hs Hm.
  assert (0 <= m) as Hnn.
  { destruct (Z.neg_nonneg_cases m) as [Hneg|]; [|done].
    destruct (Z.bits_iff_neg_ex m) as [H1 _]. destruct (H1 Hneg) as (k & Hk).
    specialize (Hk (Z.max (k + 1) (8 * size)) ltac:(lia)).
    apply Hm in Hk. lia. }
  split; [done|].
  destruct (Z.eq_dec m 0) as [->|Hne]; [apply Z.pow_pos_nonneg; lia|].
  assert (0 < m) as Hpos by lia.
  apply Z.log2_lt_pow2; [done|].
  pose proof (Z.bit_log2 m Hpos) as Hb. apply Hm in Hb. lia.
Qed.

Lemma bound_within size m : 0 <= m < 2 ^ (8 * size) -> within size m.
Proof.
  intros Hm b Hb.
  destruct (Z.neg_nonneg_cases b) as [Hneg|Hnn];
    [by rewrite Z.testbit_neg_r in Hb|].
  split; [done|].
  destruct (Z.eq_dec m 0) as [->|Hne]; [by rewrite Z.bits_0 in Hb|].
  destruct (Z.neg_nonneg_cases (8 * size)) as [Hs|Hs].
  { rewrite Z.pow_neg_r in Hm by done. lia. }
  destruct (Z.lt_ge_cases b (8 * size)) as [|Hge]; [done|].
  rewrite Z.bits_above_log2 in Hb; [done|lia|].
  assert (Z.log2 m < 8 * size); [|lia].
  apply Z.log2_lt_pow2; lia.
Qed.

(** The value of the set, as a number: the hexadecimal number written
    in the string, commas apart, modulo [2^(8*size)]. *)
Theorem cpumask_parse_value (cpumask size : Z) (buf : string) :
  0 <= size ->
  fst (topology_cpumask_parse cpumask size buf) = 0 ->
  Z.of_nat (List.length (xdigits_rev (chars buf))) < 2^29 ->
  snd (topology_cpumask_parse cpumask size buf)
  = hexval_rev (xdigits_rev (chars buf)) mod 2 ^ (8 * size).
Proof.
  intros Hsize Hok Hlen.
  assert (Hcond : has_xdigit (chars buf) = true
                  /\ existsb stray (upto_last_xdigit (chars buf)) = false).
  { destruct (has_xdigit (chars buf)) eqn:E1;
      destruct (existsb stray (upto_last_xdigit (chars buf))) eqn:E2;
      try done; exfalso;
      assert (fst (topology_cpumask_parse cpumask size buf) <> 0) as Hne
        by (apply parse_fails_iff; auto); congruence. }
  destruct Hcond as [Hx Hs]. clear Hok.
  rewrite parse_parse_rev.
  destruct (parse_rev_bits size (rev (chars buf))) as (m & Hp & Hm).
  - by rewrite existsb_rev.
  - unfold upto_last_xdigit in Hs. by rewrite existsb_rev in Hs.
  - unfold xdigits_rev in Hlen. unfold digits_of, INT_MAX. lia.
  - rewrite Hp. cbn [snd]. apply Z.bits_inj'. intros i Hi.
    rewrite Hm by done. unfold xdigits_rev, digits_of.
    destruct (Z.ltb_spec i (8 * size)); cbn [andb].
    + by rewrite Z.mod_pow2_bits_low by lia.
    + by rewrite Z.mod_pow2_bits_high by lia.
Qed.

Lemma cpumask_parse_value_witness :
  snd (topology_cpumask_parse 0 1 "1,ff") = 255.
Proof.
  rewrite (cpumask_parse_value 0 1 "1,ff"); [reflexivity|lia|reflexivity|].
  vm_compute. reflexivity.
Defined.

(** * More on the formatter *)

Lemma CPU_ISSET_S_mod c size m : 0 <= c < 2^64 -> 0 <= size ->
  CPU_ISSET_S c size m = Z.testbit (m mod 2 ^ (8 * size)) c.
Proof.
  intros Hc Hs. rewrite CPU_ISSET_S_bit by done.
  destruct (Z.ltb_spec c (8 * size)); cbn [andb].
  - by rewrite Z.mod_pow2_bits_low by lia.
  - by rewrite Z.mod_pow2_bits_high by lia.
Qed.

Lemma cpuset_to_uint_loop_word n i ret cpumask size index :
  0 <= i -> i + Z.of_nat n <= 32 -> 0 <= index -> 0 <= size ->
  32 * index + 31 <= INT_MAX ->
  ret = (cpumask mod 2 ^ (8 * size) / 2 ^ (32 * index)) mod 2 ^ i ->
  cpuset_to_uint_loop n i ret cpumask size index
  = (cpumask mod 2 ^ (8 * size) / 2 ^ (32 * index)) mod 2 ^ (i + Z.of_nat n).
Proof.
  revert i ret. induction n as [|n IH]; intros i ret Hi Hn Hidx Hsz Hmax Hret.
  - simpl. by rewrite Z.add_0_r.
  - cbn [cpuset_to_uint_loop]. rewrite Nat2Z.inj_succ in *.
    rewrite (wrap_int_small (index * 32)) by ilia.
    rewrite (wrap_int_small (i + index * 32)) by ilia.
    rewrite CPU_ISSET_S_mod by ilia.
    replace (i + Z.succ (Z.of_nat n)) with ((i + 1) + Z.of_nat n) by lia.
    apply IH; try lia.
    rewrite mod_pow2_succ by lia.
    rewrite Z.div_pow2_bits by lia.
    replace (i + 32 * index) with (i + index * 32) by lia.
    pose proof (Z.mod_pos_bound (cpumask mod 2 ^ (8 * size) / 2 ^ (32 * index))
                  (2 ^ i) ltac:(apply Z.pow_pos_nonneg; lia)) as Hb.
    destruct (Z.testbit (cpumask mod 2 ^ (8 * size)) (i + index * 32));
      cbn [Z.b2z].
    + rewrite shift_add_uint by lia. lia.
    + lia.
Qed.

Lemma cpuset_to_uint_value cpumask size index :
  0 <= size -> 0 <= index -> 32 * index + 31 <= INT_MAX ->
  cpuset_to_uint cpumask size index
  = (cpumask mod 2 ^ (8 * size) / 2 ^ (32 * index)) mod 2 ^ 32.
Proof.
  intros. unfold cpuset_to_uint.
  rewrite (cpuset_to_uint_loop_word 32 0 0); try done; try lia.
  by rewrite Z.mod_1_r.
Qed.

(** [cpuset_to_uint] reads the 32-bit word [index] of the set; the bits
    beyond the [size] bytes of the set read as zero. *)
Theorem cpuset_to_uint_word (cpumask size index : Z) :
  0 <= size -> 0 <= index -> 32 * index + 31 <= INT_MAX ->
  cpuset_to_uint cpumask size index
  = (cpumask mod 2 ^ (8 * size) / 2 ^ (32 * index)) mod 2 ^ 32.
Proof.
  intros Hsize Hindex Hmax. unfold cpuset_to_uint.
  rewrite (cpuset_to_uint_loop_word 32 0 0); try done; try lia.
  by rewrite Z.mod_1_r.
Qed.

Lemma cpuset_to_uint_word_witness :
  cpuset_to_uint (2^40 + 2^33 + 5) 5 1 = 2.
Proof.
  rewrite (cpuset_to_uint_word (2^40 + 2^33 + 5) 5 1); [reflexivity|lia|lia|].
  unfold INT_MAX. lia.
Defined.

Lemma cpuset_to_uint_loop_range n : forall i ret cpumask size index,
  0 <= ret < 2^32 ->
  0 <= cpuset_to_uint_loop n i ret cpumask size index < 2^32.
Proof.
  induction n as [|n IH]; intros i ret cpumask size index Hret; [done|].
  cbn [cpuset_to_uint_loop]. apply IH.
  destruct (CPU_ISSET_S _ _ _); [|done].
  apply Z.mod_pos_bound. lia.
Qed.

Lemma cpuset_to_uint_range cpumask size index :
  0 <= cpuset_to_uint cpumask size index < 2^32.
Proof. apply cpuset_to_uint_loop_range. lia. Qed.

(** *** The shape and the length of the text *)

Lemma hex_digits_rev_length n : forall v k,
  0 <= v < 16 ^ Z.of_nat k -> (List.length (hex_digits_rev n v) <= k)%nat.
Proof.
  induction n as [|n IH]; intros v k Hv; [simpl; lia|].
  cbn [hex_digits_rev]. destruct (Z.eqb_spec v 0); [simpl; lia|].
  destruct k as [|k]; [simpl in Hv; lia|].
  rewrite Nat2Z.inj_succ, Z.pow_succ_r in Hv by lia.
  cbn [List.length]. apply le_n_S. apply IH.
  pose proof (Z.div_mod v 16 ltac:(lia)).
  pose proof (Z.mod_pos_bound v 16 ltac:(lia)).
  split; [apply Z.div_pos; lia|].
  apply Z.div_lt_upper_bound; lia.
Qed.

Lemma sprintf_x_0_length v (k : nat) :
  0 <= v < 16 ^ Z.of_nat k -> (1 <= k)%nat ->
  (List.length (sprintf_x 0 v) <= k)%nat.
Proof.
  intros Hv Hk. unfold sprintf_x.
  pose proof (hex_digits_rev_length 8 v k Hv) as Hl.
  rewrite <- length_rev in Hl.
  destruct (rev (hex_digits_rev 8 v)); simpl in *; lia.
Qed.

Lemma comma_step (buf1 : list ascii) (n : nat) (commas : Z) :
  existsb stray buf1 = false -> existsb isxdigit buf1 = true ->
  exists buf2,
    (if negb (Z.of_nat n =? 0) && negb (commas =? 0)
     then buf1 ++ [","%char] else buf1) = buf2
    /\ existsb stray buf2 = false /\ existsb isxdigit buf2 = true
    /\ (List.length buf2 <= List.length buf1 + 1)%nat
    /\ (n = O -> buf2 = buf1).
Proof.
  intros Hs Hd. eexists. split; [reflexivity|].
  destruct (Z.eqb_spec (Z.of_nat n) 0); cbn [negb andb].
  - repeat split; try done. lia.
  - destruct (negb (commas =? 0)).
    + destruct (text_comma buf1) as (_ & _ & Hc).
      rewrite Hc, existsb_app, Hd, !length_app. cbn [List.length].
      repeat split; try done. lia.
    + repeat split; try done; lia.
Qed.

Lemma has_digit_of_digits l :
  (1 <= text_digits l)%nat -> existsb isxdigit l = true.
Proof.
  unfold text_digits, digits_of. induction l as [|c l IH]; cbn; [lia|].
  destruct (isxdigit c); [done|]. cbn. apply IH.
Qed.

(** What [format_words] adds to the text: at most eight characters for
    each word and a comma between two words. *)
Lemma format_words_shape n cpumask size commas : forall seen buf,
  existsb stray buf = false ->
  (seen = false -> buf = []) ->
  (seen = true -> existsb isxdigit buf = true) ->
  exists seen' buf',
    format_words n cpumask size commas seen buf = (seen', buf')
    /\ existsb stray buf' = false
    /\ (seen' = false -> buf' = [])
    /\ (seen' = true -> existsb isxdigit buf' = true)
    /\ (List.length buf' + 1 <= List.length buf + 9 * n
        \/ buf' = buf)%nat.
Proof.
  induction n as [|n IH]; intros seen buf Hs Hnil Hdig.
  - exists seen, buf. cbn [format_words]. repeat split; try done. by right.
  - cbn [format_words].
    pose proof (cpuset_to_uint_range cpumask size (wrap_int (Z.of_nat n)))
      as Hw.
    generalize dependent (cpuset_to_uint cpumask size (wrap_int (Z.of_nat n))).
    intros word Hw.
    assert (Hstep : forall width buf0,
              existsb stray buf0 = false ->
              (existsb isxdigit buf0 = true \/ buf0 = []) ->
              exists seen' buf',
                format_words n cpumask size commas true
                  (if negb (Z.of_nat n =? 0) && negb (commas =? 0)
                   then (buf0 ++ sprintf_x width word) ++ [","%char]
                   else buf0 ++ sprintf_x width word) = (seen', buf')
                /\ existsb stray buf' = false
                /\ (seen' = false -> buf' = [])
                /\ (seen' = true -> existsb isxdigit buf' = true)
                /\ (List.length buf'
                    <= List.length buf0 + Nat.max width 8 + 9 * n)%nat).
    { intros width buf0 Hs0 Hd0.
      destruct (sprintf_x_spec width word Hw) as (V & S & D & L).
      assert (existsb stray (buf0 ++ sprintf_x width word) = false) as Hs1.
      { by rewrite existsb_stray_app, Hs0, S. }
      assert (existsb isxdigit (buf0 ++ sprintf_x width word) = true) as Hd1.
      { rewrite existsb_app. apply orb_true_iff. right.
        apply has_digit_of_digits. lia. }
      destruct (comma_step _ n commas Hs1 Hd1) as (buf2 & -> & Hs2 & Hd2 & Hl2 & Hn2).
      destruct (IH true buf2 Hs2 ltac:(done) ltac:(done))
        as (seen' & buf' & -> & R1 & R2 & R3 & R4).
      exists seen', buf'. repeat split; try done.
      rewrite length_app in Hl2.
      destruct R4 as [R4| ->]; [lia|].
      destruct n; [rewrite (Hn2 eq_refl), length_app|]; lia. }
    destruct (Z.eqb_spec word 0) as [Hw0|Hw0]; destruct seen; cbn [negb andb].
    + destruct (Hstep 8%nat buf Hs (or_introl (Hdig eq_refl)))
        as (seen' & buf' & -> & R1 & R2 & R3 & R4).
      exists seen', buf'. repeat split; try done. left. lia.
    + destruct (IH false buf Hs Hnil ltac:(done))
        as (seen' & buf' & -> & R1 & R2 & R3 & R4).
      exists seen', buf'. repeat split; try done.
      destruct R4 as [R4| ->]; [left; lia|by right].
    + destruct (Hstep 8%nat buf Hs (or_introl (Hdig eq_refl)))
        as (seen' & buf' & -> & R1 & R2 & R3 & R4).
      exists seen', buf'. repeat split; try done. left. lia.
    + destruct (Hstep 0%nat buf Hs (or_intror (Hnil eq_refl)))
        as (seen' & buf' & -> & R1 & R2 & R3 & R4).
      exists seen', buf'. repeat split; try done. left. lia.
Qed.

Lemma well_formed_of_shape l :
  existsb stray l = false -> existsb isxdigit l = true -> well_formed l = true.
Proof.
  intros Hs Hd. unfold well_formed. rewrite Hd, andb_true_r.
  clear Hd. induction l as [|c l IH]; [done|].
  cbn in *. apply orb_false_iff in Hs as [Hc Hl]. rewrite IH by done.
  unfold stray in Hc. by destruct (isxdigit c), (Ascii.eqb c comma).
Qed.

Lemma string_length_of_list l :
  String.length (string_of_list_ascii l) = List.length l.
Proof. induction l as [|c l IH]; [done|]. cbn. by rewrite IH. Qed.

(** The text printed by [format_cpuset] consists of hex digits and
    commas, with a digit at least, and fits, with its terminating NUL,
    in the buffer that [do_procents] allocates for it. *)
Theorem format_cpuset_fits_buffer (cpumask cpuset_size commas : Z) :
  1 <= cpuset_size < 2^60 ->
  well_formed (chars (format_cpuset cpumask cpuset_size commas)) = true
  /\ Z.of_nat (String.length (format_cpuset cpumask cpuset_size commas)) + 1
     <= cpuset_size_to_bufsize cpuset_size.
Proof.
  intros HW. unfold format_cpuset, cpuset_size_to_bufsize, bytes_per_word,
    chars_per_byte.
  assert (0 <= cpuset_size / 4 <= cpuset_size) as Hq.
  { split; [apply Z.div_pos; lia|]. apply Z.div_le_upper_bound; lia. }
  assert (2^60 = 1152921504606846976) as Hp60 by done.
  rewrite Hp60 in HW. clear Hp60.
  rewrite (to_size_t_small (cpuset_size * 2))
    by (change (2^64) with 18446744073709551616; lia).
  destruct (Z.ltb_spec 4 cpuset_size) as [H4|H4].
  - (* several words *)
    assert (1 <= cpuset_size / 4) as Hq1 by (apply Z.div_le_lower_bound; lia).
    pose proof (Z.mul_div_le cpuset_size 4 ltac:(lia)) as Hmul.
    rewrite (to_size_t_small (cpuset_size / 4 - 1))
      by (change (2^64) with 18446744073709551616; lia).
    rewrite to_size_t_small
      by (change (2^64) with 18446744073709551616; lia).
    destruct (format_words_shape (Z.to_nat (cpuset_size / 4)) cpumask
                cpuset_size commas false [] eq_refl ltac:(done) ltac:(done))
      as (seen & buf & Hf & Hs & Hnil & Hdig & Hlen).
    rewrite Hf, string_length_of_list, list_ascii_of_string_of_list_ascii.
    destruct seen.
    + split; [by apply well_formed_of_shape; auto|].
      destruct Hlen as [Hlen|Hlen]; [|subst buf; by specialize (Hdig eq_refl)].
      cbn [List.length] in Hlen. lia.
    + rewrite (Hnil eq_refl). split; [reflexivity|]. cbn. lia.
  - rewrite to_size_t_small
      by (change (2^64) with 18446744073709551616; lia).
    change (Z.to_nat 1) with 1%nat. cbn [format_words].
    change (wrap_int (Z.of_nat 0)) with 0.
    change (Z.of_nat 0 =? 0) with true. cbn [negb andb].
    rewrite cpuset_to_uint_value by (unfold INT_MAX; lia).
    change (2 ^ (32 * 0)) with 1. rewrite Z.div_1_r.
    assert (0 <= (cpumask mod 2 ^ (8 * cpuset_size)) mod 2 ^ 32
            < 16 ^ Z.of_nat (Z.to_nat (2 * cpuset_size))) as Hw.
    { rewrite Z2Nat.id by lia.
      replace (16 ^ (2 * cpuset_size)) with (2 ^ (8 * cpuset_size)).
      2: { replace (8 * cpuset_size) with (4 * (2 * cpuset_size)) by lia.
           rewrite Z.pow_mul_r by lia. done. }
      pose proof (Z.mod_pos_bound cpumask (2 ^ (8 * cpuset_size))
                    ltac:(apply Z.pow_pos_nonneg; lia)) as Hm.
      split; [apply Z.mod_pos_bound; lia|].
      eapply Z.le_lt_trans; [apply Z.mod_le; lia|lia]. }
    generalize dependent ((cpumask mod 2 ^ (8 * cpuset_size)) mod 2 ^ 32).
    intros word Hw.
    destruct (Z.eqb_spec word 0); cbn [negb andb].
    + split; [reflexivity|]. cbn. lia.
    + cbn [app].
      rewrite string_length_of_list, list_ascii_of_string_of_list_ascii.
      assert (0 <= word < 2^32) as Hw32.
      { split; [lia|]. eapply Z.lt_le_trans; [apply Hw|].
        rewrite Z2Nat.id by lia. change (2^32) with (16^8).
        apply Z.pow_le_mono_r; lia. }
      destruct (sprintf_x_spec 0 word Hw32) as (V & S & D & L).
      split.
      * apply well_formed_of_shape; [done|]. apply has_digit_of_digits.
        clear -D L. lia.
      * pose proof (sprintf_x_0_length word _ (conj (proj1 Hw) (proj2 Hw))
                      ltac:(lia)). lia.
Qed.

Lemma format_cpuset_fits_buffer_witness :
  Z.of_nat (String.length (format_cpuset (2^64 - 1) 8 1)) + 1
  <= cpuset_size_to_bufsize 8.
Proof. apply (format_cpuset_fits_buffer (2^64 - 1) 8 1). lia. Defined.

Lemma format_words_zero n cpumask size commas :
  0 <= size -> Z.of_nat n <= 2^26 -> cpumask mod 2 ^ (8 * size) = 0 ->
  format_words n cpumask size commas false [] = (false, []).
Proof.
  intros Hs Hn Hz. induction n as [|n IH]; [done|].
  cbn [format_words]. rewrite wrap_int_small by (unfold INT_MAX; lia).
  rewrite cpuset_to_uint_value by (unfold INT_MAX; lia).
  rewrite Hz, Z.div_0_l by (apply Z.pow_nonzero; lia).
  rewrite Z.mod_0_l by lia. cbn [Z.eqb negb andb]. apply IH. lia.
Qed.

(** The text is "0" exactly when the set is empty. *)
Theorem format_cpuset_zero (cpumask W commas : Z) :
  0 < W -> W mod 4 = 0 -> W < 2^28 ->
  format_cpuset cpumask W commas = "0"%string
  <-> cpumask mod 2 ^ (8 * W) = 0.
Proof.
  intros HW H4 Hmax.
  assert (exists q, W = 4 * q /\ 1 <= q) as (q & -> & Hq).
  { exists (W / 4). pose proof (Z.div_mod W 4 ltac:(lia)). lia. }
  unfold format_cpuset, bytes_per_word.
  set (nwords := if 4 <? 4 * q then 4 * q / 4 else 1).
  assert (nwords = q) as ->.
  { unfold nwords. rewrite Z.mul_comm, Z.div_mul by lia.
    destruct (Z.ltb_spec 4 (q * 4)); lia. }
  split.
  - destruct (format_words_spec (Z.to_nat q) cpumask (4 * q) commas false [])
      as (seen & buf & Hf & _ & _ & Hnil & _ & Hval & _);
      [lia|unfold INT_MAX; lia|done..|].
    rewrite Hf. rewrite Z2Nat.id in * by lia.
    replace (32 * q) with (8 * (4 * q)) in * by lia.
    change (text_value []) with 0 in Hval. rewrite Z.mul_0_l, Z.add_0_l in Hval.
    destruct seen.
    + intros Hout. apply (f_equal list_ascii_of_string) in Hout.
      rewrite list_ascii_of_string_of_list_ascii in Hout. cbn in Hout.
      rewrite <- Hval, Hout. reflexivity.
    + intros _. by apply Hnil.
  - intros Hz. rewrite format_words_zero; [done|lia|lia|done].
Qed.

Lemma format_cpuset_zero_witness :
  format_cpuset (2^64) 8 1 = "0"%string.
Proof.
  apply (format_cpuset_zero (2^64) 8 1); [lia|reflexivity|lia|reflexivity].
Defined.

(** * Reading a file *)

Lemma slurp_loop_spec pagesize content :
  1 <= pagesize ->
  Z.of_nat (List.length content) + 2 * pagesize < 2^64 ->
  forall sched pos buf ask bufsize total,
  slurp_inv pagesize content pos buf ask bufsize total ->
  slurp_loop sched pagesize content pos buf ask bufsize total <> Abort
  /\ (forall r, slurp_loop sched pagesize content pos buf ask bufsize total
                = Ret (Some r) ->
        r = (content, Z.of_nat (List.length content)))
  /\ (Eio ∉ sched ->
      (List.length content - pos < data_reads sched)%nat ->
      slurp_loop sched pagesize content pos buf ask bufsize total
      = Ret (Some (content, Z.of_nat (List.length content)))).
Proof.
  intros HP Hmax. induction sched as [|r sched IH];
    intros pos buf ask bufsize total [Hbuf Hpos Htot Hask Hroom Hsize].
  { cbn. split; [done|]. split; [done|]. cbn. lia. }
  cbn [slurp_loop]. unfold assert.
  replace (0 <? ask) with true by (symmetry; apply Z.ltb_lt; lia).
  cbn [mbind res_bind].
  destruct r as [| |n].
  - (* interrupted *)
    destruct (IH pos buf ask bufsize total ltac:(done)) as (I1 & I2 & I3).
    split; [done|]. split; [done|]. intros Hio Hn. apply I3; [|done].
    intros Hin. apply Hio. by right.
  - split; [done|]. split; [done|]. intros Hio. exfalso. apply Hio. by left.
  - set (left := Z.of_nat (List.length content - pos)).
    set (slurped := Z.min (Z.pos n) (Z.min ask left)).
    assert (0 <= slurped /\ slurped <= ask /\ slurped <= left
            /\ (slurped = 0 <-> left = 0)) as (Hs0 & Hsa & Hsl & Hs00).
    { unfold slurped, left. lia. }
    destruct (Z.eqb_spec slurped 0) as [Hz|Hnz].
    + (* end of the file *)
      replace (total <=? bufsize) with true by (symmetry; apply Z.leb_le; lia).
      cbn [mbind res_bind].
      assert (pos = List.length content) as Hend by (unfold left in *; lia).
      assert (buf = content) as ->.
      { rewrite Hbuf, Hend. apply firstn_all. }
      rewrite Htot, Hend.
      split; [done|]. split; [by intros r [= <-]|done].
    + assert (slurp_inv pagesize content (pos + Z.to_nat slurped)
                (take (Z.to_nat total) buf
                 ++ take (Z.to_nat slurped) (drop pos content))
                (if slurped <? ask then ask - slurped else pagesize)
                (if slurped <? ask then bufsize
                 else to_size_t (bufsize + pagesize))
                (total + slurped)) as Hinv.
      { unfold left in *. split.
        - rewrite Htot, Nat2Z.id, Hbuf.
          rewrite take_take, Nat.min_id.
          by rewrite take_take_drop.
        - lia.
        - lia.
        - destruct (Z.ltb_spec slurped ask); lia.
        - destruct (Z.ltb_spec slurped ask); [lia|].
          rewrite to_size_t_small; lia.
        - destruct (Z.ltb_spec slurped ask); [lia|].
          rewrite to_size_t_small; lia. }
      replace (total + slurped <=? bufsize) with true
        by (symmetry; apply Z.leb_le; lia).
      cbn [mbind res_bind].
      destruct (Z.ltb_spec slurped ask) as [Hlt|Hge].
      * destruct (IH _ _ _ _ _ Hinv) as (I1 & I2 & I3).
        split; [done|]. split; [done|]. intros Hio Hn. apply I3.
        -- intros Hin. apply Hio. by right.
        -- cbn [data_reads] in Hn. unfold left in *. lia.
      * replace (total + slurped <? bufsize) with false
          by (symmetry; apply Z.ltb_ge; lia).
        replace (total + slurped =? bufsize) with true
          by (symmetry; apply Z.eqb_eq; lia).
        cbn [mbind res_bind].
        destruct (IH _ _ _ _ _ Hinv) as (I1 & I2 & I3).
        split; [done|]. split; [done|]. intros Hio Hn. apply I3.
        -- intros Hin. apply Hio. by right.
        -- cbn [data_reads] in Hn. unfold left in *. lia.
Qed.

(** [slurp_file] returns the whole file, however [read] splits it and
    however often it is interrupted; none of its assertions fails; and
    it returns once [read] has delivered the end of the file.  The
    sizes stay in the range of [ssize_t]. *)
Theorem slurp_file_whole (sched : list read_result) (pagesize : Z)
    (content : list ascii) :
  1 <= pagesize ->
  Z.of_nat (List.length content) + 2 * pagesize < 2^63 ->
  slurp_file sched pagesize content <> Abort
  /\ (forall r, slurp_file sched pagesize content = Ret (Some r) ->
        r = (content, Z.of_nat (List.length content)))
  /\ (Eio ∉ sched -> (List.length content < data_reads sched)%nat ->
      slurp_file sched pagesize content
      = Ret (Some (content, Z.of_nat (List.length content)))).
Proof.
  intros HP Hmax63. unfold slurp_file.
  assert (Hmax : Z.of_nat (List.length content) + 2 * pagesize < 2^64) by lia.
  destruct (slurp_loop_spec pagesize content HP Hmax sched 0 []
              pagesize pagesize 0) as (H1 & H2 & H3).
  { split; try done; try lia. }
  split; [done|]. split; [done|]. intros Hio Hn. apply H3; [done|lia].
Qed.

Lemma slurp_file_whole_witness :
  slurp_file [Data 2; Eintr; Data 1; Data 5; Data 1] 2
    (list_ascii_of_string "0-3")
  = Ret (Some (list_ascii_of_string "0-3", 3)).
Proof.
  apply (slurp_file_whole [Data 2; Eintr; Data 1; Data 5; Data 1] 2
           (list_ascii_of_string "0-3") ltac:(lia) ltac:(simpl; lia)).
  - intros Hin. repeat (apply elem_of_cons in Hin as [Hin|Hin]; [done|]).
    by apply elem_of_nil in Hin.
  - simpl. lia.
Defined.

(** * More invariants of a context under construction *)

Lemma same_data_back h h' x e' :
  same_data h h' -> h' !! x = Some e' ->
  exists e, h !! x = Some e /\ data_agree e e'.
Proof.
  intros [Hlen H] He'. destruct (h !! x) as [e|] eqn:He.
  - exists e. split; [done|]. destruct (H x e He) as (e'' & He'' & A).
    rewrite He' in He''. by injection He'' as <-.
  - apply lookup_lt_Some in He'. apply lookup_ge_None in He. lia.
Qed.

Lemma same_data_insert h p e e' :
  h !! p = Some e -> data_agree e e' -> same_data h (<[p := e']> h).
Proof.
  intros He A. split; [apply length_insert|]. intros x ex Hx.
  destruct (decide (x = p)) as [->|Hne].
  - exists e'. rewrite list_lookup_insert_eq by (by eapply lookup_lt_Some).
    rewrite He in Hx. by injection Hx as <-.
  - exists ex. rewrite list_lookup_insert_ne by done. split; [done|].
    by repeat split.
Qed.

Lemma cache_ok_keeps fs root size h h' d :
  keeps h h' -> cache_ok fs root size h d -> cache_ok fs root size h' d.
Proof.
  intros Hk (H1 & H2 & H3 & H4 & H5 & t & e & index & He & Hl & Hc & Ha).
  do 5 (split; [done|]).
  destruct (Hk t e He) as (e' & He' & Hl' & Hi' & _).
  exists t, e', index. rewrite Hl', Hi'. done.
Qed.

Lemma same_data_keeps h h' : same_data h h' -> keeps h h'.
Proof.
  intros [_ H] x e He. destruct (H x e He) as (e' & He' & (?&?&?&?&?)).
  by exists e'.
Qed.

Lemma store_inv2_same_data fs root size h h' lst devs :
  same_data h h' ->
  store_inv2 fs root size h lst devs -> store_inv2 fs root size h' lst devs.
Proof.
  intros Hsd [[Hl Hn] Hm Ht [Hr1 Hr2] Hd].
  pose proof Hsd as [Hlen _].
  split.
  - split; [by rewrite Hlen|]. intros i e' He'.
    destruct (same_data_back _ _ _ _ Hsd He') as (e & He & (_&_&_&An&_)).
    rewrite An. by eapply Hn.
  - intros p e' He'.
    destruct (same_data_back _ _ _ _ Hsd He') as (e & He & (_&_&_&_&Am)).
    rewrite Am. by eapply Hm.
  - intros t e' He' Hlv.
    destruct (same_data_back _ _ _ _ Hsd He') as (e & He & (Al&Ai&_&_&Am)).
    rewrite Am, Ai. apply (Ht t e He). congruence.
  - split.
    + intros p e' He' Hp.
      destruct (same_data_back _ _ _ _ Hsd He') as (e & He & (_&_&Ap&_&_)).
      apply (Hr1 p e He). congruence.
    + intros e' He'.
      destruct (same_data_back _ _ _ _ Hsd He') as (e & He & (_&Ai&_&_&_)).
      rewrite Ai. by apply Hr2.
  - eapply Forall_impl; [done|]. intros d. apply cache_ok_keeps.
    by apply same_data_keeps.
Qed.

(** A new entity at the end of the store. *)
Lemma store_inv2_append fs root size h lst devs lvl id p sib :
  store_inv2 fs root size h lst devs ->
  lvl <> TOPOLOGY_THREAD -> is_Some (h !! p) ->
  store_inv2 fs root size (h ++ [new_procent lvl id (Some p) sib lst])
    (Some (List.length h)) devs.
Proof.
  intros [[Hl Hn] Hm Ht [Hr1 Hr2] Hd] Hlvl [pe Hpe].
  assert (Hlk : forall x e,
            (h ++ [new_procent lvl id (Some p) sib lst]) !! x = Some e ->
            h !! x = Some e
            \/ (x = List.length h /\ e = new_procent lvl id (Some p) sib lst)).
  { intros x e Hx. destruct (decide (x < List.length h)%nat).
    - left. by rewrite lookup_app_l in Hx.
    - right. rewrite lookup_app_r in Hx by lia.
      destruct (x - List.length h)%nat as [|k] eqn:E; [|by destruct k].
      cbn in Hx. injection Hx as <-. split; [lia|done]. }
  split.
  - split; [rewrite length_app; cbn; by rewrite Nat.add_1_r|].
    intros i e [He|[-> ->]]%Hlk; [by eapply Hn|]. exact Hl.
  - intros x e [He|[-> ->]]%Hlk; [by eapply Hm|]. cbn. apply within_0.
  - intros t e [He|[-> ->]]%Hlk Hlv; [by eapply Ht|]. done.
  - split.
    + intros x e [He|[-> ->]]%Hlk Hp; [by eapply Hr1|done].
    + intros e [He|[Hx ->]]%Hlk; [by apply Hr2|].
      apply lookup_lt_Some in Hpe. lia.
  - eapply Forall_impl; [done|]. intros d. apply cache_ok_keeps.
    intros x e He. exists e. split; [by apply lookup_app_l_Some|done].
Qed.

(** ** Ancestors and levels *)

Lemma ancestor_level h p a e :
  inv_parent h -> ancestor h p a -> h !! p = Some e ->
  exists ea, h !! a = Some ea /\ ent_level e <= ent_level ea
    /\ (ent_level ea = ent_level e -> a = p) /\ (a <= p)%nat.
Proof.
  intros HP Ha. revert e. induction Ha as [p|p e0 q a He0 Hq Ha IH]; intros e He.
  - exists e. repeat split; (done || lia).
  - rewrite He0 in He. injection He as <-.
    pose proof (HP p e0 He0) as Hp. rewrite Hq in Hp.
    destruct Hp as (Hlt & eq & Heq & Hl & _).
    destruct (IH eq Heq) as (ea & Hea & Hle & _ & Hap).
    exists ea. split; [done|]. split; [lia|]. split; [lia|lia].
Qed.

Lemma CPU_SET_S_idem bit size m :
  CPU_SET_S bit size (CPU_SET_S bit size m) = CPU_SET_S bit size m.
Proof.
  unfold CPU_SET_S. destruct (_ <? _); [|done].
  by rewrite <- Z.lor_assoc, Z.lor_diag.
Qed.

(** ** The masks after [topo_procent_cpumask_set] *)

Lemma cpumask_set_masks fuel size bit : forall h p h',
  inv_parent h ->
  topo_procent_cpumask_set fuel size h p bit = Ret h' ->
  List.length h' = List.length h
  /\ forall x e, h !! x = Some e ->
       exists m, h' !! x = Some (set_ent_cpumask e m)
         /\ (m = ent_cpumask e
             \/ (m = CPU_SET_S bit size (ent_cpumask e) /\ ancestor h p x))
         /\ (x = p -> m = CPU_SET_S bit size (ent_cpumask e)).
Proof.
  induction fuel as [|fuel IH]; intros h p h' HP Hrun; [done|].
  cbn [topo_procent_cpumask_set] in Hrun. unfold deref in Hrun.
  destruct (h !! p) as [e|] eqn:He; [|done]. cbn [mbind res_bind] in Hrun.
  set (e1 := set_ent_cpumask e (CPU_SET_S bit size (ent_cpumask e))) in *.
  assert (struct_eq h (<[p := e1]> h)) as Hse.
  { apply (struct_eq_insert h p e); [done|]. by repeat split. }
  assert (Hlk1 : forall x ex, h !! x = Some ex ->
            (<[p := e1]> h) !! x = Some (if decide (x = p) then e1 else ex)).
  { intros x ex Hx. destruct (decide (x = p)) as [->|Hne].
    - apply list_lookup_insert_eq. by eapply lookup_lt_Some.
    - by rewrite list_lookup_insert_ne. }
  destruct (ent_parent e) as [q|] eqn:Hq.
  - destruct (IH _ _ _ (struct_eq_parent _ _ Hse HP) Hrun) as [Hlen Hall].
    split; [by rewrite Hlen, length_insert|].
    intros x ex Hx. pose proof (Hlk1 x ex Hx) as Hx1.
    destruct (Hall _ _ Hx1) as (m1 & Hx' & Hm1 & _).
    destruct (decide (x = p)) as [->|Hne].
    + rewrite He in Hx. injection Hx as <-.
      exists (CPU_SET_S bit size (ent_cpumask e)).
      split; [|split; [right; split; [done|constructor]|done]].
      rewrite Hx'. unfold e1. cbn.
      destruct Hm1 as [->|[-> _]]; cbn; [done|].
      by rewrite CPU_SET_S_idem.
    + exists m1. split; [done|]. split; [|done].
      destruct Hm1 as [->|[-> Ha]]; [by left|right]. split; [done|].
      econstructor; [done|done|]. by apply (struct_eq_ancestor _ _ _ _ Hse).
  - injection Hrun as <-. split; [apply length_insert|].
    intros x ex Hx. rewrite (Hlk1 x ex Hx).
    destruct (decide (x = p)) as [->|Hne].
    + rewrite He in Hx. injection Hx as <-.
      exists (CPU_SET_S bit size (ent_cpumask e)).
      split; [done|]. split; [right; split; [done|constructor]|done].
    + exists (ent_cpumask ex). split; [by destruct ex|]. split; [by left|done].
Qed.

(** ** The store after the allocation of a thread and the propagation
    of its bit *)

Lemma store_inv2_thread fs root size h lst devs core ce id h1 h2 fuel :
  store_inv2 fs root size h lst devs ->
  h !! core = Some ce -> ent_level ce = TOPOLOGY_CORE ->
  sysfs_cpu_is_online fs root id <> 0 ->
  h1 = <[core := set_ent_children ce (Some (List.length h))]>
         (h ++ [new_procent (ent_level ce - 1) id (Some core)
                  (ent_children ce) lst]) ->
  inv_parent h1 ->
  topo_procent_cpumask_set fuel size h1 (List.length h) id = Ret h2 ->
  store_inv2 fs root size h2 (Some (List.length h)) devs.
Proof.
  intros [[Hl Hn] Hm Ht [Hr1 Hr2] Hd] Hce Hlc Hon -> HP1 Hset.
  set (new := new_procent (ent_level ce - 1) id (Some core)
                (ent_children ce) lst) in *.
  set (n := List.length h) in *.
  set (h1 := <[core := set_ent_children ce (Some n)]> (h ++ [new])) in *.
  assert (core < n)%nat as Hcn by (by eapply lookup_lt_Some).
  assert (Hlen1 : List.length h1 = S n).
  { unfold h1. rewrite length_insert, length_app. cbn. unfold n. lia. }
  (* the entities of [h1] *)
  assert (Hlk1 : forall x e1, h1 !! x = Some e1 ->
            (x = n /\ e1 = new)
            \/ (x < n)%nat /\ exists e, h !! x = Some e /\ data_agree e e1).
  { intros x e1 Hx. unfold h1 in Hx. destruct (decide (x = core)) as [->|Hne].
    - rewrite list_lookup_insert_eq in Hx
        by (rewrite length_app; cbn; unfold n in *; lia).
      injection Hx as <-. right. split; [done|]. exists ce. by repeat split.
    - rewrite list_lookup_insert_ne in Hx by done.
      destruct (decide (x < n)%nat).
      + rewrite lookup_app_l in Hx by done. right. split; [done|].
        exists e1. by repeat split.
      + rewrite lookup_app_r in Hx by (unfold n in *; lia).
        destruct (x - List.length h)%nat as [|k] eqn:E; [|by destruct k].
        cbn in Hx. injection Hx as <-. left. split; [unfold n; lia|done]. }
  assert (Hnew1 : h1 !! n = Some new).
  { unfold h1. rewrite list_lookup_insert_ne by lia.
    rewrite lookup_app_r by (unfold n; lia).
    by replace (n - List.length h)%nat with 0%nat by (unfold n; lia). }
  destruct (cpumask_set_masks _ _ _ _ _ _ HP1 Hset) as [Hlen2 Hall].
  (* the entities of [h2] *)
  assert (Hlk2 : forall x e2, h2 !! x = Some e2 ->
            exists e1 m, h1 !! x = Some e1 /\ e2 = set_ent_cpumask e1 m
              /\ (m = ent_cpumask e1
                  \/ (m = CPU_SET_S id size (ent_cpumask e1)
                      /\ ancestor h1 n x))
              /\ (x = n -> m = CPU_SET_S id size (ent_cpumask e1))).
  { intros x e2 Hx.
    destruct (h1 !! x) as [e1|] eqn:Hx1.
    - destruct (Hall x e1 Hx1) as (m & Hx2 & Hmm & Hp).
      rewrite Hx in Hx2. injection Hx2 as ->. by exists e1, m.
    - apply lookup_lt_Some in Hx. apply lookup_ge_None in Hx1. lia. }
  split.
  - split; [by rewrite Hlen2, Hlen1|]. intros x e2 Hx.
    destruct (Hlk2 x e2 Hx) as (e1 & m & Hx1 & -> & _). cbn.
    destruct (Hlk1 x e1 Hx1) as [[-> ->]|(_ & e & He & (_&_&_&An&_))].
    + exact Hl.
    + rewrite An. by eapply Hn.
  - intros x e2 Hx.
    destruct (Hlk2 x e2 Hx) as (e1 & m & Hx1 & -> & Hmm & _). cbn.
    assert (within size (ent_cpumask e1)) as Hw1.
    { destruct (Hlk1 x e1 Hx1) as [[-> ->]|(_ & e & He & (_&_&_&_&Am))].
      - apply within_0.
      - rewrite Am. by eapply Hm. }
    destruct Hmm as [->|[-> _]]; [done|by apply CPU_SET_S_within].
  - intros x e2 Hx Hlv.
    destruct (Hlk2 x e2 Hx) as (e1 & m & Hx1 & -> & Hmm & Hxn). cbn in *.
    destruct (Hlk1 x e1 Hx1) as [[-> ->]|(Hlt & e & He & (Al&Ai&_&_&Am))].
    + rewrite (Hxn eq_refl). cbn. done.
    + destruct Hmm as [->|[_ Ha]].
      * rewrite Am, Ai. apply (Ht x e He). congruence.
      * (* a thread is not above another thread *)
        exfalso.
        destruct (ancestor_level _ _ _ _ HP1 Ha Hnew1)
          as (ex & Hex & Hle & Heq & _).
        rewrite Hx1 in Hex. injection Hex as <-.
        assert (ent_level new = TOPOLOGY_THREAD) as Hln.
        { cbn. rewrite Hlc. done. }
        assert (x = n) by (apply Heq; congruence). lia.
  - split.
    + intros x e2 Hx Hp.
      destruct (Hlk2 x e2 Hx) as (e1 & m & Hx1 & -> & _). cbn in Hp.
      destruct (Hlk1 x e1 Hx1) as [[-> ->]|(_ & e & He & (_&_&Ap&_&_))];
        [done|].
      apply (Hr1 x e He). congruence.
    + intros e2 Hx.
      destruct (Hlk2 _ e2 Hx) as (e1 & m & Hx1 & -> & _). cbn.
      destruct (Hlk1 _ e1 Hx1) as [[Hz ->]|(_ & e & He & (_&Ai&_&_&_))];
        [lia|].
      rewrite Ai. by apply Hr2.
  - eapply Forall_impl; [done|]. intros d. apply cache_ok_keeps.
    intros x e He.
    destruct (decide (x = core)) as [->|Hne].
    + rewrite Hce in He. injection He as <-.
      assert (h1 !! core = Some (set_ent_children ce (Some n))) as Hc1.
      { unfold h1. apply list_lookup_insert_eq.
        rewrite length_app. cbn. unfold n in *. lia. }
      destruct (Hall _ _ Hc1) as (m & Hc2 & _).
      eexists. split; [done|]. done.
    + assert (h1 !! x = Some e) as Hx1.
      { unfold h1. rewrite list_lookup_insert_ne by done.
        by apply lookup_app_l_Some. }
      destruct (Hall _ _ Hx1) as (m & Hx2 & _).
      eexists. split; [done|]. by destruct e.
Qed.

(** ** The caches that are registered *)

Lemma parse_ignores_destination cpumask size buf :
  topology_cpumask_parse cpumask size buf = topology_cpumask_parse 0 size buf.
Proof. by rewrite !parse_list_form. Qed.

Section caches2.
Variable fs : sysfs.

Lemma sysfs_get_attr_name dir name a :
  sysfs_get_attr fs dir name = Some a ->
  attr_name a = name
  /\ sysfs_get_attr_value fs dir name = Some (attr_value a).
Proof.
  unfold sysfs_get_attr. destruct (sysfs_get_attr_value fs dir name); [|done].
  by intros [= <-].
Qed.

(** What [__get_cache_info] has put in the device when it returns 0. *)
Lemma get_cache_info_found ctx cpu index cache :
  __get_cache_info fs ctx (alloc_topo_device ctx "cache") cpu index
  = (0, cache) ->
  dev_type cache = "cache"%string
  /\ is_Some (topo_device_get_attr_value cache "size")
  /\ is_Some (topo_device_get_attr_value cache "type")
  /\ is_Some (topo_device_get_attr_value cache "level")
  /\ (exists map, topo_device_get_attr_value cache "shared_cpu_map" = Some map
        /\ topology_cpumask_parse 0 (cpu_set_t_size ctx) map
           = (0, dev_cpumask cache))
  /\ CPU_ISSET_S cpu (cpu_set_t_size ctx) (dev_cpumask cache) = true
  /\ forall name, name ∈ cache_attrs ->
       topo_device_get_attr_value cache name
       = sysfs_get_attr_value fs (index_dir (sysfs_root ctx) cpu index) name.
Proof.
  unfold __get_cache_info.
  destruct (opendir fs _); [|done].
  destruct (sysfs_get_attr fs _ "size") as [a1|] eqn:E1; [|done].
  destruct (sysfs_get_attr fs _ "type") as [a2|] eqn:E2; [|done].
  destruct (sysfs_get_attr fs _ "level") as [a3|] eqn:E3; [|done].
  destruct (sysfs_get_attr fs _ "shared_cpu_map") as [a4|] eqn:E4; [|done].
  apply sysfs_get_attr_name in E1 as [E1 V1], E2 as [E2 V2], E3 as [E3 V3],
    E4 as [E4 V4].
  rewrite parse_ignores_destination.
  destruct (topology_cpumask_parse 0 (cpu_set_t_size ctx) (attr_value a4))
    as [rc mask] eqn:Hp.
  destruct (Z.eqb_spec rc 0) as [->|]; cbn [negb]; [|done].
  cbn [set_dev_cpumask dev_cpumask].
  destruct (CPU_ISSET_S cpu (cpu_set_t_size ctx) mask) eqn:Hc;
    cbn [negb]; [|done].
  intros [= <-]. cbn [dev_type dev_cpumask].
  unfold topo_device_get_attr_value. cbn.
  rewrite E1, E2, E3, E4. cbn. split; [done|].
  do 3 (split; [by eexists|]). split; [by exists (attr_value a4)|].
  split; [done|]. intros name Hn. unfold cache_attrs in Hn.
  rewrite !elem_of_cons, elem_of_nil in Hn.
  destruct Hn as [->|[->|[->|[->|[]]]]]; cbn; by rewrite ?V1, ?V2, ?V3, ?V4.
Qed.

Lemma cache_build_hash_keeps cache cache' :
  cache_build_hash cache = (0, cache') ->
  dev_type cache' = dev_type cache /\ dev_cpumask cache' = dev_cpumask cache
  /\ forall name, topo_device_get_attr_value cache' name
                  = topo_device_get_attr_value cache name.
Proof.
  unfold cache_build_hash.
  destruct (topo_device_get_attr_value cache "level"); [|done].
  destruct (topo_device_get_attr_value cache "type"); [|done].
  destruct (topo_device_get_attr_value cache "shared_cpu_map"); [|done].
  by intros [= <-].
Qed.

Lemma get_cache_info_loop_caches n : forall index ctx tid rc ctx',
  get_cache_info_loop fs n index ctx tid = Ret (rc, ctx') ->
  (exists t te, procents ctx !! t = Some te
     /\ ent_level te = TOPOLOGY_THREAD /\ ent_id te = tid) ->
  Forall (cache_ok fs (sysfs_root ctx) (cpu_set_t_size ctx) (procents ctx)) (devices ctx) ->
  Forall (cache_ok fs (sysfs_root ctx) (cpu_set_t_size ctx) (procents ctx)) (devices ctx').
Proof.
  induction n as [|n IH]; intros index ctx tid rc ctx' H Hth Hok.
  - cbn in H. by injection H as <- <-.
  - cbn [get_cache_info_loop] in H.
    destruct (__get_cache_info fs ctx _ tid index) as [rc1 cache1] eqn:Hg.
    destruct (Z.eqb_spec rc1 0) as [->|Hrc1]; cbn [negb] in H;
      [|by injection H as <- <-].
    destruct (cache_build_hash cache1) as [rc2 cache2] eqn:Hb.
    destruct (Z.eqb_spec rc2 0) as [->|Hrc2]; cbn [negb] in H;
      [|by injection H as <- <-].
    destruct (htable_lookup (device_htable ctx) (dev_hash_key cache2))
      as [old|] eqn:Hlk.
    + by apply (IH _ _ _ _ _ H).
    + destruct (hash_device ctx cache2) as [[rc3 ctx3]| |] eqn:Hh; try done.
      cbn [mbind res_bind] in H.
      destruct (hash_device_spec _ _ _ _ Hh) as (-> & Hctx3 & _).
      cbn [negb Z.eqb] in H.
      assert (cache_ok fs (sysfs_root ctx) (cpu_set_t_size ctx) (procents ctx)
                cache2) as Hc2.
      { destruct (get_cache_info_found _ _ _ _ Hg)
          as (G1 & G2 & G3 & G4 & (map & G5 & G6) & G7 & G8).
        destruct (cache_build_hash_keeps _ _ Hb) as (K1 & K2 & K3).
        destruct Hth as (t & te & Hte & Hl & Hi).
        split; [congruence|]. rewrite !K3, K2. do 3 (split; [done|]).
        split; [by exists map|]. exists t, te, index. rewrite Hi.
        do 3 (split; [done|]). intros name Hn. rewrite K3. by apply G8. }
      pose proof (IH _ _ _ _ _ H) as IH'.
      assert (E1 : cpu_set_t_size ctx3 = cpu_set_t_size ctx)
        by (by rewrite Hctx3).
      assert (E2 : procents ctx3 = procents ctx) by (by rewrite Hctx3).
      assert (E3 : devices ctx3 = devices ctx) by (by rewrite Hctx3).
      assert (E4 : sysfs_root ctx3 = sysfs_root ctx) by (by rewrite Hctx3).
      cbn in IH'. rewrite E1, E2, E3, E4 in IH'. apply IH'; [done|].
      by constructor.
Qed.

Lemma get_cache_info_caches ctx thread te rc ctx' :
  get_cache_info fs ctx thread = Ret (rc, ctx') ->
  procents ctx !! thread = Some te -> ent_level te = TOPOLOGY_THREAD ->
  Forall (cache_ok fs (sysfs_root ctx) (cpu_set_t_size ctx) (procents ctx)) (devices ctx) ->
  Forall (cache_ok fs (sysfs_root ctx) (cpu_set_t_size ctx) (procents ctx)) (devices ctx').
Proof.
  unfold get_cache_info, deref. intros H Hte Hl Hok. rewrite Hte in H.
  cbn [mbind res_bind] in H. destruct (_ =? 0).
  - by injection H as <- <-.
  - eapply get_cache_info_loop_caches; [done| |done]. by exists thread, te.
Qed.

End caches2.

(** ** The build keeps the second invariant *)

Section build2.
Variable fs : sysfs.

(** Allocation of an entity above the threads. *)
Lemma alloc_child_inv2 ctx parent plvl id ctx1 x :
  build_inv2 fs ctx -> has_level ctx parent plvl ->
  plvl - 1 <> TOPOLOGY_THREAD ->
  alloc_init_topo_procent ctx (Some parent) id = Ret (ctx1, x) ->
  build_inv2 fs ctx1.
Proof.
  intros Hinv (pe0 & Hpe0 & Hpl) Hlvl Ha.
  apply alloc_spec in Ha as (-> & Hctx & pe & Hpe & Hl & Hh).
  rewrite Hpe in Hpe0. injection Hpe0 as <-.
  unfold build_inv2. rewrite Hctx. cbn. rewrite Hh.
  eapply store_inv2_same_data.
  - apply (same_data_insert _ parent pe); [by apply lookup_app_l_Some|].
    by repeat split.
  - apply store_inv2_append; [done|congruence|by eexists].
Qed.

Lemma set_hash_key_inv2 ctx p k ctx' :
  build_inv2 fs ctx -> set_hash_key ctx p k = Ret ctx' -> build_inv2 fs ctx'.
Proof.
  unfold set_hash_key, deref. intros Hinv.
  destruct (procents ctx !! p) as [e|] eqn:He; [|done]. cbn.
  intros [= <-]. unfold build_inv2. cbn.
  eapply store_inv2_same_data; [|done].
  apply (same_data_insert _ p e); [done|]. by repeat split.
Qed.

(** The thread of a CPU that is online. *)
Lemma thread_stage_inv2 ctx core cpu_id rc ctx' :
  build_inv fs ctx -> build_inv2 fs ctx ->
  has_level ctx core TOPOLOGY_CORE ->
  tbl (core_htable ctx)
    !! sysfs_cpu_thread_siblings fs (sysfs_root ctx) cpu_id = Some core ->
  sysfs_cpu_is_online fs (sysfs_root ctx) cpu_id <> 0 ->
  ('(ctx, thread) ← alloc_init_topo_procent ctx (Some core) cpu_id;
   h ← topo_procent_cpumask_set (List.length (procents ctx))
         (cpu_set_t_size ctx) (procents ctx) thread cpu_id;
   let ctx := set_procents ctx h in
   '(_, ctx) ← get_cache_info fs ctx thread;
   Ret (0, ctx)) = Ret (rc, ctx') ->
  build_inv2 fs ctx'.
Proof.
  intros Hinv Hinv2 Hcore Htbl Hon Hrun.
  apply bind_ret in Hrun as ([ctx1 thread] & Ha & Hrun).
  apply bind_ret in Hrun as (h2 & Hset & Hrun). cbn zeta in Hrun.
  apply bind_ret in Hrun as ([rc4 ctx4] & Hg & Hrun).
  injection Hrun as <- <-.
  pose proof (good_inv _ _ _
                (alloc_outcome fs ctx core TOPOLOGY_CORE cpu_id Hinv Hcore
                   (fun _ => Htbl)) Ha) as (Hinv1 & Hstep1 & Hrel1 & Hc1).
  cbn in Hinv1, Hstep1, Hrel1, Hc1.
  destruct Hcore as (ce & Hce & Hlc).
  pose proof Ha as Ha'.
  apply alloc_spec in Ha' as (-> & Hctx & pe & Hpe & Hl & Hh).
  rewrite Hce in Hpe. injection Hpe as <-.
  destruct Hinv1 as [[HP1 HC1 HU1 HO1] Ht1 Hth1 Hd1].
  assert (Hs2 : store_inv2 fs (sysfs_root ctx) (cpu_set_t_size ctx) h2
                  (Some (List.length (procents ctx))) (devices ctx)).
  { eapply (store_inv2_thread fs _ _ (procents ctx) (ctx_list ctx) _ core ce
              cpu_id (procents ctx1) h2); try done.
    rewrite Hctx in Hset. cbn in Hset. exact Hset. }
  (* the new thread, in the store [h2] *)
  assert (Ht2 : exists te, h2 !! List.length (procents ctx) = Some te
                  /\ ent_level te = TOPOLOGY_THREAD).
  { destruct Hrel1 as (_ & _ & _ & en & Hen & Hel & _).
    destruct (cpumask_set_masks _ _ _ _ _ _ HP1 Hset) as [_ Hall].
    destruct (Hall _ _ Hen) as (m & Hm & _).
    eexists. split; [done|]. cbn. rewrite Hel. done. }
  destruct Ht2 as (te & Hte & Hlte).
  set (ctx3 := set_procents ctx1 h2) in *.
  destruct (get_cache_info_inv fs ctx3 _ _ _ Hg) as [_ Hsame].
  { unfold ctx3. cbn. done. }
  destruct Hsame as (E1 & E2 & E3 & E4 & E5 & E6 & E7).
  pose proof (get_cache_info_caches fs ctx3 _ te _ _ Hg) as Hcaches.
  unfold build_inv2. rewrite E1, E2, E6, E7.
  unfold ctx3 in *. cbn in *. rewrite Hctx in *. cbn in *.
  destruct Hs2 as [S1 S2 S3 S4 S5]. split; try done.
  apply Hcaches; done.
Qed.

Lemma do_one_cpu_inv2 ctx node cpu_id rc ctx' :
  do_one_cpu fs ctx node cpu_id = Ret (rc, ctx') ->
  build_inv fs ctx -> has_level ctx node TOPOLOGY_NODE ->
  build_inv2 fs ctx ->
  sysfs_cpu_is_online fs (sysfs_root ctx) cpu_id <> 0 ->
  build_inv2 fs ctx'.
Proof.
  intros Hrun Hinv Hnode Hinv2 Hon. unfold do_one_cpu in Hrun.
  (* package *)
  apply bind_ret in Hrun as ([[rc1 ctx1] pkg] & E1 & Hrun).
  pose proof (good_inv _ _ _
                (package_outcome fs ctx node cpu_id _ Hinv Hnode) E1)
    as (Hrc1 & Hinv1 & Hstep1 & Hpkg & _).
  cbn in Hrc1, Hinv1, Hstep1, Hpkg. subst rc1. cbn [negb Z.eqb] in Hrun.
  assert (build_inv2 fs ctx1) as Hinv21.
  { destruct (htable_lookup (package_htable ctx) _).
    - by injection E1 as <- _.
    - apply bind_ret in E1 as ([c1 p1] & Ea & E1).
      apply bind_ret in E1 as (c2 & Ek & E1).
      apply bind_ret in E1 as ([rcx htab] & _ & E1).
      injection E1 as _ <- _.
      assert (build_inv2 fs c2) as H2; [|exact H2].
      eapply set_hash_key_inv2; [|done].
      eapply (alloc_child_inv2 ctx node TOPOLOGY_NODE); done. }
  (* core *)
  apply bind_ret in Hrun as ([[rc2 ctx2] core] & E2 & Hrun).
  pose proof (good_inv _ _ _ (core_outcome fs ctx1 pkg cpu_id Hinv1 Hpkg) E2)
    as (Hrc2 & Hinv2' & Hstep2 & Hcore & Hctbl & _).
  cbn in Hrc2, Hinv2', Hstep2, Hcore, Hctbl. subst rc2.
  cbn [negb Z.eqb] in Hrun.
  assert (build_inv2 fs ctx2) as Hinv22.
  { destruct (htable_lookup (core_htable ctx1) _).
    - by injection E2 as <- _.
    - apply bind_ret in E2 as ([c1 p1] & Ea & E2).
      apply bind_ret in E2 as (c2 & Ek & E2).
      apply bind_ret in E2 as ([rcx htab] & _ & E2).
      injection E2 as _ <- _.
      assert (build_inv2 fs c2) as H2; [|exact H2].
      eapply set_hash_key_inv2; [|done].
      eapply (alloc_child_inv2 ctx1 pkg TOPOLOGY_PACKAGE); done. }
  (* thread *)
  eapply (thread_stage_inv2 ctx2 core cpu_id); try done.
  - by rewrite (cs_root _ _ Hstep2).
  - by rewrite (cs_root _ _ Hstep2), (cs_root _ _ Hstep1).
Qed.

Lemma do_node_cpus_loop_inv2 entries : forall ctx node rc ctx',
  do_node_cpus_loop fs entries ctx node = Ret (rc, ctx') ->
  build_inv fs ctx -> has_level ctx node TOPOLOGY_NODE ->
  build_inv2 fs ctx -> build_inv2 fs ctx'.
Proof.
  induction entries as [|d entries IH]; intros ctx node rc ctx' Hrun Hinv Hn H2.
  - by injection Hrun as <- <-.
  - cbn [do_node_cpus_loop] in Hrun.
    destruct (sscanf_d (d_name d) "cpu") as [cpu_id|]; [|by eapply IH].
    destruct (Z.eqb_spec (sysfs_cpu_is_online fs (sysfs_root ctx) cpu_id) 0)
      as [|Hon]; [by eapply IH|].
    apply bind_ret in Hrun as ([rc1 ctx1] & E1 & Hrun).
    pose proof (do_one_cpu_inv fs _ _ _ _ _ E1 Hinv Hn) as [Hinv1 Hstep1].
    pose proof (do_one_cpu_inv2 _ _ _ _ _ E1 Hinv Hn H2 Hon) as H21.
    destruct (negb (rc1 =? 0)); [by injection Hrun as <- <-|].
    eapply IH; [done|done|by eapply has_level_step|done].
Qed.

Lemma do_node_cpus_inv2 ctx node rc ctx' :
  do_node_cpus fs ctx node = Ret (rc, ctx') ->
  build_inv fs ctx -> has_level ctx node TOPOLOGY_NODE ->
  build_inv2 fs ctx -> build_inv2 fs ctx'.
Proof.
  unfold do_node_cpus. intros Hrun Hinv Hn H2.
  apply bind_ret in Hrun as (ne & _ & Hrun).
  destruct (match opendir fs _ with Some entries => Some entries | None => _ end)
    as [entries|].
  - by eapply do_node_cpus_loop_inv2.
  - by injection Hrun as <- <-.
Qed.

Lemma do_one_node_inv2 ctx sys nid rc ctx' :
  do_one_node fs ctx sys nid = Ret (rc, ctx') ->
  build_inv fs ctx -> has_level ctx sys TOPOLOGY_SYSTEM ->
  build_inv2 fs ctx -> build_inv2 fs ctx'.
Proof.
  unfold do_one_node. intros Hrun Hinv Hsys H2.
  apply bind_ret in Hrun as ([ctx1 node] & Ea & Hrun).
  pose proof (good_inv _ _ _
                (alloc_outcome fs ctx sys TOPOLOGY_SYSTEM nid Hinv Hsys
                   ltac:(done)) Ea) as (Hinv1 & _ & Hrel1 & _).
  cbn in Hinv1, Hrel1.
  destruct Hrel1 as (_ & _ & _ & en & Hen & Hel & _).
  apply bind_ret in Hrun as ([rc2 ctx2] & En & Hrun).
  assert (build_inv2 fs ctx2) as H22.
  { eapply do_node_cpus_inv2; [done|done|by exists en|].
    eapply (alloc_child_inv2 ctx sys TOPOLOGY_SYSTEM); done. }
  destruct (negb (rc2 =? 0)); by injection Hrun as <- <-.
Qed.

Lemma build_context_loop_inv2 entries : forall ctx system rc ctx',
  build_context_loop fs entries ctx system = Ret (rc, ctx') ->
  build_inv fs ctx -> has_level ctx system TOPOLOGY_SYSTEM ->
  build_inv2 fs ctx -> build_inv2 fs ctx'.
Proof.
  induction entries as [|d entries IH];
    intros ctx system rc ctx' Hrun Hinv Hsys H2.
  - by injection Hrun as <- <-.
  - cbn [build_context_loop] in Hrun.
    destruct (negb (is_dir_or_unknown (d_type_of d))); [by eapply IH|].
    destruct (sscanf_d (d_name d) "node") as [node_id|]; [|by eapply IH].
    apply bind_ret in Hrun as ([rc1 ctx1] & E1 & Hrun).
    pose proof (good_inv _ _ _
                  (do_one_node_outcome fs ctx system node_id Hinv Hsys) E1)
      as [Hinv1 Hstep1]. cbn in Hinv1, Hstep1.
    pose proof (do_one_node_inv2 _ _ _ _ _ E1 Hinv Hsys H2) as H21.
    destruct (negb (rc1 =? 0)); [by injection Hrun as <- <-|].
    eapply IH; [done|done|by eapply has_level_step|done].
Qed.

(** A context returned by [new_context] satisfies the second invariant
    too. *)
Lemma new_context_inv2 root size ctx :
  new_context fs root size = Ret (Some ctx) -> build_inv2 fs ctx.
Proof.
  unfold new_context. destruct (size =? 0); [done|].
  intros Hrun. apply bind_ret in Hrun as ([rc ctx1] & Hb & Hrun).
  destruct (negb (rc =? 0)); [done|]. injection Hrun as ->.
  unfold build_context in Hb.
  cbn [alloc_init_topo_procent mbind res_bind procents ctx_list List.length app]
    in Hb.
  set (ctx0 := set_ctx_system _ _) in Hb.
  assert (Hinv0 : build_inv fs ctx0).
  { split; cbn.
    - apply heap_inv_root.
    - split; intros k p Hk; by rewrite lookup_empty in Hk.
    - intros [|t] e He Hl; [|done]. by injection He as <-.
    - split; [constructor|constructor|set_solver]. }
  assert (Hsys0 : has_level ctx0 0%nat TOPOLOGY_SYSTEM) by (by eexists).
  assert (H20 : build_inv2 fs ctx0).
  { unfold build_inv2, ctx0. cbn. split.
    - split; [done|]. intros [|i] e He; [|done]. by injection He as <-.
    - intros [|p] e He; [|done]. injection He as <-. apply within_0.
    - intros [|t] e He Hl; [|done]. by injection He as <-.
    - split.
      + intros [|p] e He; [done|done].
      + intros e He. by injection He as <-.
    - constructor. }
  destruct (opendir fs _) as [entries|].
  - by eapply build_context_loop_inv2.
  - by eapply do_one_node_inv2.
Qed.

End build2.

(** * More properties of built contexts *)

Lemma memcpy_set_within size m : within size m -> memcpy_set size m = m.
Proof.
  intros Hw. unfold memcpy_set. apply Z.bits_inj'. intros b Hb.
  rewrite Z.land_spec.
  destruct (Z.testbit m b) eqn:E; [|done]. cbn [andb].
  apply Hw in E. apply Z.ones_spec_low. lia.
Qed.

Lemma union_masks_bits h l b :
  Z.testbit (union_masks h l) b = true
  <-> exists x, x ∈ l /\ Z.testbit (mask_of h x) b = true.
Proof.
  induction l as [|p l IH].
  - cbn. rewrite Z.bits_0. split; [done|]. intros (x & Hx & _). set_solver.
  - rewrite union_masks_cons, Z.lor_spec, orb_true_iff, IH. split.
    + intros [H|(x & Hx & H)]; [exists p|exists x]; set_solver.
    + intros (x & [->|Hx]%elem_of_cons & H); [by left|right; by exists x].
Qed.

Lemma to_size_t_idem z : to_size_t (to_size_t z) = to_size_t z.
Proof. unfold to_size_t. by rewrite Z.mod_mod. Qed.

Lemma CPU_SET_S_to_size_t cpu size m :
  CPU_SET_S cpu size m = CPU_SET_S (to_size_t cpu) size m.
Proof. unfold CPU_SET_S. by rewrite to_size_t_idem. Qed.

Lemma CPU_ISSET_S_to_size_t cpu size m :
  CPU_ISSET_S cpu size m = CPU_ISSET_S (to_size_t cpu) size m.
Proof. unfold CPU_ISSET_S. by rewrite to_size_t_idem. Qed.

(** The bits of an entity are bits of the entities above it. *)
Lemma mask_up h t p et ep b :
  heap_inv h -> ancestor h t p ->
  h !! t = Some et -> h !! p = Some ep ->
  Z.testbit (ent_cpumask et) b = true -> Z.testbit (ent_cpumask ep) b = true.
Proof.
  intros [HP HC HU HO] Ha. revert et.
  induction Ha as [t|t e q a He Hq Ha IH]; intros et Ht Hp Hb.
  - rewrite Ht in Hp. by injection Hp as <-.
  - rewrite He in Ht. injection Ht as <-.
    pose proof (HP t e He) as Hpar. rewrite Hq in Hpar.
    destruct Hpar as (_ & eq & Heq & _ & Hlq).
    destruct (HC q eq Heq) as (l & Hc & Hmem).
    apply (IH eq Heq Hp).
    rewrite (HU q eq l Heq) by (unfold TOPOLOGY_CORE, TOPOLOGY_THREAD in *; lia || done).
    apply union_masks_bits. exists t. split.
    + apply Hmem. by exists e.
    + unfold mask_of. by rewrite He.
Qed.

(** The CPU set of an entity of a built context, as
    [topology_procent_cpumask] copies it out, is the set of the CPUs of
    the threads below the entity that fit in the set. *)
Theorem entity_mask_is_threads_below (fs : sysfs) (root : string) (size : Z)
    (ctx : topo_context) (p : ptr) (e : topo_procent) :
  new_context fs root size = Ret (Some ctx) ->
  procents ctx !! p = Some e ->
  topology_procent_cpumask ctx p = Ret (ent_cpumask e)
  /\ forall c, Z.testbit (ent_cpumask e) c = true
       <-> c < 8 * size
           /\ exists t et, procents ctx !! t = Some et
                /\ ent_level et = TOPOLOGY_THREAD
                /\ to_size_t (ent_id et) = c
                /\ ancestor (procents ctx) t p.
Proof.
  intros Hnew He.
  pose proof (new_context_inv2 fs _ _ _ Hnew) as [_ Hm Ht _ _].
  apply new_context_inv in Hnew as (Hinv & Hroot & Hsize & _).
  rewrite Hsize in *. pose proof Hinv as [[HP HC HU HO] _ _ _].
  split.
  - unfold topology_procent_cpumask, deref. rewrite He. cbn.
    unfold topo_procent_copy_cpumask. rewrite Hsize.
    rewrite memcpy_set_within; [done|]. by eapply Hm.
  - intros c. split.
    + intros Hb. split; [by apply (Hm p e He c)|].
      destruct (HO p e c He Hb) as (t & et & Het & Hl & Hid & Ha).
      by exists t, et.
    + intros (Hc & t & et & Het & Hl & Hid & Ha).
      apply (mask_up _ t p et e c (bi_heap _ _ Hinv) Ha Het He).
      destruct (Ht t et Het Hl) as [-> _].
      unfold bit_pattern. rewrite CPU_SET_S_to_size_t, Hid.
      rewrite CPU_SET_S_bits by (rewrite <- Hid; apply to_size_t_range).
      rewrite Z.eqb_refl. cbn [andb orb].
      rewrite Z.bits_0. cbn [orb]. by apply Z.ltb_lt.
Qed.

Lemma entity_mask_is_threads_below_witness :
  exists ctx e,
    new_context Fixtures.shared_l2 "/sys" 8 = Ret (Some ctx)
    /\ procents ctx !! 2%nat = Some e
    /\ topology_procent_cpumask ctx 2%nat = Ret (ent_cpumask e).
Proof.
  assert (exists ctx e, new_context Fixtures.shared_l2 "/sys" 8 = Ret (Some ctx)
            /\ procents ctx !! 2%nat = Some e) as (ctx & e & Hnew & He).
  { do 2 eexists. split; [vm_compute; reflexivity|]. vm_compute. reflexivity. }
  exists ctx, e. split; [exact Hnew|]. split; [exact He|].
  apply (entity_mask_is_threads_below Fixtures.shared_l2 "/sys" 8 ctx 2%nat e
           Hnew He).
Defined.

(** The set of a thread holds its own CPU, which is online, and no
    other. *)
Theorem thread_cpumask_single (fs : sysfs) (root : string) (size : Z)
    (ctx : topo_context) (t : ptr) (e : topo_procent) :
  new_context fs root size = Ret (Some ctx) ->
  procents ctx !! t = Some e -> ent_level e = TOPOLOGY_THREAD ->
  sysfs_cpu_is_online fs root (ent_id e) <> 0
  /\ exists mask, topology_procent_cpumask ctx t = Ret mask
       /\ forall c, 0 <= c < 2^64 ->
            CPU_ISSET_S c size mask
            = (c =? to_size_t (ent_id e)) && (c <? 8 * size).
Proof.
  intros Hnew He Hl.
  pose proof (new_context_inv2 fs _ _ _ Hnew) as [_ Hm Ht _ _].
  apply new_context_inv in Hnew as (Hinv & Hroot & Hsize & _).
  rewrite Hsize, Hroot in *.
  destruct (Ht t e He Hl) as [Hmask Hon]. split; [done|].
  exists (ent_cpumask e). split.
  - unfold topology_procent_cpumask, deref. rewrite He. cbn.
    unfold topo_procent_copy_cpumask. rewrite Hsize.
    rewrite memcpy_set_within; [done|]. by eapply Hm.
  - intros c Hc. rewrite Hmask. unfold bit_pattern.
    rewrite CPU_ISSET_S_bit by done.
    rewrite CPU_SET_S_to_size_t, CPU_SET_S_bits by apply to_size_t_range.
    rewrite Z.bits_0. cbn [orb].
    destruct (Z.eqb_spec c (to_size_t (ent_id e))) as [E|E];
      [rewrite <- E|]; by destruct (c <? 8 * size).
Qed.

Lemma thread_cpumask_single_witness :
  exists ctx e,
    new_context Fixtures.shared_l2 "/sys" 8 = Ret (Some ctx)
    /\ procents ctx !! 4%nat = Some e
    /\ sysfs_cpu_is_online Fixtures.shared_l2 "/sys" (ent_id e) <> 0.
Proof.
  assert (exists ctx e, new_context Fixtures.shared_l2 "/sys" 8 = Ret (Some ctx)
            /\ procents ctx !! 4%nat = Some e
            /\ ent_level e = TOPOLOGY_THREAD) as (ctx & e & Hnew & He & Hl).
  { do 2 eexists. split; [vm_compute; reflexivity|].
    split; vm_compute; reflexivity. }
  exists ctx, e. split; [exact Hnew|]. split; [exact He|].
  apply (thread_cpumask_single Fixtures.shared_l2 "/sys" 8 ctx 4%nat e
           Hnew He Hl).
Defined.

(** Every device of a built context is a cache with its attributes
    [size], [type], [level] and [shared_cpu_map], which are the first
    lines of the files of one directory [indexN] of the CPU of a thread
    of the context; its CPU set is the one parsed from
    [shared_cpu_map], [topology_device_cpumask] copies it whole, and
    the CPU of that thread is in it. *)
Theorem cache_devices_complete (fs : sysfs) (root : string) (size : Z)
    (ctx : topo_context) (i : nat) (d : topo_device) :
  new_context fs root size = Ret (Some ctx) ->
  devices ctx !! i = Some d ->
  dev_type d = "cache"%string
  /\ (exists v, topology_device_get_attribute ctx i "size" = Ret (Some v))
  /\ (exists v, topology_device_get_attribute ctx i "type" = Ret (Some v))
  /\ (exists v, topology_device_get_attribute ctx i "level" = Ret (Some v))
  /\ (exists map,
        topology_device_get_attribute ctx i "shared_cpu_map" = Ret (Some map)
        /\ topology_cpumask_parse 0 size map = (0, dev_cpumask d))
  /\ topology_device_cpumask ctx i = Ret (dev_cpumask d)
  /\ (exists t e index, procents ctx !! t = Some e
        /\ ent_level e = TOPOLOGY_THREAD
        /\ CPU_ISSET_S (ent_id e) size (dev_cpumask d) = true
        /\ forall name, name ∈ cache_attrs ->
             topology_device_get_attribute ctx i name
             = Ret (sysfs_get_attr_value fs
                      (index_dir root (ent_id e) index) name)).
Proof.
  intros Hnew Hd.
  pose proof (new_context_inv2 fs _ _ _ Hnew) as [_ _ _ _ Hdevs].
  apply new_context_inv in Hnew as (_ & Hroot & Hsize & _).
  rewrite Hsize, Hroot in *.
  rewrite Forall_lookup in Hdevs.
  destruct (Hdevs i d Hd)
    as (H1 & [v2 H2] & [v3 H3] & [v4 H4] & (map & H5 & H6)
        & t & e & index & He & Hl & Hc & Ha).
  unfold topology_device_get_attribute, topology_device_cpumask, deref_device.
  rewrite Hd. cbn. rewrite H2, H3, H4, H5.
  split; [done|]. do 3 (split; [by eexists|]).
  split; [by exists map|]. split.
  - unfold topo_device_copy_cpumask. rewrite Hsize.
    rewrite memcpy_set_within; [done|].
    replace (dev_cpumask d) with (snd (topology_cpumask_parse 0 size map))
      by (by rewrite H6).
    apply parse_within.
  - exists t, e, index. do 3 (split; [done|]).
    intros name Hn. by rewrite (Ha name Hn).
Qed.

Lemma cache_devices_complete_witness :
  exists ctx d,
    new_context Fixtures.shared_l2 "/sys" 8 = Ret (Some ctx)
    /\ devices ctx !! 1%nat = Some d
    /\ topology_device_get_attribute ctx 1%nat "level" = Ret (Some "2"%string)
    /\ topology_device_cpumask ctx 1%nat = Ret 3
    /\ dev_type d = "cache"%string.
Proof.
  assert (exists ctx d, new_context Fixtures.shared_l2 "/sys" 8 = Ret (Some ctx)
            /\ devices ctx !! 1%nat = Some d
            /\ topology_device_get_attribute ctx 1%nat "level"
               = Ret (Some "2"%string)
            /\ topology_device_cpumask ctx 1%nat = Ret 3)
    as (ctx & d & Hnew & Hd & Hl & Hm).
  { do 2 eexists. split; [vm_compute; reflexivity|].
    split; [vm_compute; reflexivity|]. split; vm_compute; reflexivity. }
  exists ctx, d. do 4 (split; [assumption|]).
  apply (cache_devices_complete Fixtures.shared_l2 "/sys" 8 ctx 1%nat d
           Hnew Hd).
Defined.

(** [topology_init_context] returns 0 with a context and its system
    entity, or 1 without; the system entity is the first entity, of level
    SYSTEM, with id 0 and no parent; the width of the sets of the context
    is the one that was probed, which is not zero. *)
Theorem init_context_system (fs : sysfs) (root : string) (size : Z)
    (rc : Z) (r : option (topo_context * option ptr)) :
  topology_init_context fs root size = Ret (rc, r) ->
  match r with
  | None => rc = 1
  | Some (ctx, sys) =>
      rc = 0 /\ sys = Some 0%nat
      /\ topology_sizeof_cpumask ctx = size /\ size <> 0
      /\ sysfs_root ctx = root
      /\ exists e, procents ctx !! 0%nat = Some e
           /\ ent_level e = TOPOLOGY_SYSTEM /\ ent_id e = 0
           /\ ent_parent e = None
  end.
Proof.
  unfold topology_init_context. intros Hrun.
  apply bind_ret in Hrun as ([ctx|] & Hnew & Hrun);
    [|by injection Hrun as <- <-].
  injection Hrun as <- <-.
  pose proof (new_context_inv2 fs _ _ _ Hnew) as [_ _ _ [_ Hid] _].
  assert (size <> 0) as Hnz.
  { intros ->. by cbn in Hnew. }
  apply new_context_inv in Hnew as (Hinv & Hroot & Hsize & Hsys & e & He & Hl).
  split; [done|]. split; [done|]. split; [done|]. split; [done|].
  split; [done|]. exists e. split; [done|]. split; [done|].
  split; [by apply Hid|].
  destruct Hinv as [[HP _ _ _] _ _ _]. specialize (HP _ _ He).
  destruct (ent_parent e); [lia|done].
Qed.

Lemma init_context_system_witness :
  exists ctx,
    topology_init_context Fixtures.shared_l2 "/sys" 8
    = Ret (0, Some (ctx, Some 0%nat))
    /\ topology_sizeof_cpumask ctx = 8.
Proof.
  assert (exists ctx, topology_init_context Fixtures.shared_l2 "/sys" 8
                      = Ret (0, Some (ctx, Some 0%nat))) as (ctx & Hrun).
  { eexists. vm_compute. reflexivity. }
  exists ctx. split; [exact Hrun|].
  apply (init_context_system Fixtures.shared_l2 "/sys" 8 _ _ Hrun).
Defined.



(** * Traversal of a built context *)

(** ** Towards the root *)

Lemma inv_parent_level h p e :
  inv_parent h -> h !! p = Some e ->
  TOPOLOGY_THREAD <= ent_level e <= TOPOLOGY_SYSTEM.
Proof.
  intros HP He. specialize (HP p e He).
  unfold TOPOLOGY_THREAD, TOPOLOGY_CORE, TOPOLOGY_SYSTEM in *.
  destruct (ent_parent e); [|lia].
  destruct HP as (_ & eq & _ & ? & ?). lia.
Qed.

(** An entity has an ancestor at each level above its own. *)
Lemma ancestor_at_level h (n : nat) : forall f e to,
  inv_parent h -> h !! f = Some e ->
  ent_level e <= to <= TOPOLOGY_SYSTEM -> to - ent_level e = Z.of_nat n ->
  exists a ea, ancestor h f a /\ h !! a = Some ea /\ ent_level ea = to.
Proof.
  induction n as [|n IH]; intros f e to HP He Hto Hn.
  - exists f, e. split; [constructor|]. split; [done|lia].
  - pose proof (HP f e He) as Hp.
    destruct (ent_parent e) as [q|] eqn:Hq; [|lia].
    destruct Hp as (_ & eq & Heq & Hl & _).
    destruct (IH q eq to HP Heq ltac:(lia) ltac:(lia)) as (a & ea & Ha & Hea & Hla).
    exists a, ea. split; [|done]. by econstructor.
Qed.

Lemma traverse_up ctx (n : nat) : forall fuel f e iter to a ea,
  inv_parent (procents ctx) ->
  procents ctx !! f = Some e -> ancestor (procents ctx) f a ->
  procents ctx !! a = Some ea -> ent_level ea = to ->
  to - ent_level e = Z.of_nat (S n) -> (S n <= fuel)%nat ->
  traverse fuel ctx (Some f) iter to = Ret (Some a).
Proof.
  induction n as [|n IH]; intros fuel f e iter to a ea HP He Ha Hea Hla Hn Hf.
  - destruct fuel as [|fuel]; [lia|]. cbn [traverse].
    pose proof (inv_parent_level _ _ _ HP Hea) as Hv.
    unfold level_valid. rewrite Hla in Hv.
    replace (TOPOLOGY_THREAD <=? to) with true by (symmetry; apply Z.leb_le; lia).
    replace (to <=? TOPOLOGY_SYSTEM) with true by (symmetry; apply Z.leb_le; lia).
    cbn [andb negb]. unfold deref. rewrite He. cbn [mbind res_bind].
    replace (to =? ent_level e) with false by (symmetry; apply Z.eqb_neq; lia).
    replace (to =? ent_level e + 1) with true by (symmetry; apply Z.eqb_eq; lia).
    f_equal.
    destruct Ha as [f|f e0 q a He0 Hq Ha].
    { rewrite He in Hea. injection Hea as <-. lia. }
    rewrite He in He0. injection He0 as <-. rewrite Hq. f_equal.
    pose proof (HP f e He) as Hp. rewrite Hq in Hp.
    destruct Hp as (_ & eq & Heq & Hl & _).
    destruct (ancestor_level _ _ _ _ HP Ha Heq) as (ea' & Hea' & _ & Heqa & _).
    rewrite Hea in Hea'. injection Hea' as <-. symmetry. apply Heqa. lia.
  - destruct fuel as [|fuel]; [lia|]. cbn [traverse].
    pose proof (inv_parent_level _ _ _ HP Hea) as Hv.
    unfold level_valid. rewrite Hla in Hv.
    replace (TOPOLOGY_THREAD <=? to) with true by (symmetry; apply Z.leb_le; lia).
    replace (to <=? TOPOLOGY_SYSTEM) with true by (symmetry; apply Z.leb_le; lia).
    cbn [andb negb]. unfold deref. rewrite He. cbn [mbind res_bind].
    replace (to =? ent_level e) with false by (symmetry; apply Z.eqb_neq; lia).
    replace (to =? ent_level e + 1) with false by (symmetry; apply Z.eqb_neq; lia).
    replace (to =? ent_level e - 1) with false by (symmetry; apply Z.eqb_neq; lia).
    replace (ent_level e <? to) with true by (symmetry; apply Z.ltb_lt; lia).
    destruct Ha as [f|f e0 q a He0 Hq Ha].
    { rewrite He in Hea. injection Hea as <-. lia. }
    rewrite He in He0. injection He0 as <-. rewrite Hq.
    pose proof (HP f e He) as Hp. rewrite Hq in Hp.
    destruct Hp as (_ & eq & Heq & Hl & _).
    apply (IH fuel q eq None to a ea); try done; lia.
Qed.

(** From an entity of a built context, [traverse] to a level above it
    returns its ancestor at that level, whatever [iter] is. *)
Theorem traverse_ancestor (fs : sysfs) (root : string) (size : Z)
    (ctx : topo_context) (fuel : nat) (f : ptr) (e : topo_procent)
    (iter : option ptr) (to : Z) :
  new_context fs root size = Ret (Some ctx) ->
  procents ctx !! f = Some e ->
  ent_level e < to <= TOPOLOGY_SYSTEM -> (4 <= fuel)%nat ->
  exists a ea,
    topology_traverse fuel ctx (Some f) iter to = Ret (Some a)
    /\ procents ctx !! a = Some ea /\ ent_level ea = to
    /\ ancestor (procents ctx) f a.
Proof.
  intros Hnew He Hto Hfuel.
  apply new_context_inv in Hnew as ([[HP _ _ _] _ _ _] & _).
  pose proof (inv_parent_level _ _ _ HP He) as Hle.
  destruct (ancestor_at_level (procents ctx) (Z.to_nat (to - ent_level e))
              f e to HP He ltac:(lia) ltac:(lia)) as (a & ea & Ha & Hea & Hla).
  exists a, ea. split; [|done].
  unfold TOPOLOGY_THREAD, TOPOLOGY_SYSTEM in *.
  apply (traverse_up ctx (Z.to_nat (to - ent_level e - 1)) fuel f e iter to a ea);
    try done; lia.
Qed.

Lemma traverse_ancestor_witness :
  exists ctx a ea,
    new_context Fixtures.shared_l2 "/sys" 8 = Ret (Some ctx)
    /\ topology_traverse 4 ctx (Some 4%nat) (Some 6%nat) TOPOLOGY_NODE
       = Ret (Some a)
    /\ procents ctx !! a = Some ea /\ ent_level ea = TOPOLOGY_NODE.
Proof.
  assert (exists ctx e, new_context Fixtures.shared_l2 "/sys" 8 = Ret (Some ctx)
            /\ procents ctx !! 4%nat = Some e
            /\ ent_level e = TOPOLOGY_THREAD)
    as (ctx & e & Hnew & He & Hl).
  { do 2 eexists. split; [vm_compute; reflexivity|].
    split; vm_compute; reflexivity. }
  destruct (traverse_ancestor Fixtures.shared_l2 "/sys" 8 ctx 4 4%nat e
              (Some 6%nat) TOPOLOGY_NODE Hnew He)
    as (a & ea & Ht & Hea & Hla & _);
    [rewrite Hl; vm_compute; split; congruence|lia|].
  exists ctx, a, ea. split; [exact Hnew|]. split; [exact Ht|].
  split; [exact Hea|exact Hla].
Defined.

(** ** Away from the root *)

Lemma all_below_unfold P k :
  all_below P k = match last_below P k with
                  | None => []
                  | Some x => x :: all_below P x
                  end.
Proof. induction k as [|j IH]; [done|]. cbn. by destruct (P j). Qed.

Lemma last_below_lt P k x : last_below P k = Some x -> (x < k)%nat.
Proof.
  induction k as [|j IH]; [done|]. cbn. destruct (P j).
  - intros [= <-]. lia.
  - intros H. apply IH in H. lia.
Qed.

Lemma all_below_elem P k x :
  x ∈ all_below P k <-> (x < k)%nat /\ P x = true.
Proof.
  induction k as [|j IH]; cbn.
  - split; [intros H; by apply elem_of_nil in H|lia].
  - destruct (P j) eqn:E.
    + rewrite elem_of_cons, IH. split.
      * intros [->|[? ?]]; split; (done || lia).
      * intros [Hlt Hx]. destruct (decide (x = j)); [by left|right].
        split; [lia|done].
    + rewrite IH. split.
      * intros [? ?]. split; [lia|done].
      * intros [Hlt Hx]. split; [|done].
        destruct (decide (x = j)) as [->|]; [congruence|lia].
Qed.

Lemma all_below_NoDup P k : NoDup (all_below P k).
Proof.
  induction k as [|j IH]; cbn; [constructor|].
  destruct (P j); [|done]. constructor; [|done].
  rewrite all_below_elem. lia.
Qed.

(** *** [is_descendant] *)

Lemma is_descendant_spec h f (fuel : nat) : forall x ex,
  inv_parent h -> h !! x = Some ex -> (x < fuel)%nat ->
  exists b, is_descendant fuel h f x = Ret b
    /\ (b = true <-> x <> f /\ ancestor h x f).
Proof.
  induction fuel as [|fuel IH]; intros x ex HP Hx Hlt; [lia|].
  cbn [is_descendant]. unfold deref. rewrite Hx. cbn [mbind res_bind].
  pose proof (HP x ex Hx) as Hp.
  destruct (ent_parent ex) as [q|] eqn:Hq.
  - destruct Hp as (Hqx & eq & Heq & _).
    destruct (decide (q = f)) as [->|Hne].
    + exists true. split; [done|]. split; [|done]. intros _.
      split; [lia|]. econstructor; [done|done|constructor].
    + destruct (IH q eq HP Heq ltac:(lia)) as (b & Hb & Hiff).
      exists b. split; [done|]. rewrite Hiff. split.
      * intros [_ Ha]. split.
        -- intros ->.
           destruct (ancestor_level _ _ _ _ HP Ha Heq) as (_ & _ & _ & _ & ?).
           lia.
        -- by econstructor.
      * intros [Hxf Ha]. split; [done|].
        destruct Ha as [x|x e0 q0 a He0 Hq0 Ha]; [done|].
        rewrite Hx in He0. injection He0 as <-. congruence.
  - exists false. split; [done|]. split; [done|].
    intros [Hxf Ha]. destruct Ha as [x|x e0 q0 a He0 Hq0 Ha]; [done|].
    rewrite Hx in He0. injection He0 as <-. congruence.
Qed.

Lemma is_descendant_fuel h f fuel x ex :
  inv_parent h -> h !! x = Some ex -> (x < fuel)%nat ->
  is_descendant fuel h f x
  = Ret (match is_descendant (S x) h f x with Ret b => b | _ => false end).
Proof.
  intros HP Hx Hlt.
  destruct (is_descendant_spec h f fuel x ex HP Hx Hlt) as (b & Hb & Hiff).
  destruct (is_descendant_spec h f (S x) x ex HP Hx ltac:(lia))
    as (b' & Hb' & Hiff').
  rewrite Hb, Hb'. f_equal.
  destruct b, b'; try done.
  - symmetry. by apply Hiff', Hiff.
  - by apply Hiff, Hiff'.
Qed.

Lemma below_b_spec h f to x :
  inv_parent h ->
  below_b h f to x = true
  <-> exists ex, h !! x = Some ex /\ ent_level ex = to
        /\ x <> f /\ ancestor h x f.
Proof.
  intros HP. unfold below_b. destruct (h !! x) as [ex|] eqn:Hx.
  - destruct (is_descendant_spec h f (S x) x ex HP Hx ltac:(lia))
      as (b & Hb & Hiff).
    rewrite Hb, andb_true_iff, Z.eqb_eq, Hiff. split.
    + intros (? & ? & ?). by exists ex.
    + intros (ex' & [= <-] & ? & ? & ?). done.
  - split; [done|]. by intros (ex & ? & _).
Qed.

(** *** [next_at_level] *)

Lemma next_at_level_loop_spec h f to (k : nat) : forall fuel,
  inv_parent h ->
  (forall i e, h !! i = Some e -> ent_next e = prev_index i) ->
  (k <= List.length h)%nat -> (k < fuel)%nat ->
  next_at_level_loop fuel h f (prev_index k) to
  = Ret (last_below (below_b h f to) k).
Proof.
  induction k as [|j IH]; intros fuel HP Hn Hk Hf.
  - destruct fuel; [lia|]. done.
  - destruct fuel as [|fuel]; [lia|].
    cbn [next_at_level_loop prev_index last_below].
    destruct (lookup_lt_is_Some_2 h j ltac:(lia)) as [e He].
    unfold deref. rewrite He. cbn [mbind res_bind].
    rewrite (Hn j e He). unfold below_b at 1. rewrite He.
    destruct (Z.eqb_spec (ent_level e) to) as [Hl|Hl]; cbn [andb].
    + rewrite (is_descendant_fuel h f fuel j e HP He ltac:(lia)).
      cbn [mbind res_bind].
      destruct (match is_descendant (S j) h f j with Ret b => b | _ => false end);
        [done|].
      apply IH; (done || lia).
    + apply IH; (done || lia).
Qed.

Lemma traverse_down ctx fuel f e iter to :
  inv_parent (procents ctx) -> next_ok (procents ctx) (ctx_list ctx) ->
  procents ctx !! f = Some e ->
  TOPOLOGY_THREAD <= to < ent_level e - 1 ->
  match iter with
  | Some i => is_Some (procents ctx !! i)
  | None => True
  end ->
  (List.length (procents ctx) + 1 < fuel)%nat ->
  traverse fuel ctx (Some f) iter to
  = Ret (last_below (below_b (procents ctx) f to)
           (scan_from (procents ctx) iter)).
Proof.
  intros HP [Hlst Hn] He Hto Hiter Hfuel.
  destruct fuel as [|fuel]; [lia|]. cbn [traverse].
  pose proof (inv_parent_level _ _ _ HP He) as Hle.
  unfold level_valid.
  replace (TOPOLOGY_THREAD <=? to) with true by (symmetry; apply Z.leb_le; lia).
  replace (to <=? TOPOLOGY_SYSTEM) with true by (symmetry; apply Z.leb_le; lia).
  cbn [andb negb]. unfold deref. rewrite He. cbn [mbind res_bind].
  replace (to =? ent_level e) with false by (symmetry; apply Z.eqb_neq; lia).
  replace (to =? ent_level e + 1) with false by (symmetry; apply Z.eqb_neq; lia).
  replace (to =? ent_level e - 1) with false by (symmetry; apply Z.eqb_neq; lia).
  replace (ent_level e <? to) with false by (symmetry; apply Z.ltb_ge; lia).
  replace (to <? ent_level e) with true by (symmetry; apply Z.ltb_lt; lia).
  unfold next_at_level. destruct iter as [i|]; cbn [scan_from].
  - destruct Hiter as [ie Hie]. unfold deref. rewrite Hie.
    cbn [mbind res_bind]. rewrite (Hn i ie Hie).
    apply lookup_lt_Some in Hie.
    apply next_at_level_loop_spec; (done || lia).
  - cbn [mbind res_bind]. rewrite Hlst.
    apply next_at_level_loop_spec; (done || lia).
Qed.

Lemma visits_all_below ctx fuel f e to :
  inv_parent (procents ctx) -> next_ok (procents ctx) (ctx_list ctx) ->
  procents ctx !! f = Some e ->
  TOPOLOGY_THREAD <= to < ent_level e - 1 ->
  (List.length (procents ctx) + 1 < fuel)%nat ->
  forall (k : nat) iter,
    scan_from (procents ctx) iter = k ->
    match iter with
    | Some i => is_Some (procents ctx !! i)
    | None => True
    end ->
    visits fuel ctx (Some f) to iter
      (all_below (below_b (procents ctx) f to) k).
Proof.
  intros HP Hnext He Hto Hfuel k.
  induction k as [k IH] using lt_wf_ind. intros iter Hk Hiter.
  pose proof (traverse_down ctx fuel f e iter to HP Hnext He Hto Hiter Hfuel)
    as Ht.
  rewrite Hk in Ht. rewrite all_below_unfold.
  destruct (last_below _ k) as [x|] eqn:Hx.
  - pose proof (last_below_lt _ _ _ Hx) as Hxk.
    apply visits_cons; [done|]. apply (IH x Hxk); [done|].
    apply lookup_lt_is_Some_2.
    destruct iter as [i|]; cbn in Hk.
    + destruct Hiter as [ie Hie]. apply lookup_lt_Some in Hie. lia.
    + lia.
  - by apply visits_nil.
Qed.

(** The children of an entity, through [children] and [sibling]. *)
Lemma visits_chain ctx fuel f e to :
  inv_parent (procents ctx) ->
  procents ctx !! f = Some e ->
  to = ent_level e - 1 -> TOPOLOGY_THREAD <= to -> (1 <= fuel)%nat ->
  forall o l, chain (procents ctx) o l ->
  forall iter,
    match iter with
    | Some i => exists ie, procents ctx !! i = Some ie /\ ent_sibling ie = o
    | None => ent_children e = o
    end ->
    visits fuel ctx (Some f) to iter l.
Proof.
  intros HP He Hto Hthr Hfuel.
  assert (Htr : forall iter,
            traverse fuel ctx (Some f) iter to
            = match iter with
              | Some i => ie ← deref (procents ctx) i; Ret (ent_sibling ie)
              | None => Ret (ent_children e)
              end).
  { intros iter. destruct fuel as [|fuel]; [lia|]. cbn [traverse].
    pose proof (inv_parent_level _ _ _ HP He) as Hle.
    unfold level_valid.
    replace (TOPOLOGY_THREAD <=? to) with true by (symmetry; apply Z.leb_le; lia).
    replace (to <=? TOPOLOGY_SYSTEM) with true by (symmetry; apply Z.leb_le; lia).
    cbn [andb negb]. unfold deref. rewrite He. cbn [mbind res_bind].
    replace (to =? ent_level e) with false by (symmetry; apply Z.eqb_neq; lia).
    replace (to =? ent_level e + 1) with false by (symmetry; apply Z.eqb_neq; lia).
    replace (to =? ent_level e - 1) with true by (symmetry; apply Z.eqb_eq; lia).
    done. }
  induction 1 as [|p ep l Hp Hc IH]; intros iter Hiter.
  - apply visits_nil. unfold topology_traverse. rewrite Htr.
    destruct iter as [i|]; [|by rewrite Hiter].
    destruct Hiter as (ie & Hie & Hs). unfold deref. rewrite Hie. cbn.
    by rewrite Hs.
  - apply visits_cons.
    + unfold topology_traverse. rewrite Htr.
      destruct iter as [i|]; [|by rewrite Hiter].
      destruct Hiter as (ie & Hie & Hs). unfold deref. rewrite Hie. cbn.
      by rewrite Hs.
    + apply IH. by exists ep.
Qed.

Lemma chain_NoDup h o l : chain h o l -> NoDup l.
Proof.
  induction 1 as [|p e l He Hc IH]; constructor; [|done].
  intros Hin. apply list_elem_of_split in Hin as (l1 & l2 & ->).
  assert (chain h (Some p) (p :: l2)) as Hc2.
  { clear -Hc. revert Hc.
    generalize (ent_sibling e). induction l1 as [|x l1 IHl]; intros o Hc.
    - cbn in Hc. by inversion Hc; subst.
    - cbn in Hc. inversion Hc; subst. by eapply IHl. }
  assert (chain h (Some p) (p :: l1 ++ p :: l2)) as Hc1 by (by econstructor).
  pose proof (chain_fun _ _ _ _ Hc1 Hc2) as Heq.
  apply (f_equal (@List.length _)) in Heq.
  rewrite !length_cons, length_app, length_cons in Heq. lia.
Qed.

(** What the loop visits, for any level below that of [f]. *)
Lemma visits_exists ctx fuel f e to :
  heap_inv (procents ctx) -> next_ok (procents ctx) (ctx_list ctx) ->
  procents ctx !! f = Some e ->
  TOPOLOGY_THREAD <= to < ent_level e ->
  (List.length (procents ctx) + 1 < fuel)%nat ->
  exists l,
    visits fuel ctx (Some f) to None l /\ NoDup l
    /\ forall x, x ∈ l <->
         exists ex, procents ctx !! x = Some ex /\ ent_level ex = to
           /\ ancestor (procents ctx) x f.
Proof.
  intros [HP HC _ _] Hnext He Hto Hfuel.
  destruct (Z.eq_dec to (ent_level e - 1)) as [Hc|Hc].
  - destruct (HC f e He) as (l & Hl & Hmem).
    exists l. split; [|split].
    + eapply (visits_chain ctx fuel f e to); try done; lia.
    + by eapply chain_NoDup.
    + intros x. rewrite Hmem. split.
      * intros (ex & Hx & Hp). exists ex. split; [done|].
        pose proof (HP x ex Hx) as Hpx. rewrite Hp in Hpx.
        destruct Hpx as (_ & eq & Heq & Hlx & _).
        rewrite He in Heq. injection Heq as <-.
        split; [lia|]. econstructor; [done|done|constructor].
      * intros (ex & Hx & Hlx & Ha). exists ex. split; [done|].
        destruct Ha as [x|x e0 q a He0 Hq Ha].
        { rewrite He in Hx. injection Hx as <-. lia. }
        rewrite Hx in He0. injection He0 as <-. rewrite Hq. f_equal.
        pose proof (HP x ex Hx) as Hpx. rewrite Hq in Hpx.
        destruct Hpx as (_ & eq & Heq & Hlq & _).
        destruct (ancestor_level _ _ _ _ HP Ha Heq) as (ea & Hea & _ & Hsame & _).
        rewrite He in Hea. injection Hea as <-. symmetry. apply Hsame. lia.
  - exists (all_below (below_b (procents ctx) f to) (List.length (procents ctx))).
    split; [|split].
    + eapply (visits_all_below ctx fuel f e to); try done. lia.
    + apply all_below_NoDup.
    + intros x. rewrite all_below_elem, below_b_spec by done. split.
      * intros (_ & ex & Hx & Hlx & _ & Ha). by exists ex.
      * intros (ex & Hx & Hlx & Ha). split; [by eapply lookup_lt_Some|].
        exists ex. do 2 (split; [done|]). split; [|done].
        intros ->. rewrite He in Hx. injection Hx as <-. lia.
Qed.

(** ** The loops over [topology_traverse] *)

(** In a built context, the loop
    [while ((ent = topology_traverse(f, ent, to)))] started with NULL
    visits, once each, exactly the entities of level [to] below [f], for
    every level [to] below that of [f]; from each of them [traverse] to
    the level of [f] leads back to [f]. *)
Theorem traverse_enumerates (fs : sysfs) (root : string) (size : Z)
    (ctx : topo_context) (fuel : nat) (f : ptr) (e : topo_procent) (to : Z) :
  new_context fs root size = Ret (Some ctx) ->
  procents ctx !! f = Some e ->
  TOPOLOGY_THREAD <= to < ent_level e ->
  (List.length (procents ctx) + 1 < fuel)%nat ->
  exists l,
    visits fuel ctx (Some f) to None l /\ NoDup l
    /\ (forall x, x ∈ l <->
          exists ex, procents ctx !! x = Some ex /\ ent_level ex = to
            /\ ancestor (procents ctx) x f)
    /\ (forall x iter, x ∈ l ->
          topology_traverse fuel ctx (Some x) iter (ent_level e)
          = Ret (Some f)).
Proof.
  intros Hnew He Hto Hfuel.
  pose proof (new_context_inv2 fs _ _ _ Hnew) as [Hnext _ _ _ _].
  apply new_context_inv in Hnew as ([Hheap _ _ _] & _).
  destruct (visits_exists ctx fuel f e to Hheap Hnext He Hto Hfuel)
    as (l & Hv & Hnd & Hmem).
  exists l. do 3 (split; [done|]).
  intros x iter (ex & Hx & Hlx & Ha)%Hmem.
  destruct Hheap as [HP _ _ _].
  pose proof (inv_parent_level _ _ _ HP He) as Hle.
  assert (x <> f) as Hxf by (intros ->; simplify_eq; lia).
  apply lookup_lt_Some in Hx as Hx1. apply lookup_lt_Some in He as He1.
  unfold TOPOLOGY_THREAD, TOPOLOGY_SYSTEM in *.
  apply (traverse_up ctx (Z.to_nat (ent_level e - ent_level ex - 1)) fuel
           x ex iter (ent_level e) f e); try done; lia.
Qed.

Lemma traverse_enumerates_witness :
  exists ctx l,
    new_context Fixtures.shared_l2 "/sys" 8 = Ret (Some ctx)
    /\ visits 9 ctx (Some 0%nat) TOPOLOGY_THREAD None l /\ NoDup l.
Proof.
  assert (exists ctx e, new_context Fixtures.shared_l2 "/sys" 8 = Ret (Some ctx)
            /\ procents ctx !! 0%nat = Some e
            /\ ent_level e = TOPOLOGY_SYSTEM
            /\ List.length (procents ctx) = 7%nat)
    as (ctx & e & Hnew & He & Hl & Hlen).
  { do 2 eexists. split; [vm_compute; reflexivity|].
    split; [vm_compute; reflexivity|]. split; vm_compute; reflexivity. }
  destruct (traverse_enumerates Fixtures.shared_l2 "/sys" 8 ctx 9 0%nat e
              TOPOLOGY_THREAD Hnew He)
    as (l & Hv & Hnd & _);
    [rewrite Hl; vm_compute; split; congruence|rewrite Hlen; lia|].
  exists ctx, l. split; [exact Hnew|]. split; [exact Hv|exact Hnd].
Defined.

(** *** Counting *)

Lemma count_ents_loop_visits fuel ctx top level : forall ent l,
  visits fuel ctx top level ent l ->
  forall (n : nat) count,
    (List.length l < n)%nat ->
    0 <= count -> count + Z.of_nat (List.length l) < 2^64 ->
    count_ents_loop n fuel ctx top ent level count
    = Ret (count + Z.of_nat (List.length l)).
Proof.
  induction 1 as [ent Ht|ent e l Ht Hv IH]; intros n count Hn Hc Hmax.
  - destruct n as [|n]; [cbn in Hn; lia|]. cbn [count_ents_loop].
    rewrite Ht. cbn. f_equal. lia.
  - destruct n as [|n]; [cbn in Hn; lia|]. cbn [count_ents_loop].
    rewrite Ht. cbn [mbind res_bind]. cbn [List.length] in *.
    rewrite to_size_t_small by lia.
    rewrite IH by lia. f_equal. lia.
Qed.

Lemma all_below_ext P Q k :
  (forall x, (x < k)%nat -> P x = Q x) -> all_below P k = all_below Q k.
Proof.
  induction k as [|j IH]; intros H; [done|]. cbn.
  rewrite (H j) by lia. rewrite IH; [done|]. intros x Hx. apply H. lia.
Qed.

Lemma all_below_filter (pb : topo_procent -> bool) h :
  List.length
    (all_below (fun x => match h !! x with Some e => pb e | None => false end)
       (List.length h))
  = List.length (List.filter pb h).
Proof.
  induction h as [|a h IH] using rev_ind; [done|].
  rewrite length_app, List.filter_app, length_app. cbn [List.length].
  rewrite Nat.add_1_r. cbn [all_below].
  rewrite lookup_app_r by lia. rewrite Nat.sub_diag. cbn [lookup list_lookup].
  rewrite (all_below_ext _
             (fun x => match h !! x with Some e => pb e | None => false end)).
  2: { intros x Hx. by rewrite lookup_app_l. }
  cbn [List.filter]. destruct (pb a); cbn [List.length]; lia.
Qed.

Lemma NoDup_same_length {A} (l1 l2 : list A) :
  NoDup l1 -> NoDup l2 -> (forall x, x ∈ l1 <-> x ∈ l2) ->
  List.length l1 = List.length l2.
Proof.
  intros H1 H2 H. apply Permutation_length. by apply NoDup_Permutation.
Qed.

(** Every entity is below the system entity. *)
Lemma below_system h (n : nat) : forall x,
  inv_parent h -> root_only h -> (x < n)%nat -> is_Some (h !! x) ->
  ancestor h x 0%nat.
Proof.
  induction n as [|n IH]; intros x HP Hroot Hlt [ex Hx]; [lia|].
  pose proof Hroot as [Hr _].
  pose proof (HP x ex Hx) as Hp.
  destruct (ent_parent ex) as [q|] eqn:Hq.
  - destruct Hp as (Hqx & eq & Heq & _).
    econstructor; [done|done|]. apply IH; [done|done|lia|by eexists].
  - rewrite (Hr x ex Hx Hq). constructor.
Qed.

(** [count_ents_at_level] from the system entity of a built context
    returns the number of entities of the context at that level. *)
Theorem count_ents_at_level_system (fs : sysfs) (root : string) (size : Z)
    (ctx : topo_context) (n fuel : nat) (to : Z) :
  new_context fs root size = Ret (Some ctx) ->
  TOPOLOGY_THREAD <= to < TOPOLOGY_SYSTEM ->
  (List.length (procents ctx) < n)%nat ->
  (List.length (procents ctx) + 1 < fuel)%nat ->
  Z.of_nat (List.length (procents ctx)) < 2^64 ->
  count_ents_at_level n fuel ctx (Some 0%nat) to
  = Ret (Z.of_nat
           (List.length
              (List.filter (fun e => ent_level e =? to) (procents ctx)))).
Proof.
  intros Hnew Hto Hn Hfuel Hmax.
  pose proof (new_context_inv2 fs _ _ _ Hnew) as [Hnext _ _ Hroot _].
  apply new_context_inv in Hnew as ([Hheap _ _ _] & _ & _ & _ & e & He & Hl).
  destruct (visits_exists ctx fuel 0%nat e to Hheap Hnext He ltac:(lia) Hfuel)
    as (l & Hv & Hnd & Hmem).
  pose proof Hheap as [HP _ _ _].
  set (P := fun x => match procents ctx !! x with
                     | Some e => ent_level e =? to
                     | None => false
                     end).
  assert (List.length l
          = List.length (all_below P (List.length (procents ctx)))) as Hlen.
  { apply NoDup_same_length; [done|apply all_below_NoDup|].
    intros x. rewrite Hmem, all_below_elem. unfold P. split.
    - intros (ex & Hx & Hlx & _). split; [by eapply lookup_lt_Some|].
      rewrite Hx. by apply Z.eqb_eq.
    - intros [Hlt HPx]. destruct (procents ctx !! x) as [ex|] eqn:Hx; [|done].
      exists ex. split; [done|]. split; [by apply Z.eqb_eq|].
      apply (below_system _ (S x)); [done|done|lia|by eexists]. }
  unfold P in Hlen. rewrite all_below_filter in Hlen.
  rewrite <- Hlen.
  assert (List.length l <= List.length (procents ctx))%nat as Hll.
  { rewrite Hlen. apply filter_length_le. }
  unfold count_ents_at_level.
  rewrite (count_ents_loop_visits _ _ _ _ _ _ Hv); [done|lia|lia|lia].
Qed.

Lemma count_ents_at_level_system_witness :
  exists ctx,
    new_context Fixtures.shared_l2 "/sys" 8 = Ret (Some ctx)
    /\ count_ents_at_level 8 9 ctx (Some 0%nat) TOPOLOGY_CORE = Ret 2.
Proof.
  assert (exists ctx, new_context Fixtures.shared_l2 "/sys" 8 = Ret (Some ctx)
            /\ List.length (procents ctx) = 7%nat
            /\ List.length (List.filter (fun e => ent_level e =? TOPOLOGY_CORE)
                              (procents ctx)) = 2%nat)
    as (ctx & Hnew & Hlen & Hcnt).
  { eexists. split; [vm_compute; reflexivity|].
    split; vm_compute; reflexivity. }
  exists ctx. split; [exact Hnew|].
  rewrite (count_ents_at_level_system Fixtures.shared_l2 "/sys" 8 ctx 8 9
             TOPOLOGY_CORE Hnew);
    [by rewrite Hcnt|vm_compute; split; congruence|rewrite Hlen; lia..].
Defined.

(** *** Printing *)

Lemma do_procents_loop_visits fuel ctx top size level commas :
  forall ent l,
  visits fuel ctx top level ent l ->
  (forall x, x ∈ l -> exists ex, procents ctx !! x = Some ex
                        /\ within (cpu_set_t_size ctx) (ent_cpumask ex)) ->
  forall (n : nat), (List.length l < n)%nat ->
    do_procents_loop n fuel ctx top ent size level commas
    = Ret (map (fun x => format_cpuset (mask_of (procents ctx) x) size commas)
             l).
Proof.
  induction 1 as [ent Ht|ent e l Ht Hv IH]; intros Hall n Hn.
  - destruct n as [|n]; [cbn in Hn; lia|]. cbn [do_procents_loop].
    by rewrite Ht.
  - destruct n as [|n]; [cbn in Hn; lia|]. cbn [do_procents_loop].
    rewrite Ht. cbn [mbind res_bind].
    destruct (Hall e ltac:(by left)) as (ex & Hex & Hw).
    unfold topology_procent_cpumask, deref. rewrite Hex.
    cbn [mbind res_bind]. unfold topo_procent_copy_cpumask.
    rewrite memcpy_set_within by done.
    rewrite IH; [|intros x Hx; apply Hall; by right|cbn in Hn; lia].
    cbn. unfold mask_of. by rewrite Hex.
Qed.

(** The lines printed by [do_procents] for a level, from the system
    entity: one line for each entity of that level, with the text of its
    CPU set. *)
Theorem do_procents_lines (fs : sysfs) (root : string) (size : Z)
    (ctx : topo_context) (n fuel : nat) (level commas : Z) :
  new_context fs root size = Ret (Some ctx) ->
  TOPOLOGY_THREAD <= level < TOPOLOGY_SYSTEM ->
  (List.length (procents ctx) < n)%nat ->
  (List.length (procents ctx) + 1 < fuel)%nat ->
  exists l,
    do_procents n fuel ctx (Some 0%nat) (topology_sizeof_cpumask ctx)
      level commas
    = Ret (map (fun x => format_cpuset (mask_of (procents ctx) x) size commas)
             l)
    /\ NoDup l
    /\ forall x, x ∈ l <->
         exists ex, procents ctx !! x = Some ex /\ ent_level ex = level.
Proof.
  intros Hnew Hto Hn Hfuel.
  pose proof (new_context_inv2 fs _ _ _ Hnew) as [Hnext Hm _ Hroot _].
  apply new_context_inv in Hnew
    as ([Hheap _ _ _] & _ & Hsize & _ & e & He & Hl).
  destruct (visits_exists ctx fuel 0%nat e level Hheap Hnext He ltac:(lia) Hfuel)
    as (l & Hv & Hnd & Hmem).
  pose proof Hheap as [HP _ _ _].
  assert (Hmem' : forall x, x ∈ l <->
            exists ex, procents ctx !! x = Some ex /\ ent_level ex = level).
  { intros x. rewrite Hmem. split.
    - intros (ex & ? & ? & _). by exists ex.
    - intros (ex & Hx & Hlx). exists ex. do 2 (split; [done|]).
      apply (below_system _ (S x)); [done|done|lia|by eexists]. }
  exists l. split; [|done].
  unfold do_procents, topology_sizeof_cpumask. rewrite Hsize.
  apply do_procents_loop_visits; [done| |].
  - intros x (ex & Hx & _)%Hmem'. exists ex. split; [done|].
    by eapply Hm.
  - assert (List.length l <= List.length (procents ctx))%nat; [|lia].
    clear -Hnd Hmem'.
    assert (l ⊆ seq 0 (List.length (procents ctx))) as Hsub.
    { intros x (ex & Hx & _)%Hmem'. apply elem_of_seq.
      apply lookup_lt_Some in Hx. lia. }
    pose proof (NoDup_submseteq l (seq 0 (List.length (procents ctx))) Hnd
                  ltac:(intros x Hx; by apply Hsub)) as Hs.
    apply submseteq_length in Hs. by rewrite length_seq in Hs.
Qed.

Lemma do_procents_lines_witness :
  exists ctx,
    new_context Fixtures.shared_l2 "/sys" 8 = Ret (Some ctx)
    /\ exists l, do_procents 8 9 ctx (Some 0%nat) (topology_sizeof_cpumask ctx)
                   TOPOLOGY_CORE 0
                 = Ret (map (fun x => format_cpuset (mask_of (procents ctx) x)
                                        8 0) l)
         /\ NoDup l.
Proof.
  assert (exists ctx, new_context Fixtures.shared_l2 "/sys" 8 = Ret (Some ctx)
            /\ List.length (procents ctx) = 7%nat)
    as (ctx & Hnew & Hlen).
  { eexists. split; vm_compute; reflexivity. }
  exists ctx. split; [exact Hnew|].
  destruct (do_procents_lines Fixtures.shared_l2 "/sys" 8 ctx 8 9
              TOPOLOGY_CORE 0 Hnew)
    as (l & Hrun & Hnd & _);
    [vm_compute; split; congruence|rewrite Hlen; lia..|].
  exists l. split; [exact Hrun|exact Hnd].
Defined.

(** ** Probing the size of the sets *)

Lemma max_cpu_id_loop_ge entries : forall m, m <= max_cpu_id_loop entries m.
Proof.
  induction entries as [|d rest IH]; intros m; cbn [max_cpu_id_loop]; [lia|].
  destruct (negb (is_dir_or_unknown (d_type_of d))); [apply IH|].
  destruct (sscanf_d (d_name d) "cpu") as [id|]; [|apply IH].
  destruct (Z.ltb_spec m id).
  - specialize (IH id). lia.
  - apply IH.
Qed.

Lemma max_cpu_id_loop_covers entries : forall m dirent id,
  dirent ∈ entries -> is_dir_or_unknown (d_type_of dirent) = true ->
  sscanf_d (d_name dirent) "cpu" = Some id ->
  id <= max_cpu_id_loop entries m.
Proof.
  induction entries as [|d rest IH]; intros m dirent id Hin Hd Hs.
  - by apply elem_of_nil in Hin.
  - cbn [max_cpu_id_loop]. apply elem_of_cons in Hin as [<-|Hin].
    + rewrite Hd, Hs. cbn [negb].
      destruct (Z.ltb_spec m id).
      * apply max_cpu_id_loop_ge.
      * pose proof (max_cpu_id_loop_ge rest m). lia.
    + destruct (negb (is_dir_or_unknown (d_type_of d))); [by eapply IH|].
      destruct (sscanf_d (d_name d) "cpu"); by eapply IH.
Qed.

Lemma CPU_ALLOC_SIZE_covers c :
  0 <= c <= INT_MAX -> c <= 8 * CPU_ALLOC_SIZE c.
Proof.
  intros Hc. unfold CPU_ALLOC_SIZE, INT_MAX in *.
  rewrite (to_size_t_small c) by lia.
  rewrite (to_size_t_small (c + 63)) by lia.
  assert (0 <= (c + 63) / 64 <= c + 63).
  { split; [apply Z.div_pos; lia|].
    apply Z.div_le_upper_bound; lia. }
  rewrite to_size_t_small by lia.
  pose proof (Z.mod_pos_bound (c + 63) 64 ltac:(lia)).
  pose proof (Z.div_mod (c + 63) 64 ltac:(lia)). lia.
Qed.

Lemma sched_size_range (j : nat) :
  (j <= 60)%nat -> 0 < 8 * 2 ^ Z.of_nat j <= 2 ^ 63.
Proof.
  intros Hj.
  pose proof (Z.pow_pos_nonneg 2 (Z.of_nat j) ltac:(lia) ltac:(lia)) as Hp.
  pose proof (Z.pow_le_mono_r 2 (Z.of_nat j) 60 ltac:(lia) ltac:(lia)) as Hle.
  change (2 ^ 60) with 1152921504606846976 in Hle.
  change (2 ^ 63) with 9223372036854775808. lia.
Qed.

(** The loop of [sched_probe_cpumask_size] returns the first size of the
    sequence 8, 16, 32, ... that the kernel accepts. *)
Lemma sched_probe_loop_spec g (k : nat) : forall (fuel j : nat),
  (j <= k)%nat -> (k <= 60)%nat -> (k - j < fuel)%nat ->
  g (8 * 2 ^ Z.of_nat k) = 0 ->
  (forall i : nat, (i < k)%nat -> g (8 * 2 ^ Z.of_nat i) <> 0) ->
  sched_probe_loop fuel g (8 * 2 ^ Z.of_nat j) (g (8 * 2 ^ Z.of_nat j))
  = Ret (8 * 2 ^ Z.of_nat k).
Proof.
  induction fuel as [|fuel IH]; intros j Hj Hk Hf Hok Hrej; [lia|].
  cbn [sched_probe_loop].
  destruct (Z.eqb_spec (g (8 * 2 ^ Z.of_nat j)) 0) as [E|E].
  - destruct (decide (j = k)) as [->|Hne]; [done|].
    exfalso. apply (Hrej j); [lia|done].
  - assert (j <> k) as Hne by (intros ->; done).
    assert (to_size_t (8 * 2 ^ Z.of_nat j * 2) = 8 * 2 ^ Z.of_nat (S j)) as ->.
    { rewrite Nat2Z.inj_succ, Z.pow_succ_r by lia.
      pose proof (sched_size_range (S j) ltac:(lia)) as Hr.
      rewrite Nat2Z.inj_succ, Z.pow_succ_r in Hr by lia.
      rewrite to_size_t_small;
        [lia|change (2 ^ 64) with 18446744073709551616;
             change (2 ^ 63) with 9223372036854775808 in Hr; lia]. }
    apply IH; [lia|done|lia|done|done].
Qed.

(** When the kernel accepts a buffer of [8 * 2^k] bytes and none of the
    smaller sizes that the probe tries, [probe_cpumask_size] returns,
    after [k] rounds of its loop.  Without the override it gives 0 or the
    size the kernel accepted; a size other than 0 is never below that of
    the kernel and has room for every [cpuN] directory of sysfs (the
    largest [N] being below [INT_MAX]). *)
Theorem probe_cpumask_size_covers (fs : sysfs) (sysfs : string)
    (fuel : nat) (sched_getaffinity : Z -> Z) (override : bool) (k : nat) :
  (k <= 60)%nat -> (k < fuel)%nat ->
  sched_getaffinity (8 * 2 ^ Z.of_nat k) = 0 ->
  (forall i : nat, (i < k)%nat ->
     sched_getaffinity (8 * 2 ^ Z.of_nat i) <> 0) ->
  sched_probe_cpumask_size fuel sched_getaffinity
  = Ret (8 * 2 ^ Z.of_nat k)
  /\ exists r,
       probe_cpumask_size fs sysfs fuel sched_getaffinity override = Ret r
       /\ (override = false -> r = 0 \/ r = 8 * 2 ^ Z.of_nat k)
       /\ (r <> 0 ->
           8 * 2 ^ Z.of_nat k <= r
           /\ forall entries dirent id,
                opendir fs (sysfs +:+ "/devices/system/cpu") = Some entries ->
                max_cpu_id_loop entries 0 < INT_MAX ->
                dirent ∈ entries ->
                is_dir_or_unknown (d_type_of dirent) = true ->
                sscanf_d (d_name dirent) "cpu" = Some id ->
                id < 8 * r).
Proof.
  intros Hk Hfuel Hok Hrej.
  assert (Hsched : sched_probe_cpumask_size fuel sched_getaffinity
                   = Ret (8 * 2 ^ Z.of_nat k)).
  { unfold sched_probe_cpumask_size.
    change (CPU_ALLOC_SIZE 1) with (8 * 2 ^ Z.of_nat 0).
    apply sched_probe_loop_spec; [lia|done|lia|done|done]. }
  split; [exact Hsched|].
  pose proof (sched_size_range k Hk) as Hs.
  set (sched_size := 8 * 2 ^ Z.of_nat k) in *. clearbody sched_size.
  unfold probe_cpumask_size. rewrite Hsched.
  change (CPU_ALLOC_SIZE (CPU_SETSIZE + 1) =? sizeof_cpu_set_t) with false.
  cbv iota. cbn [mbind res_bind].
  destruct (Z.eqb_spec sched_size 0) as [->|Hne]; [lia|].
  unfold sysfs_probe_cpumask_size.
  change (sizeof_cpu_set_t <? CPU_ALLOC_SIZE (CPU_SETSIZE + 1)) with true.
  cbn [assert mbind res_bind].
  destruct (opendir fs (sysfs +:+ "/devices/system/cpu")) as [entries|] eqn:Ho.
  - cbn [mbind res_bind].
    set (sz := CPU_ALLOC_SIZE (wrap_int (max_cpu_id_loop entries 0 + 1))).
    assert (Hcov : forall dirent id,
              max_cpu_id_loop entries 0 < INT_MAX ->
              dirent ∈ entries ->
              is_dir_or_unknown (d_type_of dirent) = true ->
              sscanf_d (d_name dirent) "cpu" = Some id -> id < 8 * sz).
    { intros dirent id Hmax Hin Hd Hsc.
      pose proof (max_cpu_id_loop_covers entries 0 dirent id Hin Hd Hsc).
      pose proof (max_cpu_id_loop_ge entries 0).
      unfold sz. rewrite wrap_int_small by (unfold INT_MAX in *; lia).
      pose proof (CPU_ALLOC_SIZE_covers (max_cpu_id_loop entries 0 + 1)
                    ltac:(unfold INT_MAX in *; lia)).
      lia. }
    clearbody sz.
    destruct (Z.ltb_spec sched_size sz) as [Hlt|Hge].
    + destruct override; cbn [negb].
      * exists sz. split; [done|]. split; [done|]. intros _.
        split; [lia|]. intros es dirent id [= <-]. apply Hcov.
      * exists 0. split; [done|]. split; [by left|done].
    + exists sched_size. split; [done|]. split; [by right|]. intros _.
      split; [lia|]. intros es dirent id [= <-] Hmax Hin Hd Hsc.
      specialize (Hcov dirent id Hmax Hin Hd Hsc). lia.
  - cbn [mbind res_bind].
    destruct (Z.ltb_spec sched_size 0); [lia|].
    exists sched_size. split; [done|]. split; [by right|]. intros _.
    split; [lia|]. intros es dirent id [=].
Qed.

Lemma probe_cpumask_size_covers_witness :
  sched_probe_cpumask_size 5 (fun size => if size <? 32 then -1 else 0)
  = Ret 32
  /\ probe_cpumask_size Fixtures.shared_l2 "/sys" 5
       (fun size => if size <? 32 then -1 else 0) false = Ret 32.
Proof.
  destruct (probe_cpumask_size_covers Fixtures.shared_l2 "/sys" 5
              (fun size => if size <? 32 then -1 else 0) false 2)
    as (Hs & r & Hr & _); [lia|lia|reflexivity| |].
  - intros i Hi. destruct i as [|[|i]]; [done|done|lia].
  - split; [exact Hs|reflexivity].
Defined.

(** ** Iterating over the devices *)

Lemma find_device_loop_spec devs type : forall l i,
  l = drop i devs ->
  match find_device_loop l i type with
  | None => List.filter (has_type devs type) (seq i (List.length l)) = []
  | Some j =>
      (i <= j < i + List.length l)%nat
      /\ List.filter (has_type devs type) (seq i (List.length l))
         = j :: List.filter (has_type devs type)
                  (seq (S j) (i + List.length l - S j))
  end.
Proof.
  induction l as [|d rest IH]; intros i Hl; [done|].
  assert (devs !! i = Some d) as Hd.
  { pose proof (f_equal (fun l => l !! 0%nat) Hl) as H. cbn beta in H.
    rewrite lookup_drop, Nat.add_0_r in H. done. }
  assert (rest = drop (S i) devs) as Hrest.
  { pose proof (f_equal (drop 1) Hl) as H.
    rewrite drop_drop, Nat.add_1_r in H. done. }
  assert (has_type devs type i = String.eqb (dev_type d) type) as Hi.
  { unfold has_type. by rewrite Hd. }
  cbn [find_device_loop List.length seq List.filter]. rewrite Hi.
  destruct (String.eqb (dev_type d) type).
  - split; [lia|]. do 3 f_equal. lia.
  - specialize (IH (S i) Hrest).
    destruct (find_device_loop rest (S i) type) as [j|]; [|exact IH].
    destruct IH as [Hj IH]. split; [lia|]. rewrite IH. do 3 f_equal. lia.
Qed.

Lemma for_each_device_loop ctx type : forall (n : nat) dev,
  let start := match dev with None => 0%nat | Some p => S p end in
  (forall p, dev = Some p -> (p < List.length (devices ctx))%nat) ->
  (List.length (devices ctx) - start < n)%nat ->
  for_each_device_of_type n ctx dev type
  = Ret (List.filter (has_type (devices ctx) type)
           (seq start (List.length (devices ctx) - start))).
Proof.
  induction n as [|n IH]; intros dev start Hdev Hn; [lia|].
  cbn [for_each_device_of_type].
  assert (topology_find_device_by_type ctx dev type
          = Ret (find_device_loop (drop start (devices ctx)) start type)) as ->.
  { unfold topology_find_device_by_type, find_device_by_type, start.
    destruct dev as [p|]; [|done].
    unfold deref_device.
    destruct (lookup_lt_is_Some_2 (devices ctx) p (Hdev p eq_refl)) as [d ->].
    done. }
  cbn [mbind res_bind].
  pose proof (find_device_loop_spec (devices ctx) type
                (drop start (devices ctx)) start eq_refl) as Hspec.
  rewrite length_drop in Hspec.
  destruct (find_device_loop (drop start (devices ctx)) start type) as [j|].
  - destruct Hspec as [Hj Hspec].
    rewrite (IH (Some j)); [|intros p [= <-]; lia|lia].
    cbn [mbind res_bind]. rewrite Hspec. do 4 f_equal. lia.
  - by rewrite Hspec.
Qed.

(** The loop [topology_for_each_device_of_type] ends and visits, in the
    order of the list of the context and once each, exactly the devices
    whose type is the one asked for. *)
Theorem for_each_device_of_type_all (ctx : topo_context) (type : string)
    (n : nat) :
  (List.length (devices ctx) < n)%nat ->
  exists l,
    for_each_device_of_type n ctx None type = Ret l
    /\ NoDup l
    /\ (forall (i j a b : nat),
          l !! i = Some a -> l !! j = Some b -> (i < j)%nat -> (a < b)%nat)
    /\ forall i, i ∈ l <->
         exists d, devices ctx !! i = Some d /\ dev_type d = type.
Proof.
  intros Hn.
  exists (List.filter (has_type (devices ctx) type)
            (seq 0 (List.length (devices ctx)))).
  split.
  { rewrite (for_each_device_loop ctx type n None); [|done|cbn; lia].
    cbn. by rewrite Nat.sub_0_r. }
  assert (Hmem : forall i,
            i ∈ List.filter (has_type (devices ctx) type)
                  (seq 0 (List.length (devices ctx)))
            <-> exists d, devices ctx !! i = Some d /\ dev_type d = type).
  { intros i. rewrite list_elem_of_In, filter_In, <- list_elem_of_In.
    rewrite elem_of_seq. unfold has_type. split.
    - intros [_ H]. destruct (devices ctx !! i) as [d|]; [|done].
      exists d. split; [done|]. by apply String.eqb_eq.
    - intros (d & Hd & Ht). split; [apply lookup_lt_Some in Hd; lia|].
      rewrite Hd. by apply String.eqb_eq. }
  assert (Hs : forall k a (i j x y : nat),
            List.filter (has_type (devices ctx) type) (seq a k) !! i = Some x ->
            List.filter (has_type (devices ctx) type) (seq a k) !! j = Some y ->
            (i < j)%nat -> (x < y)%nat).
  { induction k as [|k IH]; intros a i j x y Hi Hj Hij; [done|].
    cbn [seq List.filter] in Hi, Hj.
    destruct (has_type (devices ctx) type a); [|by eapply IH].
    destruct j as [|j]; [lia|]. cbn in Hj.
    destruct i as [|i]; [|cbn in Hi; eapply IH; [done|done|lia]].
    injection Hi as <-.
    apply list_elem_of_lookup_2, list_elem_of_In, filter_In in Hj as [Hy _].
    apply in_seq in Hy. lia. }
  split; [|split; [apply Hs|exact Hmem]].
  apply NoDup_ListNoDup, List.NoDup_filter, seq_NoDup.
Qed.

Lemma for_each_device_of_type_all_witness :
  exists ctx l,
    new_context Fixtures.shared_l2 "/sys" 8 = Ret (Some ctx)
    /\ for_each_device_of_type 10 ctx None "cache" = Ret l /\ NoDup l.
Proof.
  assert (exists ctx, new_context Fixtures.shared_l2 "/sys" 8 = Ret (Some ctx)
            /\ (List.length (devices ctx) < 10)%nat) as (ctx & Hnew & Hlen).
  { eexists. split; [vm_compute; reflexivity|]. vm_compute. lia. }
  destruct (for_each_device_of_type_all ctx "cache" 10 Hlen)
    as (l & Hrun & Hnd & _).
  exists ctx, l. split; [exact Hnew|]. split; [exact Hrun|exact Hnd].
Defined.

(** ** Every online CPU of a node gets a thread *)


Section threads.
Variable fs : sysfs.





End threads.



(** ** The value of an attribute *)

Lemma attr_value_spec content :
  let value := buf_remove_newline (c_str (first_line content)) in
  ~ In "010"%char (list_ascii_of_string value)
  /\ ~ In "000"%char (list_ascii_of_string value)
  /\ (content = value
      \/ exists c rest,
           (c = "010"%char \/ c = "000"%char)
           /\ content = (value +:+ String c rest)%string).
Proof.
  induction content as [|c content (IH1 & IH2 & IH3)]; cbn zeta in *.
  - split; [by intros []|]. split; [by intros []|]. by left.
  - cbn [first_line].
    destruct (Ascii.eqb_spec c "010"%char) as [->|Hlf].
    { cbn. split; [by intros []|]. split; [by intros []|].
      right. exists "010"%char, content. split; [by left|done]. }
    cbn [c_str].
    destruct (Ascii.eqb_spec c "000"%char) as [->|Hnul].
    { cbn. split; [by intros []|]. split; [by intros []|].
      right. exists "000"%char, content. split; [by right|done]. }
    cbn [buf_remove_newline].
    destruct (Ascii.eqb_spec c "010"%char) as [|_]; [done|].
    split; [cbn; intros [E|E]; [congruence|done]|].
    split; [cbn; intros [E|E]; [congruence|done]|].
    destruct IH3 as [IH3|(c' & rest & Hc' & IH3)].
    + left. by rewrite <- IH3.
    + right. exists c', rest. split; [done|].
      change (String c content
              = String c (buf_remove_newline (c_str (first_line content))
                          +:+ String c' rest)).
      by rewrite <- IH3.
Qed.

(** The value of an attribute is the beginning of its file, which is
    not empty, up to the first newline or NUL byte. *)
Theorem sysfs_attr_first_line (fs : sysfs) (dir name value : string) :
  sysfs_get_attr_value fs dir name = Some value ->
  exists content,
    fs (dir +:+ "/" +:+ name) = Some (File content)
    /\ content <> ""%string
    /\ ~ In "010"%char (list_ascii_of_string value)
    /\ ~ In "000"%char (list_ascii_of_string value)
    /\ (content = value
        \/ exists c rest,
             (c = "010"%char \/ c = "000"%char)
             /\ content = (value +:+ String c rest)%string).
Proof.
  unfold sysfs_get_attr_value, getline.
  destruct (fs (dir +:+ "/" +:+ name)) as [[content|]|]; [|done..].
  destruct (String.eqb_spec content "") as [|Hne]; [done|].
  intros [= <-]. exists content. split; [done|]. split; [done|].
  apply attr_value_spec.
Qed.

Lemma sysfs_attr_first_line_witness :
  exists content,
    Fixtures.shared_l2 ("/sys/devices/system/cpu/cpu0/cache/index0"
                        +:+ "/" +:+ "size") = Some (File content)
    /\ content <> ""%string
    /\ ~ In "010"%char (list_ascii_of_string "32K")
    /\ ~ In "000"%char (list_ascii_of_string "32K")
    /\ (content = "32K"%string
        \/ exists c rest,
             (c = "010"%char \/ c = "000"%char)
             /\ content = ("32K" +:+ String c rest)%string).
Proof.
  apply (sysfs_attr_first_line Fixtures.shared_l2
           "/sys/devices/system/cpu/cpu0/cache/index0" "size" "32K").
  vm_compute. reflexivity.
Defined.
